(** * Modbus master client: PDU codec, slave sets, ADU queue, RTU timing

    A shallow embedding of the parts of the Modbus library (PDU.cpp, PDU.tpp,
    Slaves.cpp, ADUQueue.tpp, ADURTU.cpp, ModbusMaster.cpp/.tpp and
    ModbusRTUMaster.cpp) that carry its register codec, its response
    validation, its slave-set iteration and its request scheduling.

    Conventions.  Unsigned counters and indices ([uint8_t], [uint16_t] used as
    sizes) are [nat], with the truncation of the C type written out ([u8],
    [u16]) wherever the source stores a wider value into a narrower variable.
    Byte values and 32-bit quantities (time stamps, delays) are [Z].  Arrays
    are lists read with [rd] and updated in place with stdpp's [<[i:=x]>]. *)

From stdpp Require Import base numbers list.
From Stdlib Require Import ZArith Lia Sorted.

(** ** Machine integers *)

Definition u8 (n : nat) : nat := n mod 256.
Definition u16 (n : nat) : nat := Z.to_nat (Z.of_nat n mod 65536)%Z.
Definition to_u32 (z : Z) : Z := (z mod 4294967296)%Z.
Definition UINT32_MAX : Z := 4294967295%Z.

(** Arduino's [lowByte] and [highByte] macros on a 16-bit value. *)
Definition lowByte (w : Z) : Z := Z.land w 255.
Definition highByte (w : Z) : Z := Z.land (Z.shiftr w 8) 255.

Definition is_byte (b : Z) : Prop := (0 <= b < 256)%Z.

(** ** Arrays and loops *)

(** [rd l i] is [l[i]]. *)
Definition rd (l : list Z) (i : nat) : Z := default 0%Z (l !! i).

(** [for_from i n body s] runs [body i], [body (i+1)], ... [n] times:
    [for (k = i; k < i + n; ++k) s = body k s]. *)
Fixpoint for_from {St : Type} (i n : nat) (body : nat -> St -> St) (s : St) : St :=
  match n with
  | O => s
  | S n' => for_from (S i) n' body (body i s)
  end.

Definition for_loop {St : Type} (n : nat) (body : nat -> St -> St) (s : St) : St :=
  for_from 0 n body s.

(** [memcpy(dest + doff, src + soff, n)]. *)
Definition memcpy (dest : list Z) (doff : nat) (src : list Z) (soff n : nat) : list Z :=
  for_loop n (fun k d => <[doff + k := rd src (soff + k)]> d) dest.

(** [memset(dest + off, v, n)]. *)
Definition memset (dest : list Z) (off : nat) (v : Z) (n : nat) : list Z :=
  for_loop n (fun k d => <[off + k := v]> d) dest.

(** ** Big-endian register packing (PDU.cpp) *)

Section Codec.

(** The global flag [isBigEndian] of ModbusUtility.cpp. *)
Variable isBigEndian : bool.

(** [const uint8_t paddedSize = (elemSize % 2 == 0) ? elemSize : elemSize + 1;] *)
Definition paddedSizeOf (elemSize : nat) : nat :=
  u8 (if elemSize mod 2 =? 0 then elemSize else elemSize + 1).

(** [PDU::toBigEndian]. *)
Definition toBigEndian (src : Z) : Z :=
  if isBigEndian then src
  else Z.lor (Z.shiftl (Z.land src 255) 8) (Z.land (Z.shiftr src 8) 255).

(** [PDU::toRegisterCount]. *)
Definition toRegisterCount (byteCount : nat) : nat := u8 ((byteCount + 1) / 2).

(** One pass of the little-endian inner loop of
    [convertToBigEndianRegisters] for element [i] and pair index [j]. *)
Definition pack_pair (s : list Z) (elemSize paddedSize i j : nat) (d : list Z) : list Z :=
  let lo := if j <? elemSize then rd s (i * elemSize + j) else 0%Z in
  let hi := if j + 1 <? elemSize then rd s (i * elemSize + (j + 1)) else 0%Z in
  <[i * paddedSize + (j + 1) := lo]> (<[i * paddedSize + j := hi]> d).

(** [PDU::convertToBigEndianRegisters].  A null pointer is [None]; the
    result is the returned flag and the destination buffer afterwards. *)
Definition convertToBigEndianRegisters
    (src : option (list Z)) (elemCount elemSize : nat)
    (dest : option (list Z)) (destLen : nat) : bool * option (list Z) :=
  match src, dest with
  | Some s, Some d =>
    if elemSize =? 0 then (false, dest) else
    let paddedSize := paddedSizeOf elemSize in
    let paddedTotal := u16 (elemCount * paddedSize) in
    if destLen <? paddedTotal then (false, dest) else
    if isBigEndian then
      (true, Some (for_loop elemCount (fun i d =>
         let d := memcpy d (i * paddedSize) s (i * elemSize) elemSize in
         if elemSize <? paddedSize
         then <[i * paddedSize + paddedSize - 1 := 0%Z]> d else d) d))
    else
      (true, Some (for_loop elemCount (fun i d =>
         for_loop ((paddedSize + 1) / 2)
           (fun k d => pack_pair s elemSize paddedSize i (2 * k) d) d) d))
  | _, _ => (false, dest)
  end.

(** One pass of the inner loop of [convertFromBigEndianRegistersInPlace]:
    reads the pair at [src[j]], [src[j+1]] and stores it into [temp]. *)
Definition unpack_pair (b : list Z) (elemSize paddedSize i j : nat) (temp : list Z) : list Z :=
  let hi := rd b (i * paddedSize + j) in
  let lo := rd b (i * paddedSize + (j + 1)) in
  let reg := Z.lor (Z.shiftl hi 8) lo in
  let loByte := if isBigEndian then lo else lowByte reg in
  let hiByte := if isBigEndian then hi else highByte reg in
  let temp := if j <? elemSize then <[j := loByte]> temp else temp in
  if j + 1 <? elemSize then <[j + 1 := hiByte]> temp else temp.

(** [PDU::convertFromBigEndianRegistersInPlace], a member function: it
    reads [_PDUSize] and, on success, stores a new [_dataLen].  The result
    is the returned flag, the buffer afterwards and the new [_dataLen]
    ([None] when [_dataLen] is left alone). *)
Definition convertFromBigEndianRegistersInPlace
    (PDUSize : nat) (buffer : option (list Z)) (elemCount elemSize : nat)
    : bool * option (list Z) * option nat :=
  match buffer with
  | None => (false, buffer, None)
  | Some b =>
    if elemSize =? 0 then (false, buffer, None) else
    let paddedSize := paddedSizeOf elemSize in
    let srcTotal := u16 (elemCount * paddedSize) in
    let destTotal := u16 (elemCount * elemSize) in
    if (PDUSize <? srcTotal) || (PDUSize <? destTotal) then (false, buffer, None) else
    if 32 <? elemSize then (false, buffer, None) else
    let r := for_loop elemCount (fun i (st : list Z * list Z) =>
               let temp := for_loop ((paddedSize + 1) / 2)
                             (fun k t => unpack_pair st.1 elemSize paddedSize i (2 * k) t) st.2 in
               (memcpy st.1 (i * elemSize) temp 0 elemSize, temp))
             (b, replicate 32 0%Z) in
    (true, Some r.1, Some (u8 (elemCount * elemSize)))
  end.

End Codec.

(** The in-memory bytes of an [n]-byte unsigned value [v] on the host. *)
Fixpoint le_bytes (n : nat) (v : Z) : list Z :=
  match n with
  | O => []
  | S n' => (v mod 256)%Z :: le_bytes n' (v / 256)%Z
  end.

Definition host_bytes (isBigEndian : bool) (n : nat) (v : Z) : list Z :=
  if isBigEndian then rev (le_bytes n v) else le_bytes n v.

(** The 16-bit registers a slave reads from a packed byte sequence: each
    register is transmitted high byte first. *)
Fixpoint registers_of (wire : list Z) : list Z :=
  match wire with
  | hi :: lo :: rest => (hi * 256 + lo)%Z :: registers_of rest
  | _ => []
  end.


(** ** Constants of ModbusDef.h and Slaves.h *)

Definition MB_FC_READ_COILS : Z := 0x01.
Definition MB_FC_READ_DISCRETE_INPUTS : Z := 0x02.
Definition MB_FC_READ_HOLDING_REGISTERS : Z := 0x03.
Definition MB_FC_READ_INPUT_REGISTERS : Z := 0x04.
Definition MB_FC_WRITE_SINGLE_COIL : Z := 0x05.
Definition MB_FC_WRITE_SINGLE_REGISTER : Z := 0x06.
Definition MB_FC_READ_EXCEPTION_STATUS : Z := 0x07.
Definition MB_FC_DIAGNOSTICS : Z := 0x08.
Definition MB_FC_WRITE_MULTIPLE_COILS : Z := 0x0F.
Definition MB_FC_WRITE_MULTIPLE_REGISTERS : Z := 0x10.
Definition MB_FC_MASK_WRITE_REGISTER : Z := 0x16.
Definition MB_FC_READ_AND_WRITE_REGISTERS : Z := 0x17.

Definition MB_EX_SUCCESS : Z := 0.
Definition MB_EX_ILLEGAL_DATA_ADDRESS : Z := 2.
Definition MB_EX_LIB_TOO_MANY_DATA : Z := 12.
Definition MB_EX_LIB_TOO_FEW_DATA : Z := 13.
Definition MB_EX_LIB_INVALID_SLAVE : Z := 17.
Definition MB_EX_LIB_INVALID_FUNCTION : Z := 18.
Definition MB_EX_LIB_INVALID_SUB_FUNCTION : Z := 19.
Definition MB_EX_LIB_INVALID_ADDRESS : Z := 20.
Definition MB_EX_LIB_INVALID_DATA : Z := 21.
Definition MB_EX_LIB_INVALID_BYTE_LENGTH : Z := 23.
Definition MB_EX_LIB_NOT_SUPPORTED : Z := 28.
Definition MB_EX_LIB_QUEUE_FULL : Z := 29.
Definition MB_EX_LIB_NO_MORE_FREE_ADU : Z := 32.
Definition MB_EX_LIB_BUFFER_IS_TOO_SMALL : Z := 33.

Definition MB_MAX_READ_COILS : nat := 2000.
Definition MB_MAX_READ_REGISTERS : nat := 125.
Definition MB_MAX_WRITE_READ_REGISTERS : nat := 121.
Definition MB_ADU_RTU_HEADER_LEN : nat := 1.
Definition MB_ADU_RTU_CRC_LEN : nat := 2.
Definition MB_PDU_MAX_RESPONSE_LEN : nat := 7.
Definition MB_MAX_SLAVE_ID : nat := 247.

Definition SLAVE_NULL : nat := 0xFD.
Definition SLAVE_EOF : nat := 0xFE.
Definition SLAVE_BOF : nat := 0xFF.

(** ** The PDU object (PDU.h) *)

(** A [modbusCallback]: an empty callback object is [None], a callback bound
    to the user function number [f] is [Some f].  The [Callback] class itself
    belongs to another library. *)
Definition modbusCallback : Type := option nat.

Definition cb_valid (cb : modbusCallback) : bool :=
  match cb with Some _ => true | None => false end.

Record PDU : Type := mkPDU {
  _callback : modbusCallback;
  _TXPDUbuffer : list Z;
  _RXPDUbuffer : list Z;
  _TXPDUbufferLen : nat;
  _PDUresponseHead : list Z;
  _dataBegin : nat;
  _dataLen : nat;
  _err : Z;
  _expectedResponseLen : nat;
  _elemSize : nat;
  _used : bool;
  _PDUSize : nat;
  _queuedTime : Z;
  _delayToSend : Z;
  _slave : nat
}.

(** Field updates, one per member the code assigns. *)
Definition set_callback (v : modbusCallback) (p : PDU) : PDU :=
  mkPDU v (_TXPDUbuffer p) (_RXPDUbuffer p) (_TXPDUbufferLen p) (_PDUresponseHead p)
    (_dataBegin p) (_dataLen p) (_err p) (_expectedResponseLen p) (_elemSize p) (_used p)
    (_PDUSize p) (_queuedTime p) (_delayToSend p) (_slave p).
Definition set_TX (v : list Z) (p : PDU) : PDU :=
  mkPDU (_callback p) v (_RXPDUbuffer p) (_TXPDUbufferLen p) (_PDUresponseHead p)
    (_dataBegin p) (_dataLen p) (_err p) (_expectedResponseLen p) (_elemSize p) (_used p)
    (_PDUSize p) (_queuedTime p) (_delayToSend p) (_slave p).
Definition set_RX (v : list Z) (p : PDU) : PDU :=
  mkPDU (_callback p) (_TXPDUbuffer p) v (_TXPDUbufferLen p) (_PDUresponseHead p)
    (_dataBegin p) (_dataLen p) (_err p) (_expectedResponseLen p) (_elemSize p) (_used p)
    (_PDUSize p) (_queuedTime p) (_delayToSend p) (_slave p).
Definition set_TXLen (v : nat) (p : PDU) : PDU :=
  mkPDU (_callback p) (_TXPDUbuffer p) (_RXPDUbuffer p) v (_PDUresponseHead p)
    (_dataBegin p) (_dataLen p) (_err p) (_expectedResponseLen p) (_elemSize p) (_used p)
    (_PDUSize p) (_queuedTime p) (_delayToSend p) (_slave p).
Definition set_head (v : list Z) (p : PDU) : PDU :=
  mkPDU (_callback p) (_TXPDUbuffer p) (_RXPDUbuffer p) (_TXPDUbufferLen p) v
    (_dataBegin p) (_dataLen p) (_err p) (_expectedResponseLen p) (_elemSize p) (_used p)
    (_PDUSize p) (_queuedTime p) (_delayToSend p) (_slave p).
Definition set_dataBegin (v : nat) (p : PDU) : PDU :=
  mkPDU (_callback p) (_TXPDUbuffer p) (_RXPDUbuffer p) (_TXPDUbufferLen p) (_PDUresponseHead p)
    v (_dataLen p) (_err p) (_expectedResponseLen p) (_elemSize p) (_used p)
    (_PDUSize p) (_queuedTime p) (_delayToSend p) (_slave p).
Definition set_dataLen (v : nat) (p : PDU) : PDU :=
  mkPDU (_callback p) (_TXPDUbuffer p) (_RXPDUbuffer p) (_TXPDUbufferLen p) (_PDUresponseHead p)
    (_dataBegin p) v (_err p) (_expectedResponseLen p) (_elemSize p) (_used p)
    (_PDUSize p) (_queuedTime p) (_delayToSend p) (_slave p).
Definition set_err (v : Z) (p : PDU) : PDU :=
  mkPDU (_callback p) (_TXPDUbuffer p) (_RXPDUbuffer p) (_TXPDUbufferLen p) (_PDUresponseHead p)
    (_dataBegin p) (_dataLen p) v (_expectedResponseLen p) (_elemSize p) (_used p)
    (_PDUSize p) (_queuedTime p) (_delayToSend p) (_slave p).
Definition set_expectedResponseLen (v : nat) (p : PDU) : PDU :=
  mkPDU (_callback p) (_TXPDUbuffer p) (_RXPDUbuffer p) (_TXPDUbufferLen p) (_PDUresponseHead p)
    (_dataBegin p) (_dataLen p) (_err p) v (_elemSize p) (_used p)
    (_PDUSize p) (_queuedTime p) (_delayToSend p) (_slave p).
Definition set_elemSize (v : nat) (p : PDU) : PDU :=
  mkPDU (_callback p) (_TXPDUbuffer p) (_RXPDUbuffer p) (_TXPDUbufferLen p) (_PDUresponseHead p)
    (_dataBegin p) (_dataLen p) (_err p) (_expectedResponseLen p) v (_used p)
    (_PDUSize p) (_queuedTime p) (_delayToSend p) (_slave p).
Definition set_used (v : bool) (p : PDU) : PDU :=
  mkPDU (_callback p) (_TXPDUbuffer p) (_RXPDUbuffer p) (_TXPDUbufferLen p) (_PDUresponseHead p)
    (_dataBegin p) (_dataLen p) (_err p) (_expectedResponseLen p) (_elemSize p) v
    (_PDUSize p) (_queuedTime p) (_delayToSend p) (_slave p).
Definition set_queuedTime (v : Z) (p : PDU) : PDU :=
  mkPDU (_callback p) (_TXPDUbuffer p) (_RXPDUbuffer p) (_TXPDUbufferLen p) (_PDUresponseHead p)
    (_dataBegin p) (_dataLen p) (_err p) (_expectedResponseLen p) (_elemSize p) (_used p)
    (_PDUSize p) v (_delayToSend p) (_slave p).
Definition set_delayToSend (v : Z) (p : PDU) : PDU :=
  mkPDU (_callback p) (_TXPDUbuffer p) (_RXPDUbuffer p) (_TXPDUbufferLen p) (_PDUresponseHead p)
    (_dataBegin p) (_dataLen p) (_err p) (_expectedResponseLen p) (_elemSize p) (_used p)
    (_PDUSize p) (_queuedTime p) v (_slave p).
Definition set_slave (v : nat) (p : PDU) : PDU :=
  mkPDU (_callback p) (_TXPDUbuffer p) (_RXPDUbuffer p) (_TXPDUbufferLen p) (_PDUresponseHead p)
    (_dataBegin p) (_dataLen p) (_err p) (_expectedResponseLen p) (_elemSize p) (_used p)
    (_PDUSize p) (_queuedTime p) (_delayToSend p) v.

(** [PDU::PDU()]: every member at its default initialiser; the three buffer
    pointers are null (no bytes behind them). *)
Definition PDU_default : PDU :=
  mkPDU None [] [] 0 [] 0 0 0%Z 0 0 false 0 0%Z 0%Z 0.

(** [PDU::PDU(uint8_t slave)]. *)
Definition PDU_of_slave (slave : nat) : PDU := set_slave slave PDU_default.

(** [PDU::clear]. *)
Definition PDU_clear (p : PDU) : PDU :=
  set_slave 0 (set_queuedTime 0%Z (set_delayToSend 0%Z (set_used false (set_elemSize 0
    (set_expectedResponseLen 0 (set_err 0%Z (set_dataLen 0 (set_dataBegin 0
      (set_TXLen 0 (set_callback None p)))))))))).

(** [PDU::getSlaveId] of the base class. *)
Definition PDU_getSlaveId (p : PDU) : nat := 0xFF.

(** [PDU::getData<T>(ix)], with [sizeofT = sizeof(T)] and [size_t] of
    [size_bits] bits.  The value is returned as the [sizeofT] bytes of its
    object representation; [None] stands for an access outside the bytes
    behind [_RXPDUbuffer]. *)
Definition read_bytes (l : list Z) (off n : nat) : option (list Z) :=
  if off + n <=? length l then Some (take n (drop off l)) else None.

Definition getData (size_bits : Z) (sizeofT : nat) (p : PDU) (ix : nat) : option (list Z) :=
  let size_t (z : Z) : Z := (z mod 2 ^ size_bits)%Z in
  let dummy := replicate sizeofT 0%Z in
  let offset : Z :=
    ((Z.of_nat (_dataBegin p) + size_t (Z.of_nat ix * Z.of_nat sizeofT)) mod 65536)%Z in
  if (size_t (offset + Z.of_nat sizeofT) >? Z.of_nat (_PDUSize p))%Z
     || (Z.of_nat ix >=? size_t (Z.of_nat (_dataLen p) / Z.of_nat sizeofT))%Z
  then Some dummy
  else read_bytes (_RXPDUbuffer p) (_dataBegin p + ix * sizeofT) sizeofT.

(** ** Events and the effect monad *)

(** The only effect the properties observe is a call of a user callback: which
    function was called, the state of the PDU it was handed, and what the
    virtual [getSlaveId] answers on that object. *)
Inductive event : Type :=
| EvCallback (f : nat) (view : PDU) (slaveId : nat).

(** [cb(pdu)] for a [modbusCallback] object [cb]. *)
Definition call (cb : modbusCallback) (view : PDU) (slaveId : nat) : list event :=
  match cb with
  | Some f => [EvCallback f view slaveId]
  | None => []
  end.

(** A computation over a world [W] yields the events it produced and, when
    it returns, its result and the new world; [None] is a computation that
    does not return. *)
Definition M (W A : Type) : Type := W -> list event * option (A * W).

Definition mret {W A} (a : A) : M W A := fun w => ([], Some (a, w)).

Definition mbind {W A B} (m : M W A) (k : A -> M W B) : M W B :=
  fun w =>
    match m w with
    | (t1, None) => (t1, None)
    | (t1, Some (a, w1)) =>
      match k a w1 with
      | (t2, r) => (t1 ++ t2, r)
      end
    end.

Definition emit {W} (t : list event) : M W unit := fun w => (t, Some (tt, w)).
Definition gets {W A} (f : W -> A) : M W A := fun w => ([], Some (f w, w)).
Definition modify {W} (f : W -> W) : M W unit := fun w => ([], Some (tt, f w)).
Definition diverge {W A} : M W A := fun _ => ([], None).

Notation "x <- m ;; k" := (mbind m (fun x => k))
  (at level 100, m at next level, right associativity).
Notation "m ;;; k" := (mbind m (fun _ => k))
  (at level 100, right associativity).

(** ** Request builders (PDU.cpp, PDU.tpp) *)

(** [_TXPDUbuffer[i] = _PDUresponseHead[i] = v;] *)
Definition wr2 (i : nat) (v : Z) (p : PDU) : PDU :=
  set_TX (<[i := v]> (_TXPDUbuffer p)) (set_head (<[i := v]> (_PDUresponseHead p)) p).
(** [_TXPDUbuffer[i] = v;] *)
Definition wrTX (i : nat) (v : Z) (p : PDU) : PDU :=
  set_TX (<[i := v]> (_TXPDUbuffer p)) p.
(** [_PDUresponseHead[i] = v;] *)
Definition wrHead (i : nat) (v : Z) (p : PDU) : PDU :=
  set_head (<[i := v]> (_PDUresponseHead p)) p.

(** [return _err = e;] *)
Definition fail_with (e : Z) (p : PDU) : Z * PDU := (e, set_err e p).

(** [PDU::createReadState]. *)
Definition createReadState (fn : Z) (addr : Z) (count : nat)
    (cb : modbusCallback) (p : PDU) : Z * PDU :=
  let p := set_callback cb p in
  if count =? 0 then fail_with MB_EX_LIB_TOO_FEW_DATA p else
  if MB_MAX_READ_COILS <? count then fail_with MB_EX_LIB_TOO_MANY_DATA p else
  if (_PDUSize p <? 5) || (_PDUSize p <? 2 + (count + 7) / 8)
  then fail_with MB_EX_LIB_BUFFER_IS_TOO_SMALL p else
  let p := wr2 0 fn p in
  let p := wrTX 1 (highByte addr) p in
  let p := wrTX 2 (lowByte addr) p in
  let p := wrTX 3 (highByte (Z.of_nat count)) p in
  let p := wrTX 4 (lowByte (Z.of_nat count)) p in
  let p := set_TXLen 5 p in
  let p := wrHead 1 (Z.of_nat (u8 ((count + 7) / 8))) p in
  let p := set_expectedResponseLen (u8 (2 + (count + 7) / 8)) p in
  (MB_EX_SUCCESS, p).

(** [PDU::createReadRegisters<T>], with [sizeofT = sizeof(T)]. *)
Definition createReadRegisters (sizeofT : nat) (fn : Z) (addr : Z) (count : nat)
    (cb : modbusCallback) (p : PDU) : Z * PDU :=
  let p := set_callback cb p in
  let p := set_elemSize (u8 sizeofT) p in
  if count =? 0 then fail_with MB_EX_LIB_TOO_FEW_DATA p else
  let regCount := u8 (count * toRegisterCount (_elemSize p)) in
  let byteCount := u16 (regCount * 2) in
  if MB_MAX_READ_REGISTERS <? regCount then fail_with MB_EX_LIB_TOO_MANY_DATA p else
  if (_PDUSize p <? 5) || (_PDUSize p <? 2 + byteCount)
  then fail_with MB_EX_LIB_BUFFER_IS_TOO_SMALL p else
  let p := wr2 0 fn p in
  let p := wrTX 1 (highByte addr) p in
  let p := wrTX 2 (lowByte addr) p in
  let p := wrTX 3 (highByte (Z.of_nat regCount)) p in
  let p := wrTX 4 (lowByte (Z.of_nat regCount)) p in
  let p := set_TXLen 5 p in
  let p := wrHead 1 (Z.of_nat (u8 byteCount)) p in
  let p := set_expectedResponseLen (u8 (2 + byteCount)) p in
  (MB_EX_SUCCESS, p).

(** [PDU::createReadExceptionStatus]. *)
Definition createReadExceptionStatus (cb : modbusCallback) (p : PDU) : Z * PDU :=
  let p := set_callback cb p in
  if _PDUSize p <? 2 then fail_with MB_EX_LIB_BUFFER_IS_TOO_SMALL p else
  let p := wr2 0 MB_FC_READ_EXCEPTION_STATUS p in
  let p := set_TXLen 1 p in
  let p := set_expectedResponseLen 2 p in
  (MB_EX_SUCCESS, p).

(** [PDU::createReadWriteMultipleRegisters<READ_T, WRITE_T>], with the two
    element sizes as parameters and [writeData] as the bytes behind the
    pointer ([None] for a null pointer). *)
Definition createReadWriteMultipleRegisters (isBigEndian : bool) (sizeofR sizeofW : nat)
    (readAddr : Z) (readCount : nat) (writeAddr : Z) (writeData : option (list Z))
    (writeCount : nat) (cb : modbusCallback) (p : PDU) : Z * PDU :=
  let p := set_callback cb p in
  let p := set_elemSize (u8 sizeofR) p in
  let writeElemSize := u8 sizeofW in
  let paddedSize := paddedSizeOf writeElemSize in
  let totalWriteBytes := u16 (writeCount * paddedSize) in
  let writeRegCount := totalWriteBytes / 2 in
  let readByteCount := u16 (readCount * _elemSize p) in
  let totalLen := u16 (10 + totalWriteBytes) in
  if (readCount =? 0) || (writeCount =? 0) then fail_with MB_EX_LIB_TOO_FEW_DATA p else
  if MB_MAX_READ_REGISTERS <? readCount then fail_with MB_EX_LIB_TOO_MANY_DATA p else
  if MB_MAX_WRITE_READ_REGISTERS <? writeRegCount then fail_with MB_EX_LIB_TOO_MANY_DATA p else
  if _PDUSize p <? totalLen then fail_with MB_EX_LIB_BUFFER_IS_TOO_SMALL p else
  let p := wr2 0 MB_FC_READ_AND_WRITE_REGISTERS p in
  let p := wrTX 1 (highByte readAddr) p in
  let p := wrTX 2 (lowByte readAddr) p in
  let p := wrTX 3 (highByte (Z.of_nat readCount)) p in
  let p := wrTX 4 (lowByte (Z.of_nat readCount)) p in
  let p := wrTX 5 (highByte writeAddr) p in
  let p := wrTX 6 (lowByte writeAddr) p in
  let p := wrTX 7 (highByte (Z.of_nat writeRegCount)) p in
  let p := wrTX 8 (lowByte (Z.of_nat writeRegCount)) p in
  let p := wrTX 9 (Z.of_nat (u8 totalWriteBytes)) p in
  let p := wrHead 1 (Z.of_nat (u8 readByteCount)) p in
  match convertToBigEndianRegisters isBigEndian writeData (u8 writeCount) writeElemSize
          (Some (drop 10 (_TXPDUbuffer p))) (u16 (_PDUSize p - 10)) with
  | (true, Some dst) =>
    let p := set_TX (take 10 (_TXPDUbuffer p) ++ dst) p in
    let p := set_TXLen (u8 totalLen) p in
    let p := set_expectedResponseLen (u8 (2 + readByteCount)) p in
    (MB_EX_SUCCESS, p)
  | _ => fail_with MB_EX_LIB_INVALID_DATA p
  end.

(** ** Response validation (PDU.cpp) *)

Section PDUMethods.

(** A PDU is reached through a handle [H] into a world [W] (the object
    behind a [PDU*]); the three virtual member functions are given by the
    dynamic type of the object. *)
Context {W H : Type}.
Variable get : H -> W -> PDU.
Variable put : H -> PDU -> W -> W.
Variable getSlaveId : H -> W -> nat.
Variable clear : H -> M W unit.
Variable repeatIfNeeded : H -> M W bool.
Variable isBigEndian : bool.

Definition on_pdu (this : H) (f : PDU -> PDU) : M W unit :=
  modify (fun w => put this (f (get this w)) w).

(** The call of the stored callback on this object. *)
Definition call_callback (this : H) : M W unit :=
  fun w => emit (call (_callback (get this w)) (get this w) (getSlaveId this w)) w.

(** [PDU::callCallback]. *)
Definition callCallback (this : H) : M W unit :=
  valid <- gets (fun w => cb_valid (_callback (get this w))) ;;
  if valid : bool then
    call_callback this ;;;
    again <- repeatIfNeeded this ;;
    if negb again then clear this else mret tt
  else mret tt.

(** [callCallback(); return _err;] *)
Definition callCallback_return (this : H) : M W Z :=
  callCallback this ;;; gets (fun w => _err (get this w)).

(** The endian conversion step of [invoke] on
    [_RXPDUbuffer + _dataBegin]. *)
Definition convert_response (p : PDU) : PDU :=
  if (0 <? _elemSize p) && (_dataLen p mod 2 =? 0) then
    let elemCount := u8 (_dataLen p / _elemSize p) in
    match convertFromBigEndianRegistersInPlace isBigEndian (_PDUSize p)
            (Some (drop (_dataBegin p) (_RXPDUbuffer p))) elemCount (_elemSize p) with
    | (_, Some b, Some len) =>
      set_dataLen len (set_RX (take (_dataBegin p) (_RXPDUbuffer p) ++ b) p)
    | (_, Some b, None) => set_RX (take (_dataBegin p) (_RXPDUbuffer p) ++ b) p
    | _ => p
    end
  else p.

(** [PDU::invoke]. *)
Definition invoke (this : H) : M W Z :=
  p <- gets (get this) ;;
  let rx0 := rd (_RXPDUbuffer p) 0 in
  let rx1 := rd (_RXPDUbuffer p) 1 in
  let rx2 := rd (_RXPDUbuffer p) 2 in
  let rx3 := rd (_RXPDUbuffer p) 3 in
  let rx4 := rd (_RXPDUbuffer p) 4 in
  let rx5 := rd (_RXPDUbuffer p) 5 in
  let rx6 := rd (_RXPDUbuffer p) 6 in
  let hd0 := rd (_PDUresponseHead p) 0 in
  let hd1 := rd (_PDUresponseHead p) 1 in
  let hd2 := rd (_PDUresponseHead p) 2 in
  let hd3 := rd (_PDUresponseHead p) 3 in
  let hd4 := rd (_PDUresponseHead p) 4 in
  let hd5 := rd (_PDUresponseHead p) 5 in
  let hd6 := rd (_PDUresponseHead p) 6 in
  if negb (_err p =? 0)%Z then
    on_pdu this (fun p => set_dataLen 0 (set_dataBegin 0 p)) ;;;
    callCallback_return this
  else
  on_pdu this (set_err 0%Z) ;;;
  if (rx0 =? hd0 + 0x80)%Z then
    on_pdu this (fun p => set_dataLen 0 (set_dataBegin 0 (set_err (rx1) p))) ;;;
    callCallback_return this
  else if negb (rx0 =? hd0)%Z then
    on_pdu this (fun p => set_dataLen 0 (set_dataBegin 0
                           (set_err MB_EX_LIB_INVALID_FUNCTION p))) ;;;
    callCallback_return this
  else if (rx0 =? MB_FC_READ_COILS)%Z || (rx0 =? MB_FC_READ_DISCRETE_INPUTS)%Z
          || (rx0 =? MB_FC_READ_HOLDING_REGISTERS)%Z
          || (rx0 =? MB_FC_READ_INPUT_REGISTERS)%Z
          || (rx0 =? MB_FC_READ_AND_WRITE_REGISTERS)%Z then
    if negb (rx1 =? hd1)%Z then
      on_pdu this (set_err MB_EX_LIB_INVALID_BYTE_LENGTH) ;;;
      callCallback_return this
    else
      on_pdu this (fun p => convert_response
                              (set_dataLen (Z.to_nat (rx1)) (set_dataBegin 2 p))) ;;;
      callCallback_return this
  else if (rx0 =? MB_FC_WRITE_SINGLE_COIL)%Z
          || (rx0 =? MB_FC_WRITE_SINGLE_REGISTER)%Z then
    if negb (rx1 =? hd1)%Z || negb (rx2 =? hd2)%Z then
      on_pdu this (set_err MB_EX_LIB_INVALID_ADDRESS) ;;;
      callCallback_return this
    else if negb (rx3 =? hd3)%Z || negb (rx4 =? hd4)%Z then
      on_pdu this (set_err MB_EX_LIB_INVALID_DATA) ;;;
      callCallback_return this
    else callCallback_return this
  else if (rx0 =? MB_FC_READ_EXCEPTION_STATUS)%Z then
    on_pdu this (fun p => set_dataLen 1 (set_dataBegin 1 p)) ;;;
    callCallback_return this
  else if (rx0 =? MB_FC_DIAGNOSTICS)%Z then
    if negb (rx1 =? hd1)%Z || negb (rx2 =? hd2)%Z then
      on_pdu this (set_err MB_EX_LIB_INVALID_SUB_FUNCTION) ;;;
      callCallback_return this
    else
      on_pdu this (fun p => set_dataLen 2 (set_dataBegin 3 p)) ;;;
      callCallback_return this
  else if (rx0 =? MB_FC_WRITE_MULTIPLE_COILS)%Z
          || (rx0 =? MB_FC_WRITE_MULTIPLE_REGISTERS)%Z then
    if negb (rx1 =? hd1)%Z || negb (rx2 =? hd2)%Z then
      on_pdu this (set_err MB_EX_LIB_INVALID_ADDRESS) ;;;
      callCallback_return this
    else if negb (rx3 =? hd3)%Z || negb (rx4 =? hd4)%Z then
      on_pdu this (set_err MB_EX_LIB_INVALID_BYTE_LENGTH) ;;;
      callCallback_return this
    else callCallback_return this
  else if (rx0 =? MB_FC_MASK_WRITE_REGISTER)%Z then
    if negb (rx1 =? hd1)%Z || negb (rx2 =? hd2)%Z then
      on_pdu this (set_err MB_EX_LIB_INVALID_ADDRESS) ;;;
      callCallback_return this
    else if negb (rx3 =? hd3)%Z || negb (rx4 =? hd4)%Z
            || negb (rx5 =? hd5)%Z || negb (rx6 =? hd6)%Z then
      on_pdu this (set_err MB_EX_LIB_INVALID_DATA) ;;;
      callCallback_return this
    else callCallback_return this
  else
    on_pdu this (set_err MB_EX_LIB_NOT_SUPPORTED) ;;;
    callCallback_return this.

End PDUMethods.

(** ** Slave sets (Slaves.cpp) *)

Module Slaves.

Record t : Type := mk {
  _mask : list Z;
  _delay : Z;
  _repeatDelay : Z;
  _active : nat
}.

Definition with_mask (m : list Z) (s : t) : t :=
  mk m (_delay s) (_repeatDelay s) (_active s).
Definition with_active (a : nat) (s : t) : t :=
  mk (_mask s) (_delay s) (_repeatDelay s) a.

(** [Slaves::Slaves()]: the member initialisers of Slaves.h. *)
Definition new : t := mk (replicate 32 0%Z) 0%Z (-1)%Z SLAVE_BOF.

(** [b | (1 << k)] and [b & ~(1 << k)] on a mask byte; with [k <= 7] the
    result of either stays within eight bits. *)
Definition or_bit (b : Z) (k : nat) : Z := Z.lor b (Z.shiftl 1 (Z.of_nat k)).
Definition clear_bit (b : Z) (k : nat) : Z :=
  Z.land b (Z.lnot (Z.shiftl 1 (Z.of_nat k))).

Definition setRepeatDelay (repeatDelay : Z) (s : t) : t :=
  mk (_mask s) (_delay s) repeatDelay (_active s).
Definition getRepeatDelay (s : t) : Z := _repeatDelay s.
Definition getRepeat (s : t) : bool := (-1 <? _repeatDelay s)%Z.
Definition setDelay (delay : Z) (s : t) : t :=
  mk (_mask s) delay (_repeatDelay s) (_active s).
Definition getDelay (s : t) : Z := _delay s.

(** [Slaves::set(uint8_t slaveId)]. *)
Definition set (slaveId : nat) (s : t) : t :=
  if MB_MAX_SLAVE_ID <? slaveId then s
  else with_mask (<[slaveId / 8 := or_bit (rd (_mask s) (slaveId / 8)) (slaveId mod 8)]>
                    (_mask s)) s.

(** [Slaves::set(uint8_t begin, uint8_t end)]. *)
Definition set_range (begin end_ : nat) (s : t) : t :=
  if (end_ <? begin) || (MB_MAX_SLAVE_ID <? end_) then s else
  let startByte := begin / 8 in
  let endByte := end_ / 8 in
  let startBit := begin mod 8 in
  let endBit := end_ mod 8 in
  if startByte =? endByte then
    with_mask (for_from startBit (endBit + 1 - startBit)
                 (fun i m => <[startByte := or_bit (rd m startByte) i]> m) (_mask s)) s
  else
    let m := for_from startBit (8 - startBit)
               (fun i m => <[startByte := or_bit (rd m startByte) i]> m) (_mask s) in
    let m := if startByte + 1 <? endByte
             then memset m (startByte + 1) 0xFF (endByte - startByte - 1) else m in
    let m := for_from 0 (endBit + 1)
               (fun i m => <[endByte := or_bit (rd m endByte) i]> m) m in
    with_mask m s.

(** [Slaves::set(std::initializer_list<uint8_t> list)]. *)
Definition set_list (l : list nat) (s : t) : t :=
  fold_left (fun s value => set value s) l s.

(** [Slaves::remove]. *)
Definition remove (slaveId : nat) (s : t) : t :=
  if MB_MAX_SLAVE_ID <? slaveId then s
  else with_mask (<[slaveId / 8 := clear_bit (rd (_mask s) (slaveId / 8)) (slaveId mod 8)]>
                    (_mask s)) s.

(** [Slaves::isSet]. *)
Definition isSet (slaveId : nat) (s : t) : bool :=
  if MB_MAX_SLAVE_ID <? slaveId then false
  else negb (Z.land (rd (_mask s) (slaveId / 8))
                    (Z.shiftl 1 (Z.of_nat (slaveId mod 8))) =? 0)%Z.

(** [Slaves::clear]. *)
Definition clear (s : t) : t :=
  mk (memset (_mask s) 0 0%Z 32) 0%Z (-1)%Z SLAVE_BOF.

(** The constructors. *)
Definition of_slave (slave : nat) : t := set slave new.
Definition of_slave_repeat (slave : nat) (repeatDelay : Z) : t :=
  setRepeatDelay repeatDelay (of_slave slave).
Definition of_list (l : list nat) : t := set_list l new.
Definition of_list_delay (l : list nat) (delay : Z) : t :=
  setDelay delay (set_list l new).
Definition of_list_delay_repeat (l : list nat) (delay repeatDelay : Z) : t :=
  setRepeatDelay repeatDelay (of_list_delay l delay).

(** [for (uint8_t i = start; i < start + n; ++i) if (isSet(i)) return i;]
    for a range that ends before the counter can wrap. *)
Fixpoint scan (s : t) (i n : nat) : option nat :=
  match n with
  | O => None
  | S n' => if isSet i s then Some i else scan s (S i) n'
  end.

(** [uint8_t start = (_active == SLAVE_BOF) ? 0 : _active + 1;] *)
Definition start_of (s : t) : nat :=
  if _active s =? SLAVE_BOF then 0 else u8 (_active s + 1).

(** The second loop of [peek], [for (uint8_t i = 0; i <= _active; ++i)]:
    with [_active == 0xFF] its counter wraps and the condition never
    fails, so the loop is run on fuel.  [None] is fuel exhausted,
    [Some None] is the loop left without a hit. *)
Fixpoint peek_wrap (fuel : nat) (s : t) (i : nat) : option (option nat) :=
  match fuel with
  | O => None
  | S f =>
    if i <=? _active s then
      if isSet i s then Some (Some i) else peek_wrap f s (u8 (i + 1))
    else Some None
  end.

(** [Slaves::peek], on fuel for its second loop. *)
Definition peek_fuel (fuel : nat) (s : t) : option nat :=
  let start := start_of s in
  match scan s start (MB_MAX_SLAVE_ID + 1 - start) with
  | Some i => Some i
  | None =>
    if getRepeat s then
      match peek_wrap fuel s 0 with
      | None => None
      | Some (Some i) => Some i
      | Some None => Some SLAVE_EOF
      end
    else Some SLAVE_EOF
  end.

(** 257 rounds let the counter of the second loop see every value of a
    [uint8_t]; a loop not left by then is never left. *)
Definition peek (s : t) : option nat := peek_fuel 257 s.

(** [Slaves::getNext]: the returned ID and the set with its cursor moved. *)
Definition getNext (s : t) : nat * t :=
  let start := start_of s in
  match scan s start (MB_MAX_SLAVE_ID + 1 - start) with
  | Some i => (i, with_active i s)
  | None =>
    if getRepeat s then
      match scan s 0 (MB_MAX_SLAVE_ID + 1) with
      | Some i => (i, with_active i s)
      | None => (SLAVE_EOF, s)
      end
    else (SLAVE_EOF, s)
  end.

Definition getActive (s : t) : nat := _active s.

(** [Slaves::hasMore]. *)
Definition hasMore (s : t) : bool :=
  if getRepeat s then true
  else
    let start := start_of s in
    match scan s start (MB_MAX_SLAVE_ID + 1 - start) with
    | Some _ => true
    | None => false
    end.

Definition resetActive (s : t) : t := with_active SLAVE_BOF s.

(** [Slaves::valid]. *)
Definition valid (s : t) : bool :=
  existsb (fun i => (0 <? rd (_mask s) i)%Z) (seq 0 32).

(** The calls a user can make on a slave set, and a run of them. *)
Inductive op : Type :=
| OpSet (slaveId : nat)
| OpSetRange (begin end_ : nat)
| OpSetList (l : list nat)
| OpRemove (slaveId : nat)
| OpClear
| OpSetDelay (delay : Z)
| OpSetRepeatDelay (repeatDelay : Z)
| OpGetNext
| OpResetActive.

Definition step (s : t) (o : op) : t :=
  match o with
  | OpSet i => set i s
  | OpSetRange b e => set_range b e s
  | OpSetList l => set_list l s
  | OpRemove i => remove i s
  | OpClear => clear s
  | OpSetDelay d => setDelay d s
  | OpSetRepeatDelay d => setRepeatDelay d s
  | OpGetNext => (getNext s).2
  | OpResetActive => resetActive s
  end.

Definition run (ops : list op) : t := fold_left step ops new.

(** [n] successive calls of [getNext]: the IDs returned, in order, and
    the set afterwards. *)
Fixpoint iterate (n : nat) (s : t) : list nat * t :=
  match n with
  | O => ([], s)
  | S n' =>
    let '(i, s1) := getNext s in
    let '(l, s2) := iterate n' s1 in
    (i :: l, s2)
  end.

(** The bit of ID [i] in the bitmap itself, without the range check of
    [isSet]. *)
Definition mask_bit (s : t) (i : nat) : bool :=
  Z.testbit (rd (_mask s) (i / 8)) (Z.of_nat (i mod 8)).

(** The members of a list of IDs in increasing order, without repeats. *)
Definition sorted_members (l : list nat) : list nat :=
  List.filter (fun i => existsb (Nat.eqb i) l) (seq 0 (MB_MAX_SLAVE_ID + 1)).

End Slaves.

(** ** The pending queue (ADUQueue.tpp) *)

Module ADUQueue.

(** The queue holds pointers to ADUs; a pointer is the number of the ADU
    it points to, the null pointer is [None]. *)
Record t : Type := mk {
  _head : nat;
  _tail : nat;
  _count : nat;
  _queueSize : nat;
  _items : list (option nat)
}.

Definition new : t := mk 0 0 0 0 [].

Definition init (queueSize : nat) (q : t) : t :=
  mk (_head q) (_tail q) (_count q) queueSize (replicate queueSize None).

(** [_items[i]]. *)
Definition item (q : t) (i : nat) : option nat := default None (_items q !! i).

Definition with_items (l : list (option nat)) (q : t) : t :=
  mk (_head q) (_tail q) (_count q) (_queueSize q) l.

Definition is_null (p : option nat) : bool :=
  match p with None => true | Some _ => false end.

(** [ADUQueue::add]. *)
Definition add (it : option nat) (q : t) : bool * t :=
  if (_queueSize q <=? _count q) || is_null it then (false, q)
  else (true, mk (_head q) (u8 ((_tail q + 1) mod _queueSize q)) (u8 (_count q + 1))
                 (_queueSize q) (<[_tail q := it]> (_items q))).

(** [ADUQueue::read]: the flag, the pointer stored through [item] if any,
    and the queue afterwards. *)
Definition read (q : t) : bool * option nat * t :=
  if (_count q =? 0) || is_null (item q (_head q)) then (false, None, q)
  else (true, item q (_head q),
        mk (u8 ((_head q + 1) mod _queueSize q)) (_tail q) (_count q - 1)
           (_queueSize q) (<[_head q := None]> (_items q))).

Definition isEmpty (q : t) : bool := _count q =? 0.
Definition count (q : t) : nat := _count q.

Section Ready.

(** The two members of the ADU behind a pointer that the queue reads,
    and [on_ms] of the utility library with its clock: [on_ms t d false]
    tells whether [d] milliseconds have passed since time [t], and
    leaves [t] alone. *)
Variable queuedTime : nat -> Z.
Variable delayToSend : nat -> Z.
Variable on_ms : Z -> Z -> bool -> bool.

Definition ready (c : nat) : bool := on_ms (queuedTime c) (delayToSend c) false.

(** The scan of [readReady]: the loop state is
    [(current, readyIndex, minDelay)]. *)
Definition ready_step (q : t) (st : nat * nat * Z) : nat * nat * Z :=
  let '(current, readyIndex, minDelay) := st in
  let '(readyIndex, minDelay) :=
    match item q current with
    | Some c =>
      if ready c then
        if (delayToSend c <? minDelay)%Z then (current, delayToSend c)
        else (readyIndex, minDelay)
      else (readyIndex, minDelay)
    | None => (readyIndex, minDelay)
    end in
  (u8 ((current + 1) mod _queueSize q), readyIndex, minDelay).

(** [ADUQueue::readReady]. *)
Definition readReady (q : t) : bool * option nat * t :=
  if _count q =? 0 then (false, None, q) else
  let '(_, readyIndex, _) :=
    for_loop (_count q) (fun _ st => ready_step q st) (_head q, 255, UINT32_MAX) in
  if readyIndex =? 255 then (false, None, q) else
  let q :=
    if negb (readyIndex =? _head q) then
      let temp := item q readyIndex in
      with_items (<[_head q := temp]>
                    (<[readyIndex := item q (_head q)]> (_items q))) q
    else q in
  read q.

(** [ADUQueue::hasReady]. *)
Definition hasReady (q : t) : bool :=
  if _count q =? 0 then false else
  (for_loop (_count q)
     (fun _ (st : nat * bool) =>
        let '(current, found) := st in
        let hit := match item q current with
                   | Some c => ready c
                   | None => false
                   end in
        (u8 ((current + 1) mod _queueSize q), found || hit))
     (_head q, false)).2.

(** The slot of the [k]-th queued pointer, counted from the head. *)
Definition slot (q : t) (k : nat) : nat := (_head q + k) mod _queueSize q.

(** What the scan of [readReady] has established after [k] passes:
    either nothing ready with a delay below [UINT32_MAX] was seen, or
    [readyIndex] is the slot of a ready ADU whose delay is [minDelay]
    and is the least among the ready ADUs seen. *)
Definition scanned (q : t) (k : nat) (st : nat * nat * Z) : Prop :=
  let '(current, readyIndex, minDelay) := st in
  current = slot q k
  /\ ((readyIndex = 255 /\ minDelay = UINT32_MAX
       /\ forall j c, j < k -> item q (slot q j) = Some c -> ready c = true ->
                      (UINT32_MAX <= delayToSend c)%Z)
      \/ (exists j0 c0,
             j0 < k /\ readyIndex = slot q j0 /\ item q (slot q j0) = Some c0
             /\ ready c0 = true /\ minDelay = delayToSend c0
             /\ (delayToSend c0 < UINT32_MAX)%Z
             /\ forall j c, j < k -> item q (slot q j) = Some c ->
                            ready c = true -> (delayToSend c0 <= delayToSend c)%Z)).

End Ready.

(** The queued pointers from the head on: the live segment of the ring. *)
Definition live (q : t) : list (option nat) :=
  map (fun k => item q (slot q k)) (seq 0 (_count q)).

(** A ring as [init] and [add] build it. *)
Definition wf (q : t) : Prop :=
  0 < _queueSize q /\ _queueSize q <= 255 /\ length (_items q) = _queueSize q
  /\ _head q < _queueSize q /\ _count q <= _queueSize q.

End ADUQueue.

(** ** The request API of the master (ModbusMaster.cpp, ModbusMaster.tpp) *)

Section ModbusMaster.

(** [ModbusMaster] is abstract: [getFreePDU] and [sendPDU] are pure
    virtual, and the PDU they hand out is reached through a handle. *)
Context {W H : Type}.
Variable get : H -> W -> PDU.
Variable put : H -> PDU -> W -> W.
Variable getSlaveId : H -> W -> nat.
Variable clear : H -> M W unit.
Variable getFreePDU : modbusCallback -> nat -> M W (option H).
Variable sendPDU : H -> nat -> M W bool.
Variable isBigEndian : bool.

(** [PDU ret(slave); ret._err = e; cb(ret);] *)
Definition reject (slave : nat) (e : Z) (cb : modbusCallback) : M W unit :=
  let ret := set_err e (PDU_of_slave slave) in
  emit (call cb ret (PDU_getSlaveId ret)).

(** [pdu->create...(...)] on the object behind [pdu]. *)
Definition build (pdu : H) (create : PDU -> Z * PDU) : M W Z :=
  fun w => let '(e, p) := create (get pdu w) in ([], Some (e, put pdu p w)).

(** The tail of every request: when the builder failed, [cb] is called on
    the PDU and the PDU is cleared; otherwise [sendPDU(pdu, slave)]. *)
Definition finish (pdu : H) (e : Z) (slave : nat) (cb : modbusCallback) : M W unit :=
  if negb (e =? 0)%Z then
    (fun w => emit (call cb (get pdu w) (getSlaveId pdu w)) w) ;;;
    clear pdu
  else
    sendPDU pdu slave ;;; mret tt.

Definition readCoilsByBytes (slave : nat) (address : Z) (byteCount : nat)
    (cb : modbusCallback) : M W unit :=
  if slave =? 0 then reject slave MB_EX_LIB_INVALID_SLAVE cb else
  pdu <- getFreePDU cb slave ;;
  match pdu with
  | None => mret tt
  | Some pdu =>
    e <- build pdu (createReadState MB_FC_READ_COILS address (u16 (byteCount * 8)) cb) ;;
    finish pdu e slave cb
  end.

Definition readCoil (slave : nat) (address : Z) (cb : modbusCallback) : M W unit :=
  if slave =? 0 then reject slave MB_EX_LIB_INVALID_SLAVE cb else
  pdu <- getFreePDU cb slave ;;
  match pdu with
  | None => mret tt
  | Some pdu =>
    e <- build pdu (createReadState MB_FC_READ_COILS address 1 cb) ;;
    finish pdu e slave cb
  end.

Definition readCoils (slave : nat) (address : Z) (coilCount : nat)
    (cb : modbusCallback) : M W unit :=
  if slave =? 0 then reject slave MB_EX_LIB_INVALID_SLAVE cb else
  pdu <- getFreePDU cb slave ;;
  match pdu with
  | None => mret tt
  | Some pdu =>
    e <- build pdu (createReadState MB_FC_READ_COILS address coilCount cb) ;;
    finish pdu e slave cb
  end.

Definition readDiscreteInput (slave : nat) (address : Z) (cb : modbusCallback) : M W unit :=
  if slave =? 0 then reject slave MB_EX_LIB_INVALID_SLAVE cb else
  pdu <- getFreePDU cb slave ;;
  match pdu with
  | None => mret tt
  | Some pdu =>
    e <- build pdu (createReadState MB_FC_READ_DISCRETE_INPUTS address 1 cb) ;;
    finish pdu e slave cb
  end.

Definition readDiscreteInputsByBytes (slave : nat) (address : Z) (byteCount : nat)
    (cb : modbusCallback) : M W unit :=
  if slave =? 0 then reject slave MB_EX_LIB_INVALID_SLAVE cb else
  pdu <- getFreePDU cb slave ;;
  match pdu with
  | None => mret tt
  | Some pdu =>
    e <- build pdu (createReadState MB_FC_READ_DISCRETE_INPUTS address
                      (u16 (byteCount * 8)) cb) ;;
    finish pdu e slave cb
  end.

Definition readDiscreteInputs (slave : nat) (address : Z) (coilCount : nat)
    (cb : modbusCallback) : M W unit :=
  if slave =? 0 then reject slave MB_EX_LIB_INVALID_SLAVE cb else
  pdu <- getFreePDU cb slave ;;
  match pdu with
  | None => mret tt
  | Some pdu =>
    e <- build pdu (createReadState MB_FC_READ_DISCRETE_INPUTS address coilCount cb) ;;
    finish pdu e slave cb
  end.

Definition readExceptionStatus (slave : nat) (cb : modbusCallback) : M W unit :=
  if slave =? 0 then reject slave MB_EX_LIB_INVALID_SLAVE cb else
  pdu <- getFreePDU cb slave ;;
  match pdu with
  | None => mret tt
  | Some pdu =>
    e <- build pdu (createReadExceptionStatus cb) ;;
    finish pdu e slave cb
  end.

Definition readWriteMultipleRegisters (sizeofR sizeofW : nat) (slave : nat)
    (readAddr : Z) (readCount : nat) (writeAddr : Z) (writeData : option (list Z))
    (writeCount : nat) (cb : modbusCallback) : M W unit :=
  if slave =? 0 then reject slave MB_EX_LIB_INVALID_SLAVE cb else
  pdu <- getFreePDU cb slave ;;
  match pdu with
  | None => mret tt
  | Some pdu =>
    e <- build pdu (createReadWriteMultipleRegisters isBigEndian sizeofR sizeofW
                      readAddr readCount writeAddr writeData writeCount cb) ;;
    finish pdu e slave cb
  end.

Definition readHoldingRegister (sizeofT : nat) (slave : nat) (addr : Z)
    (cb : modbusCallback) : M W unit :=
  if slave =? 0 then reject slave MB_EX_LIB_INVALID_SLAVE cb else
  pdu <- getFreePDU cb slave ;;
  match pdu with
  | None => mret tt
  | Some pdu =>
    e <- build pdu (createReadRegisters sizeofT MB_FC_READ_HOLDING_REGISTERS addr 1 cb) ;;
    finish pdu e slave cb
  end.

Definition readHoldingRegisters (sizeofT : nat) (slave : nat) (addr : Z) (count : nat)
    (cb : modbusCallback) : M W unit :=
  if slave =? 0 then reject slave MB_EX_LIB_INVALID_SLAVE cb else
  pdu <- getFreePDU cb slave ;;
  match pdu with
  | None => mret tt
  | Some pdu =>
    e <- build pdu (createReadRegisters sizeofT MB_FC_READ_HOLDING_REGISTERS addr count cb) ;;
    finish pdu e slave cb
  end.

Definition readInputRegister (sizeofT : nat) (slave : nat) (addr : Z)
    (cb : modbusCallback) : M W unit :=
  if slave =? 0 then reject slave MB_EX_LIB_INVALID_SLAVE cb else
  pdu <- getFreePDU cb slave ;;
  match pdu with
  | None => mret tt
  | Some pdu =>
    e <- build pdu (createReadRegisters sizeofT MB_FC_READ_INPUT_REGISTERS addr 1 cb) ;;
    finish pdu e slave cb
  end.

Definition readInputRegisters (sizeofT : nat) (slave : nat) (addr : Z) (count : nat)
    (cb : modbusCallback) : M W unit :=
  if slave =? 0 then reject slave MB_EX_LIB_INVALID_SLAVE cb else
  pdu <- getFreePDU cb slave ;;
  match pdu with
  | None => mret tt
  | Some pdu =>
    e <- build pdu (createReadRegisters sizeofT MB_FC_READ_INPUT_REGISTERS addr count cb) ;;
    finish pdu e slave cb
  end.

(** A call of one of the single-slave read operations, with its
    arguments apart from the slave ID and the callback. *)
Inductive read_call : Type :=
| ReadCoilsByBytes (address : Z) (byteCount : nat)
| ReadCoil (address : Z)
| ReadCoils (address : Z) (coilCount : nat)
| ReadDiscreteInput (address : Z)
| ReadDiscreteInputsByBytes (address : Z) (byteCount : nat)
| ReadDiscreteInputs (address : Z) (coilCount : nat)
| ReadExceptionStatus
| ReadWriteMultipleRegisters (sizeofR sizeofW : nat) (readAddr : Z) (readCount : nat)
    (writeAddr : Z) (writeData : option (list Z)) (writeCount : nat)
| ReadHoldingRegister (sizeofT : nat) (addr : Z)
| ReadHoldingRegisters (sizeofT : nat) (addr : Z) (count : nat)
| ReadInputRegister (sizeofT : nat) (addr : Z)
| ReadInputRegisters (sizeofT : nat) (addr : Z) (count : nat).

(** The function code the call puts on the wire. *)
Definition function_code (c : read_call) : Z :=
  match c with
  | ReadCoilsByBytes _ _ | ReadCoil _ | ReadCoils _ _ => MB_FC_READ_COILS
  | ReadDiscreteInput _ | ReadDiscreteInputsByBytes _ _ | ReadDiscreteInputs _ _ =>
    MB_FC_READ_DISCRETE_INPUTS
  | ReadExceptionStatus => MB_FC_READ_EXCEPTION_STATUS
  | ReadWriteMultipleRegisters _ _ _ _ _ _ _ => MB_FC_READ_AND_WRITE_REGISTERS
  | ReadHoldingRegister _ _ | ReadHoldingRegisters _ _ _ => MB_FC_READ_HOLDING_REGISTERS
  | ReadInputRegister _ _ | ReadInputRegisters _ _ _ => MB_FC_READ_INPUT_REGISTERS
  end.

Definition issue (c : read_call) (slave : nat) (cb : modbusCallback) : M W unit :=
  match c with
  | ReadCoilsByBytes a n => readCoilsByBytes slave a n cb
  | ReadCoil a => readCoil slave a cb
  | ReadCoils a n => readCoils slave a n cb
  | ReadDiscreteInput a => readDiscreteInput slave a cb
  | ReadDiscreteInputsByBytes a n => readDiscreteInputsByBytes slave a n cb
  | ReadDiscreteInputs a n => readDiscreteInputs slave a n cb
  | ReadExceptionStatus => readExceptionStatus slave cb
  | ReadWriteMultipleRegisters sr sw ra rc wa wd wc =>
    readWriteMultipleRegisters sr sw slave ra rc wa wd wc cb
  | ReadHoldingRegister sz a => readHoldingRegister sz slave a cb
  | ReadHoldingRegisters sz a n => readHoldingRegisters sz slave a n cb
  | ReadInputRegister sz a => readInputRegister sz slave a cb
  | ReadInputRegisters sz a n => readInputRegisters sz slave a n cb
  end.

End ModbusMaster.

(** ** The RTU ADU and the RTU master (ADURTU.cpp, ModbusRTUMaster.cpp) *)

(** An [ADURTU] is a PDU whose buffers sit one byte into the RTU frames:
    [_TXADURTUframe] is [_TXhead :: _TXPDUbuffer], and likewise for the
    receive frame and the response head. *)
Record ADURTU : Type := mkADURTU {
  adu_pdu : PDU;
  _TXhead : Z;
  _RXhead : Z;
  _responseRTUHead0 : Z;
  _responseLen : nat;
  _slaves : Slaves.t;
  _modbusRTUMaster : bool
}.

Definition with_pdu (p : PDU) (a : ADURTU) : ADURTU :=
  mkADURTU p (_TXhead a) (_RXhead a) (_responseRTUHead0 a) (_responseLen a)
    (_slaves a) (_modbusRTUMaster a).
Definition with_slaves (s : Slaves.t) (a : ADURTU) : ADURTU :=
  mkADURTU (adu_pdu a) (_TXhead a) (_RXhead a) (_responseRTUHead0 a) (_responseLen a)
    s (_modbusRTUMaster a).
Definition with_responseLen (n : nat) (a : ADURTU) : ADURTU :=
  mkADURTU (adu_pdu a) (_TXhead a) (_RXhead a) (_responseRTUHead0 a) n
    (_slaves a) (_modbusRTUMaster a).
Definition with_master (b : bool) (a : ADURTU) : ADURTU :=
  mkADURTU (adu_pdu a) (_TXhead a) (_RXhead a) (_responseRTUHead0 a) (_responseLen a)
    (_slaves a) b.

Definition _TXADURTUframe (a : ADURTU) : list Z := _TXhead a :: _TXPDUbuffer (adu_pdu a).
Definition _RXADURTUframe (a : ADURTU) : list Z := _RXhead a :: _RXPDUbuffer (adu_pdu a).

Definition with_TXframe (f : list Z) (a : ADURTU) : ADURTU :=
  mkADURTU (set_TX (tail f) (adu_pdu a)) (hd 0%Z f) (_RXhead a) (_responseRTUHead0 a)
    (_responseLen a) (_slaves a) (_modbusRTUMaster a).
Definition with_RXframe (f : list Z) (a : ADURTU) : ADURTU :=
  mkADURTU (set_RX (tail f) (adu_pdu a)) (_TXhead a) (hd 0%Z f) (_responseRTUHead0 a)
    (_responseLen a) (_slaves a) (_modbusRTUMaster a).

(** [ADURTU::ADURTU()] followed by [ADURTU::init(PDUSize)]: the frames hold
    [1 + PDUSize + 2] bytes, the response head [1 + 7]. *)
Definition ADURTU_init (PDUSize : nat) : ADURTU :=
  mkADURTU
    (mkPDU None (replicate (PDUSize + MB_ADU_RTU_CRC_LEN) 0%Z)
       (replicate (PDUSize + MB_ADU_RTU_CRC_LEN) 0%Z) 0
       (replicate MB_PDU_MAX_RESPONSE_LEN 0%Z) 0 0 0%Z 0 0 false PDUSize 0%Z 0%Z 0)
    0%Z 0%Z 0%Z 0 Slaves.new false.

(** [ADURTU::setHead]. *)
Definition setHead (slave : nat) (a : ADURTU) : ADURTU :=
  mkADURTU (adu_pdu a) (Z.of_nat slave) (_RXhead a) (Z.of_nat slave) (_responseLen a)
    (_slaves a) (_modbusRTUMaster a).

(** [ADURTU::getSlaveId]. *)
Definition ADURTU_getSlaveId (a : ADURTU) : nat := Z.to_nat (_TXhead a).

(** [ADURTU::getTXADULen] and [ADURTU::getExpectedResponseLen]. *)
Definition getTXADULen (a : ADURTU) : nat :=
  u16 (MB_ADU_RTU_HEADER_LEN + _TXPDUbufferLen (adu_pdu a) + MB_ADU_RTU_CRC_LEN).
Definition getExpectedResponseLen (a : ADURTU) : nat :=
  u16 (_expectedResponseLen (adu_pdu a) + MB_ADU_RTU_HEADER_LEN + MB_ADU_RTU_CRC_LEN).

(** [ADURTU::clear]. *)
Definition ADURTU_clear (a : ADURTU) : ADURTU :=
  with_pdu (PDU_clear (adu_pdu a)) (with_responseLen 0 a).

(** The master: its pool [_adu] of [_queueSize] ADUs, its pending queue of
    pointers into the pool, the reading of [millis()], and the bytes it has
    written to its stream. *)
Record ModbusRTUMaster : Type := mkRTU {
  _adu : list ADURTU;
  _queue : ADUQueue.t;
  _queueSize : nat;
  millis : Z;
  written : list Z
}.

Definition with_adu (l : list ADURTU) (m : ModbusRTUMaster) : ModbusRTUMaster :=
  mkRTU l (_queue m) (_queueSize m) (millis m) (written m).
Definition with_queue (q : ADUQueue.t) (m : ModbusRTUMaster) : ModbusRTUMaster :=
  mkRTU (_adu m) q (_queueSize m) (millis m) (written m).

(** The pool and the queue as [ModbusRTUMaster::begin] leaves them. *)
Definition RTU_begin (PDUSize queueSize : nat) (now : Z) : ModbusRTUMaster :=
  mkRTU (replicate queueSize (with_master true (ADURTU_init PDUSize)))
        (ADUQueue.init queueSize ADUQueue.new) queueSize now [].

(** The ADU behind pointer [i], and an update of it. *)
Definition adu_at (i : nat) (m : ModbusRTUMaster) : ADURTU :=
  default (ADURTU_init 0) (_adu m !! i).
Definition upd_adu (i : nat) (f : ADURTU -> ADURTU) (m : ModbusRTUMaster) : ModbusRTUMaster :=
  with_adu (<[i := f (adu_at i m)]> (_adu m)) m.
Definition on_adu (i : nat) (f : ADURTU -> ADURTU) : M ModbusRTUMaster unit :=
  modify (upd_adu i f).

Definition RTU_get (i : nat) (m : ModbusRTUMaster) : PDU := adu_pdu (adu_at i m).
Definition RTU_put (i : nat) (p : PDU) (m : ModbusRTUMaster) : ModbusRTUMaster :=
  with_adu (<[i := with_pdu p (adu_at i m)]> (_adu m)) m.
Definition RTU_getSlaveId (i : nat) (m : ModbusRTUMaster) : nat :=
  ADURTU_getSlaveId (adu_at i m).
Definition RTU_clear (i : nat) : M ModbusRTUMaster unit := on_adu i ADURTU_clear.

(** [ModbusRTUMaster::send], without the direction pins. *)
Definition RTU_send (buffer : list Z) (len : nat) : M ModbusRTUMaster unit :=
  modify (fun m => mkRTU (_adu m) (_queue m) (_queueSize m) (millis m)
                     (written m ++ take len buffer)).

Section RTU.

(** [crc16] of Crc16.cpp, the checksum of a byte sequence; its tables are
    not part of the model and no property below depends on its value. *)
Variable crc16 : list Z -> Z.

(** Modelled from the spec: [crc16Set] of Crc16.cpp, of which Crc16.h
    holds the declaration only.  It appends the checksum of the first
    [length] bytes of [msg] behind them, low byte first. *)
Definition crc16Set (msg : list Z) (length : nat) : list Z :=
  let crc := crc16 (take length msg) in
  <[length + 1 := highByte crc]> (<[length := lowByte crc]> msg).

(** [ADURTU::setCRC]. *)
Definition setCRC (a : ADURTU) : ADURTU :=
  with_TXframe (crc16Set (_TXADURTUframe a)
                  (_TXPDUbufferLen (adu_pdu a) + MB_ADU_RTU_HEADER_LEN)) a.

(** [ModbusRTUMaster::sendPDU]; [callCallback] is the member function of
    the ADU, which this function calls when the queue is full. *)
Definition RTU_sendPDU (callCallback : nat -> M ModbusRTUMaster unit)
    (adu : nat) (slave : nat) : M ModbusRTUMaster bool :=
  on_adu adu (setHead slave) ;;;
  on_adu adu setCRC ;;;
  on_adu adu (with_responseLen 0) ;;;
  q <- gets _queue ;;
  let '(ok, q') := ADUQueue.add (Some adu) q in
  if negb ok then
    on_adu adu (fun a => with_pdu (set_err MB_EX_LIB_QUEUE_FULL (adu_pdu a)) a) ;;;
    callCallback adu ;;;
    mret false
  else
    modify (with_queue q') ;;; mret true.

(** [ADURTU::repeatIfNeeded]. *)
Definition ADURTU_repeatIfNeeded (callCallback : nat -> M ModbusRTUMaster unit)
    (this : nat) : M ModbusRTUMaster bool :=
  a <- gets (adu_at this) ;;
  if negb (Slaves.valid (_slaves a)) then mret false else
  let prev := Slaves.getActive (_slaves a) in
  let '(next, sl) := Slaves.getNext (_slaves a) in
  on_adu this (with_slaves sl) ;;;
  if negb (next =? SLAVE_EOF) && negb (next =? SLAVE_NULL) then
    now <- gets millis ;;
    on_adu this (fun a => with_pdu (set_queuedTime now (adu_pdu a)) a) ;;;
    on_adu this (fun a => with_pdu
      (set_delayToSend
         (to_u32 (if (next <? prev) || (prev =? next)
                  then Slaves.getRepeatDelay sl else Slaves.getDelay sl))
         (adu_pdu a)) a) ;;;
    master <- gets (fun m => _modbusRTUMaster (adu_at this m)) ;;
    if master : bool then RTU_sendPDU callCallback this next else mret false
  else mret false.

(** [PDU::callCallback] on an ADU of the pool.  [sendPDU] calls it again
    when the queue is full, so the recursion runs on fuel. *)
Fixpoint RTU_callCallback (fuel : nat) (this : nat) : M ModbusRTUMaster unit :=
  match fuel with
  | O => diverge
  | S f =>
    callCallback RTU_get RTU_getSlaveId RTU_clear
      (ADURTU_repeatIfNeeded (RTU_callCallback f)) this
  end.

(** [PDU::invoke] on an ADU of the pool. *)
Definition RTU_invoke (isBigEndian : bool) (fuel : nat) (this : nat) : M ModbusRTUMaster Z :=
  invoke RTU_get RTU_put RTU_getSlaveId RTU_clear
    (ADURTU_repeatIfNeeded (RTU_callCallback fuel)) isBigEndian this.

(** The scan of the pool in [getFreePDU]: the first ADU not in use. *)
Fixpoint first_free (pool : list ADURTU) (i : nat) : option nat :=
  match pool with
  | [] => None
  | a :: rest => if negb (_used (adu_pdu a)) then Some i else first_free rest (S i)
  end.

(** [ModbusRTUMaster::getFreePDU(cb, slave)]. *)
Definition RTU_getFreePDU (cb : modbusCallback) (slave : nat)
    : M ModbusRTUMaster (option nat) :=
  m <- gets id ;;
  match first_free (take (_queueSize m) (_adu m)) 0 with
  | Some i =>
    on_adu i (fun a => with_pdu (set_used true (adu_pdu a)) a) ;;;
    on_adu i (fun a => with_pdu (set_callback cb (adu_pdu a)) a) ;;;
    on_adu i (fun a => with_slaves (Slaves.clear (_slaves a)) a) ;;;
    on_adu i (fun a => with_pdu (set_slave slave (adu_pdu a)) a) ;;;
    mret (Some i)
  | None =>
    let ret := set_err MB_EX_LIB_NO_MORE_FREE_ADU (PDU_of_slave slave) in
    emit (call cb ret (PDU_getSlaveId ret)) ;;;
    mret None
  end.

(** [ModbusRTUMaster::getFreePDU(cb, slaves)]. *)
Definition RTU_getFreePDU_slaves (cb : modbusCallback) (slaves : Slaves.t)
    : M ModbusRTUMaster (option nat) :=
  m <- gets id ;;
  match first_free (take (_queueSize m) (_adu m)) 0 with
  | Some i =>
    on_adu i (fun a => with_pdu (set_used true (adu_pdu a)) a) ;;;
    on_adu i (fun a => with_pdu (set_callback cb (adu_pdu a)) a) ;;;
    on_adu i (with_slaves slaves) ;;;
    on_adu i (fun a => with_slaves (Slaves.getNext (_slaves a)).2 a) ;;;
    mret (Some i)
  | None =>
    match Slaves.peek slaves with
    | None => diverge
    | Some id =>
      let ret := set_err MB_EX_LIB_NO_MORE_FREE_ADU (PDU_of_slave id) in
      emit (call cb ret (PDU_getSlaveId ret)) ;;;
      mret None
    end
  end.

End RTU.

(** ** RTU timing (ModbusRTUMaster.cpp) *)

Record Timing : Type := mkTiming {
  _baud : Z;
  _byteTimeout : Z;
  _frameTimeout : Z;
  _lastByteTime : Z
}.

(** [(uint32_t)(charTime * f)] for the [double] constant [f = num / 2]:
    [charTime] is below [2^32] and [f] is 1.5 or 3.5, so the product is exact
    in a [double], and the conversion cuts the fraction off. *)
Definition scale_double (charTime : Z) (num : Z) : Z := to_u32 (charTime * num / 2)%Z.

(** [ModbusRTUMaster::calcTimeout]; [None] is a division by zero. *)
Definition calcTimeout (data parity stopBit : Z) (t : Timing) : option Timing :=
  let t := mkTiming (_baud t) (_byteTimeout t) (_frameTimeout t) 0%Z in
  if (_baud t <=? 19200)%Z then
    let bits := (data + 1 + parity + stopBit)%Z in
    let perChar := (_baud t / bits)%Z in
    if (perChar =? 0)%Z then None else
    let charTime := to_u32 (1000000 / perChar)%Z in
    Some (mkTiming (_baud t) (scale_double charTime 3) (scale_double charTime 7)
            (_lastByteTime t))
  else
    Some (mkTiming (_baud t) 750%Z 1750%Z (_lastByteTime t)).

(** The arguments [begin] passes to [calcTimeout] for a [UartConfig]. *)
Definition uart_data (cfg : Z) : Z := (5 + Z.land (Z.shiftr cfg 1) 3)%Z.
Definition uart_parity (cfg : Z) : Z := Z.land (Z.shiftr cfg 5) 3.
Definition uart_stop (cfg : Z) : Z := (1 + Z.land (Z.shiftr cfg 3) 1)%Z.
Definition Mode_8N1 : Z := 0x06.
Definition Mode_8E1 : Z := 0x26.
Definition Mode_8O1 : Z := 0x36.
Definition Mode_8N2 : Z := 0x0E.
Definition Mode_8E2 : Z := 0x2E.

(** ** The plain PDU as its own world *)

(** A [PDU] object that is no ADU: the handle is [tt], and the virtual
    functions are those of the base class. *)
Definition PDU_get (_ : unit) (p : PDU) : PDU := p.
Definition PDU_put (_ : unit) (p : PDU) (_ : PDU) : PDU := p.
Definition PDU_getSlaveId' (_ : unit) (p : PDU) : nat := PDU_getSlaveId p.
Definition PDU_clear' (_ : unit) : M PDU unit := modify PDU_clear.
(** [PDU::repeatIfNeeded]. *)
Definition PDU_repeatIfNeeded (_ : unit) : M PDU bool := mret false.

Definition pack_u32 (isBigEndian : bool) (v : Z) : bool * option (list Z) :=
  convertToBigEndianRegisters isBigEndian (Some (host_bytes isBigEndian 4 v)) 1 4
    (Some (replicate 4 0%Z)) 4.


(** A master's timing members before [begin] has computed them. *)
Definition timing_of_baud (baud : Z) : Timing := mkTiming baud 0%Z 0%Z 0%Z.

(** ** The path of one RTU exchange *)

(** The RECEIVE state of [ModbusRTUMaster::loop]: the bytes that arrived
    are stored behind the [_responseLen] bytes already in the receive
    frame. *)
Definition receive (bytes : list Z) (a : ADURTU) : ADURTU :=
  with_responseLen (u16 (_responseLen a + length bytes))
    (with_RXframe (memcpy (_RXADURTUframe a) (_responseLen a) bytes 0 (length bytes)) a).

(** [_queue.readReady(_currentADU)] in the IDLE state. *)
Definition RTU_readReady (on_ms : Z -> Z -> bool -> bool) : M ModbusRTUMaster (option nat) :=
  fun m =>
    let '(ok, it, q') :=
      ADUQueue.readReady (fun c => _queuedTime (RTU_get c m))
        (fun c => _delayToSend (RTU_get c m)) on_ms (_queue m) in
    ([], Some (if ok : bool then it else None, with_queue q' m)).

(** A master with 253-byte PDUs and five ADUs is asked for one 16-bit
    holding register at address 0 of slave 1; the request is taken from the
    queue, and the five bytes [reply] arrive and are handed to [invoke]. *)
Definition read_register_exchange (crc16 : list Z -> Z)
    (isBigEndian : bool) (fuel : nat) (f : nat) (reply : list Z)
    : list event * option (Z * ModbusRTUMaster) :=
  (issue RTU_get RTU_put RTU_getSlaveId RTU_clear RTU_getFreePDU
     (RTU_sendPDU crc16 (RTU_callCallback crc16 fuel)) isBigEndian
     (ReadHoldingRegisters 2 0%Z 1) 1 (Some f) ;;;
   cur <- RTU_readReady (fun _ _ _ => true) ;;
   match cur with
   | None => mret 0%Z
   | Some i =>
     on_adu i (receive reply) ;;;
     RTU_invoke crc16 isBigEndian fuel i
   end) (RTU_begin 253 5 0%Z).

(** ** Shape of a slave set *)

(** What every slave set built by the library satisfies: a bitmap of 32
    bytes whose last byte (IDs 248 to 255) is zero, and a cursor that is
    [SLAVE_BOF] or an ID up to 247. *)
Definition mask_shape (m : list Z) : Prop := length m = 32 /\ rd m 31 = 0%Z.

Definition slaves_shape (s : Slaves.t) : Prop :=
  mask_shape (Slaves._mask s)
  /\ (Slaves._active s = SLAVE_BOF \/ Slaves._active s <= MB_MAX_SLAVE_ID).

(** The answers [getNext] and [peek] may give for a set [s]. *)
Definition member_or_eof (s : Slaves.t) (r : nat) : Prop :=
  r = SLAVE_EOF \/ (r <= MB_MAX_SLAVE_ID /\ Slaves.isSet r s = true).


(** A master with one ADU whose request expects function 0x03 and whose
    receive buffer holds the exception response 83 02. *)
Definition exception_reply_world : ModbusRTUMaster :=
  RTU_put 0
    (set_RX [0x83; 0x02; 0; 0; 0; 0]%Z
       (wrHead 0 3%Z (set_callback (Some 7) (adu_pdu (ADURTU_init 4)))))
    (RTU_begin 4 1 0%Z).

(** A master with two ADUs, the first of which was handed out for a request
    to the slaves 1, 2 and 3, 5 ms apart, repeated after 1000 ms. *)
Definition rotation_world : ModbusRTUMaster :=
  match (RTU_getFreePDU_slaves (Some 7) (Slaves.of_list_delay_repeat [1; 2; 3] 5 1000)
           (RTU_begin 16 2 100%Z)).2 with
  | Some (_, m) => m
  | None => RTU_begin 16 2 100%Z
  end.

(** [n] rounds of: the callback of ADU 0 returns, and the engine takes the
    ADU from the queue again.  For each round, the slave the ADU is now
    addressed to and its [_delayToSend]. *)
Fixpoint rotation_rounds (crc16 : list Z -> Z) (n : nat) (m : ModbusRTUMaster)
    : list (nat * Z) :=
  match n with
  | O => []
  | S n' =>
    match (RTU_callCallback crc16 1 0 m).2 with
    | Some (_, m1) =>
      (ADURTU_getSlaveId (adu_at 0 m1), _delayToSend (RTU_get 0 m1))
      :: match (RTU_readReady (fun _ _ _ => true) m1).2 with
         | Some (_, m2) => rotation_rounds crc16 n' m2
         | None => []
         end
    | None => []
    end
  end.

Definition rotation_trace (crc16 : list Z -> Z) (n : nat) : list (nat * Z) :=
  rotation_rounds crc16 n rotation_world.

(** A full ring of three ADUs queued at time 0 with delays of 50, 10 and
    30 ms, looked at 40 ms later. *)
Definition ready_queue : ADUQueue.t := ADUQueue.mk 0 0 3 3 [Some 0; Some 1; Some 2].
Definition ready_queuedTime (c : nat) : Z := 0%Z.
Definition ready_delay (c : nat) : Z := nth c [50; 10; 30]%Z 0%Z.
Definition ready_on_ms (t d : Z) (reset : bool) : bool := (t + d <=? 40)%Z.

(** ** The packed image of an array *)

(** The two bytes of the [k]-th register of element [i] of the array [x] of
    [s]-byte elements, as a little-endian host packs them: the low byte of
    the pair is byte [2k] of the element, the high byte is byte [2k+1], and
    a byte beyond the element is the zero pad. *)
Definition pair_lo (x : list Z) (s i k : nat) : Z :=
  if 2 * k <? s then rd x (i * s + 2 * k) else 0%Z.
Definition pair_hi (x : list Z) (s i k : nat) : Z :=
  if 2 * k + 1 <? s then rd x (i * s + (2 * k + 1)) else 0%Z.

(** [b] holds, in its first [c * p] bytes, the registers of [x], each with
    its high byte first. *)
Definition is_packed (x : list Z) (c s p : nat) (b : list Z) : Prop :=
  forall i k, i < c -> 2 * k < p ->
    rd b (i * p + 2 * k) = pair_hi x s i k
    /\ rd b (i * p + (2 * k + 1)) = pair_lo x s i k.

(** The packed size of one [s]-byte element as the specification writes it,
    [(s + 1) & ~1]: [s + 1] with its lowest bit cleared. *)
Definition packedSize (s : nat) : nat := Nat.ldiff (s + 1) 1.

(** * Further definitions *)

(** ** The pending queue: [peek], runs of calls, and the ring invariant *)

(** [ADUQueue::peek]: the flag and, when it is true, the pointer stored
    through [item]. *)
Definition ADUQueue_peek (q : ADUQueue.t) : bool * option nat :=
  if ADUQueue._count q =? 0 then (false, None)
  else (true, ADUQueue.item q (ADUQueue._head q)).

(** What [init], [add], [read] and [readReady] keep of a ring: its size is
    between 1 and 255, [_tail] is [_count] places behind [_head], and no
    queued pointer is null. *)
Definition ring (q : ADUQueue.t) : Prop :=
  ADUQueue.wf q
  /\ ADUQueue._tail q = ADUQueue.slot q (ADUQueue._count q)
  /\ List.Forall (fun p => p <> None) (ADUQueue.live q).

(** [add] called for each pointer of a list in turn: the flags returned and
    the queue afterwards. *)
Fixpoint add_all (l : list nat) (q : ADUQueue.t) : list bool * ADUQueue.t :=
  match l with
  | [] => ([], q)
  | c :: l' =>
    let '(ok, q1) := ADUQueue.add (Some c) q in
    let '(oks, q2) := add_all l' q1 in
    (ok :: oks, q2)
  end.

(** [read] called [n] times: the flags and pointers returned and the queue
    afterwards. *)
Fixpoint read_all (n : nat) (q : ADUQueue.t) : list (bool * option nat) * ADUQueue.t :=
  match n with
  | O => ([], q)
  | S n' =>
    let '(ok, it, q1) := ADUQueue.read q in
    let '(rs, q2) := read_all n' q1 in
    ((ok, it) :: rs, q2)
  end.

(** ** Further request builders and accessors (PDU.cpp, PDU.tpp) *)

Definition MB_MAX_WRITE_COILS : nat := 1968.
Definition MB_MAX_WRITE_COILS_IN_BYTES : nat := 246.
Definition MB_MAX_WRITE_REGISTERS : nat := 123.
Definition MB_FC_SUB_FORCE_LISTEN_ONLY_MODE : Z := 0x04.
Definition MB_FC_SUB_CLEAR_COUNTERS_AND_DIAGNOSTIC_REGISTER : Z := 0x0A.
Definition MB_FC_SUB_CLEAR_OVERRUN_CHARACTER_AND_FLAG : Z := 0x14.

(** [PDU::createWriteSingleCoil]. *)
Definition createWriteSingleCoil (addr : Z) (value : bool)
    (cb : modbusCallback) (p : PDU) : Z * PDU :=
  let p := set_callback cb p in
  if _PDUSize p <? 5 then fail_with MB_EX_LIB_BUFFER_IS_TOO_SMALL p else
  let p := wr2 0 MB_FC_WRITE_SINGLE_COIL p in
  let p := wr2 1 (highByte addr) p in
  let p := wr2 2 (lowByte addr) p in
  let p := wr2 3 (if value then 0xFF else 0x00)%Z p in
  let p := wr2 4 0x00%Z p in
  let p := set_TXLen 5 p in
  let p := set_expectedResponseLen 5 p in
  (MB_EX_SUCCESS, p).

(** [PDU::createWriteSingleRegister]. *)
Definition createWriteSingleRegister (addr : Z) (value : Z)
    (cb : modbusCallback) (p : PDU) : Z * PDU :=
  let p := set_callback cb p in
  if _PDUSize p <? 5 then fail_with MB_EX_LIB_BUFFER_IS_TOO_SMALL p else
  let p := wr2 0 MB_FC_WRITE_SINGLE_REGISTER p in
  let p := wr2 1 (highByte addr) p in
  let p := wr2 2 (lowByte addr) p in
  let p := wr2 3 (highByte value) p in
  let p := wr2 4 (lowByte value) p in
  let p := set_TXLen 5 p in
  let p := set_expectedResponseLen 5 p in
  (MB_EX_SUCCESS, p).

(** [PDU::createDiagnostics]. *)
Definition createDiagnostics (subFunction : Z) (value : Z)
    (cb : modbusCallback) (p : PDU) : Z * PDU :=
  let p := set_callback cb p in
  if (MB_FC_SUB_CLEAR_OVERRUN_CHARACTER_AND_FLAG <? subFunction)%Z
     || ((MB_FC_SUB_FORCE_LISTEN_ONLY_MODE <? subFunction)%Z
         && (subFunction <? MB_FC_SUB_CLEAR_COUNTERS_AND_DIAGNOSTIC_REGISTER)%Z)
  then fail_with MB_EX_LIB_INVALID_SUB_FUNCTION p else
  if _PDUSize p <? 5 then fail_with MB_EX_LIB_BUFFER_IS_TOO_SMALL p else
  let p := wr2 0 MB_FC_DIAGNOSTICS p in
  let p := wr2 1 (highByte subFunction) p in
  let p := wr2 2 (lowByte subFunction) p in
  let p := wr2 3 (highByte value) p in
  let p := wr2 4 (lowByte value) p in
  let p := set_TXLen 5 p in
  let p := set_expectedResponseLen 5 p in
  (MB_EX_SUCCESS, p).

(** [_TXPDUbuffer[6 + (i / 8)] |= (1 << (i % 8));] when [src[i]] holds. *)
Definition pack_coil (src : list bool) (i : nat) (tx : list Z) : list Z :=
  if nth i src false
  then <[6 + i / 8 := Slaves.or_bit (rd tx (6 + i / 8)) (i mod 8)]> tx
  else tx.

(** [PDU::createWriteMultipleCoils(addr, const bool* src, coilCount, cb)];
    [src] is the array behind the pointer. *)
Definition createWriteMultipleCoils_bool (addr : Z) (src : list bool) (coilCount : nat)
    (cb : modbusCallback) (p : PDU) : Z * PDU :=
  let p := set_callback cb p in
  if coilCount =? 0 then fail_with MB_EX_LIB_TOO_FEW_DATA p else
  if MB_MAX_WRITE_COILS <? coilCount then fail_with MB_EX_LIB_TOO_MANY_DATA p else
  let byteCount := u8 ((coilCount + 7) / 8) in
  if MB_MAX_WRITE_COILS_IN_BYTES <? byteCount then fail_with MB_EX_LIB_TOO_MANY_DATA p else
  if _PDUSize p <? 6 + byteCount then fail_with MB_EX_LIB_BUFFER_IS_TOO_SMALL p else
  let p := wr2 0 MB_FC_WRITE_MULTIPLE_COILS p in
  let p := wr2 1 (highByte addr) p in
  let p := wr2 2 (lowByte addr) p in
  let p := wr2 3 (highByte (Z.of_nat coilCount)) p in
  let p := wr2 4 (lowByte (Z.of_nat coilCount)) p in
  let p := wrTX 5 (Z.of_nat byteCount) p in
  let p := set_TX (memset (_TXPDUbuffer p) 6 0%Z byteCount) p in
  let p := set_TX (for_loop coilCount (pack_coil src) (_TXPDUbuffer p)) p in
  let p := set_TXLen (u8 (6 + byteCount)) p in
  let p := set_expectedResponseLen 5 p in
  (MB_EX_SUCCESS, p).

(** [PDU::createWriteHoldingRegister<T>], with [sizeofT = sizeof(T)] and
    [src] as the bytes behind the pointer ([None] for a null pointer). *)
Definition createWriteHoldingRegister (isBigEndian : bool) (sizeofT : nat)
    (addr : Z) (src : option (list Z)) (count : nat)
    (cb : modbusCallback) (p : PDU) : Z * PDU :=
  let p := set_callback cb p in
  let elemSize := u8 sizeofT in
  let paddedSize := paddedSizeOf elemSize in
  let totalBytes := u16 (count * paddedSize) in
  let regCount := totalBytes / 2 in
  if count =? 0 then fail_with MB_EX_LIB_TOO_FEW_DATA p else
  if MB_MAX_WRITE_REGISTERS <? regCount then fail_with MB_EX_LIB_TOO_MANY_DATA p else
  if _PDUSize p <? 6 + totalBytes then fail_with MB_EX_LIB_BUFFER_IS_TOO_SMALL p else
  let p := wr2 0 MB_FC_WRITE_MULTIPLE_REGISTERS p in
  let p := wr2 1 (highByte addr) p in
  let p := wr2 2 (lowByte addr) p in
  let p := wr2 3 (highByte (Z.of_nat regCount)) p in
  let p := wr2 4 (lowByte (Z.of_nat regCount)) p in
  let p := wrTX 5 (Z.of_nat (u8 totalBytes)) p in
  match convertToBigEndianRegisters isBigEndian src (u8 count) elemSize
          (Some (drop 6 (_TXPDUbuffer p))) (u16 (_PDUSize p - 6)) with
  | (true, Some dst) =>
    let p := set_TX (take 6 (_TXPDUbuffer p) ++ dst) p in
    let p := set_TXLen (u8 (6 + totalBytes)) p in
    let p := set_expectedResponseLen 5 p in
    (MB_EX_SUCCESS, p)
  | _ => fail_with MB_EX_LIB_INVALID_DATA p
  end.

(** [PDU::getBit]. *)
Definition getBit (p : PDU) (ix : nat) : bool :=
  if _dataLen p * 8 <=? ix then false else
  let byteIndex := u8 (_dataBegin p + ix / 8) in
  let bitIndex := u8 (ix mod 8) in
  Z.testbit (rd (_RXPDUbuffer p) byteIndex) (Z.of_nat bitIndex).

(** [PDU::getByteLen], [PDU::getLen<T>] and [PDU::getErr]. *)
Definition getByteLen (p : PDU) : nat := _dataLen p.
Definition getLen (sizeofT : nat) (p : PDU) : nat := u8 (_dataLen p / sizeofT).
Definition getErr (p : PDU) : Z := _err p.

(** [PDU::invoke] and [PDU::callCallback] on a PDU that is no ADU. *)
Definition PDU_invoke (isBigEndian : bool) : M PDU Z :=
  invoke PDU_get PDU_put PDU_getSlaveId' PDU_clear' PDU_repeatIfNeeded isBigEndian tt.
Definition PDU_callCallback : M PDU unit :=
  callCallback PDU_get PDU_getSlaveId' PDU_clear' PDU_repeatIfNeeded tt.

(** The value of an [n]-byte unsigned integer whose object representation
    on a little-endian host is [bytes]. *)
Fixpoint le_value (bytes : list Z) : Z :=
  match bytes with
  | [] => 0
  | b :: rest => (b + 256 * le_value rest)%Z
  end.

(** ** Write requests of the master (ModbusMaster.cpp) *)

(** [ModbusMaster::isWriteFunction]. *)
Definition isWriteFunction (functionCode : Z) : bool :=
  (functionCode =? MB_FC_WRITE_SINGLE_COIL)%Z
  || (functionCode =? MB_FC_WRITE_SINGLE_REGISTER)%Z
  || (functionCode =? MB_FC_WRITE_MULTIPLE_COILS)%Z
  || (functionCode =? MB_FC_WRITE_MULTIPLE_REGISTERS)%Z
  || (functionCode =? MB_FC_MASK_WRITE_REGISTER)%Z.

Section ModbusMasterWrites.

Context {W H : Type}.
Variable get : H -> W -> PDU.
Variable put : H -> PDU -> W -> W.
Variable getSlaveId : H -> W -> nat.
Variable clear : H -> M W unit.
Variable getFreePDU : modbusCallback -> nat -> M W (option H).
Variable getFreePDU_slaves : modbusCallback -> Slaves.t -> M W (option H).
Variable sendPDU : H -> nat -> M W bool.

(** [ModbusMaster::writeSingleCoil(uint8_t slave, ...)]. *)
Definition writeSingleCoil (slave : nat) (address : Z) (value : bool)
    (cb : modbusCallback) : M W unit :=
  if (slave =? 0) && negb (isWriteFunction MB_FC_WRITE_SINGLE_COIL)
  then reject slave MB_EX_LIB_INVALID_SLAVE cb else
  pdu <- getFreePDU cb slave ;;
  match pdu with
  | None => mret tt
  | Some pdu =>
    e <- build get put pdu (createWriteSingleCoil address value cb) ;;
    finish get getSlaveId clear sendPDU pdu e slave cb
  end.

(** [ModbusMaster::writeSingleCoil(const Slaves& slaves, ...)]: the set is
    passed by reference to const, so [slaves.getActive()] reads the cursor
    of the caller's object. *)
Definition writeSingleCoil_slaves (slaves : Slaves.t) (address : Z) (value : bool)
    (cb : modbusCallback) : M W unit :=
  pdu <- getFreePDU_slaves cb slaves ;;
  match pdu with
  | None => mret tt
  | Some pdu =>
    e <- build get put pdu (createWriteSingleCoil address value cb) ;;
    finish get getSlaveId clear sendPDU pdu e (Slaves.getActive slaves) cb
  end.

End ModbusMasterWrites.

(** The requests of the RTU master. *)
Definition RTU_readHoldingRegisters (crc16 : list Z -> Z) (fuel : nat)
    (sizeofT slave : nat) (addr : Z) (count : nat) (cb : modbusCallback)
    : M ModbusRTUMaster unit :=
  readHoldingRegisters RTU_get RTU_put RTU_getSlaveId RTU_clear RTU_getFreePDU
    (RTU_sendPDU crc16 (RTU_callCallback crc16 fuel)) sizeofT slave addr count cb.

Definition RTU_writeSingleCoil (crc16 : list Z -> Z) (fuel : nat)
    (slave : nat) (address : Z) (value : bool) (cb : modbusCallback)
    : M ModbusRTUMaster unit :=
  writeSingleCoil RTU_get RTU_put RTU_getSlaveId RTU_clear RTU_getFreePDU
    (RTU_sendPDU crc16 (RTU_callCallback crc16 fuel)) slave address value cb.

Definition RTU_writeSingleCoil_slaves (crc16 : list Z -> Z) (fuel : nat)
    (slaves : Slaves.t) (address : Z) (value : bool) (cb : modbusCallback)
    : M ModbusRTUMaster unit :=
  writeSingleCoil_slaves RTU_get RTU_put RTU_getSlaveId RTU_clear RTU_getFreePDU_slaves
    (RTU_sendPDU crc16 (RTU_callCallback crc16 fuel)) slaves address value cb.

(** The pool of a master as [begin] allocates it: [_queueSize] ADUs, each
    with frames for its PDU size and a response head of eight bytes. *)
Definition pool_ok (m : ModbusRTUMaster) : Prop :=
  length (_adu m) = _queueSize m
  /\ forall i, i < _queueSize m ->
       5 <= _PDUSize (RTU_get i m) <= 255
       /\ length (_TXPDUbuffer (RTU_get i m)) = _PDUSize (RTU_get i m) + MB_ADU_RTU_CRC_LEN
       /\ length (_PDUresponseHead (RTU_get i m)) = MB_PDU_MAX_RESPONSE_LEN.

(** The assignments of [getFreePDU(cb, slave)] and of
    [getFreePDU(cb, slaves)] on the ADU handed out, and those of [sendPDU]
    before the ADU is queued. *)
Definition taken (cb : modbusCallback) (slave : nat) (a : ADURTU) : ADURTU :=
  with_pdu (set_slave slave (set_callback cb (set_used true (adu_pdu a))))
    (with_slaves (Slaves.clear (_slaves a)) a).

Definition taken_slaves (cb : modbusCallback) (slaves : Slaves.t) (a : ADURTU) : ADURTU :=
  with_slaves (Slaves.getNext slaves).2
    (with_pdu (set_callback cb (set_used true (adu_pdu a))) a).

Definition framed (crc16 : list Z -> Z) (slave : nat) (a : ADURTU) : ADURTU :=
  with_responseLen 0 (setCRC crc16 (setHead slave a)).

(** ** Checks of a response (ADURTU.cpp) and their use in [loop] *)

Definition MB_EX_LIB_RESPONSE_TIMEOUT : Z := 14.
Definition MB_EX_LIB_CRC : Z := 25.

(** [ADURTU::checkResponseHead]; [callCallback] is the member function of
    the ADU. *)
Definition ADURTU_checkResponseHead (callCallback : nat -> M ModbusRTUMaster unit)
    (this : nat) : M ModbusRTUMaster bool :=
  a <- gets (adu_at this) ;;
  if (_RXhead a =? _responseRTUHead0 a)%Z then mret true else
  on_adu this (fun a => with_pdu (set_err MB_EX_LIB_INVALID_SLAVE (adu_pdu a)) a) ;;;
  callCallback this ;;;
  mret false.

(** [ADURTU::checkResponseCRC].  [crc16Check] of Crc16.cpp, of which
    Crc16.h holds the declaration only, is a parameter as [crc16] is: it
    tells whether the last two of the first [length] bytes of [msg] are the
    checksum of the bytes before them. *)
Definition ADURTU_checkResponseCRC (crc16Check : list Z -> nat -> bool)
    (callCallback : nat -> M ModbusRTUMaster unit)
    (this : nat) : M ModbusRTUMaster bool :=
  a <- gets (adu_at this) ;;
  if crc16Check (_RXADURTUframe a) (_responseLen a) then mret true else
  on_adu this (fun a => with_pdu (set_err MB_EX_LIB_CRC (adu_pdu a)) a) ;;;
  callCallback this ;;;
  mret false.

(** The IDLE state of [ModbusRTUMaster::loop] from the point where
    [readReady] has handed out the ADU [cur]: the frame is written, and a
    frame to slave 0 is answered by no one, so its callback is called at
    once and there is no current ADU any more; for another slave [cur] stays
    the current ADU, whose response is awaited. *)
Definition loop_send (crc16 : list Z -> Z) (fuel : nat) (cur : nat)
    : M ModbusRTUMaster (option nat) :=
  a <- gets (adu_at cur) ;;
  RTU_send (_TXADURTUframe a) (getTXADULen a) ;;;
  if ADURTU_getSlaveId a =? 0 then
    RTU_callCallback crc16 fuel cur ;;; mret None
  else mret (Some cur).

(** The HEADCHEKD state of [ModbusRTUMaster::loop] from the point where
    the response of the current ADU [cur] is complete, without the stream
    and the state variable: when [checkResponseCRC] fails, [loop] calls
    [callCallback] itself as well; otherwise the response goes to
    [invoke]. *)
Definition loop_response_complete (crc16 : list Z -> Z)
    (crc16Check : list Z -> nat -> bool) (isBigEndian : bool) (fuel : nat) (cur : nat)
    : M ModbusRTUMaster unit :=
  ok <- ADURTU_checkResponseCRC crc16Check (RTU_callCallback crc16 fuel) cur ;;
  if negb ok then RTU_callCallback crc16 fuel cur
  else RTU_invoke crc16 isBigEndian fuel cur ;;; mret tt.

(** The assignments of [repeatIfNeeded] and of [sendPDU] on an ADU whose
    slave set yields a further ID at the time [now]. *)
Definition requeued (crc16 : list Z -> Z) (now : Z) (a : ADURTU) : ADURTU :=
  let prev := Slaves.getActive (_slaves a) in
  let next := (Slaves.getNext (_slaves a)).1 in
  let sl := (Slaves.getNext (_slaves a)).2 in
  framed crc16 next
    (with_pdu
       (set_delayToSend
          (to_u32 (if (next <? prev) || (prev =? next)
                   then Slaves.getRepeatDelay sl else Slaves.getDelay sl))
          (set_queuedTime now (adu_pdu a)))
       (with_slaves sl a)).

(** The assignments of [repeatIfNeeded] and of [clear] on an ADU whose
    slave set is exhausted. *)
Definition retired (a : ADURTU) : ADURTU :=
  ADURTU_clear (with_slaves (Slaves.getNext (_slaves a)).2 a).

(** * Properties *)

(** ** Register packing of one 32-bit element *)

Example pack_little : pack_u32 false 0x11223344 = (true, Some [0x33; 0x44; 0x11; 0x22]%Z).
Proof. vm_compute. reflexivity. Qed.
Example pack_big : pack_u32 true 0x11223344 = (true, Some [0x11; 0x22; 0x33; 0x44]%Z).
Proof. vm_compute. reflexivity. Qed.

(** The bytes of 0x11223344 as the two hosts hold it. *)
Example host_bytes_little : host_bytes false 4 0x11223344 = [0x44; 0x33; 0x22; 0x11]%Z.
Proof. reflexivity. Qed.
Example host_bytes_big : host_bytes true 4 0x11223344 = [0x11; 0x22; 0x33; 0x44]%Z.
Proof. reflexivity. Qed.

(** C1, as stated, fails: on a little-endian host the packed bytes of
    0x11223344 are not 11 22 33 44, so it is not true that both hosts
    produce that byte sequence together with their register pairs. *)
Lemma C1_wire_bytes_depend_on_host :
  ~ (forall isBigEndian : bool,
       exists wire : list Z,
         pack_u32 isBigEndian 0x11223344 = (true, Some wire)
         /\ registers_of wire
            = (if isBigEndian then [0x1122; 0x3344] else [0x3344; 0x1122])%Z
         /\ wire = [0x11; 0x22; 0x33; 0x44]%Z).
Proof.
  intros Hall. destruct (Hall false) as (wire & Hpack & _ & Hwire).
  subst wire. vm_compute in Hpack. discriminate Hpack.
Qed.

(** C1 (amended): packing the single 4-byte element 0x11223344 into any
    destination of at least four bytes succeeds on either host; the two
    registers are 0x3344, 0x1122 on a little-endian host and 0x1122, 0x3344
    on a big-endian host, and the four bytes written are 33 44 11 22 on the
    little-endian host and 11 22 33 44 on the big-endian one.  The rest of
    the destination is left alone. *)
Theorem C1_pack_u32_registers (isBigEndian : bool) (dest : list Z) (destLen : nat) :
  4 <= destLen ->
  destLen <= length dest ->
  let wire := (if isBigEndian then [0x11; 0x22; 0x33; 0x44]
               else [0x33; 0x44; 0x11; 0x22])%Z in
  convertToBigEndianRegisters isBigEndian (Some (host_bytes isBigEndian 4 0x11223344))
    1 4 (Some dest) destLen = (true, Some (wire ++ drop 4 dest))
  /\ registers_of wire = (if isBigEndian then [0x1122; 0x3344] else [0x3344; 0x1122])%Z.
Proof.
  intros Hlen Hdest wire. split.
  - unfold convertToBigEndianRegisters.
    change (4 =? 0) with false. cbv iota.
    change (u16 (1 * paddedSizeOf 4)) with 4.
    destruct (Nat.ltb_spec destLen 4) as [Hlt | _]; [lia |].
    destruct dest as [| b0 [| b1 [| b2 [| b3 rest]]]]; simpl in Hdest; try lia.
    destruct isBigEndian; reflexivity.
  - destruct isBigEndian; reflexivity.
Qed.

Lemma C1_pack_u32_registers_witness :
  convertToBigEndianRegisters false (Some (host_bytes false 4 0x11223344))
    1 4 (Some (replicate 6 0%Z)) 5
  = (true, Some ([0x33; 0x44; 0x11; 0x22] ++ drop 4 (replicate 6 0))%Z)
  /\ registers_of [0x33; 0x44; 0x11; 0x22]%Z = [0x3344; 0x1122]%Z.
Proof.
  apply (C1_pack_u32_registers false (replicate 6 0%Z) 5); simpl; lia.
Defined.

(** ** Reading a value of the data region *)

Lemma size_t_small (size_bits z : Z) :
  (16 <= size_bits)%Z -> (0 <= z < 65536)%Z -> (z mod 2 ^ size_bits = z)%Z.
Proof.
  intros Hb Hz. apply Z.mod_small.
  assert (2 ^ 16 <= 2 ^ size_bits)%Z by (apply Z.pow_le_mono_r; lia).
  change (2 ^ 16)%Z with 65536%Z in *. lia.
Qed.

Lemma read_bytes_in_range (l : list Z) (off n : nat) :
  off + n <= length l ->
  exists v, read_bytes l off n = Some v /\ length v = n.
Proof.
  intros Hle. unfold read_bytes.
  destruct (Nat.leb_spec (off + n) (length l)) as [_ | Hgt]; [| lia].
  eexists; split; [reflexivity |].
  rewrite length_take, length_drop. lia.
Qed.

(** C10: [getData<T>(ix)] always returns a value, never reads a byte beyond
    the [_PDUSize] bytes of the receive buffer, and returns the zero value
    of [T] whenever [_dataBegin + ix * sizeof(T) + sizeof(T)] exceeds
    [_PDUSize] or [ix >= _dataLen / sizeof(T)]. *)
Theorem C10_getData_total_and_in_bounds
    (size_bits : Z) (sizeofT : nat) (p : PDU) (ix : nat) :
  (16 <= size_bits)%Z ->
  1 <= sizeofT ->
  _dataBegin p <= 255 ->
  _dataLen p <= 255 ->
  _PDUSize p <= length (_RXPDUbuffer p) ->
  (exists v, getData size_bits sizeofT p ix = Some v /\ length v = sizeofT
             /\ (v = replicate sizeofT 0%Z
                 \/ _dataBegin p + ix * sizeofT + sizeofT <= _PDUSize p
                    /\ v = take sizeofT (drop (_dataBegin p + ix * sizeofT) (_RXPDUbuffer p))))
  /\ (_PDUSize p < _dataBegin p + ix * sizeofT + sizeofT \/ _dataLen p / sizeofT <= ix ->
      getData size_bits sizeofT p ix = Some (replicate sizeofT 0%Z)).
Proof.
  intros Hbits Hsz Hbegin Hlen Hbuf.
  assert (Hq : (Z.of_nat (_dataLen p) / Z.of_nat sizeofT
                = Z.of_nat (_dataLen p / sizeofT))%Z).
  { rewrite Nat2Z.inj_div. reflexivity. }
  assert (Hqle : _dataLen p / sizeofT <= _dataLen p).
  { apply Nat.Div0.div_le_upper_bound. nia. }
  assert (Hqs : ((Z.of_nat (_dataLen p) / Z.of_nat sizeofT) mod 2 ^ size_bits
                 = Z.of_nat (_dataLen p / sizeofT))%Z).
  { rewrite Hq. apply size_t_small; lia. }
  unfold getData. cbv zeta. rewrite Hqs.
  destruct (Z.geb_spec (Z.of_nat ix) (Z.of_nat (_dataLen p / sizeofT))) as [Hge | Hlt].
  - rewrite orb_true_r. split.
    + eexists; split; [reflexivity |]. rewrite length_replicate. auto.
    + intros _. reflexivity.
  - rewrite orb_false_r.
    assert (Hix : ix < _dataLen p / sizeofT) by lia.
    assert (Hmul : ix * sizeofT <= _dataLen p).
    { pose proof (Nat.Div0.mul_div_le (_dataLen p) sizeofT). nia. }
    assert (HszLe : sizeofT <= 255).
    { destruct (Nat.le_gt_cases sizeofT 255) as [|Hbig]; [assumption|].
      rewrite Nat.div_small in Hix by lia. lia. }
    assert (Hprod : ((Z.of_nat ix * Z.of_nat sizeofT) mod 2 ^ size_bits
                     = Z.of_nat (ix * sizeofT))%Z).
    { rewrite <- Nat2Z.inj_mul. apply size_t_small; lia. }
    rewrite Hprod.
    assert (Hoff : ((Z.of_nat (_dataBegin p) + Z.of_nat (ix * sizeofT)) mod 65536
                    = Z.of_nat (_dataBegin p + ix * sizeofT))%Z).
    { rewrite <- Nat2Z.inj_add. apply Z.mod_small. lia. }
    rewrite Hoff.
    assert (Hend : ((Z.of_nat (_dataBegin p + ix * sizeofT) + Z.of_nat sizeofT)
                      mod 2 ^ size_bits
                    = Z.of_nat (_dataBegin p + ix * sizeofT + sizeofT))%Z).
    { rewrite <- Nat2Z.inj_add. apply size_t_small; lia. }
    rewrite Hend.
    destruct (Z.gtb_spec (Z.of_nat (_dataBegin p + ix * sizeofT + sizeofT))
                (Z.of_nat (_PDUSize p))) as [Hover | Hfit].
    + split.
      * eexists; split; [reflexivity |]. rewrite length_replicate. auto.
      * intros _. reflexivity.
    + split.
      * destruct (read_bytes_in_range (_RXPDUbuffer p) (_dataBegin p + ix * sizeofT) sizeofT)
          as (v & Hv & Hvl); [lia |].
        exists v. split; [exact Hv |]. split; [exact Hvl |].
        right. split; [lia |].
        unfold read_bytes in Hv.
        destruct (_ <=? _) in Hv; congruence.
      * intros [Hcontra | Hcontra]; lia.
Qed.

Lemma C10_getData_total_and_in_bounds_witness :
  let p := set_dataLen 2 (set_dataBegin 2
             (mkPDU None [] [3; 2; 0x12; 0x34; 0; 0]%Z 0 [] 0 0 0%Z 0 0 false 4 0%Z 0%Z 1) ) in
  (exists v, getData 16 2 p 0 = Some v /\ length v = 2
             /\ (v = replicate 2 0%Z
                 \/ _dataBegin p + 0 * 2 + 2 <= _PDUSize p
                    /\ v = take 2 (drop (_dataBegin p + 0 * 2) (_RXPDUbuffer p))))
  /\ (_PDUSize p < _dataBegin p + 0 * 2 + 2 \/ _dataLen p / 2 <= 0 ->
      getData 16 2 p 0 = Some (replicate 2 0%Z)).
Proof.
  intro p.
  apply (C10_getData_total_and_in_bounds 16 2 p 0); simpl; lia.
Defined.

(** ** Reads addressed to slave 0 *)

(** The read operations carry exactly the function codes of the read set. *)
Lemma function_code_read_set (c : read_call) :
  In (function_code c) [0x01; 0x02; 0x03; 0x04; 0x07; 0x17]%Z.
Proof. destruct c; simpl; tauto. Qed.

(** C4: whichever master implements [getFreePDU] and [sendPDU], a
    single-slave read request (function code 0x01, 0x02, 0x03, 0x04, 0x07 or
    0x17) addressed to slave 0 calls the callback once, before returning,
    on a synthesized PDU whose error is INVALID_SLAVE (17), and leaves the
    master as it was: no ADU is taken, nothing is queued, nothing is
    written. *)
Theorem C4_read_to_slave_zero_is_rejected
    {W H : Type} (get : H -> W -> PDU) (put : H -> PDU -> W -> W)
    (getSlaveId : H -> W -> nat) (clear : H -> M W unit)
    (getFreePDU : modbusCallback -> nat -> M W (option H))
    (sendPDU : H -> nat -> M W bool) (isBigEndian : bool)
    (c : read_call) (f : nat) (w : W) :
  In (function_code c) [0x01; 0x02; 0x03; 0x04; 0x07; 0x17]%Z
  /\ exists ret : PDU,
       issue get put getSlaveId clear getFreePDU sendPDU isBigEndian c 0 (Some f) w
       = ([EvCallback f ret 0xFF], Some (tt, w))
       /\ _err ret = MB_EX_LIB_INVALID_SLAVE
       /\ _err ret = 17%Z
       /\ _slave ret = 0
       /\ _dataLen ret = 0
       /\ ret = set_err MB_EX_LIB_INVALID_SLAVE (PDU_of_slave 0).
Proof.
  split; [apply function_code_read_set |].
  exists (set_err MB_EX_LIB_INVALID_SLAVE (PDU_of_slave 0)).
  split; [destruct c; reflexivity |].
  repeat split.
Qed.

(** For the RTU master in particular: pool, queue and stream are untouched. *)
Corollary read_to_slave_zero_rtu
    (crc16 : list Z -> Z) (fuel : nat) (isBigEndian : bool)
    (c : read_call) (f : nat) (m : ModbusRTUMaster) :
  exists ret m',
    issue RTU_get RTU_put RTU_getSlaveId RTU_clear RTU_getFreePDU
      (RTU_sendPDU crc16 (RTU_callCallback crc16 fuel)) isBigEndian c 0 (Some f) m
    = ([EvCallback f ret 0xFF], Some (tt, m'))
    /\ _err ret = 17%Z
    /\ _adu m' = _adu m /\ _queue m' = _queue m /\ written m' = written m.
Proof.
  exists (set_err MB_EX_LIB_INVALID_SLAVE (PDU_of_slave 0)), m.
  split; [destruct c; reflexivity | repeat split].
Qed.

(** ** Byte and frame timeouts *)

Example timeouts_9600_8N1 :
  calcTimeout (uart_data Mode_8N1) (uart_parity Mode_8N1) (uart_stop Mode_8N1)
    (timing_of_baud 9600)
  = Some (mkTiming 9600 1561 3643 0)%Z.
Proof. reflexivity. Qed.

Example timeouts_115200_8N1 :
  calcTimeout (uart_data Mode_8N1) (uart_parity Mode_8N1) (uart_stop Mode_8N1)
    (timing_of_baud 115200)
  = Some (mkTiming 115200 750 1750 0)%Z.
Proof. reflexivity. Qed.

(** With fewer bits per second than bits per character the quotient
    [baud / bits] is zero and the character time is a division by zero. *)
Example timeouts_baud_5 : calcTimeout 8 0 1 (timing_of_baud 5) = None.
Proof. reflexivity. Qed.

(** C8, as stated, fails: at 9600 baud, 8N1, the character time is 1041 us
    and the byte and frame timeouts are 1561 and 3643 us, which are not 1.5
    and 3.5 times 1041. *)
Lemma C8_timeouts_are_truncated :
  ~ (forall (baud data parity stopBit : Z),
       (0 < baud <= 19200)%Z -> (0 <= data <= 255)%Z ->
       (0 <= parity <= 255)%Z -> (0 <= stopBit <= 255)%Z ->
       exists t',
         calcTimeout data parity stopBit (timing_of_baud baud) = Some t'
         /\ (2 * _byteTimeout t' = 3 * (1000000 / (baud / (1 + data + parity + stopBit))))%Z
         /\ (2 * _frameTimeout t' = 7 * (1000000 / (baud / (1 + data + parity + stopBit))))%Z).
Proof.
  intros Hall.
  destruct (Hall 9600 8 0 1)%Z as (t' & Hcalc & Hbyte & _); try lia.
  vm_compute in Hcalc. injection Hcalc as <-.
  vm_compute in Hbyte. discriminate Hbyte.
Qed.

(** C8 (amended): for a baud rate of at most 19200 that is not below the
    number of bits per character, with character time
    [c = 1000000 / (baud / (1 + data + parity + stop))] in whole
    microseconds, the byte timeout is the whole part of [1.5 c] and the
    frame timeout the whole part of [3.5 c]; above 19200 baud they are
    exactly 750 and 1750 microseconds. *)
Theorem C8_calcTimeout (t : Timing) (data parity stopBit : Z) :
  (0 <= _baud t < 4294967296)%Z ->
  (0 <= data <= 255)%Z -> (0 <= parity <= 255)%Z -> (0 <= stopBit <= 255)%Z ->
  let bits := (1 + data + parity + stopBit)%Z in
  let c := (1000000 / (_baud t / bits))%Z in
  ((_baud t <= 19200)%Z -> (bits <= _baud t)%Z ->
   exists t',
     calcTimeout data parity stopBit t = Some t'
     /\ _byteTimeout t' = (3 * c / 2)%Z
     /\ _frameTimeout t' = (7 * c / 2)%Z
     /\ (2 * _byteTimeout t' <= 3 * c < 2 * _byteTimeout t' + 2)%Z
     /\ (2 * _frameTimeout t' <= 7 * c < 2 * _frameTimeout t' + 2)%Z)
  /\ ((19200 < _baud t)%Z ->
      exists t',
        calcTimeout data parity stopBit t = Some t'
        /\ _byteTimeout t' = 750%Z /\ _frameTimeout t' = 1750%Z).
Proof.
  intros Hbaud Hdata Hparity Hstop bits c. split.
  - intros Hlow Hbits.
    assert (Hbits1 : (1 <= bits)%Z) by (unfold bits; lia).
    assert (Hq : (1 <= _baud t / bits)%Z).
    { apply Z.div_le_lower_bound; lia. }
    assert (Hc : (0 <= c <= 1000000)%Z).
    { unfold c. split.
      - apply Z.div_pos; lia.
      - apply Z.div_le_upper_bound; lia. }
    unfold calcTimeout. cbn [_baud _byteTimeout _frameTimeout _lastByteTime].
    destruct (Z.leb_spec (_baud t) 19200) as [_ | ?]; [| lia].
    replace (data + 1 + parity + stopBit)%Z with bits by (unfold bits; lia).
    destruct (Z.eqb_spec (_baud t / bits) 0) as [? | _]; [lia |].
    fold c.
    assert (Hcu : to_u32 c = c) by (apply Z.mod_small; lia).
    rewrite Hcu. unfold scale_double.
    assert (H3 : (0 <= c * 3 / 2 <= 1500000)%Z).
    { split; [apply Z.div_pos; lia | apply Z.div_le_upper_bound; lia]. }
    assert (H7 : (0 <= c * 7 / 2 <= 3500000)%Z).
    { split; [apply Z.div_pos; lia | apply Z.div_le_upper_bound; lia]. }
    eexists. split; [reflexivity |].
    cbn [_byteTimeout _frameTimeout].
    unfold to_u32. rewrite !Z.mod_small by lia.
    rewrite (Z.mul_comm 3 c), (Z.mul_comm 7 c).
    repeat split; try reflexivity.
    + apply Z.mul_div_le; lia.
    + pose proof (Z.mod_pos_bound (c * 3) 2 ltac:(lia)).
      pose proof (Z.div_mod (c * 3) 2 ltac:(lia)). lia.
    + apply Z.mul_div_le; lia.
    + pose proof (Z.mod_pos_bound (c * 7) 2 ltac:(lia)).
      pose proof (Z.div_mod (c * 7) 2 ltac:(lia)). lia.
  - intros Hhigh. unfold calcTimeout. cbn [_baud _byteTimeout _frameTimeout _lastByteTime].
    destruct (Z.leb_spec (_baud t) 19200) as [? | _]; [lia |].
    eexists. split; [reflexivity |]. split; reflexivity.
Qed.

Lemma C8_calcTimeout_witness :
  (exists t',
     calcTimeout 8 0 1 (timing_of_baud 9600) = Some t'
     /\ _byteTimeout t' = (3 * (1000000 / (9600 / (1 + 8 + 0 + 1))) / 2)%Z
     /\ _frameTimeout t' = (7 * (1000000 / (9600 / (1 + 8 + 0 + 1))) / 2)%Z
     /\ (2 * _byteTimeout t' <= 3 * (1000000 / (9600 / (1 + 8 + 0 + 1)))
         < 2 * _byteTimeout t' + 2)%Z
     /\ (2 * _frameTimeout t' <= 7 * (1000000 / (9600 / (1 + 8 + 0 + 1)))
         < 2 * _frameTimeout t' + 2)%Z)
  /\ (exists t',
        calcTimeout 8 0 1 (timing_of_baud 115200) = Some t'
        /\ _byteTimeout t' = 750%Z /\ _frameTimeout t' = 1750%Z).
Proof.
  split.
  - apply (C8_calcTimeout (timing_of_baud 9600) 8 0 1); simpl; lia.
  - apply (C8_calcTimeout (timing_of_baud 115200) 8 0 1); simpl; lia.
Defined.

(** ** Exception responses and wrong function codes *)

Lemma mbind_gets {W A B} (f : W -> A) (k : A -> M W B) (w : W) :
  mbind (gets f) k w = k (f w) w.
Proof. unfold mbind, gets. destruct (k (f w) w). reflexivity. Qed.

Lemma mbind_modify {W B} (f : W -> W) (k : unit -> M W B) (w : W) :
  mbind (modify f) k w = k tt (f w).
Proof. unfold mbind, modify. destruct (k tt (f w)). reflexivity. Qed.

Lemma mbind_mret {W A B} (a : A) (k : A -> M W B) (w : W) :
  mbind (mret a) k w = k a w.
Proof. unfold mbind, mret. destruct (k a w). reflexivity. Qed.

Lemma mbind_emit {W B} (t : list event) (k : unit -> M W B) (w : W) :
  mbind (emit t) k w = (t ++ (k tt w).1, (k tt w).2).
Proof. unfold mbind, emit. destruct (k tt w). reflexivity. Qed.

Lemma mbind_then_gets_trace {W A B} (m : M W A) (f : W -> B) (w : W) :
  (mbind m (fun _ => gets f) w).1 = (m w).1.
Proof.
  unfold mbind, gets. destruct (m w) as [t [[a w1] |]]; simpl; [| reflexivity].
  apply app_nil_r.
Qed.

Section InvokeTrace.

Context {W H : Type}.
Variable get : H -> W -> PDU.
Variable put : H -> PDU -> W -> W.
Variable getSlaveId : H -> W -> nat.
Variable clear : H -> M W unit.
Variable repeatIfNeeded : H -> M W bool.
Variable isBigEndian : bool.
Variable this : H.

(** The worlds in which [this] points to an object. *)
Variable Inv : W -> Prop.
Hypothesis Inv_put : forall p w, Inv w -> Inv (put this p w).
Hypothesis get_put : forall p w, Inv w -> get this (put this p w) = p.

Lemma callCallback_fires (w : W) (f : nat) :
  _callback (get this w) = Some f ->
  exists rest,
    (callCallback get getSlaveId clear repeatIfNeeded this w).1
    = EvCallback f (get this w) (getSlaveId this w) :: rest.
Proof.
  intros Hcb. unfold callCallback. rewrite mbind_gets, Hcb. cbn [cb_valid].
  unfold call_callback at 1. unfold mbind at 1. rewrite Hcb. cbn [call emit].
  match goal with
  | |- context [mbind ?m ?k w] => destruct (mbind m k w) as [t r]
  end.
  exists t. reflexivity.
Qed.

Lemma on_pdu_then_callCallback (F : PDU -> PDU) (w : W) (f : nat) :
  Inv w ->
  _callback (F (get this w)) = Some f ->
  exists sid rest,
    (mbind (on_pdu get put this F)
       (fun _ => callCallback_return get getSlaveId clear repeatIfNeeded this) w).1
    = EvCallback f (F (get this w)) sid :: rest.
Proof.
  intros Hinv Hcb. unfold on_pdu. rewrite mbind_modify.
  unfold callCallback_return. rewrite mbind_then_gets_trace.
  destruct (callCallback_fires (put this (F (get this w)) w) f) as [rest Hrest].
  { rewrite get_put by assumption. exact Hcb. }
  rewrite get_put in Hrest by assumption.
  eauto.
Qed.

Lemma invoke_exception (w : W) (f : nat) :
  Inv w ->
  _err (get this w) = 0%Z ->
  _callback (get this w) = Some f ->
  rd (_RXPDUbuffer (get this w)) 0 = (rd (_PDUresponseHead (get this w)) 0 + 0x80)%Z ->
  exists view sid rest,
    (invoke get put getSlaveId clear repeatIfNeeded isBigEndian this w).1
    = EvCallback f view sid :: rest
    /\ _err view = rd (_RXPDUbuffer (get this w)) 1
    /\ _dataBegin view = 0 /\ _dataLen view = 0.
Proof.
  intros Hinv Herr Hcb Hexc. unfold invoke. rewrite mbind_gets. cbv zeta.
  rewrite Herr. cbn [Z.eqb negb].
  unfold on_pdu at 1. rewrite mbind_modify.
  rewrite Hexc, Z.eqb_refl.
  edestruct on_pdu_then_callCallback as (sid & rest & Htrace);
    [| | rewrite Htrace].
  - apply Inv_put, Hinv.
  - rewrite get_put by assumption. exact Hcb.
  - rewrite get_put by assumption. eexists _, sid, rest.
    split; [reflexivity |]. repeat split.
Qed.

Lemma invoke_wrong_function (w : W) (f : nat) :
  Inv w ->
  _err (get this w) = 0%Z ->
  _callback (get this w) = Some f ->
  rd (_RXPDUbuffer (get this w)) 0 <> (rd (_PDUresponseHead (get this w)) 0 + 0x80)%Z ->
  rd (_RXPDUbuffer (get this w)) 0 <> rd (_PDUresponseHead (get this w)) 0 ->
  exists view sid rest,
    (invoke get put getSlaveId clear repeatIfNeeded isBigEndian this w).1
    = EvCallback f view sid :: rest
    /\ _err view = MB_EX_LIB_INVALID_FUNCTION
    /\ _dataBegin view = 0 /\ _dataLen view = 0.
Proof.
  intros Hinv Herr Hcb Hexc Hfn. unfold invoke. rewrite mbind_gets. cbv zeta.
  rewrite Herr. cbn [Z.eqb negb].
  unfold on_pdu at 1. rewrite mbind_modify.
  destruct (Z.eqb_spec (rd (_RXPDUbuffer (get this w)) 0)
              (rd (_PDUresponseHead (get this w)) 0 + 128)) as [? | _]; [contradiction |].
  destruct (Z.eqb_spec (rd (_RXPDUbuffer (get this w)) 0)
              (rd (_PDUresponseHead (get this w)) 0)) as [? | _]; [contradiction |].
  cbn [negb].
  edestruct on_pdu_then_callCallback as (sid & rest & Htrace);
    [| | rewrite Htrace].
  - apply Inv_put, Hinv.
  - rewrite get_put by assumption. exact Hcb.
  - rewrite get_put by assumption. eexists _, sid, rest.
    split; [reflexivity |]. repeat split.
Qed.

End InvokeTrace.

Lemma RTU_get_put (this : nat) (p : PDU) (m : ModbusRTUMaster) :
  this < length (_adu m) -> RTU_get this (RTU_put this p m) = p.
Proof.
  intros Hlt. unfold RTU_get, RTU_put, adu_at. cbn [_adu with_adu].
  rewrite list_lookup_insert_eq by assumption. reflexivity.
Qed.

Lemma RTU_put_length (this : nat) (p : PDU) (m : ModbusRTUMaster) :
  length (_adu (RTU_put this p m)) = length (_adu m).
Proof. unfold RTU_put. cbn [_adu with_adu]. apply length_insert. Qed.

(** The request of the exchange as it is queued: slave 1, function 0x03,
    address 0, one register. *)
Example read_register_request (crc16 : list Z -> Z) (f : nat) :
  exists m,
    issue RTU_get RTU_put RTU_getSlaveId RTU_clear RTU_getFreePDU
      (RTU_sendPDU crc16 (RTU_callCallback crc16 0)) false
      (ReadHoldingRegisters 2 0%Z 1) 1 (Some f) (RTU_begin 253 5 0%Z)
    = ([], Some (tt, m))
    /\ ADUQueue.live (_queue m) = [Some 0]
    /\ _TXhead (adu_at 0 m) = 1%Z
    /\ _TXPDUbufferLen (RTU_get 0 m) = 5
    /\ _PDUresponseHead (RTU_get 0 m) = [3; 2; 0; 0; 0; 0; 0]%Z
    /\ _expectedResponseLen (RTU_get 0 m) = 4.
Proof.
  eexists. split; [vm_compute; reflexivity |].
  vm_compute. repeat split.
Qed.

(** C3: when [invoke] is handed a response to a request that expects
    function code [fn], with no error recorded and a callback installed: if
    byte 0 of the response is [fn + 0x80] the callback is called with the
    error set to byte 1 of the response and an empty data region; if byte 0
    is neither that nor [fn], the callback is called with INVALID_FUNCTION
    (18).  A read of a holding register answered by the frame
    01 83 02 C0 F1 calls the callback once, with ILLEGAL_DATA_ADDRESS (2). *)
Theorem C3_invoke_exception_and_wrong_function
    (crc16 : list Z -> Z) (isBigEndian : bool) (fuel : nat)
    (this : nat) (m : ModbusRTUMaster) (f : nat) :
  this < length (_adu m) ->
  _err (RTU_get this m) = 0%Z ->
  _callback (RTU_get this m) = Some f ->
  let fn := rd (_PDUresponseHead (RTU_get this m)) 0 in
  let byte0 := rd (_RXPDUbuffer (RTU_get this m)) 0 in
  let byte1 := rd (_RXPDUbuffer (RTU_get this m)) 1 in
  (byte0 = (fn + 0x80)%Z ->
   exists view sid rest,
     (RTU_invoke crc16 isBigEndian fuel this m).1 = EvCallback f view sid :: rest
     /\ _err view = byte1 /\ _dataBegin view = 0 /\ _dataLen view = 0)
  /\ (byte0 <> (fn + 0x80)%Z -> byte0 <> fn ->
      exists view sid rest,
        (RTU_invoke crc16 isBigEndian fuel this m).1 = EvCallback f view sid :: rest
        /\ _err view = MB_EX_LIB_INVALID_FUNCTION /\ _err view = 18%Z
        /\ _dataBegin view = 0 /\ _dataLen view = 0)
  /\ (exists view m',
        read_register_exchange crc16 isBigEndian fuel f [0x01; 0x83; 0x02; 0xC0; 0xF1]%Z
        = ([EvCallback f view 1], Some (0%Z, m'))
        /\ _err view = MB_EX_ILLEGAL_DATA_ADDRESS /\ _err view = 2%Z
        /\ _dataLen view = 0
        /\ _used (RTU_get 0 m') = false).
Proof.
  intros Hthis Herr Hcb fn byte0 byte1.
  pose (Inv := fun w : ModbusRTUMaster => this < length (_adu w)).
  assert (Hput : forall p w, Inv w -> Inv (RTU_put this p w)).
  { intros p w Hw. unfold Inv. rewrite RTU_put_length. exact Hw. }
  assert (Hgp : forall p w, Inv w -> RTU_get this (RTU_put this p w) = p).
  { intros p w Hw. apply RTU_get_put, Hw. }
  split; [| split].
  - intros Hexc.
    destruct (invoke_exception RTU_get RTU_put RTU_getSlaveId RTU_clear
                (ADURTU_repeatIfNeeded crc16 (RTU_callCallback crc16 fuel))
                isBigEndian this Inv Hput Hgp m f Hthis Herr Hcb Hexc)
      as (view & sid & rest & Htrace & Hrest).
    exists view, sid, rest. split; [exact Htrace | exact Hrest].
  - intros Hexc Hfn.
    destruct (invoke_wrong_function RTU_get RTU_put RTU_getSlaveId RTU_clear
                (ADURTU_repeatIfNeeded crc16 (RTU_callCallback crc16 fuel))
                isBigEndian this Inv Hput Hgp m f Hthis Herr Hcb Hexc Hfn)
      as (view & sid & rest & Htrace & He & Hb & Hl).
    exists view, sid, rest. repeat split; assumption.
  - eexists _, _. split; [vm_compute; reflexivity |].
    vm_compute. repeat split.
Qed.


Lemma C3_invoke_exception_and_wrong_function_witness :
  exists view sid rest,
    (RTU_invoke (fun _ => 0%Z) false 0 0 exception_reply_world).1
    = EvCallback 7 view sid :: rest
    /\ _err view = rd (_RXPDUbuffer (RTU_get 0 exception_reply_world)) 1
    /\ _dataBegin view = 0 /\ _dataLen view = 0.
Proof.
  apply (proj1 (C3_invoke_exception_and_wrong_function (fun _ => 0%Z) false 0 0
                  exception_reply_world 7
                  ltac:(vm_compute; lia) ltac:(reflexivity) ltac:(reflexivity))).
  reflexivity.
Defined.

(** ** Slave sets: the bitmap *)

Lemma rd_insert_eq (l : list Z) (i : nat) (v : Z) :
  i < length l -> rd (<[i := v]> l) i = v.
Proof. intros Hlt. unfold rd. rewrite list_lookup_insert_eq by assumption. reflexivity. Qed.

Lemma rd_insert_ne (l : list Z) (i j : nat) (v : Z) :
  i <> j -> rd (<[i := v]> l) j = rd l j.
Proof. intros Hne. unfold rd. rewrite list_lookup_insert_ne by assumption. reflexivity. Qed.

Lemma rd_beyond (l : list Z) (i : nat) : length l <= i -> rd l i = 0%Z.
Proof. intros Hle. unfold rd. rewrite lookup_ge_None_2 by assumption. reflexivity. Qed.

(** Loop invariants: a property that holds before the loop and is kept by
    every pass holds after it. *)
Lemma for_from_ind {St : Type} (P : nat -> St -> Prop) (body : nat -> St -> St) :
  forall n i s,
    P i s ->
    (forall k s', i <= k < i + n -> P k s' -> P (S k) (body k s')) ->
    P (i + n) (for_from i n body s).
Proof.
  induction n as [| n IH]; intros i s Hinit Hstep; cbn [for_from].
  - rewrite Nat.add_0_r. exact Hinit.
  - replace (i + S n) with (S i + n) by lia.
    apply IH.
    + apply Hstep; [lia | exact Hinit].
    + intros k s' Hk. apply Hstep. lia.
Qed.

Lemma for_loop_ind {St : Type} (P : nat -> St -> Prop) (body : nat -> St -> St)
    (n : nat) (s : St) :
  P 0 s ->
  (forall k s', k < n -> P k s' -> P (S k) (body k s')) ->
  P n (for_loop n body s).
Proof.
  intros Hinit Hstep. unfold for_loop.
  apply (for_from_ind P body n 0 s Hinit).
  intros k s' Hk. apply Hstep. lia.
Qed.

(** The test of one bit. *)
Lemma land_bit_eqb (x : Z) (k : nat) :
  (Z.land x (Z.shiftl 1 (Z.of_nat k)) =? 0)%Z = negb (Z.testbit x (Z.of_nat k)).
Proof.
  rewrite Z.shiftl_1_l.
  destruct (Z.testbit x (Z.of_nat k)) eqn:Hbit; cbn [negb].
  - apply Z.eqb_neq. intros Hzero.
    assert (Hk : Z.testbit (Z.land x (2 ^ Z.of_nat k)) (Z.of_nat k) = true).
    { rewrite Z.land_spec, Hbit, Z.pow2_bits_true by lia. reflexivity. }
    rewrite Hzero, Z.bits_0 in Hk. discriminate.
  - apply Z.eqb_eq. apply Z.bits_inj'. intros n Hn.
    rewrite Z.land_spec, Z.bits_0, Z.pow2_bits_eqb by lia.
    destruct (Z.eqb_spec (Z.of_nat k) n) as [<- | _].
    + rewrite Hbit. reflexivity.
    + apply andb_false_r.
Qed.

Lemma testbit_or_bit (b : Z) (k j : nat) :
  Z.testbit (Slaves.or_bit b k) (Z.of_nat j) = Z.testbit b (Z.of_nat j) || (j =? k).
Proof.
  unfold Slaves.or_bit. rewrite Z.lor_spec, Z.shiftl_1_l, Z.pow2_bits_eqb by lia.
  f_equal. destruct (Nat.eqb_spec j k) as [-> | Hne].
  - apply Z.eqb_refl.
  - apply Z.eqb_neq. lia.
Qed.

Lemma testbit_clear_bit (b : Z) (k j : nat) :
  Z.testbit (Slaves.clear_bit b k) (Z.of_nat j) = Z.testbit b (Z.of_nat j) && negb (j =? k).
Proof.
  unfold Slaves.clear_bit.
  rewrite Z.land_spec, Z.lnot_spec, Z.shiftl_1_l, Z.pow2_bits_eqb by lia.
  f_equal. f_equal. destruct (Nat.eqb_spec j k) as [-> | Hne].
  - apply Z.eqb_refl.
  - apply Z.eqb_neq. lia.
Qed.

(** [isSet] is the range check followed by the bit of the bitmap. *)
Lemma isSet_mask_bit (i : nat) (s : Slaves.t) :
  Slaves.isSet i s = (i <=? MB_MAX_SLAVE_ID) && Slaves.mask_bit s i.
Proof.
  unfold Slaves.isSet, Slaves.mask_bit.
  destruct (Nat.ltb_spec MB_MAX_SLAVE_ID i) as [Hgt | Hle].
  - destruct (Nat.leb_spec i MB_MAX_SLAVE_ID); [lia | reflexivity].
  - destruct (Nat.leb_spec i MB_MAX_SLAVE_ID); [| lia].
    rewrite land_bit_eqb, negb_involutive. reflexivity.
Qed.

Lemma isSet_le (i : nat) (s : Slaves.t) : Slaves.isSet i s = true -> i <= 247.
Proof.
  rewrite isSet_mask_bit. intros [Hle _]%andb_true_iff.
  apply Nat.leb_le in Hle. exact Hle.
Qed.

Lemma isSet_with_active (i a : nat) (s : Slaves.t) :
  Slaves.isSet i (Slaves.with_active a s) = Slaves.isSet i s.
Proof. reflexivity. Qed.

(** Position of an ID in the bitmap. *)
Lemma id_split (i k : nat) : i = k <-> i / 8 = k / 8 /\ i mod 8 = k mod 8.
Proof.
  split; [intros ->; split; reflexivity |].
  intros [Hd Hm].
  rewrite (Nat.div_mod_eq i 8), (Nat.div_mod_eq k 8). lia.
Qed.

Lemma mask_bit_set (k i : nat) (s : Slaves.t) :
  k <= 247 -> length (Slaves._mask s) = 32 ->
  Slaves.mask_bit (Slaves.set k s) i = Slaves.mask_bit s i || (i =? k).
Proof.
  intros Hk Hlen. unfold Slaves.set.
  destruct (Nat.ltb_spec MB_MAX_SLAVE_ID k) as [Hgt | _]; [unfold MB_MAX_SLAVE_ID in Hgt; lia |].
  unfold Slaves.mask_bit. cbn [Slaves._mask Slaves.with_mask].
  assert (Hk8 : k / 8 < 32) by (apply Nat.Div0.div_lt_upper_bound; lia).
  destruct (Nat.eq_dec (i / 8) (k / 8)) as [Heq | Hne].
  - rewrite Heq, rd_insert_eq by lia. rewrite testbit_or_bit. f_equal.
    destruct (Nat.eqb_spec (i mod 8) (k mod 8)) as [Hm | Hm];
      destruct (Nat.eqb_spec i k) as [Hik | Hik]; try reflexivity.
    + exfalso. apply Hik. apply id_split. auto.
    + exfalso. apply Hm. subst. reflexivity.
  - rewrite rd_insert_ne by auto.
    destruct (Nat.eqb_spec i k) as [-> | _]; [contradiction |].
    rewrite orb_false_r. reflexivity.
Qed.

Lemma mask_bit_remove (k i : nat) (s : Slaves.t) :
  k <= 247 -> length (Slaves._mask s) = 32 ->
  Slaves.mask_bit (Slaves.remove k s) i = Slaves.mask_bit s i && negb (i =? k).
Proof.
  intros Hk Hlen. unfold Slaves.remove.
  destruct (Nat.ltb_spec MB_MAX_SLAVE_ID k) as [Hgt | _]; [unfold MB_MAX_SLAVE_ID in Hgt; lia |].
  unfold Slaves.mask_bit. cbn [Slaves._mask Slaves.with_mask].
  assert (Hk8 : k / 8 < 32) by (apply Nat.Div0.div_lt_upper_bound; lia).
  destruct (Nat.eq_dec (i / 8) (k / 8)) as [Heq | Hne].
  - rewrite Heq, rd_insert_eq by lia. rewrite testbit_clear_bit. f_equal. f_equal.
    destruct (Nat.eqb_spec (i mod 8) (k mod 8)) as [Hm | Hm];
      destruct (Nat.eqb_spec i k) as [Hik | Hik]; try reflexivity.
    + exfalso. apply Hik. apply id_split. auto.
    + exfalso. apply Hm. subst. reflexivity.
  - rewrite rd_insert_ne by auto.
    destruct (Nat.eqb_spec i k) as [-> | _]; [contradiction |].
    rewrite andb_true_r. reflexivity.
Qed.

(** ** Slave sets: the shape is kept by every operation *)

Lemma mask_shape_insert (m : list Z) (j : nat) (v : Z) :
  j <> 31 -> mask_shape m -> mask_shape (<[j := v]> m).
Proof.
  intros Hj [Hlen H31]. split.
  - rewrite length_insert. exact Hlen.
  - rewrite rd_insert_ne by exact Hj. exact H31.
Qed.

Lemma mask_shape_or_loop (m : list Z) (byte i n : nat) :
  byte <> 31 -> mask_shape m ->
  mask_shape (for_from i n (fun k m' => <[byte := Slaves.or_bit (rd m' byte) k]> m') m).
Proof.
  intros Hb Hm.
  apply (for_from_ind (fun _ m' => mask_shape m')); [exact Hm |].
  intros k m' _ Hm'. apply mask_shape_insert; assumption.
Qed.

Lemma mask_shape_memset (m : list Z) (off n : nat) (v : Z) :
  off + n <= 31 -> mask_shape m -> mask_shape (memset m off v n).
Proof.
  intros Hoff Hm. unfold memset.
  apply (for_loop_ind (fun _ m' => mask_shape m')); [exact Hm |].
  intros k m' Hk Hm'. apply mask_shape_insert; [lia | exact Hm'].
Qed.

Lemma memset_spec (m : list Z) (off n : nat) (v : Z) :
  off + n <= length m ->
  length (memset m off v n) = length m
  /\ forall j, j < n -> rd (memset m off v n) (off + j) = v.
Proof.
  intros Hfit. unfold memset.
  apply (for_loop_ind
           (fun k m' => length m' = length m /\ forall j, j < k -> rd m' (off + j) = v)).
  - split; [reflexivity | intros j Hj; lia].
  - intros k m' Hk [Hlen Hval]. split.
    + rewrite length_insert. exact Hlen.
    + intros j Hj. destruct (Nat.eq_dec j k) as [-> | Hne].
      * apply rd_insert_eq. lia.
      * rewrite rd_insert_ne by lia. apply Hval. lia.
Qed.

Lemma div8_le_30 (k : nat) : k <= 247 -> k / 8 <= 30.
Proof.
  intros Hk. apply Nat.lt_succ_r. apply Nat.Div0.div_lt_upper_bound. lia.
Qed.

Lemma set_shape (k : nat) (s : Slaves.t) : slaves_shape s -> slaves_shape (Slaves.set k s).
Proof.
  intros [Hm Ha]. unfold Slaves.set.
  destruct (Nat.ltb_spec MB_MAX_SLAVE_ID k) as [_ | Hle]; [split; assumption |].
  split; [| exact Ha]. cbn [Slaves._mask Slaves.with_mask].
  apply mask_shape_insert; [| exact Hm].
  pose proof (div8_le_30 k Hle). lia.
Qed.

Lemma remove_shape (k : nat) (s : Slaves.t) :
  slaves_shape s -> slaves_shape (Slaves.remove k s).
Proof.
  intros [Hm Ha]. unfold Slaves.remove.
  destruct (Nat.ltb_spec MB_MAX_SLAVE_ID k) as [_ | Hle]; [split; assumption |].
  split; [| exact Ha]. cbn [Slaves._mask Slaves.with_mask].
  apply mask_shape_insert; [| exact Hm].
  pose proof (div8_le_30 k Hle). lia.
Qed.

Lemma set_range_shape (b e : nat) (s : Slaves.t) :
  slaves_shape s -> slaves_shape (Slaves.set_range b e s).
Proof.
  intros [Hm Ha]. unfold Slaves.set_range.
  destruct (Nat.ltb_spec e b) as [_ | Hbe]; [split; assumption |].
  destruct (Nat.ltb_spec MB_MAX_SLAVE_ID e) as [_ | He]; [split; assumption |].
  cbn [orb].
  pose proof (div8_le_30 e He) as He8.
  assert (Hb8 : b / 8 <= e / 8) by (apply Nat.Div0.div_le_mono; exact Hbe).
  destruct (Nat.eqb_spec (b / 8) (e / 8)) as [Heq | Hne].
  - split; [| exact Ha]. cbn [Slaves._mask Slaves.with_mask].
    apply mask_shape_or_loop; [lia | exact Hm].
  - split; [| exact Ha]. cbn [Slaves._mask Slaves.with_mask].
    apply mask_shape_or_loop; [lia |].
    destruct (Nat.ltb_spec (b / 8 + 1) (e / 8)) as [Hgap | _].
    + apply mask_shape_memset; [lia |].
      apply mask_shape_or_loop; [lia | exact Hm].
    + apply mask_shape_or_loop; [lia | exact Hm].
Qed.

Lemma set_list_shape (l : list nat) (s : Slaves.t) :
  slaves_shape s -> slaves_shape (Slaves.set_list l s).
Proof.
  unfold Slaves.set_list. revert s.
  induction l as [| k l IH]; intros s Hs; cbn [fold_left]; [exact Hs |].
  apply IH, set_shape, Hs.
Qed.

Lemma clear_shape (s : Slaves.t) : slaves_shape s -> slaves_shape (Slaves.clear s).
Proof.
  intros [[Hlen _] _]. unfold Slaves.clear. split; [| left; reflexivity].
  cbn [Slaves._mask].
  destruct (memset_spec (Slaves._mask s) 0 32 0%Z) as [Hl Hv]; [lia |].
  split; [lia |]. apply (Hv 31). lia.
Qed.

(** What a scan finds. *)
Lemma scan_Some (s : Slaves.t) (n i k : nat) :
  Slaves.scan s i n = Some k ->
  i <= k < i + n /\ Slaves.isSet k s = true
  /\ forall j, i <= j < k -> Slaves.isSet j s = false.
Proof.
  revert i. induction n as [| n IH]; intros i Hscan; cbn [Slaves.scan] in Hscan.
  - discriminate.
  - destruct (Slaves.isSet i s) eqn:Hi.
    + injection Hscan as <-. repeat split; [lia | lia | exact Hi | intros j Hj; lia].
    + destruct (IH (S i) Hscan) as (Hrange & Hset & Hbefore).
      repeat split; [lia | lia | exact Hset |].
      intros j Hj. destruct (Nat.eq_dec j i) as [-> | Hne]; [exact Hi |].
      apply Hbefore. lia.
Qed.

Lemma scan_None (s : Slaves.t) (n i : nat) :
  Slaves.scan s i n = None -> forall j, i <= j < i + n -> Slaves.isSet j s = false.
Proof.
  revert i. induction n as [| n IH]; intros i Hscan j Hj; cbn [Slaves.scan] in Hscan.
  - lia.
  - destruct (Slaves.isSet i s) eqn:Hi; [discriminate |].
    destruct (Nat.eq_dec j i) as [-> | Hne]; [exact Hi |].
    apply (IH (S i) Hscan). lia.
Qed.

Lemma getNext_member_or_eof (s : Slaves.t) :
  member_or_eof s (Slaves.getNext s).1.
Proof.
  unfold Slaves.getNext, member_or_eof.
  destruct (Slaves.scan s (Slaves.start_of s) _) as [k |] eqn:Hscan.
  - right. apply scan_Some in Hscan as (_ & Hset & _).
    split; [apply isSet_le in Hset; exact Hset | exact Hset].
  - destruct (Slaves.getRepeat s); [| left; reflexivity].
    destruct (Slaves.scan s 0 _) as [k |] eqn:Hwrap; [| left; reflexivity].
    right. apply scan_Some in Hwrap as (_ & Hset & _).
    split; [apply isSet_le in Hset; exact Hset | exact Hset].
Qed.

Lemma getNext_mask (s : Slaves.t) :
  Slaves._mask (Slaves.getNext s).2 = Slaves._mask s
  /\ Slaves._delay (Slaves.getNext s).2 = Slaves._delay s
  /\ Slaves._repeatDelay (Slaves.getNext s).2 = Slaves._repeatDelay s.
Proof.
  unfold Slaves.getNext.
  destruct (Slaves.scan s (Slaves.start_of s) _); [repeat split |].
  destruct (Slaves.getRepeat s); [| repeat split].
  destruct (Slaves.scan s 0 _); repeat split.
Qed.

Lemma getNext_active (s : Slaves.t) :
  Slaves._active (Slaves.getNext s).2
  = if (Slaves.getNext s).1 =? SLAVE_EOF then Slaves._active s else (Slaves.getNext s).1.
Proof.
  unfold Slaves.getNext.
  destruct (Slaves.scan s (Slaves.start_of s) _) as [k |] eqn:Hscan; cbn [fst snd].
  - apply scan_Some in Hscan as (_ & Hset & _). apply isSet_le in Hset.
    destruct (Nat.eqb_spec k SLAVE_EOF) as [-> | _];
      [unfold SLAVE_EOF in Hset; lia | reflexivity].
  - destruct (Slaves.getRepeat s); [| reflexivity].
    destruct (Slaves.scan s 0 _) as [k |] eqn:Hwrap; cbn [fst snd]; [| reflexivity].
    apply scan_Some in Hwrap as (_ & Hset & _). apply isSet_le in Hset.
    destruct (Nat.eqb_spec k SLAVE_EOF) as [-> | _];
      [unfold SLAVE_EOF in Hset; lia | reflexivity].
Qed.

Lemma getNext_shape (s : Slaves.t) : slaves_shape s -> slaves_shape (Slaves.getNext s).2.
Proof.
  intros [Hm Ha]. split.
  - destruct (getNext_mask s) as (-> & _). exact Hm.
  - rewrite getNext_active.
    destruct (Nat.eqb_spec (Slaves.getNext s).1 SLAVE_EOF) as [_ | Hne]; [exact Ha |].
    destruct (getNext_member_or_eof s) as [? | [Hle _]]; [contradiction | right; exact Hle].
Qed.

Lemma step_shape (s : Slaves.t) (o : Slaves.op) :
  slaves_shape s -> slaves_shape (Slaves.step s o).
Proof.
  intros Hs. destruct o; cbn [Slaves.step].
  - apply set_shape, Hs.
  - apply set_range_shape, Hs.
  - apply set_list_shape, Hs.
  - apply remove_shape, Hs.
  - apply clear_shape, Hs.
  - exact Hs.
  - exact Hs.
  - apply getNext_shape, Hs.
  - destruct Hs as [Hm _]. split; [exact Hm | left; reflexivity].
Qed.

Lemma new_shape : slaves_shape Slaves.new.
Proof. split; [split; reflexivity | left; reflexivity]. Qed.

Lemma run_shape (ops : list Slaves.op) : slaves_shape (Slaves.run ops).
Proof.
  unfold Slaves.run. generalize new_shape. generalize Slaves.new.
  induction ops as [| o ops IH]; intros s Hs; cbn [fold_left]; [exact Hs |].
  apply IH, step_shape, Hs.
Qed.

Lemma mask_bit_reserved (s : Slaves.t) (i : nat) :
  slaves_shape s -> 248 <= i -> Slaves.mask_bit s i = false.
Proof.
  intros [[Hlen H31] _] Hi. unfold Slaves.mask_bit.
  assert (H8 : 31 <= i / 8) by (apply Nat.div_le_lower_bound; lia).
  destruct (Nat.eq_dec (i / 8) 31) as [-> | Hne].
  - rewrite H31. apply Z.bits_0.
  - rewrite rd_beyond by lia. apply Z.bits_0.
Qed.

(** ** Slave sets: what [getNext] and [peek] can return *)

Lemma member_not_sentinel (s : Slaves.t) (r : nat) :
  member_or_eof s r -> r <> SLAVE_NULL /\ r <> SLAVE_BOF.
Proof.
  unfold member_or_eof, SLAVE_NULL, SLAVE_BOF, SLAVE_EOF, MB_MAX_SLAVE_ID.
  intros [-> | [Hle _]]; lia.
Qed.

Lemma peek_wrap_sound (s : Slaves.t) (fuel i k : nat) :
  Slaves.peek_wrap fuel s i = Some (Some k) -> Slaves.isSet k s = true.
Proof.
  revert i. induction fuel as [| fuel IH]; intros i Hpeek; cbn [Slaves.peek_wrap] in Hpeek.
  - discriminate.
  - destruct (i <=? Slaves._active s); [| discriminate].
    destruct (Slaves.isSet i s) eqn:Hi.
    + injection Hpeek as <-. exact Hi.
    + apply (IH _ Hpeek).
Qed.

Lemma peek_fuel_sound (s : Slaves.t) (fuel r : nat) :
  Slaves.peek_fuel fuel s = Some r -> member_or_eof s r.
Proof.
  unfold Slaves.peek_fuel, member_or_eof.
  destruct (Slaves.scan s (Slaves.start_of s) _) as [k |] eqn:Hscan.
  - intros [= <-]. right. apply scan_Some in Hscan as (_ & Hset & _).
    split; [apply (isSet_le _ s), Hset | exact Hset].
  - destruct (Slaves.getRepeat s); [| intros [= <-]; left; reflexivity].
    destruct (Slaves.peek_wrap fuel s 0) as [[k |] |] eqn:Hwrap.
    + intros [= <-]. right. apply peek_wrap_sound in Hwrap.
      split; [apply (isSet_le _ s), Hwrap | exact Hwrap].
    + intros [= <-]. left. reflexivity.
    + discriminate.
Qed.

(** With the cursor on an ID the second loop of [peek] ends after at most
    [_active + 2] tests. *)
Lemma peek_wrap_ends (s : Slaves.t) (n i fuel : nat) :
  Slaves._active s < 255 ->
  i + n = Slaves._active s + 1 ->
  n < fuel ->
  exists r, Slaves.peek_wrap fuel s i = Some r.
Proof.
  intros Hact. revert i fuel.
  induction n as [| n IH]; intros i fuel Hin Hfuel;
    (destruct fuel as [| fuel]; [lia |]); cbn [Slaves.peek_wrap].
  - destruct (Nat.leb_spec i (Slaves._active s)) as [Hle | _]; [lia | eauto].
  - destruct (Nat.leb_spec i (Slaves._active s)) as [_ | _]; [| eauto].
    destruct (Slaves.isSet i s); [eauto |].
    assert (Hu8 : u8 (i + 1) = i + 1) by (unfold u8; apply Nat.mod_small; lia).
    rewrite Hu8. apply IH; lia.
Qed.

(** With the cursor at [SLAVE_BOF] and no ID below 256 set, the second loop
    of [peek] never ends. *)
Lemma peek_wrap_diverges (s : Slaves.t) (fuel i : nat) :
  Slaves._active s = SLAVE_BOF ->
  (forall j, Slaves.isSet j s = false) ->
  i <= 255 ->
  Slaves.peek_wrap fuel s i = None.
Proof.
  intros Hact Hempty. revert i.
  induction fuel as [| fuel IH]; intros i Hi; cbn [Slaves.peek_wrap]; [reflexivity |].
  rewrite Hact. unfold SLAVE_BOF.
  destruct (Nat.leb_spec i 255) as [_ | ?]; [| lia].
  rewrite Hempty. apply IH.
  unfold u8. pose proof (Nat.mod_upper_bound (i + 1) 256). lia.
Qed.

Lemma start_of_BOF (s : Slaves.t) : Slaves._active s = SLAVE_BOF -> Slaves.start_of s = 0.
Proof. intros Hact. unfold Slaves.start_of. rewrite Hact. reflexivity. Qed.

Lemma peek_returns (s : Slaves.t) :
  slaves_shape s ->
  (exists i, Slaves.isSet i s = true) \/ Slaves.getRepeat s = false
  \/ Slaves._active s <> SLAVE_BOF ->
  exists r, Slaves.peek s = Some r.
Proof.
  intros [_ Hact] Hcase. unfold Slaves.peek, Slaves.peek_fuel.
  destruct (Slaves.scan s (Slaves.start_of s) _) as [k |] eqn:Hscan; [eauto |].
  destruct (Slaves.getRepeat s) eqn:Hrep; [| eauto].
  assert (Hends : Slaves._active s <= MB_MAX_SLAVE_ID ->
                  exists r, Slaves.peek_wrap 257 s 0 = Some r).
  { intros Hle. unfold MB_MAX_SLAVE_ID in Hle.
    apply (peek_wrap_ends s (Slaves._active s + 1) 0 257); lia. }
  destruct Hact as [Hbof | Hle].
  - (* the first scan covered every ID, so a member would have been found *)
    exfalso. rewrite (start_of_BOF s Hbof) in Hscan.
    destruct Hcase as [[i Hi] | [Hcontra | Hcontra]]; [| discriminate | contradiction].
    pose proof (isSet_le i s Hi) as Hi247.
    rewrite (scan_None s _ 0 Hscan i) in Hi; [discriminate |].
    unfold MB_MAX_SLAVE_ID. lia.
  - destruct (Hends Hle) as [[r |] ->]; eauto.
Qed.

Lemma peek_never_returns (s : Slaves.t) (fuel : nat) :
  Slaves._active s = SLAVE_BOF ->
  Slaves.getRepeat s = true ->
  (forall j, Slaves.isSet j s = false) ->
  Slaves.peek_fuel fuel s = None.
Proof.
  intros Hact Hrep Hempty. unfold Slaves.peek_fuel.
  destruct (Slaves.scan s (Slaves.start_of s) _) as [k |] eqn:Hscan.
  - apply scan_Some in Hscan as (_ & Hset & _). rewrite Hempty in Hset. discriminate.
  - rewrite Hrep, (peek_wrap_diverges s fuel 0 Hact Hempty) by lia. reflexivity.
Qed.

(** An empty set asked to repeat: [peek] on it does not return. *)
Example peek_on_empty_repeating_set (fuel : nat) :
  Slaves.peek_fuel fuel (Slaves.setRepeatDelay 0 Slaves.new) = None.
Proof.
  apply peek_never_returns; [reflexivity | reflexivity |].
  intros j. rewrite isSet_mask_bit.
  destruct (Nat.leb_spec j MB_MAX_SLAVE_ID) as [Hle | _]; [| reflexivity].
  cbn [andb]. unfold Slaves.mask_bit, Slaves.setRepeatDelay, Slaves.new.
  cbn [Slaves._mask].
  assert (Hzero : rd (replicate 32 0%Z) (j / 8) = 0%Z).
  { unfold rd. destruct (replicate 32 0%Z !! (j / 8)) as [z |] eqn:Hz; [| reflexivity].
    apply lookup_replicate in Hz as [-> _]. reflexivity. }
  rewrite Hzero. apply Z.bits_0.
Qed.

(** C9: after any sequence of operations on a slave set, no ID above 247 is
    in the bitmap; [set] with an ID above 247 and [set] with a range that
    ends above 247 or is empty change nothing; [isSet] is false from 248
    on; and [getNext] and [peek] return a member that is at most 247 or
    [SLAVE_EOF], never [SLAVE_NULL] nor another reserved value.  [peek]
    returns whenever the set has a member, repetition is off, or the
    cursor is on an ID. *)
Theorem C9_no_reserved_id_is_ever_set (ops : list Slaves.op) :
  let s := Slaves.run ops in
  (forall i, 248 <= i -> Slaves.mask_bit s i = false /\ Slaves.isSet i s = false)
  /\ (forall id, 247 < id -> Slaves.set id s = s)
  /\ (forall b e, 247 < e \/ e < b -> Slaves.set_range b e s = s)
  /\ (member_or_eof s (Slaves.getNext s).1
      /\ (Slaves.getNext s).1 <> SLAVE_NULL /\ (Slaves.getNext s).1 <> SLAVE_BOF)
  /\ (forall fuel r, Slaves.peek_fuel fuel s = Some r ->
        member_or_eof s r /\ r <> SLAVE_NULL /\ r <> SLAVE_BOF)
  /\ ((exists i, Slaves.isSet i s = true) \/ Slaves.getRepeat s = false
      \/ Slaves._active s <> SLAVE_BOF ->
      exists r, Slaves.peek s = Some r /\ member_or_eof s r).
Proof.
  intros s. pose proof (run_shape ops) as Hshape. fold s in Hshape.
  repeat split.
  - apply mask_bit_reserved; assumption.
  - rewrite isSet_mask_bit, (mask_bit_reserved s i Hshape) by assumption.
    apply andb_false_r.
  - intros id Hid. unfold Slaves.set.
    destruct (Nat.ltb_spec MB_MAX_SLAVE_ID id) as [_ | Hle];
      [reflexivity | unfold MB_MAX_SLAVE_ID in Hle; lia].
  - intros b e Hbe. unfold Slaves.set_range.
    destruct (Nat.ltb_spec e b) as [_ | Hge]; [reflexivity |].
    destruct (Nat.ltb_spec MB_MAX_SLAVE_ID e) as [_ | Hle];
      [reflexivity | unfold MB_MAX_SLAVE_ID in Hle; lia].
  - apply getNext_member_or_eof.
  - apply (member_not_sentinel s), getNext_member_or_eof.
  - apply (member_not_sentinel s), getNext_member_or_eof.
  - eapply peek_fuel_sound; eassumption.
  - eapply (member_not_sentinel s), peek_fuel_sound; eassumption.
  - eapply (member_not_sentinel s), peek_fuel_sound; eassumption.
  - intros Hcase. destruct (peek_returns s Hshape Hcase) as [r Hr].
    exists r. split; [exact Hr |]. eapply peek_fuel_sound. exact Hr.
Qed.

(** ** Slave sets: iteration in increasing order *)

Lemma isSet_set (k i : nat) (s : Slaves.t) :
  k <= 247 -> length (Slaves._mask s) = 32 ->
  Slaves.isSet i (Slaves.set k s) = Slaves.isSet i s || (i =? k).
Proof.
  intros Hk Hlen. rewrite !isSet_mask_bit, mask_bit_set by assumption.
  destruct (Nat.leb_spec i MB_MAX_SLAVE_ID) as [_ | Hgt]; [reflexivity |].
  cbn [andb orb]. destruct (Nat.eqb_spec i k) as [-> | _]; [| reflexivity].
  unfold MB_MAX_SLAVE_ID in Hgt. lia.
Qed.

Lemma isSet_set_list (l : list nat) (i : nat) (s : Slaves.t) :
  List.Forall (fun k => k <= 247) l -> slaves_shape s ->
  Slaves.isSet i (Slaves.set_list l s) = Slaves.isSet i s || existsb (Nat.eqb i) l.
Proof.
  unfold Slaves.set_list. intros Hall. revert s.
  induction Hall as [| k l Hk Hall IH]; intros s Hs; cbn [fold_left existsb].
  - rewrite orb_false_r. reflexivity.
  - rewrite IH by (apply set_shape, Hs).
    destruct Hs as [[Hlen _] _].
    rewrite isSet_set by assumption.
    rewrite <- orb_assoc. reflexivity.
Qed.

Lemma isSet_new (i : nat) : Slaves.isSet i Slaves.new = false.
Proof.
  rewrite isSet_mask_bit.
  destruct (Nat.leb_spec i MB_MAX_SLAVE_ID) as [Hle | _]; [| reflexivity].
  cbn [andb]. unfold Slaves.mask_bit, Slaves.new. cbn [Slaves._mask].
  assert (Hzero : rd (replicate 32 0%Z) (i / 8) = 0%Z).
  { unfold rd. destruct (replicate 32 0%Z !! (i / 8)) as [z |] eqn:Hz; [| reflexivity].
    apply lookup_replicate in Hz as [-> _]. reflexivity. }
  rewrite Hzero. apply Z.bits_0.
Qed.

Lemma set_active (k : nat) (s : Slaves.t) :
  Slaves._active (Slaves.set k s) = Slaves._active s.
Proof. unfold Slaves.set. destruct (MB_MAX_SLAVE_ID <? k); reflexivity. Qed.

Lemma set_list_active (l : list nat) (s : Slaves.t) :
  Slaves._active (Slaves.set_list l s) = Slaves._active s.
Proof.
  unfold Slaves.set_list. revert s.
  induction l as [| k l IH]; intros s; cbn [fold_left]; [reflexivity |].
  rewrite IH. apply set_active.
Qed.

(** A scan returns the first ID of its range that is set. *)
Lemma scan_head_filter (s : Slaves.t) (n i : nat) :
  Slaves.scan s i n = head (List.filter (fun j => Slaves.isSet j s) (seq i n)).
Proof.
  revert i. induction n as [| n IH]; intros i; cbn [Slaves.scan seq List.filter].
  - reflexivity.
  - destruct (Slaves.isSet i s); [reflexivity | apply IH].
Qed.

Lemma filter_seq_cons (f : nat -> bool) (n a k : nat) (rest : list nat) :
  List.filter f (seq a n) = k :: rest ->
  a <= k < a + n /\ rest = List.filter f (seq (S k) (a + n - S k)).
Proof.
  revert a. induction n as [| n IH]; intros a Hf; cbn [seq List.filter] in Hf.
  - discriminate.
  - destruct (f a).
    + injection Hf as <- <-. split; [lia |]. f_equal. f_equal. lia.
    + destruct (IH (S a) Hf) as [Hk Hrest]. split; [lia |].
      rewrite Hrest. f_equal. f_equal. lia.
Qed.

Lemma filter_seq_increasing (f : nat -> bool) (n a : nat) :
  StronglySorted lt (List.filter f (seq a n)).
Proof.
  revert a. induction n as [| n IH]; intros a; cbn [seq List.filter].
  - constructor.
  - destruct (f a); [| apply IH].
    constructor; [apply IH |].
    apply List.Forall_forall. intros x Hx.
    apply List.filter_In in Hx as [Hx _]. apply in_seq in Hx. lia.
Qed.

(** From a cursor whose scan starts at [a], the calls of [getNext] return
    the set IDs from [a] on, one after the other; the call after the last
    of them wraps to the smallest member when repetition is on, and
    returns [SLAVE_EOF] when it is off. *)
Lemma iterate_members (F : list nat) :
  forall (s : Slaves.t) (a : nat),
    Slaves.start_of s = a -> a <= 248 ->
    List.filter (fun j => Slaves.isSet j s) (seq a (248 - a)) = F ->
    (Slaves.iterate (length F) s).1 = F
    /\ (Slaves.getNext (Slaves.iterate (length F) s).2).1
       = (if Slaves.getRepeat s
          then hd SLAVE_EOF (List.filter (fun j => Slaves.isSet j s) (seq 0 248))
          else SLAVE_EOF).
Proof.
  induction F as [| k rest IH]; intros s a Hstart Ha HF; cbn [length Slaves.iterate].
  - split; [reflexivity |]. cbn [snd].
    unfold Slaves.getNext. rewrite Hstart.
    change (MB_MAX_SLAVE_ID + 1) with 248.
    rewrite !scan_head_filter, HF. cbn [head].
    destruct (Slaves.getRepeat s); [| reflexivity].
    destruct (List.filter _ (seq 0 248)); reflexivity.
  - assert (Hnext : Slaves.getNext s = (k, Slaves.with_active k s)).
    { unfold Slaves.getNext. rewrite Hstart.
      change (MB_MAX_SLAVE_ID + 1) with 248.
      rewrite scan_head_filter, HF. reflexivity. }
    rewrite Hnext.
    destruct (filter_seq_cons _ _ _ _ _ HF) as [Hk Hrest].
    assert (Hstart' : Slaves.start_of (Slaves.with_active k s) = S k).
    { unfold Slaves.start_of. cbn [Slaves._active Slaves.with_active].
      destruct (Nat.eqb_spec k SLAVE_BOF) as [Hbof | _]; [unfold SLAVE_BOF in Hbof; lia |].
      unfold u8. rewrite Nat.mod_small by lia. lia. }
    destruct (IH (Slaves.with_active k s) (S k) Hstart' ltac:(lia)) as [Hlist Hafter].
    { rewrite Hrest. f_equal. f_equal. lia. }
    destruct (Slaves.iterate (length rest) (Slaves.with_active k s)) as [l s2] eqn:Hit.
    cbn [fst snd] in *. split; [f_equal; exact Hlist | exact Hafter].
Qed.

Lemma sorted_members_spec (l : list nat) :
  List.Forall (fun k => k <= 247) l ->
  StronglySorted lt (Slaves.sorted_members l)
  /\ forall i, In i (Slaves.sorted_members l) <-> In i l.
Proof.
  intros Hall. split; [apply filter_seq_increasing |].
  intros i. unfold Slaves.sorted_members. rewrite List.filter_In, in_seq, existsb_exists.
  split.
  - intros [_ (x & Hx & Heq)]. apply Nat.eqb_eq in Heq. subst x. exact Hx.
  - intros Hi. split.
    + rewrite List.Forall_forall in Hall. specialize (Hall i Hi).
      unfold MB_MAX_SLAVE_ID. lia.
    + exists i. split; [exact Hi | apply Nat.eqb_refl].
Qed.

(** C5: for a non-empty list [l] of IDs up to 247 loaded with [set] into a
    fresh slave set, the successive calls of [getNext] return the members
    of [l] in strictly increasing order, each once; the call after the
    largest returns [SLAVE_EOF] (0xFE) when the repeat delay is negative
    and the smallest member when it is not. *)
Theorem C5_getNext_enumerates_in_order (l : list nat) (delay repeatDelay : Z) :
  l <> [] ->
  List.Forall (fun k => k <= 247) l ->
  let s := Slaves.setRepeatDelay repeatDelay (Slaves.setDelay delay
             (Slaves.set_list l Slaves.new)) in
  let S := Slaves.sorted_members l in
  Slaves._active s = SLAVE_BOF
  /\ StronglySorted lt S
  /\ (forall i, In i S <-> In i l)
  /\ (Slaves.iterate (length S) s).1 = S
  /\ ((repeatDelay < 0)%Z ->
      (Slaves.getNext (Slaves.iterate (length S) s).2).1 = SLAVE_EOF
      /\ SLAVE_EOF = 0xFE)
  /\ ((0 <= repeatDelay)%Z ->
      exists smallest rest,
        S = smallest :: rest
        /\ (Slaves.getNext (Slaves.iterate (length S) s).2).1 = smallest).
Proof.
  intros Hne Hall s S.
  destruct (sorted_members_spec l Hall) as [Hsorted Hmem].
  assert (Hfilter : List.filter (fun j => Slaves.isSet j s) (seq 0 248) = S).
  { unfold S, Slaves.sorted_members. change (MB_MAX_SLAVE_ID + 1) with 248.
    apply List.filter_ext. intros i.
    change (Slaves.isSet i s) with (Slaves.isSet i (Slaves.set_list l Slaves.new)).
    rewrite isSet_set_list by (assumption || apply new_shape).
    rewrite isSet_new. reflexivity. }
  assert (Hactive : Slaves._active s = SLAVE_BOF).
  { unfold s. cbn [Slaves._active Slaves.setRepeatDelay Slaves.setDelay].
    apply set_list_active. }
  destruct (iterate_members S s 0) as [Hlist Hafter];
    [apply start_of_BOF, Hactive | lia | exact Hfilter |].
  rewrite Hfilter in Hafter.
  change (StronglySorted lt S) in Hsorted.
  change (forall i, In i S <-> In i l) in Hmem.
  clearbody S.
  split; [exact Hactive |]. split; [exact Hsorted |]. split; [exact Hmem |].
  split; [exact Hlist |]. split.
  - intros Hneg. split; [| reflexivity]. rewrite Hafter.
    unfold Slaves.getRepeat, s. cbn [Slaves._repeatDelay Slaves.setRepeatDelay].
    destruct (Z.ltb_spec (-1) repeatDelay); [lia | reflexivity].
  - intros Hpos.
    destruct S as [| smallest rest].
    + exfalso. destruct l as [| k l']; [contradiction |].
      assert (Hin : In k []) by (apply Hmem; left; reflexivity).
      destruct Hin.
    + exists smallest, rest. split; [reflexivity |]. rewrite Hafter.
      unfold Slaves.getRepeat, s. cbn [Slaves._repeatDelay Slaves.setRepeatDelay].
      destruct (Z.ltb_spec (-1) repeatDelay); [reflexivity | lia].
Qed.

Lemma C5_getNext_enumerates_in_order_witness :
  let s := Slaves.setRepeatDelay 1000 (Slaves.setDelay 0 (Slaves.set_list [3; 1; 2; 3] Slaves.new)) in
  let S := Slaves.sorted_members [3; 1; 2; 3] in
  Slaves._active s = SLAVE_BOF
  /\ StronglySorted lt S
  /\ (forall i, In i S <-> In i [3; 1; 2; 3])
  /\ (Slaves.iterate (length S) s).1 = S
  /\ ((1000 < 0)%Z ->
      (Slaves.getNext (Slaves.iterate (length S) s).2).1 = SLAVE_EOF
      /\ SLAVE_EOF = 0xFE)
  /\ ((0 <= 1000)%Z ->
      exists smallest rest,
        S = smallest :: rest
        /\ (Slaves.getNext (Slaves.iterate (length S) s).2).1 = smallest).
Proof.
  apply (C5_getNext_enumerates_in_order [3; 1; 2; 3] 0 1000).
  - discriminate.
  - repeat constructor; lia.
Defined.

Example rotation_1_2_3 :
  (Slaves.iterate 4 (Slaves.of_list_delay_repeat [1; 2; 3] 0 1000)).1 = [1; 2; 3; 1].
Proof. vm_compute. reflexivity. Qed.

Example rotation_1_2_3_once :
  (Slaves.iterate 4 (Slaves.of_list [1; 2; 3])).1 = [1; 2; 3; SLAVE_EOF].
Proof. vm_compute. reflexivity. Qed.

(** ** Repetition over the slave set after a callback *)

Lemma adu_at_upd (this : nat) (F : ADURTU -> ADURTU) (m : ModbusRTUMaster) :
  this < length (_adu m) -> adu_at this (upd_adu this F m) = F (adu_at this m).
Proof.
  intros Hlt. unfold upd_adu, adu_at at 1. cbn [_adu with_adu].
  rewrite list_lookup_insert_eq by assumption. reflexivity.
Qed.

Lemma upd_length (this : nat) (F : ADURTU -> ADURTU) (m : ModbusRTUMaster) :
  length (_adu (upd_adu this F m)) = length (_adu m).
Proof. unfold upd_adu. cbn [_adu with_adu]. apply length_insert. Qed.

Lemma upd_upd (this : nat) (F G : ADURTU -> ADURTU) (m : ModbusRTUMaster) :
  this < length (_adu m) ->
  upd_adu this G (upd_adu this F m) = upd_adu this (fun a => G (F a)) m.
Proof.
  intros Hlt. unfold upd_adu at 1. rewrite adu_at_upd by assumption.
  unfold upd_adu, with_adu. cbn [_adu _queue _queueSize millis written].
  rewrite list_insert_insert_eq. reflexivity.
Qed.

Lemma mbind_on_adu {B} (i : nat) (F : ADURTU -> ADURTU) (k : unit -> M ModbusRTUMaster B)
    (m : ModbusRTUMaster) :
  mbind (on_adu i F) k m = k tt (upd_adu i F m).
Proof. unfold on_adu. apply mbind_modify. Qed.

Ltac mstep :=
  match goal with
  | |- context [mbind (on_adu ?i ?F) ?k ?m] => rewrite (mbind_on_adu i F k m)
  end.

Lemma mbind_call_callback {W H B} (get : H -> W -> PDU) (getSlaveId : H -> W -> nat)
    (this : H) (k : unit -> M W B) (w : W) :
  mbind (call_callback get getSlaveId this) k w
  = (call (_callback (get this w)) (get this w) (getSlaveId this w) ++ (k tt w).1,
     (k tt w).2).
Proof. unfold call_callback. apply mbind_emit. Qed.


Lemma begin_sets_the_master (PDUSize queueSize : nat) (now : Z) (i : nat) :
  i < queueSize ->
  _modbusRTUMaster (adu_at i (RTU_begin PDUSize queueSize now)) = true.
Proof.
  intros Hi. unfold adu_at, RTU_begin. cbn [_adu].
  rewrite lookup_replicate_2 by exact Hi. reflexivity.
Qed.

Lemma master_pointer_is_kept (crc16 : list Z -> Z) (a : ADURTU) :
  (forall p, _modbusRTUMaster (with_pdu p a) = _modbusRTUMaster a)
  /\ (forall s, _modbusRTUMaster (with_slaves s a) = _modbusRTUMaster a)
  /\ (forall n, _modbusRTUMaster (with_responseLen n a) = _modbusRTUMaster a)
  /\ (forall slave, _modbusRTUMaster (setHead slave a) = _modbusRTUMaster a)
  /\ _modbusRTUMaster (setCRC crc16 a) = _modbusRTUMaster a
  /\ _modbusRTUMaster (ADURTU_clear a) = _modbusRTUMaster a.
Proof. repeat split. Qed.




(** The rotation over slaves 1, 2, 3 with a repeat delay of 1000 ms: the
    delays of the four requests that follow the first. *)
Example rotation_delays :
  rotation_trace (fun _ => 0%Z) 4 = [(2, 5%Z); (3, 5%Z); (1, 1000%Z); (2, 5%Z)].
Proof. vm_compute. reflexivity. Qed.

(** ** The pending queue: which ADU [readReady] takes *)

(** Lists indexed by a counter. *)
Lemma lookup_map_seq {A : Type} (f : nat -> A) (n a j : nat) :
  j < n -> map f (seq a n) !! j = Some (f (a + j)).
Proof.
  revert a j. induction n as [| n IH]; intros a j Hj; [lia |].
  cbn [seq map]. destruct j as [| j].
  - rewrite Nat.add_0_r. reflexivity.
  - cbn [lookup list_lookup]. rewrite IH by lia. f_equal. f_equal. lia.
Qed.

Lemma map_seq_insert {A : Type} (f : nat -> A) (h : A) (n a j : nat) :
  map (fun k => if k =? a + j then h else f k) (seq a n) = <[j := h]> (map f (seq a n)).
Proof.
  revert a j. induction n as [| n IH]; intros a j; [reflexivity |].
  cbn [seq map]. destruct j as [| j].
  - rewrite Nat.add_0_r, Nat.eqb_refl. cbn [insert list_insert]. f_equal.
    apply map_ext_in. intros k Hk. apply in_seq in Hk.
    destruct (Nat.eqb_spec k a); [lia | reflexivity].
  - destruct (Nat.eqb_spec a (a + S j)); [lia |].
    cbn [insert list_insert]. f_equal.
    replace (a + S j) with (S a + j) by lia. apply IH.
Qed.

Lemma perm_swap_insert {A : Type} (T : list A) (j : nat) (x h : A) :
  T !! j = Some x -> Permutation (h :: T) (x :: <[j := h]> T).
Proof.
  revert j. induction T as [| t T IH]; intros j Hj; [discriminate |].
  destruct j as [| j]; cbn [lookup list_lookup] in Hj.
  - injection Hj as ->. cbn [insert list_insert]. apply perm_swap.
  - cbn [insert list_insert].
    apply perm_trans with (t :: h :: T); [apply perm_swap |].
    apply perm_trans with (t :: x :: <[j := h]> T); [apply perm_skip, IH, Hj |].
    apply perm_swap.
Qed.

Ltac close_scan Hitem Hall k :=
  let j := fresh "j" in
  let c' := fresh "c'" in
  let Hj := fresh "Hj" in
  let Hc' := fresh "Hc'" in
  let Hr' := fresh "Hr'" in
  intros j c' Hj Hc' Hr';
  destruct (Nat.eq_dec j k) as [-> | ?];
  [ rewrite Hitem in Hc';
    first [ discriminate | injection Hc' as <-; first [ lia | congruence ] ]
  | specialize (Hall j c' ltac:(lia) Hc' Hr'); lia ].

Section ReadReady.

Variable queuedTime : nat -> Z.
Variable delayToSend : nat -> Z.
Variable on_ms : Z -> Z -> bool -> bool.
Variable q : ADUQueue.t.
Hypothesis Hwf : ADUQueue.wf q.

Local Abbreviation size := (ADUQueue._queueSize q).
Local Abbreviation head := (ADUQueue._head q).
Local Abbreviation is_ready := (ADUQueue.ready queuedTime delayToSend on_ms).
Local Abbreviation slot := (ADUQueue.slot q).
Local Abbreviation scanned := (ADUQueue.scanned queuedTime delayToSend on_ms q).

Lemma slot_lt (k : nat) : slot k < size.
Proof. unfold ADUQueue.slot. apply Nat.mod_upper_bound. destruct Hwf. lia. Qed.

Lemma slot_inj (a b : nat) : a < size -> b < size -> slot a = slot b -> a = b.
Proof.
  destruct Hwf as (Hpos & _ & _ & Hhead & _).
  unfold ADUQueue.slot. intros Ha Hb.
  assert (Hmod : forall x, x < size -> (head + x) mod size
                  = if head + x <? size then head + x else head + x - size).
  { intros x Hx. destruct (Nat.ltb_spec (head + x) size) as [Hlt | Hge].
    - apply Nat.mod_small. exact Hlt.
    - symmetry. apply (Nat.mod_unique (head + x) size 1); lia. }
  rewrite (Hmod a Ha), (Hmod b Hb).
  destruct (Nat.ltb_spec (head + a) size), (Nat.ltb_spec (head + b) size); lia.
Qed.

Lemma slot_succ (k : nat) : u8 ((slot k + 1) mod size) = slot (S k).
Proof.
  destruct Hwf as (Hpos & Hmax & _).
  unfold ADUQueue.slot. rewrite Nat.Div0.add_mod_idemp_l.
  replace (head + k + 1) with (head + S k) by lia.
  unfold u8. apply Nat.mod_small.
  pose proof (Nat.mod_upper_bound (head + S k) size). lia.
Qed.

Lemma slot_0 : slot 0 = head.
Proof.
  destruct Hwf as (_ & _ & _ & Hh & _).
  unfold ADUQueue.slot. rewrite Nat.add_0_r. apply Nat.mod_small. exact Hh.
Qed.

Lemma scan_scanned (n : nat) :
  scanned n (for_loop n (fun _ st => ADUQueue.ready_step queuedTime delayToSend on_ms q st)
               (head, 255, UINT32_MAX)).
Proof.
  apply (for_loop_ind scanned).
  - split; [symmetry; apply slot_0 |].
    left. repeat split. intros j c Hj. lia.
  - intros k [[current readyIndex] minDelay] _ [Hcur Hcase].
    unfold ADUQueue.ready_step. rewrite Hcur.
    destruct (ADUQueue.item q (slot k)) as [c |] eqn:Hitem;
      [destruct (is_ready c) eqn:Hready;
       [destruct (Z.ltb_spec (delayToSend c) minDelay) as [Hlt | Hge] |] |];
      (split; [apply slot_succ |]);
      destruct Hcase as [(-> & -> & Hall)
                        | (j0 & c0 & Hj0 & -> & Hi0 & Hr0 & -> & Hmax & Hall)].
    + right. exists k, c. repeat split; try assumption; try lia.
      close_scan Hitem Hall k.
    + right. exists k, c. repeat split; try assumption; try lia.
      close_scan Hitem Hall k.
    + left. repeat split. close_scan Hitem Hall k.
    + right. exists j0, c0. repeat split; try assumption; try lia.
      close_scan Hitem Hall k.
    + left. repeat split. close_scan Hitem Hall k.
    + right. exists j0, c0. repeat split; try assumption; try lia.
      close_scan Hitem Hall k.
    + left. repeat split. close_scan Hitem Hall k.
    + right. exists j0, c0. repeat split; try assumption; try lia.
      close_scan Hitem Hall k.
Qed.

End ReadReady.

(** The queued pointers are those of the slots counted from the head. *)
Lemma in_live (q : ADUQueue.t) (p : option nat) :
  In p (ADUQueue.live q) <-> exists j, j < ADUQueue._count q /\ ADUQueue.item q (ADUQueue.slot q j) = p.
Proof.
  unfold ADUQueue.live. rewrite in_map_iff. split.
  - intros (j & Hj & Hin). apply in_seq in Hin. exists j. split; [lia | exact Hj].
  - intros (j & Hj & Hp). exists j. split; [exact Hp | apply in_seq; lia].
Qed.

Lemma live_cons (q : ADUQueue.t) :
  0 < ADUQueue._count q ->
  ADUQueue.live q
  = ADUQueue.item q (ADUQueue.slot q 0)
    :: map (fun k => ADUQueue.item q (ADUQueue.slot q (S k))) (seq 0 (ADUQueue._count q - 1)).
Proof.
  intros Hpos. unfold ADUQueue.live.
  destruct (ADUQueue._count q) as [| n]; [lia |].
  cbn [seq map]. f_equal. rewrite <- seq_shift, map_map.
  replace (S n - 1) with n by lia. reflexivity.
Qed.

Lemma item_insert_eq (l : list (option nat)) (i : nat) (v : option nat) (q : ADUQueue.t) :
  i < length l -> ADUQueue.item (ADUQueue.with_items (<[i := v]> l) q) i = v.
Proof.
  intros Hi. unfold ADUQueue.item. cbn [ADUQueue._items ADUQueue.with_items].
  rewrite list_lookup_insert_eq by assumption. reflexivity.
Qed.

Lemma live_after_read (q : ADUQueue.t) (items' : list (option nat)) :
  ADUQueue.wf q ->
  0 < ADUQueue._count q ->
  ADUQueue.live
    (ADUQueue.mk (u8 ((ADUQueue._head q + 1) mod ADUQueue._queueSize q))
       (ADUQueue._tail q) (ADUQueue._count q - 1) (ADUQueue._queueSize q)
       (<[ADUQueue._head q := None]> items'))
  = map (fun k => default None (items' !! ADUQueue.slot q (S k)))
      (seq 0 (ADUQueue._count q - 1)).
Proof.
  intros Hwf Hpos. pose proof Hwf as (Hsize & Hmax & Hlen & Hhead & Hcount).
  unfold ADUQueue.live. cbn [ADUQueue._count].
  apply map_ext_in. intros k Hk. apply in_seq in Hk.
  assert (Hslot : ADUQueue.slot
                    (ADUQueue.mk (u8 ((ADUQueue._head q + 1) mod ADUQueue._queueSize q))
                       (ADUQueue._tail q) (ADUQueue._count q - 1) (ADUQueue._queueSize q)
                       (<[ADUQueue._head q := None]> items')) k
                  = ADUQueue.slot q (S k)).
  { unfold ADUQueue.slot. cbn [ADUQueue._head ADUQueue._queueSize].
    assert (Hu8 : u8 ((ADUQueue._head q + 1) mod ADUQueue._queueSize q)
                  = (ADUQueue._head q + 1) mod ADUQueue._queueSize q).
    { unfold u8. apply Nat.mod_small.
      pose proof (Nat.mod_upper_bound (ADUQueue._head q + 1) (ADUQueue._queueSize q)). lia. }
    rewrite Hu8, Nat.Div0.add_mod_idemp_l. f_equal. lia. }
  rewrite Hslot. unfold ADUQueue.item. cbn [ADUQueue._items].
  rewrite list_lookup_insert_ne; [reflexivity |].
  intros Heq. rewrite <- (slot_0 q Hwf) in Heq.
  apply (slot_inj q Hwf) in Heq; lia.
Qed.

(** C6: on a well-formed ring, [readReady] returns true only by handing
    out a queued ADU whose deadline has passed and whose [_delayToSend] is
    the least among the queued ADUs whose deadline has passed; the queue
    then holds one ADU fewer, the others being those queued before.  When it
    returns false the queue is as it was, and it returns false whenever no
    queued ADU is ready, in particular on an empty queue. *)
Theorem C6_readReady_takes_least_delay_among_ready
    (queuedTime delayToSend : nat -> Z) (on_ms : Z -> Z -> bool -> bool)
    (q : ADUQueue.t) :
  ADUQueue.wf q ->
  let ready := ADUQueue.ready queuedTime delayToSend on_ms in
  let result := ADUQueue.readReady queuedTime delayToSend on_ms q in
  (forall it q', result = (true, it, q') ->
     exists c,
       it = Some c
       /\ In (Some c) (ADUQueue.live q)
       /\ ready c = true
       /\ (forall c', In (Some c') (ADUQueue.live q) -> ready c' = true ->
                      (delayToSend c <= delayToSend c')%Z)
       /\ ADUQueue._count q' + 1 = ADUQueue._count q
       /\ Permutation (ADUQueue.live q) (Some c :: ADUQueue.live q'))
  /\ (forall it q', result = (false, it, q') -> it = None /\ q' = q)
  /\ ((forall c', In (Some c') (ADUQueue.live q) -> ready c' = false) ->
      result = (false, None, q))
  /\ (ADUQueue._count q = 0 -> result = (false, None, q)).
Proof.
  intros Hwf ready result.
  assert (Hcore :
    result = (false, None, q)
    \/ exists j0 c0 q',
         j0 < ADUQueue._count q
         /\ ADUQueue.item q (ADUQueue.slot q j0) = Some c0
         /\ ready c0 = true
         /\ (forall j c, j < ADUQueue._count q ->
               ADUQueue.item q (ADUQueue.slot q j) = Some c -> ready c = true ->
               (delayToSend c0 <= delayToSend c)%Z)
         /\ result = (true, Some c0, q')
         /\ ADUQueue._count q' + 1 = ADUQueue._count q
         /\ Permutation (ADUQueue.live q) (Some c0 :: ADUQueue.live q')).
  { unfold result, ADUQueue.readReady.
    destruct (Nat.eqb_spec (ADUQueue._count q) 0) as [Hzero | Hpos]; [left; reflexivity |].
    pose proof (scan_scanned queuedTime delayToSend on_ms q Hwf (ADUQueue._count q)) as Hsc.
    destruct (for_loop (ADUQueue._count q) _ _) as [[current readyIndex] minDelay].
    destruct Hsc as [_ [(-> & _ & _) | (j0 & c0 & Hj0 & -> & Hi0 & Hr0 & _ & _ & Hall)]];
      [left; reflexivity | right].
    pose proof Hwf as (Hsize & Hmax & Hlen & Hhead & Hcount).
    pose proof (slot_lt q Hwf j0) as Hslot.
    destruct (Nat.eqb_spec (ADUQueue.slot q j0) 255) as [? | _]; [lia |].
    assert (Hread : forall qs,
              ADUQueue._count qs = ADUQueue._count q ->
              ADUQueue._head qs = ADUQueue._head q ->
              ADUQueue.item qs (ADUQueue._head q) = Some c0 ->
              ADUQueue.read qs
              = (true, Some c0,
                 ADUQueue.mk (u8 ((ADUQueue._head q + 1) mod ADUQueue._queueSize qs))
                   (ADUQueue._tail qs) (ADUQueue._count q - 1) (ADUQueue._queueSize qs)
                   (<[ADUQueue._head q := None]> (ADUQueue._items qs)))).
    { intros qs Hc Hh Hit. unfold ADUQueue.read. rewrite Hc, Hh, Hit.
      destruct (Nat.eqb_spec (ADUQueue._count q) 0); [contradiction | reflexivity]. }
    destruct (Nat.eqb_spec (ADUQueue.slot q j0) (ADUQueue._head q)) as [Hsame | Hdiff];
      cbn [negb]; exists j0, c0; eexists;
      (split; [exact Hj0 |]); (split; [exact Hi0 |]); (split; [exact Hr0 |]);
      (split; [exact Hall |]).
    - (* the ready ADU is at the head *)
      assert (Hj00 : j0 = 0).
      { apply (slot_inj q Hwf); [lia | lia |]. rewrite slot_0 by assumption. exact Hsame. }
      subst j0. rewrite slot_0 in Hi0 by assumption.
      split; [apply Hread; [reflexivity | reflexivity | exact Hi0] |].
      cbn [ADUQueue._count]. split; [lia |].
      rewrite live_after_read by (assumption || lia).
      rewrite live_cons by lia. rewrite slot_0 by assumption.
      unfold ADUQueue.item at 1. fold (ADUQueue.item q (ADUQueue._head q)).
      rewrite Hi0. apply Permutation_refl.
    - (* the ready ADU is further down: it changes places with the head *)
      assert (Hj0pos : j0 <> 0).
      { intros ->. rewrite slot_0 in Hdiff by assumption. contradiction. }
      destruct j0 as [| j1]; [contradiction |].
      set (h := ADUQueue.item q (ADUQueue._head q)).
      set (ri := ADUQueue.slot q (S j1)) in *.
      rewrite Hi0.
      split.
      { apply Hread; [reflexivity | reflexivity |].
        apply item_insert_eq. rewrite length_insert. lia. }
      cbn [ADUQueue._count ADUQueue.with_items ADUQueue._queueSize ADUQueue._tail
           ADUQueue._items ADUQueue._head].
      split; [lia |].
      rewrite live_after_read by (assumption || lia).
      rewrite live_cons by lia. rewrite slot_0 by assumption. fold h.
      assert (Hmap :
        map (fun k => default None
                        ((<[ADUQueue._head q := Some c0]>
                            (<[ri := h]> (ADUQueue._items q))) !! ADUQueue.slot q (S k)))
            (seq 0 (ADUQueue._count q - 1))
        = <[j1 := h]> (map (fun k => ADUQueue.item q (ADUQueue.slot q (S k)))
                          (seq 0 (ADUQueue._count q - 1)))).
      { rewrite <- (map_seq_insert _ h _ 0 j1).
        apply map_ext_in. intros k Hk. apply in_seq in Hk.
        rewrite list_lookup_insert_ne.
        2:{ intros Heq. rewrite <- (slot_0 q Hwf) in Heq.
            apply (slot_inj q Hwf) in Heq; lia. }
        cbn [Nat.add].
        destruct (Nat.eqb_spec k j1) as [-> | Hne].
        - fold ri. rewrite list_lookup_insert_eq by lia. reflexivity.
        - rewrite list_lookup_insert_ne; [reflexivity |].
          unfold ri. intros Heq. apply (slot_inj q Hwf) in Heq; lia. }
      subst ri. rewrite Hmap.
      apply perm_swap_insert.
      rewrite lookup_map_seq by lia. cbn [Nat.add]. rewrite Hi0. reflexivity. }
  split; [| split; [| split]].
  - intros it q' Hres.
    destruct Hcore as [Hfalse | (j0 & c0 & q0 & Hj0 & Hi0 & Hr0 & Hall & Htrue & Hcnt & Hperm)].
    + rewrite Hfalse in Hres. discriminate.
    + rewrite Htrue in Hres. injection Hres as <- <-.
      exists c0. split; [reflexivity |].
      split; [apply in_live; exists j0; auto |].
      split; [exact Hr0 |].
      split; [| split; [exact Hcnt | exact Hperm]].
      intros c' (j & Hj & Hc')%in_live Hr'. exact (Hall j c' Hj Hc' Hr').
  - intros it q' Hres.
    destruct Hcore as [Hfalse | (j0 & c0 & q0 & _ & _ & _ & _ & Htrue & _)].
    + rewrite Hfalse in Hres. injection Hres as <- <-. auto.
    + rewrite Htrue in Hres. discriminate.
  - intros Hnone.
    destruct Hcore as [Hfalse | (j0 & c0 & q0 & Hj0 & Hi0 & Hr0 & _)]; [exact Hfalse |].
    rewrite (Hnone c0) in Hr0; [discriminate |].
    apply in_live. exists j0. auto.
  - intros Hzero.
    destruct Hcore as [Hfalse | (j0 & c0 & q0 & Hj0 & _)]; [exact Hfalse | lia].
Qed.

Lemma C6_readReady_takes_least_delay_among_ready_witness :
  exists c,
    Some 1 = Some c
    /\ In (Some c) (ADUQueue.live ready_queue)
    /\ ADUQueue.ready ready_queuedTime ready_delay ready_on_ms c = true
    /\ (forall c', In (Some c') (ADUQueue.live ready_queue) ->
                   ADUQueue.ready ready_queuedTime ready_delay ready_on_ms c' = true ->
                   (ready_delay c <= ready_delay c')%Z)
    /\ ADUQueue._count (ADUQueue.mk 1 0 2 3 [None; Some 0; Some 2]) + 1
       = ADUQueue._count ready_queue
    /\ Permutation (ADUQueue.live ready_queue)
         (Some c :: ADUQueue.live (ADUQueue.mk 1 0 2 3 [None; Some 0; Some 2])).
Proof.
  apply (proj1 (C6_readReady_takes_least_delay_among_ready
                  ready_queuedTime ready_delay ready_on_ms ready_queue
                  ltac:(repeat split; simpl; lia))
           (Some 1) (ADUQueue.mk 1 0 2 3 [None; Some 0; Some 2])).
  reflexivity.
Defined.

(** ** Register packing: what is written, and the way back *)

Lemma memcpy_spec (dest : list Z) (doff : nat) (src : list Z) (soff n : nat) :
  doff + n <= length dest ->
  length (memcpy dest doff src soff n) = length dest
  /\ (forall t, t < n -> rd (memcpy dest doff src soff n) (doff + t) = rd src (soff + t))
  /\ (forall j, j < doff \/ doff + n <= j -> rd (memcpy dest doff src soff n) j = rd dest j).
Proof.
  intros Hfit. unfold memcpy.
  apply (for_loop_ind
           (fun k d => length d = length dest
                       /\ (forall t, t < k -> rd d (doff + t) = rd src (soff + t))
                       /\ (forall j, j < doff \/ doff + k <= j -> rd d j = rd dest j))).
  - repeat split; intros; lia || reflexivity.
  - intros k d Hk (Hlen & Hin & Hout). split; [| split].
    + rewrite length_insert. exact Hlen.
    + intros t Ht. destruct (Nat.eq_dec t k) as [-> | Hne].
      * apply rd_insert_eq. lia.
      * rewrite rd_insert_ne by lia. apply Hin. lia.
    + intros j Hj. rewrite rd_insert_ne by lia. apply Hout. lia.
Qed.

Lemma drop_eq_pointwise (l1 l2 : list Z) (a : nat) :
  length l1 = length l2 ->
  (forall n, a <= n -> rd l1 n = rd l2 n) ->
  drop a l1 = drop a l2.
Proof.
  intros Hlen Hrd. apply list_eq. intros i. rewrite !lookup_drop.
  specialize (Hrd (a + i) ltac:(lia)). unfold rd in Hrd.
  destruct (l1 !! (a + i)) as [v1 |] eqn:H1, (l2 !! (a + i)) as [v2 |] eqn:H2;
    cbn in Hrd; try congruence;
    repeat match goal with
           | H : _ !! _ = Some _ |- _ => apply lookup_lt_Some in H
           | H : _ !! _ = None |- _ => apply lookup_ge_None in H
           end; lia.
Qed.

Lemma take_eq_pointwise (l x : list Z) :
  length x <= length l ->
  (forall n, n < length x -> rd l n = rd x n) ->
  take (length x) l = x.
Proof.
  intros Hlen Hrd. apply list_eq. intros i.
  destruct (Nat.lt_ge_cases i (length x)) as [Hi | Hi].
  - rewrite lookup_take_lt by assumption.
    specialize (Hrd i Hi). unfold rd in Hrd.
    destruct (l !! i) as [v1 |] eqn:H1, (x !! i) as [v2 |] eqn:H2;
      cbn in Hrd; try congruence;
      repeat match goal with
             | H : _ !! _ = Some _ |- _ => apply lookup_lt_Some in H
             | H : _ !! _ = None |- _ => apply lookup_ge_None in H
             end; lia.
  - rewrite lookup_take_ge by assumption. symmetry. apply lookup_ge_None. exact Hi.
Qed.

Lemma rd_is_byte (x : list Z) (n : nat) : List.Forall is_byte x -> is_byte (rd x n).
Proof.
  intros Hall. unfold rd. destruct (x !! n) as [v |] eqn:Hv; cbn.
  - rewrite List.Forall_forall in Hall. apply Hall.
    apply list_elem_of_In. eapply list_elem_of_lookup_2. exact Hv.
  - unfold is_byte. lia.
Qed.

Lemma testbit_byte_high (b m : Z) : is_byte b -> (8 <= m)%Z -> Z.testbit b m = false.
Proof.
  intros Hb Hm. unfold is_byte in Hb.
  rewrite <- (Z.mod_small b (2 ^ 8)) by (change (2 ^ 8)%Z with 256%Z; lia).
  apply Z.mod_pow2_bits_high. lia.
Qed.

(** A register put together from two bytes gives them back. *)
Lemma lowByte_reg (hi lo : Z) :
  is_byte lo -> lowByte (Z.lor (Z.shiftl hi 8) lo) = lo.
Proof.
  intros Hlo. unfold lowByte.
  change 255%Z with (Z.ones 8). rewrite Z.land_ones by lia.
  apply Z.bits_inj'. intros n Hn.
  destruct (Z.lt_ge_cases n 8) as [Hlt | Hge].
  - rewrite Z.mod_pow2_bits_low by lia.
    rewrite Z.lor_spec, Z.shiftl_spec_low by lia. reflexivity.
  - rewrite Z.mod_pow2_bits_high by lia.
    symmetry. apply testbit_byte_high; assumption.
Qed.

Lemma highByte_reg (hi lo : Z) :
  is_byte hi -> is_byte lo -> highByte (Z.lor (Z.shiftl hi 8) lo) = hi.
Proof.
  intros Hhi Hlo. unfold highByte.
  change 255%Z with (Z.ones 8). rewrite Z.land_ones by lia.
  apply Z.bits_inj'. intros n Hn.
  destruct (Z.lt_ge_cases n 8) as [Hlt | Hge].
  - rewrite Z.mod_pow2_bits_low by lia.
    rewrite Z.shiftr_spec, Z.lor_spec, Z.shiftl_spec by lia.
    rewrite (testbit_byte_high lo) by (assumption || lia).
    rewrite orb_false_r. f_equal. lia.
  - rewrite Z.mod_pow2_bits_high by lia. symmetry. apply testbit_byte_high; assumption.
Qed.

Lemma paddedSizeOf_small (s : nat) :
  s <= 254 ->
  paddedSizeOf s = 2 * ((s + 1) / 2) /\ s <= paddedSizeOf s <= s + 1.
Proof.
  intros Hs. unfold paddedSizeOf, u8.
  pose proof (Nat.div_mod_eq s 2) as Hdm.
  pose proof (Nat.mod_upper_bound s 2 ltac:(lia)) as Hm.
  destruct (Nat.eqb_spec (s mod 2) 0) as [Heven | Hodd].
  - rewrite Nat.mod_small by lia.
    assert (Hhalf : (s + 1) / 2 = s / 2).
    { symmetry. apply (Nat.div_unique (s + 1) 2 (s / 2) 1); lia. }
    rewrite Hhalf. lia.
  - rewrite Nat.mod_small by lia.
    assert (Hhalf : (s + 1) / 2 = s / 2 + 1).
    { symmetry. apply (Nat.div_unique (s + 1) 2 (s / 2 + 1) 0); lia. }
    rewrite Hhalf. lia.
Qed.

Lemma half_of_even (h : nat) : (2 * h + 1) / 2 = h.
Proof. symmetry. apply (Nat.div_unique (2 * h + 1) 2 h 1); lia. Qed.

(** The little-endian branch of [convertToBigEndianRegisters]. *)
Lemma pack_little_spec (x dest : list Z) (c s h : nat) :
  s <= 2 * h ->
  c * (2 * h) <= length dest ->
  let p := 2 * h in
  let packed :=
    for_loop c (fun i d =>
      for_loop ((p + 1) / 2) (fun k d' => pack_pair x s p i (2 * k) d') d) dest in
  length packed = length dest
  /\ is_packed x c s p packed
  /\ forall n, c * p <= n -> rd packed n = rd dest n.
Proof.
  intros Hs Hfit p packed. unfold packed. unfold p. rewrite half_of_even.
  apply (for_loop_ind
           (fun i d => length d = length dest
                       /\ is_packed x i s (2 * h) d
                       /\ forall n, i * (2 * h) <= n -> rd d n = rd dest n)).
  - split; [reflexivity |]. split; [intros i k Hi; lia | reflexivity].
  - intros i d Hi (Hlen & Hdone & Hrest).
    pose (P := fun (k : nat) (d' : list Z) =>
                 length d' = length dest
                 /\ is_packed x i s (2 * h) d'
                 /\ (forall k', k' < k ->
                       rd d' (i * (2 * h) + 2 * k') = pair_hi x s i k'
                       /\ rd d' (i * (2 * h) + (2 * k' + 1)) = pair_lo x s i k')
                 /\ forall n, i * (2 * h) + 2 * k <= n -> rd d' n = rd dest n).
    assert (Hinner : P h (for_loop h (fun k d' => pack_pair x s (2 * h) i (2 * k) d') d)).
    { apply (for_loop_ind P); unfold P.
      + split; [exact Hlen |]. split; [exact Hdone |].
        split; [intros k' Hk'; lia |].
        intros n Hn. apply Hrest. lia.
      + intros k d' Hk (Hlen' & Hdone' & Hpairs & Hrest').
        unfold pack_pair.
        assert (Hidx : i * (2 * h) + (2 * k + 1) < length d') by nia.
        split; [rewrite !length_insert; exact Hlen' |].
        split; [| split].
        * intros i' k' Hi' Hk'.
          rewrite !rd_insert_ne by nia. apply Hdone'; assumption.
        * intros k' Hk'. destruct (Nat.eq_dec k' k) as [-> | Hne].
          -- split.
             ++ rewrite rd_insert_ne by lia. rewrite rd_insert_eq by lia. reflexivity.
             ++ rewrite rd_insert_eq by (rewrite length_insert; lia). reflexivity.
          -- rewrite !rd_insert_ne by lia. apply Hpairs. lia.
        * intros n Hn. rewrite !rd_insert_ne by lia. apply Hrest'. lia. }
    destruct Hinner as (Hlen' & Hdone' & Hpairs & Hrest').
    split; [exact Hlen' |]. split.
      * intros i' k' Hi' Hk'. destruct (Nat.eq_dec i' i) as [-> | Hne].
        -- apply Hpairs. lia.
        -- apply Hdone'; lia.
      * intros n Hn. apply Hrest'. lia.
Qed.

(** The big-endian branch of [convertToBigEndianRegisters] stays within the
    first [c * p] bytes of the destination. *)
Lemma pack_big_frame (x dest : list Z) (c s p : nat) :
  s <= p -> 1 <= p ->
  c * p <= length dest ->
  let packed :=
    for_loop c (fun i d =>
      let d' := memcpy d (i * p) x (i * s) s in
      if s <? p then <[i * p + p - 1 := 0%Z]> d' else d') dest in
  length packed = length dest
  /\ forall n, c * p <= n -> rd packed n = rd dest n.
Proof.
  intros Hs Hp Hfit packed. unfold packed.
  apply (for_loop_ind
           (fun i d => length d = length dest
                       /\ forall n, i * p <= n -> rd d n = rd dest n)).
  - split; reflexivity.
  - intros i d Hi (Hlen & Hrest).
    destruct (memcpy_spec d (i * p) x (i * s) s) as (Hl & _ & Hout); [nia |].
    assert (Hframe : forall n, S i * p <= n ->
                       rd (memcpy d (i * p) x (i * s) s) n = rd dest n).
    { intros n Hn. rewrite Hout by nia. apply Hrest. nia. }
    destruct (s <? p).
    + split; [rewrite length_insert; lia |].
      intros n Hn. rewrite rd_insert_ne by nia. apply Hframe, Hn.
    + split; [lia | exact Hframe].
Qed.

Lemma pair_lo_byte (x : list Z) (s i k : nat) :
  List.Forall is_byte x -> is_byte (pair_lo x s i k).
Proof.
  intros Hx. unfold pair_lo. destruct (2 * k <? s); [apply rd_is_byte, Hx |].
  unfold is_byte. lia.
Qed.

Lemma pair_hi_byte (x : list Z) (s i k : nat) :
  List.Forall is_byte x -> is_byte (pair_hi x s i k).
Proof.
  intros Hx. unfold pair_hi. destruct (2 * k + 1 <? s); [apply rd_is_byte, Hx |].
  unfold is_byte. lia.
Qed.

(** The loop of [convertFromBigEndianRegistersInPlace] on a little-endian
    host, run on a packed image. *)
Lemma unpack_little_spec (x b temp0 : list Z) (c s h : nat) :
  s <= 2 * h ->
  List.Forall is_byte x ->
  is_packed x c s (2 * h) b ->
  c * (2 * h) <= length b ->
  length temp0 = 32 ->
  s <= 32 ->
  let p := 2 * h in
  let r :=
    for_loop c (fun i (st : list Z * list Z) =>
      let temp := for_loop ((p + 1) / 2)
                    (fun k t => unpack_pair false st.1 s p i (2 * k) t) st.2 in
      (memcpy st.1 (i * s) temp 0 s, temp)) (b, temp0) in
  length r.1 = length b
  /\ forall n, n < c * s -> rd r.1 n = rd x n.
Proof.
  intros Hs Hbytes Hpacked Hfit Htemp Hs32 p r. unfold r, p. rewrite half_of_even.
  pose (U := fun (i : nat) (st : list Z * list Z) =>
               length st.1 = length b /\ length st.2 = 32
               /\ (forall n, n < i * s -> rd st.1 n = rd x n)
               /\ (forall n, i * (2 * h) <= n -> rd st.1 n = rd b n)).
  assert (HU : U c (for_loop c (fun i (st : list Z * list Z) =>
                      let temp := for_loop h
                                    (fun k t => unpack_pair false st.1 s (2 * h) i (2 * k) t)
                                    st.2 in
                      (memcpy st.1 (i * s) temp 0 s, temp)) (b, temp0))).
  { apply (for_loop_ind U); unfold U.
    - cbn [fst snd]. repeat split; try assumption; try reflexivity. intros n Hn. lia.
    - intros i [buf temp] Hi (Hlen & Hlt & Hdone & Hrest). cbn [fst snd] in *.
      pose (V := fun (k : nat) (t : list Z) =>
                   length t = 32
                   /\ forall j, j < s -> j < 2 * k -> rd t j = rd x (i * s + j)).
      assert (HV : V h (for_loop h
                          (fun k t => unpack_pair false buf s (2 * h) i (2 * k) t) temp)).
      { apply (for_loop_ind V); unfold V.
        - split; [exact Hlt | intros j _ Hj; lia].
        - intros k t Hk (Hlt' & Hcopied).
          unfold unpack_pair.
          destruct (Hpacked i k Hi ltac:(lia)) as [Hhi Hlo].
          rewrite !Hrest by nia. rewrite Hhi, Hlo.
          rewrite lowByte_reg by (apply pair_lo_byte, Hbytes).
          rewrite highByte_reg by (apply pair_hi_byte, Hbytes || apply pair_lo_byte, Hbytes).
          unfold pair_lo, pair_hi.
          destruct (Nat.ltb_spec (2 * k) s) as [Hlo_in | Hlo_out];
            destruct (Nat.ltb_spec (2 * k + 1) s) as [Hhi_in | Hhi_out];
            (split; [rewrite ?length_insert; exact Hlt' |]);
            intros j Hj Hj2.
          + destruct (Nat.eq_dec j (2 * k + 1)) as [-> | Hne1].
            { rewrite rd_insert_eq by (rewrite length_insert; lia). reflexivity. }
            rewrite rd_insert_ne by lia.
            destruct (Nat.eq_dec j (2 * k)) as [-> | Hne0].
            { rewrite rd_insert_eq by lia. reflexivity. }
            rewrite rd_insert_ne by lia. apply Hcopied; lia.
          + destruct (Nat.eq_dec j (2 * k)) as [-> | Hne0].
            { rewrite rd_insert_eq by lia. reflexivity. }
            rewrite rd_insert_ne by lia. apply Hcopied; lia.
          + lia.
          + apply Hcopied; lia. }
      destruct HV as (Hlt' & Hcopied).
      destruct (memcpy_spec buf (i * s)
                  (for_loop h (fun k t => unpack_pair false buf s (2 * h) i (2 * k) t) temp)
                  0 s) as (Hl & Hin & Hout); [nia |].
      split; [lia |]. split; [exact Hlt' |]. split.
      + intros n Hn. destruct (Nat.lt_ge_cases n (i * s)) as [Hold | Hnew].
        * rewrite Hout by lia. apply Hdone, Hold.
        * replace n with (i * s + (n - i * s)) by lia.
          rewrite Hin by lia. cbn [Nat.add]. apply Hcopied; lia.
      + intros n Hn. rewrite Hout by nia. apply Hrest. nia. }
  destruct HU as (Hlen & _ & Hdone & _).
  split; [exact Hlen | exact Hdone].
Qed.

Lemma packedSize_small (s : nat) :
  s <= 32 -> packedSize s = 2 * ((s + 1) / 2).
Proof.
  intros Hs. unfold packedSize.
  do 33 (destruct s as [| s]; [vm_compute; reflexivity |]). lia.
Qed.

Lemma u16_small (n : nat) : (Z.of_nat n < 65536)%Z -> u16 n = n.
Proof. intros Hn. unfold u16. rewrite Z.mod_small by lia. apply Nat2Z.id. Qed.

(** ** C2: packing into registers and back *)

Example pack_unpack_little :
  convertToBigEndianRegisters false (Some [1; 2; 3; 4; 5; 6]%Z) 2 3
    (Some (replicate 10 9%Z)) 8
  = (true, Some [2; 1; 0; 3; 5; 4; 0; 6; 9; 9]%Z)
  /\ convertFromBigEndianRegistersInPlace false 253
       (Some [2; 1; 0; 3; 5; 4; 0; 6; 9; 9]%Z) 2 3
     = (true, Some [1; 2; 3; 4; 5; 6; 0; 6; 9; 9]%Z, Some 6).
Proof. split; vm_compute; reflexivity. Qed.

(** The guard on [_PDUSize]: five 2-byte elements do not go through a PDU of
    eight bytes. *)
Example unpack_refuses_beyond_pdu :
  convertFromBigEndianRegistersInPlace false 8
    (Some [2; 1; 4; 3; 6; 5; 8; 7; 10; 9]%Z) 5 2
  = (false, Some [2; 1; 4; 3; 6; 5; 8; 7; 10; 9]%Z, None).
Proof. vm_compute. reflexivity. Qed.

(** C2: the round trip at the input where the code breaks it.  On a
    big-endian host [convertToBigEndianRegisters] copies the one 2-byte
    element [11 22] as it is, and [convertFromBigEndianRegistersInPlace] on
    these bytes returns [true] and leaves [22 11] in the buffer: both arms
    of its [isBigEndian ? lo : lowByte(reg)] and
    [isBigEndian ? hi : highByte(reg)] are the same byte, so it swaps every
    pair on either host, also the pairs that the big-endian pack did not
    swap. *)
Lemma C2_round_trip_fails_on_big_endian_host :
  convertToBigEndianRegisters true (Some [0x11; 0x22]%Z) 1 2 (Some [0; 0]%Z) 2
  = (true, Some [0x11; 0x22]%Z)
  /\ packedSize 2 = 2
  /\ convertFromBigEndianRegistersInPlace true 253 (Some [0x11; 0x22]%Z) 1 2
     = (true, Some [0x22; 0x11]%Z, Some 2)
  /\ [0x22; 0x11]%Z <> [0x11; 0x22]%Z.
Proof. repeat split; try (vm_compute; reflexivity). discriminate. Qed.

(** What holds of the two conversions.  For [1 <= s <= 32],
    [1 <= c <= 255] and an array [x] of [c] elements of [s] bytes,
    [convertToBigEndianRegisters] into a destination of capacity at least
    [c * ((s + 1) & ~1)] succeeds under either setting of [isBigEndian] and
    writes exactly that many bytes (the destination keeps its length and
    every byte beyond them).  On a little-endian host these bytes are the
    registers of [x], high byte first, and when they fit the PDU
    ([c * ((s + 1) & ~1) <= _PDUSize]),
    [convertFromBigEndianRegistersInPlace] with the same [c] and [s]
    succeeds, leaves the bytes of [x] in the first [c * s] places and
    stores [c * s] (as a [uint8_t]) in [_dataLen]. *)
Theorem C2_pack_then_unpack
    (isBigEndian : bool) (x dest : list Z) (c s destLen PDUSize : nat) :
  1 <= s <= 32 ->
  1 <= c <= 255 ->
  length x = c * s ->
  List.Forall is_byte x ->
  c * packedSize s <= destLen ->
  destLen <= length dest ->
  exists packed,
    convertToBigEndianRegisters isBigEndian (Some x) c s (Some dest) destLen
    = (true, Some packed)
    /\ length packed = length dest
    /\ drop (c * packedSize s) packed = drop (c * packedSize s) dest
    /\ (isBigEndian = false ->
        is_packed x c s (packedSize s) packed
        /\ (c * packedSize s <= PDUSize ->
            exists buf,
              convertFromBigEndianRegistersInPlace false PDUSize (Some packed) c s
              = (true, Some buf, Some (u8 (c * s)))
              /\ length buf = length packed
              /\ take (c * s) buf = x)).
Proof.
  intros Hs Hc Hx Hbytes Hcap Hlen.
  rewrite packedSize_small in * by lia.
  destruct (paddedSizeOf_small s ltac:(lia)) as [Hp Hps].
  set (h := (s + 1) / 2) in *.
  assert (Hh : s <= 2 * h <= s + 1) by lia.
  assert (Hu : u16 (c * (2 * h)) = c * (2 * h)) by (apply u16_small; nia).
  unfold convertToBigEndianRegisters.
  destruct (Nat.eqb_spec s 0) as [? | _]; [lia |].
  rewrite Hp, Hu.
  destruct (Nat.ltb_spec destLen (c * (2 * h))) as [? | _]; [lia |].
  destruct isBigEndian.
  - eexists. split; [reflexivity |].
    destruct (pack_big_frame x dest c s (2 * h)) as [Hl Hrest]; [lia .. |].
    split; [exact Hl |]. split; [| discriminate].
    apply drop_eq_pointwise; assumption.
  - eexists. split; [reflexivity |].
    destruct (pack_little_spec x dest c s h) as (Hl & Hpk & Hrest); [lia .. |].
    split; [exact Hl |]. split; [apply drop_eq_pointwise; assumption |].
    intros _. split; [exact Hpk |]. intros Hpdu.
    unfold convertFromBigEndianRegistersInPlace.
    destruct (Nat.eqb_spec s 0) as [? | _]; [lia |].
    rewrite Hp, Hu.
    assert (Hu' : u16 (c * s) = c * s) by (apply u16_small; nia).
    rewrite Hu'.
    destruct (Nat.ltb_spec PDUSize (c * (2 * h))) as [? | _]; [lia |].
    destruct (Nat.ltb_spec PDUSize (c * s)) as [? | _]; [nia |].
    destruct (Nat.ltb_spec 32 s) as [? | _]; [lia |].
    cbn [orb].
    eexists. split; [reflexivity |].
    match goal with
    | |- context [for_loop c ?f (?b, ?t)] =>
        destruct (unpack_little_spec x b t c s h) as [Hl' Hback]
    end; try assumption; try lia.
    { rewrite length_replicate. reflexivity. }
    cbv zeta in Hl', Hback |- *.
    split; [exact Hl' |].
    rewrite <- Hx. apply take_eq_pointwise.
    + rewrite Hl', Hl. nia.
    + intros n Hn. apply Hback. lia.
Qed.

Lemma C2_pack_then_unpack_witness :
  exists packed,
    convertToBigEndianRegisters false (Some [1; 2; 3; 4; 5; 6]%Z) 2 3
      (Some (replicate 10 9%Z)) 8
    = (true, Some packed)
    /\ length packed = length (replicate 10 9%Z)
    /\ drop (2 * packedSize 3) packed = drop (2 * packedSize 3) (replicate 10 9%Z)
    /\ (false = false ->
        is_packed [1; 2; 3; 4; 5; 6]%Z 2 3 (packedSize 3) packed
        /\ (2 * packedSize 3 <= 253 ->
            exists buf,
              convertFromBigEndianRegistersInPlace false 253 (Some packed) 2 3
              = (true, Some buf, Some (u8 (2 * 3)))
              /\ length buf = length packed
              /\ take (2 * 3) buf = [1; 2; 3; 4; 5; 6]%Z)).
Proof.
  apply (C2_pack_then_unpack false [1; 2; 3; 4; 5; 6]%Z (replicate 10 9%Z) 2 3 8 253).
  - lia.
  - lia.
  - reflexivity.
  - repeat constructor; unfold is_byte; lia.
  - vm_compute. lia.
  - vm_compute. lia.
Defined.

(** ** Slave sets: membership under [set], [remove] and [clear] *)

Lemma isSet_remove (k i : nat) (s : Slaves.t) :
  k <= 247 -> length (Slaves._mask s) = 32 ->
  Slaves.isSet i (Slaves.remove k s) = Slaves.isSet i s && negb (i =? k).
Proof.
  intros Hk Hlen. rewrite !isSet_mask_bit, mask_bit_remove by assumption.
  rewrite andb_assoc. reflexivity.
Qed.

(** X1: [Slaves::set(id)] with [id <= 247] makes [id] a member and changes
    the membership of no other ID; with [id > 247] it changes nothing.  The
    cursor and the two delays are never touched. *)
Theorem set_adds_exactly_one_member (k : nat) (s : Slaves.t) :
  length (Slaves._mask s) = 32 ->
  (k <= 247 ->
   Slaves.isSet k (Slaves.set k s) = true
   /\ forall i, i <> k -> Slaves.isSet i (Slaves.set k s) = Slaves.isSet i s)
  /\ (247 < k -> Slaves.set k s = s)
  /\ Slaves._active (Slaves.set k s) = Slaves._active s
  /\ Slaves._delay (Slaves.set k s) = Slaves._delay s
  /\ Slaves._repeatDelay (Slaves.set k s) = Slaves._repeatDelay s.
Proof.
  intros Hlen. split; [| split].
  - intros Hk. split.
    + rewrite isSet_set, Nat.eqb_refl, orb_true_r by assumption. reflexivity.
    + intros i Hi. rewrite isSet_set by assumption.
      destruct (Nat.eqb_spec i k); [contradiction | apply orb_false_r].
  - intros Hk. unfold Slaves.set.
    destruct (Nat.ltb_spec MB_MAX_SLAVE_ID k) as [_ | Hle]; [reflexivity |].
    unfold MB_MAX_SLAVE_ID in Hle. lia.
  - unfold Slaves.set. destruct (MB_MAX_SLAVE_ID <? k); repeat split; reflexivity.
Qed.

Lemma set_adds_exactly_one_member_witness :
  (5 <= 247 ->
   Slaves.isSet 5 (Slaves.set 5 Slaves.new) = true
   /\ forall i, i <> 5 -> Slaves.isSet i (Slaves.set 5 Slaves.new) = Slaves.isSet i Slaves.new)
  /\ (247 < 5 -> Slaves.set 5 Slaves.new = Slaves.new)
  /\ Slaves._active (Slaves.set 5 Slaves.new) = Slaves._active Slaves.new
  /\ Slaves._delay (Slaves.set 5 Slaves.new) = Slaves._delay Slaves.new
  /\ Slaves._repeatDelay (Slaves.set 5 Slaves.new) = Slaves._repeatDelay Slaves.new.
Proof.
  apply (set_adds_exactly_one_member 5 Slaves.new). reflexivity.
Defined.

(** X2: [Slaves::remove(id)] with [id <= 247] takes [id] out of the set and
    changes the membership of no other ID, so that [remove] after [set]
    gives back the members the set had apart from [id]; with [id > 247] it
    changes nothing. *)
Theorem remove_takes_exactly_one_member (k : nat) (s : Slaves.t) :
  length (Slaves._mask s) = 32 ->
  (k <= 247 ->
   Slaves.isSet k (Slaves.remove k s) = false
   /\ (forall i, i <> k -> Slaves.isSet i (Slaves.remove k s) = Slaves.isSet i s)
   /\ (forall i, Slaves.isSet i (Slaves.remove k (Slaves.set k s))
                 = Slaves.isSet i s && negb (i =? k)))
  /\ (247 < k -> Slaves.remove k s = s).
Proof.
  intros Hlen. split.
  - intros Hk. split; [| split].
    + rewrite isSet_remove, Nat.eqb_refl by assumption. apply andb_false_r.
    + intros i Hi. rewrite isSet_remove by assumption.
      destruct (Nat.eqb_spec i k); [contradiction | apply andb_true_r].
    + intros i.
      assert (Hlen' : length (Slaves._mask (Slaves.set k s)) = 32).
      { unfold Slaves.set. destruct (MB_MAX_SLAVE_ID <? k); [exact Hlen |].
        cbn [Slaves._mask Slaves.with_mask]. rewrite length_insert. exact Hlen. }
      rewrite isSet_remove, isSet_set by assumption.
      destruct (Nat.eqb_spec i k); cbn [negb];
        rewrite ?andb_false_r, ?andb_true_r, ?orb_false_r; reflexivity.
  - intros Hk. unfold Slaves.remove.
    destruct (Nat.ltb_spec MB_MAX_SLAVE_ID k) as [_ | Hle]; [reflexivity |].
    unfold MB_MAX_SLAVE_ID in Hle. lia.
Qed.

Lemma remove_takes_exactly_one_member_witness :
  (7 <= 247 ->
   Slaves.isSet 7 (Slaves.remove 7 (Slaves.of_list [3; 7])) = false
   /\ (forall i, i <> 7 -> Slaves.isSet i (Slaves.remove 7 (Slaves.of_list [3; 7]))
                           = Slaves.isSet i (Slaves.of_list [3; 7]))
   /\ (forall i, Slaves.isSet i (Slaves.remove 7 (Slaves.set 7 (Slaves.of_list [3; 7])))
                 = Slaves.isSet i (Slaves.of_list [3; 7]) && negb (i =? 7)))
  /\ (247 < 7 -> Slaves.remove 7 (Slaves.of_list [3; 7]) = Slaves.of_list [3; 7]).
Proof.
  apply (remove_takes_exactly_one_member 7 (Slaves.of_list [3; 7])). reflexivity.
Defined.

Lemma memset_all (m : list Z) (v : Z) :
  memset m 0 v (length m) = replicate (length m) v.
Proof.
  destruct (memset_spec m 0 (length m) v) as [Hl Hv]; [lia |].
  apply list_eq. intros i.
  destruct (Nat.lt_ge_cases i (length m)) as [Hi | Hi].
  - rewrite lookup_replicate_2 by assumption.
    specialize (Hv i Hi). cbn [Nat.add] in Hv. unfold rd in Hv.
    destruct (memset m 0 v (length m) !! i) as [x |] eqn:Hx.
    + cbn in Hv. congruence.
    + apply lookup_ge_None in Hx. lia.
  - rewrite (proj2 (lookup_ge_None _ _)) by lia.
    symmetry. apply lookup_ge_None. rewrite length_replicate. lia.
Qed.

(** X3: [Slaves::clear] puts a slave set back into the state of a freshly
    constructed one, whatever it held: no ID is a member, [valid] is false,
    the cursor is [SLAVE_BOF], the inter-slave delay is 0 and repetition is
    off; [getNext] then answers [SLAVE_EOF] and [hasMore] is false. *)
Theorem clear_gives_the_fresh_set (s : Slaves.t) :
  length (Slaves._mask s) = 32 ->
  let c := Slaves.clear s in
  c = Slaves.new
  /\ (forall i, Slaves.isSet i c = false)
  /\ Slaves.valid c = false
  /\ Slaves.getActive c = SLAVE_BOF
  /\ Slaves.getDelay c = 0%Z
  /\ Slaves.getRepeat c = false
  /\ Slaves.getNext c = (SLAVE_EOF, c)
  /\ Slaves.hasMore c = false.
Proof.
  intros Hlen c.
  assert (Hc : c = Slaves.new).
  { unfold c, Slaves.clear, Slaves.new. f_equal.
    rewrite <- Hlen. apply memset_all. }
  rewrite Hc. split; [reflexivity |]. split; [apply isSet_new |].
  repeat split; vm_compute; reflexivity.
Qed.

Lemma clear_gives_the_fresh_set_witness :
  let c := Slaves.clear (Slaves.of_list_delay_repeat [1; 2; 200] 5 1000) in
  c = Slaves.new
  /\ (forall i, Slaves.isSet i c = false)
  /\ Slaves.valid c = false
  /\ Slaves.getActive c = SLAVE_BOF
  /\ Slaves.getDelay c = 0%Z
  /\ Slaves.getRepeat c = false
  /\ Slaves.getNext c = (SLAVE_EOF, c)
  /\ Slaves.hasMore c = false.
Proof.
  apply (clear_gives_the_fresh_set (Slaves.of_list_delay_repeat [1; 2; 200] 5 1000)).
  reflexivity.
Defined.

(** ** Slave sets: ranges *)

Lemma memset_frame (m : list Z) (off n : nat) (v : Z) (j : nat) :
  j < off \/ off + n <= j -> rd (memset m off v n) j = rd m j.
Proof.
  intros Hj. unfold memset.
  apply (for_loop_ind (fun k d => rd d j = rd m j)); [reflexivity |].
  intros k d Hk Hd. rewrite rd_insert_ne by lia. exact Hd.
Qed.

(** The loops of [set(begin, end)] that switch on the bits [a .. a+n-1] of
    one mask byte. *)
Lemma or_loop_spec (m : list Z) (B a n : nat) :
  B < length m ->
  let m' := for_from a n (fun i m0 => <[B := Slaves.or_bit (rd m0 B) i]> m0) m in
  length m' = length m
  /\ (forall j, j <> B -> rd m' j = rd m j)
  /\ (forall t, Z.testbit (rd m' B) (Z.of_nat t)
                = Z.testbit (rd m B) (Z.of_nat t) || ((a <=? t) && (t <? a + n))).
Proof.
  intros HB m'. unfold m'.
  apply (for_from_ind
           (fun k d => length d = length m
                       /\ (forall j, j <> B -> rd d j = rd m j)
                       /\ (forall t, Z.testbit (rd d B) (Z.of_nat t)
                                     = Z.testbit (rd m B) (Z.of_nat t)
                                       || ((a <=? t) && (t <? k))))).
  - split; [reflexivity |]. split; [reflexivity |].
    intros t. destruct (Nat.leb_spec a t), (Nat.ltb_spec t a); try lia;
      cbn [andb]; rewrite orb_false_r; reflexivity.
  - intros k d Hk (Hlen & Hframe & Hbits). split; [| split].
    + rewrite length_insert. exact Hlen.
    + intros j Hj. rewrite rd_insert_ne by auto. apply Hframe, Hj.
    + intros t. rewrite rd_insert_eq by lia. rewrite testbit_or_bit, Hbits.
      destruct (Nat.leb_spec a t), (Nat.ltb_spec t k), (Nat.ltb_spec t (S k)),
        (Nat.eqb_spec t k); try lia; cbn [andb orb];
        rewrite ?orb_false_r, ?orb_true_r; reflexivity.
Qed.

Lemma testbit_255 (r : nat) : r < 8 -> Z.testbit 255 (Z.of_nat r) = true.
Proof.
  intros Hr. do 8 (destruct r as [| r]; [reflexivity |]). lia.
Qed.

Lemma mask_bit_set_range (b e i : nat) (s : Slaves.t) :
  b <= e -> e <= 247 -> length (Slaves._mask s) = 32 ->
  Slaves.mask_bit (Slaves.set_range b e s) i
  = Slaves.mask_bit s i || ((b <=? i) && (i <=? e)).
Proof.
  intros Hbe He Hlen. unfold Slaves.set_range.
  destruct (Nat.ltb_spec e b) as [? | _]; [lia |].
  destruct (Nat.ltb_spec MB_MAX_SLAVE_ID e) as [Hgt | _];
    [unfold MB_MAX_SLAVE_ID in Hgt; lia |].
  cbn [orb].
  pose proof (Nat.div_mod_eq b 8) as Hb8.
  pose proof (Nat.div_mod_eq e 8) as He8.
  pose proof (Nat.div_mod_eq i 8) as Hi8.
  pose proof (Nat.mod_upper_bound b 8 ltac:(lia)) as Hbm.
  pose proof (Nat.mod_upper_bound e 8 ltac:(lia)) as Hem.
  pose proof (Nat.mod_upper_bound i 8 ltac:(lia)) as Him.
  set (sb := b / 8) in *. set (eb := e / 8) in *. set (q := i / 8) in *.
  set (sbit := b mod 8) in *. set (ebit := e mod 8) in *. set (r := i mod 8) in *.
  assert (Heb : eb < 32) by lia.
  unfold Slaves.mask_bit. fold q r.
  destruct (Nat.eqb_spec sb eb) as [Heq | Hne].
  - cbn [Slaves._mask Slaves.with_mask].
    destruct (or_loop_spec (Slaves._mask s) sb sbit (ebit + 1 - sbit))
      as (_ & Hframe & Hbits); [lia |].
    destruct (Nat.eq_dec q sb) as [-> | Hq].
    + rewrite Hbits. f_equal.
      destruct (Nat.leb_spec sbit r), (Nat.ltb_spec r (sbit + (ebit + 1 - sbit))),
        (Nat.leb_spec b i), (Nat.leb_spec i e); cbn [andb]; try reflexivity; lia.
    + rewrite Hframe by exact Hq.
      destruct (Nat.leb_spec b i), (Nat.leb_spec i e); cbn [andb];
        rewrite ?orb_false_r; try reflexivity; lia.
  - cbn [Slaves._mask Slaves.with_mask].
    set (m1 := for_from sbit (8 - sbit)
                 (fun i0 m => <[sb := Slaves.or_bit (rd m sb) i0]> m) (Slaves._mask s)).
    destruct (or_loop_spec (Slaves._mask s) sb sbit (8 - sbit))
      as (Hl1 & Hframe1 & Hbits1); [lia |]. fold m1 in Hl1, Hframe1, Hbits1.
    set (m2 := if sb + 1 <? eb then memset m1 (sb + 1) 255 (eb - sb - 1) else m1).
    assert (Hl2 : length m2 = 32).
    { unfold m2. destruct (sb + 1 <? eb); [| lia].
      destruct (memset_spec m1 (sb + 1) (eb - sb - 1) 255) as [Hl _]; lia. }
    assert (Hframe2 : forall j, j <= sb \/ eb <= j -> rd m2 j = rd m1 j).
    { intros j Hj. unfold m2. destruct (sb + 1 <? eb); [| reflexivity].
      apply memset_frame. lia. }
    assert (Hfill2 : forall j, sb < j < eb -> rd m2 j = 255%Z).
    { intros j Hj. unfold m2.
      destruct (Nat.ltb_spec (sb + 1) eb) as [_ | ?]; [| lia].
      destruct (memset_spec m1 (sb + 1) (eb - sb - 1) 255) as [_ Hv]; [lia |].
      replace j with (sb + 1 + (j - sb - 1)) by lia. apply Hv. lia. }
    destruct (or_loop_spec m2 eb 0 (ebit + 1)) as (_ & Hframe3 & Hbits3); [lia |].
    destruct (Nat.eq_dec q eb) as [-> | Hqe].
    + rewrite Hbits3, Hframe2, Hframe1 by lia. f_equal.
      destruct (Nat.leb_spec 0 r), (Nat.ltb_spec r (0 + (ebit + 1))),
        (Nat.leb_spec b i), (Nat.leb_spec i e); cbn [andb]; try reflexivity; lia.
    + rewrite Hframe3 by exact Hqe.
      destruct (Nat.eq_dec q sb) as [-> | Hqs].
      * rewrite Hframe2, Hbits1 by lia. f_equal.
        destruct (Nat.leb_spec sbit r), (Nat.ltb_spec r (sbit + (8 - sbit))),
          (Nat.leb_spec b i), (Nat.leb_spec i e); cbn [andb]; try reflexivity; lia.
      * destruct (Nat.lt_ge_cases q sb) as [Hlow | Hhigh].
        -- rewrite Hframe2, Hframe1 by lia.
           destruct (Nat.leb_spec b i), (Nat.leb_spec i e); cbn [andb];
             rewrite ?orb_false_r; try reflexivity; lia.
        -- destruct (Nat.lt_ge_cases q eb) as [Hmid | Habove].
           ++ rewrite Hfill2 by lia. rewrite testbit_255 by exact Him.
              destruct (Nat.leb_spec b i), (Nat.leb_spec i e); cbn [andb];
                rewrite ?orb_true_r; try reflexivity; lia.
           ++ rewrite Hframe2, Hframe1 by lia.
              destruct (Nat.leb_spec b i), (Nat.leb_spec i e); cbn [andb];
                rewrite ?orb_false_r; try reflexivity; lia.
Qed.

(** X4: [Slaves::set(begin, end)] with [begin <= end <= 247] adds exactly
    the IDs from [begin] to [end], both included, to the set: the byte-wise
    filling of the bitmap agrees with setting the IDs one by one.  With
    [begin > end] or [end > 247] it changes nothing. *)
Theorem set_range_adds_the_interval (b e : nat) (s : Slaves.t) :
  length (Slaves._mask s) = 32 ->
  (b <= e -> e <= 247 ->
   forall i, Slaves.isSet i (Slaves.set_range b e s)
             = Slaves.isSet i s || ((b <=? i) && (i <=? e)))
  /\ (e < b \/ 247 < e -> Slaves.set_range b e s = s).
Proof.
  intros Hlen. split.
  - intros Hbe He i. rewrite !isSet_mask_bit, mask_bit_set_range by assumption.
    destruct (Nat.leb_spec i MB_MAX_SLAVE_ID) as [_ | Hgt]; [reflexivity |].
    cbn [andb orb]. unfold MB_MAX_SLAVE_ID in Hgt.
    destruct (Nat.leb_spec b i), (Nat.leb_spec i e); cbn [andb]; try reflexivity; lia.
  - intros Hbad. unfold Slaves.set_range.
    destruct (Nat.ltb_spec e b), (Nat.ltb_spec MB_MAX_SLAVE_ID e);
      try reflexivity. unfold MB_MAX_SLAVE_ID in *. lia.
Qed.

Lemma set_range_adds_the_interval_witness :
  (6 <= 20 -> 20 <= 247 ->
   forall i, Slaves.isSet i (Slaves.set_range 6 20 (Slaves.of_list [3; 40]))
             = Slaves.isSet i (Slaves.of_list [3; 40]) || ((6 <=? i) && (i <=? 20)))
  /\ (20 < 6 \/ 247 < 20 ->
      Slaves.set_range 6 20 (Slaves.of_list [3; 40]) = Slaves.of_list [3; 40]).
Proof.
  apply (set_range_adds_the_interval 6 20 (Slaves.of_list [3; 40])). reflexivity.
Defined.

(** ** Slave sets: [valid], [peek], [hasMore] and [resetActive] *)

Lemma is_byte_of_bits (x : Z) :
  (forall m, (8 <= m)%Z -> Z.testbit x m = false) -> is_byte x.
Proof.
  intros Hhigh.
  assert (Hx : x = (x mod 2 ^ 8)%Z).
  { apply Z.bits_inj'. intros n Hn.
    destruct (Z.lt_ge_cases n 8) as [Hlt | Hge].
    - rewrite Z.mod_pow2_bits_low by lia. reflexivity.
    - rewrite Z.mod_pow2_bits_high by lia. apply Hhigh, Hge. }
  unfold is_byte. rewrite Hx. change (2 ^ 8)%Z with 256%Z.
  apply Z.mod_pos_bound. lia.
Qed.

Lemma or_bit_byte (x : Z) (k : nat) : is_byte x -> k < 8 -> is_byte (Slaves.or_bit x k).
Proof.
  intros Hx Hk. apply is_byte_of_bits. intros m Hm.
  rewrite <- (Z2Nat.id m) by lia. rewrite testbit_or_bit.
  rewrite Z2Nat.id by lia. rewrite (testbit_byte_high x m Hx Hm).
  destruct (Nat.eqb_spec (Z.to_nat m) k); [lia | reflexivity].
Qed.

Lemma clear_bit_byte (x : Z) (k : nat) : is_byte x -> is_byte (Slaves.clear_bit x k).
Proof.
  intros Hx. apply is_byte_of_bits. intros m Hm.
  rewrite <- (Z2Nat.id m) by lia. rewrite testbit_clear_bit.
  rewrite Z2Nat.id by lia. rewrite (testbit_byte_high x m Hx Hm). reflexivity.
Qed.

Lemma Forall_byte_insert (m : list Z) (j : nat) (v : Z) :
  List.Forall is_byte m -> is_byte v -> List.Forall is_byte (<[j := v]> m).
Proof.
  intros Hm Hv. apply List.Forall_forall. intros x Hx.
  apply list_elem_of_In in Hx. apply list_elem_of_lookup_1 in Hx as [n Hn].
  destruct (Nat.eq_dec n j) as [-> | Hne].
  - destruct (Nat.lt_ge_cases j (length m)) as [Hj | Hj].
    + rewrite list_lookup_insert_eq in Hn by exact Hj. congruence.
    + apply lookup_lt_Some in Hn. rewrite length_insert in Hn. lia.
  - rewrite list_lookup_insert_ne in Hn by auto.
    rewrite List.Forall_forall in Hm. apply Hm.
    apply list_elem_of_In. eapply list_elem_of_lookup_2. exact Hn.
Qed.

Lemma or_loop_bytes (m : list Z) (B a n : nat) :
  a + n <= 8 -> List.Forall is_byte m ->
  List.Forall is_byte (for_from a n (fun i m0 => <[B := Slaves.or_bit (rd m0 B) i]> m0) m).
Proof.
  intros Han Hm.
  apply (for_from_ind (fun _ d => List.Forall is_byte d)); [exact Hm |].
  intros k d Hk Hd. apply Forall_byte_insert; [exact Hd |].
  apply or_bit_byte; [apply rd_is_byte, Hd | lia].
Qed.

Lemma memset_bytes (m : list Z) (off n : nat) (v : Z) :
  is_byte v -> List.Forall is_byte m -> List.Forall is_byte (memset m off v n).
Proof.
  intros Hv Hm. unfold memset.
  apply (for_loop_ind (fun _ d => List.Forall is_byte d)); [exact Hm |].
  intros k d _ Hd. apply Forall_byte_insert; assumption.
Qed.

(** Every mask byte of a set stays a byte under every operation. *)
Lemma step_bytes (s : Slaves.t) (o : Slaves.op) :
  List.Forall is_byte (Slaves._mask s) ->
  List.Forall is_byte (Slaves._mask (Slaves.step s o)).
Proof.
  intros Hs.
  assert (Hset : forall k s0, List.Forall is_byte (Slaves._mask s0) ->
                              List.Forall is_byte (Slaves._mask (Slaves.set k s0))).
  { intros k s0 H0. unfold Slaves.set.
    destruct (MB_MAX_SLAVE_ID <? k); [exact H0 |].
    cbn [Slaves._mask Slaves.with_mask]. apply Forall_byte_insert; [exact H0 |].
    apply or_bit_byte; [apply rd_is_byte, H0 |].
    apply Nat.mod_upper_bound. lia. }
  destruct o as [k | b e | l | k | | d | d | |]; cbn [Slaves.step].
  - apply Hset, Hs.
  - unfold Slaves.set_range.
    destruct ((e <? b) || (MB_MAX_SLAVE_ID <? e)); [exact Hs |].
    pose proof (Nat.mod_upper_bound b 8 ltac:(lia)) as Hbm.
    pose proof (Nat.mod_upper_bound e 8 ltac:(lia)) as Hem.
    destruct (b / 8 =? e / 8); cbn [Slaves._mask Slaves.with_mask].
    + destruct (Nat.le_gt_cases (b mod 8) (e mod 8)) as [Hle | Hgt].
      * apply or_loop_bytes; [lia | exact Hs].
      * replace (e mod 8 + 1 - b mod 8) with 0 by lia. exact Hs.
    + apply or_loop_bytes; [lia |].
      destruct (b / 8 + 1 <? e / 8).
      * apply memset_bytes; [unfold is_byte; lia |].
        apply or_loop_bytes; [lia | exact Hs].
      * apply or_loop_bytes; [lia | exact Hs].
  - unfold Slaves.set_list. revert s Hs.
    induction l as [| k l IH]; intros s Hs; cbn [fold_left]; [exact Hs |].
    apply IH, Hset, Hs.
  - unfold Slaves.remove. destruct (MB_MAX_SLAVE_ID <? k); [exact Hs |].
    cbn [Slaves._mask Slaves.with_mask]. apply Forall_byte_insert; [exact Hs |].
    apply clear_bit_byte, rd_is_byte, Hs.
  - unfold Slaves.clear. cbn [Slaves._mask].
    apply memset_bytes; [unfold is_byte; lia | exact Hs].
  - exact Hs.
  - exact Hs.
  - rewrite (proj1 (getNext_mask s)). exact Hs.
  - exact Hs.
Qed.

Lemma run_bytes (ops : list Slaves.op) : List.Forall is_byte (Slaves._mask (Slaves.run ops)).
Proof.
  unfold Slaves.run.
  assert (Hgen : forall s, List.Forall is_byte (Slaves._mask s) ->
                           List.Forall is_byte (Slaves._mask (fold_left Slaves.step ops s))).
  { induction ops as [| o ops IH]; intros s Hs; cbn [fold_left]; [exact Hs |].
    apply IH, step_bytes, Hs. }
  apply Hgen. cbn. repeat constructor; unfold is_byte; lia.
Qed.

(** A byte is positive exactly when one of its eight bits is set. *)
Lemma byte_pos_bit (x : Z) :
  is_byte x ->
  (0 <? x)%Z = existsb (fun r => Z.testbit x (Z.of_nat r)) (seq 0 8).
Proof.
  intros Hx. destruct (existsb _ (seq 0 8)) eqn:Hex.
  - apply existsb_exists in Hex as (r & _ & Hr).
    destruct (Z.ltb_spec 0 x) as [_ | Hle]; [reflexivity |].
    unfold is_byte in Hx. assert (x = 0%Z) by lia. subst x.
    rewrite Z.bits_0 in Hr. discriminate.
  - destruct (Z.ltb_spec 0 x) as [Hpos | _]; [| reflexivity].
    exfalso. assert (Hzero : x = 0%Z); [| lia].
    apply Z.bits_inj'. intros n Hn. rewrite Z.bits_0.
    destruct (Z.lt_ge_cases n 8) as [Hlt | Hge].
    + rewrite <- (Z2Nat.id n) by lia.
      destruct (Z.testbit x (Z.of_nat (Z.to_nat n))) eqn:Hb; [| reflexivity].
      assert (Htrue : existsb (fun r => Z.testbit x (Z.of_nat r)) (seq 0 8) = true).
      { apply existsb_exists. exists (Z.to_nat n). split; [| exact Hb].
        apply in_seq. lia. }
      congruence.
    + apply testbit_byte_high; assumption.
Qed.

Lemma valid_member (s : Slaves.t) :
  slaves_shape s -> List.Forall is_byte (Slaves._mask s) ->
  Slaves.valid s = true <-> exists i, Slaves.isSet i s = true.
Proof.
  intros Hshape Hbytes. unfold Slaves.valid. rewrite existsb_exists. split.
  - intros (q & Hq & Hpos). apply in_seq in Hq.
    rewrite byte_pos_bit in Hpos by (apply rd_is_byte, Hbytes).
    apply existsb_exists in Hpos as (r & Hr & Hbit). apply in_seq in Hr.
    exists (q * 8 + r).
    assert (Hdiv : (q * 8 + r) / 8 = q)
      by (symmetry; apply (Nat.div_unique _ 8 q r); lia).
    assert (Hmod : (q * 8 + r) mod 8 = r)
      by (symmetry; apply (Nat.mod_unique _ 8 q r); lia).
    assert (Hmb : Slaves.mask_bit s (q * 8 + r) = true).
    { unfold Slaves.mask_bit. rewrite Hdiv, Hmod. exact Hbit. }
    rewrite isSet_mask_bit, Hmb, andb_true_r.
    apply Nat.leb_le. unfold MB_MAX_SLAVE_ID.
    destruct (Nat.le_gt_cases (q * 8 + r) 247) as [Hle | Hgt]; [exact Hle |].
    rewrite mask_bit_reserved in Hmb by (assumption || lia). discriminate.
  - intros (i & Hi). pose proof (isSet_le i s Hi) as Hle.
    rewrite isSet_mask_bit in Hi. apply andb_prop in Hi as [_ Hmb].
    unfold Slaves.mask_bit in Hmb.
    exists (i / 8). split.
    + apply in_seq. pose proof (div8_le_30 i Hle). lia.
    + rewrite byte_pos_bit by (apply rd_is_byte, Hbytes).
      apply existsb_exists. exists (i mod 8). split; [| exact Hmb].
      apply in_seq. pose proof (Nat.mod_upper_bound i 8). lia.
Qed.

(** X5: on every slave set that a run of the library's operations can
    build, [Slaves::valid] is true exactly when some ID is a member: the
    byte-wise test of the bitmap neither misses a member nor takes bits
    above ID 247 for one. *)
Theorem valid_iff_some_member (ops : list Slaves.op) :
  Slaves.valid (Slaves.run ops) = true <-> exists i, Slaves.isSet i (Slaves.run ops) = true.
Proof.
  apply valid_member; [apply run_shape | apply run_bytes].
Qed.

Lemma scan_first (s : Slaves.t) (n i k : nat) :
  i <= k < i + n -> Slaves.isSet k s = true ->
  (forall j, i <= j < k -> Slaves.isSet j s = false) ->
  Slaves.scan s i n = Some k.
Proof.
  revert i. induction n as [| n IH]; intros i Hk Hset Hbefore; [lia |].
  cbn [Slaves.scan]. destruct (Nat.eq_dec i k) as [-> | Hne].
  - rewrite Hset. reflexivity.
  - rewrite (Hbefore i) by lia. apply IH; [lia | exact Hset |].
    intros j Hj. apply Hbefore. lia.
Qed.

Lemma scan_nothing (s : Slaves.t) (n i : nat) :
  (forall j, i <= j < i + n -> Slaves.isSet j s = false) -> Slaves.scan s i n = None.
Proof.
  revert i. induction n as [| n IH]; intros i Hnone; [reflexivity |].
  cbn [Slaves.scan]. rewrite (Hnone i) by lia. apply IH.
  intros j Hj. apply Hnone. lia.
Qed.

Lemma peek_wrap_first (s : Slaves.t) (fuel i k : nat) :
  Slaves.peek_wrap fuel s i = Some (Some k) ->
  i <= 255 -> (forall j, j < i -> Slaves.isSet j s = false) ->
  Slaves.scan s 0 248 = Some k.
Proof.
  revert i. induction fuel as [| f IH]; intros i Hp Hi Hbefore; [discriminate |].
  cbn [Slaves.peek_wrap] in Hp.
  destruct (i <=? Slaves._active s); [| discriminate].
  destruct (Slaves.isSet i s) eqn:Hset.
  - injection Hp as <-. pose proof (isSet_le i s Hset).
    apply scan_first; [lia | exact Hset |]. intros j Hj. apply Hbefore. lia.
  - apply (IH (u8 (i + 1))); [exact Hp | |].
    + unfold u8. pose proof (Nat.mod_upper_bound (i + 1) 256). lia.
    + intros j Hj. destruct (Nat.eq_dec i 255) as [-> | Hne].
      * cbn in Hj. lia.
      * unfold u8 in Hj. rewrite Nat.mod_small in Hj by lia.
        destruct (Nat.eq_dec j i) as [-> | ?]; [exact Hset | apply Hbefore; lia].
Qed.

Lemma peek_wrap_nothing (s : Slaves.t) (fuel i : nat) :
  Slaves.peek_wrap fuel s i = Some None ->
  i <= 255 -> (forall j, j < i -> Slaves.isSet j s = false) ->
  forall j, j <= Slaves._active s -> Slaves.isSet j s = false.
Proof.
  revert i. induction fuel as [| f IH]; intros i Hp Hi Hbefore; [discriminate |].
  cbn [Slaves.peek_wrap] in Hp.
  destruct (Nat.leb_spec i (Slaves._active s)) as [Hle | Hgt].
  - destruct (Slaves.isSet i s) eqn:Hset; [discriminate |].
    apply (IH (u8 (i + 1))); [exact Hp | |].
    + unfold u8. pose proof (Nat.mod_upper_bound (i + 1) 256). lia.
    + intros j Hj. destruct (Nat.eq_dec i 255) as [-> | Hne].
      * cbn in Hj. lia.
      * unfold u8 in Hj. rewrite Nat.mod_small in Hj by lia.
        destruct (Nat.eq_dec j i) as [-> | ?]; [exact Hset | apply Hbefore; lia].
  - intros j Hj. apply Hbefore. lia.
Qed.

Lemma peek_fuel_getNext (s : Slaves.t) (fuel r : nat) :
  Slaves._active s <= 255 ->
  Slaves.peek_fuel fuel s = Some r -> (Slaves.getNext s).1 = r.
Proof.
  intros Hact. unfold Slaves.peek_fuel, Slaves.getNext.
  destruct (Slaves.scan s (Slaves.start_of s) _) as [i |] eqn:Hscan.
  - intros [= <-]. reflexivity.
  - destruct (Slaves.getRepeat s); [| intros [= <-]; reflexivity].
    destruct (Slaves.peek_wrap fuel s 0) as [[k |] |] eqn:Hw; [| | discriminate].
    + intros [= <-].
      change (MB_MAX_SLAVE_ID + 1) with 248.
      rewrite (peek_wrap_first s fuel 0 k Hw); [reflexivity | lia |].
      intros j Hj. lia.
    + intros [= <-].
      pose proof (peek_wrap_nothing s fuel 0 Hw ltac:(lia) ltac:(intros; lia)) as Hlow.
      pose proof (scan_None s _ _ Hscan) as Hhigh.
      change (MB_MAX_SLAVE_ID + 1) with 248 in *.
      rewrite scan_nothing; [reflexivity |].
      intros j Hj. destruct (Nat.le_gt_cases j (Slaves._active s)) as [Hle | Hgt];
        [apply Hlow, Hle |].
      apply Hhigh. unfold Slaves.start_of.
      destruct (Nat.eqb_spec (Slaves._active s) SLAVE_BOF) as [Hb | Hb];
        unfold SLAVE_BOF in *; [lia |].
      unfold u8. rewrite Nat.mod_small by lia. lia.
Qed.

(** X6: [Slaves::peek] predicts [Slaves::getNext]: whenever [peek] returns,
    it returns the ID the next call of [getNext] returns (a member, or
    [SLAVE_EOF]), and on every set the library can build it does return
    unless the set is empty, repeating and its cursor at [SLAVE_BOF]. *)
Theorem peek_predicts_getNext (ops : list Slaves.op) :
  let s := Slaves.run ops in
  (forall fuel r, Slaves.peek_fuel fuel s = Some r -> (Slaves.getNext s).1 = r)
  /\ ((exists i, Slaves.isSet i s = true) \/ Slaves.getRepeat s = false
      \/ Slaves._active s <> SLAVE_BOF ->
      Slaves.peek s = Some (Slaves.getNext s).1).
Proof.
  intros s.
  assert (Hact : Slaves._active s <= 255).
  { destruct (run_shape ops) as [_ [Hb | Hle]]; fold s in Hb || fold s in Hle.
    - rewrite Hb. unfold SLAVE_BOF. lia.
    - unfold MB_MAX_SLAVE_ID in Hle. lia. }
  split.
  - intros fuel r. apply peek_fuel_getNext, Hact.
  - intros Hcond. destruct (peek_returns s (run_shape ops) Hcond) as [r Hr].
    rewrite Hr. f_equal. symmetry. apply (peek_fuel_getNext s 257 r Hact Hr).
Qed.

(** X7: [Slaves::hasMore] against [Slaves::getNext].  When [hasMore] is
    false, [getNext] answers [SLAVE_EOF] and leaves the set as it is.  With
    repetition off, [hasMore] is true exactly when [getNext] yields a member
    above the cursor.  With repetition on, [hasMore] is true on every set,
    also on an empty one, on which [getNext] answers [SLAVE_EOF]. *)
Theorem hasMore_against_getNext (s : Slaves.t) :
  (Slaves.hasMore s = false -> Slaves.getNext s = (SLAVE_EOF, s))
  /\ (Slaves.getRepeat s = false ->
      (Slaves.hasMore s = true <->
       (Slaves.getNext s).1 <> SLAVE_EOF
       /\ Slaves.isSet (Slaves.getNext s).1 s = true
       /\ Slaves.start_of s <= (Slaves.getNext s).1))
  /\ (Slaves.getRepeat s = true ->
      Slaves.hasMore s = true
      /\ ((forall i, Slaves.isSet i s = false) -> Slaves.getNext s = (SLAVE_EOF, s))).
Proof.
  unfold Slaves.hasMore, Slaves.getNext. split; [| split].
  - destruct (Slaves.getRepeat s); [discriminate |].
    destruct (Slaves.scan s _ _); [discriminate | reflexivity].
  - intros ->.
    destruct (Slaves.scan s (Slaves.start_of s) _) as [k |] eqn:Hscan; cbn [fst].
    + apply scan_Some in Hscan as (Hk & Hset & _). split; [| reflexivity].
      intros _. pose proof (isSet_le k s Hset).
      split; [unfold SLAVE_EOF; lia |]. split; [exact Hset | lia].
    + split; [discriminate |]. intros [Hne _]. contradiction.
  - intros ->. split; [reflexivity |]. intros Hempty.
    rewrite !scan_nothing by (intros; apply Hempty). reflexivity.
Qed.

Lemma hasMore_against_getNext_witness :
  Slaves.hasMore (Slaves.of_list [4; 9]) = true <->
  (Slaves.getNext (Slaves.of_list [4; 9])).1 <> SLAVE_EOF
  /\ Slaves.isSet (Slaves.getNext (Slaves.of_list [4; 9])).1 (Slaves.of_list [4; 9]) = true
  /\ Slaves.start_of (Slaves.of_list [4; 9]) <= (Slaves.getNext (Slaves.of_list [4; 9])).1.
Proof.
  apply (proj1 (proj2 (hasMore_against_getNext (Slaves.of_list [4; 9])))).
  reflexivity.
Defined.

(** X8: after [Slaves::resetActive], successive calls of [getNext]
    enumerate all members of the set in strictly increasing order, each
    once, however the set was filled and wherever its cursor stood; the
    call after the last member answers [SLAVE_EOF], or the smallest member
    again when repetition is on. *)
Theorem resetActive_restarts_the_enumeration (s : Slaves.t) :
  let members := List.filter (fun i => Slaves.isSet i s) (seq 0 248) in
  let r := Slaves.resetActive s in
  (forall i, In i members <-> Slaves.isSet i s = true)
  /\ StronglySorted lt members
  /\ (Slaves.iterate (length members) r).1 = members
  /\ (Slaves.getNext (Slaves.iterate (length members) r).2).1
     = (if Slaves.getRepeat s then hd SLAVE_EOF members else SLAVE_EOF).
Proof.
  intros members r. split; [| split].
  - intros i. unfold members. rewrite List.filter_In, in_seq. split.
    + intros [_ Hi]. exact Hi.
    + intros Hi. pose proof (isSet_le i s Hi). split; [lia | exact Hi].
  - apply filter_seq_increasing.
  - assert (Hsame : List.filter (fun j => Slaves.isSet j r) (seq 0 (248 - 0)) = members).
    { unfold members, r, Slaves.resetActive. apply List.filter_ext.
      intros i. apply isSet_with_active. }
    destruct (iterate_members members r 0) as [Hlist Hnext];
      [reflexivity | lia | exact Hsame |].
    split; [exact Hlist |]. rewrite Hnext.
    change (248 - 0) with 248 in Hsame. rewrite Hsame. reflexivity.
Qed.

(** ** The pending queue as a first-in first-out ring *)

Lemma seq_snoc (a n : nat) : seq a (S n) = seq a n ++ [a + n].
Proof. rewrite <- Nat.add_1_r. rewrite seq_app. reflexivity. Qed.

Lemma init_ring (n : nat) :
  1 <= n <= 255 ->
  ring (ADUQueue.init n ADUQueue.new)
  /\ ADUQueue.live (ADUQueue.init n ADUQueue.new) = [].
Proof.
  intros Hn. split; [| reflexivity].
  split; [| split].
  - unfold ADUQueue.wf. cbn. rewrite length_replicate. lia.
  - unfold ADUQueue.slot. cbn. rewrite Nat.Div0.mod_0_l. reflexivity.
  - constructor.
Qed.

Lemma add_ring (c : nat) (q : ADUQueue.t) :
  ring q ->
  ADUQueue._count q < ADUQueue._queueSize q ->
  exists q',
    ADUQueue.add (Some c) q = (true, q')
    /\ ring q'
    /\ ADUQueue.live q' = ADUQueue.live q ++ [Some c]
    /\ ADUQueue._count q' = ADUQueue._count q + 1
    /\ ADUQueue._queueSize q' = ADUQueue._queueSize q.
Proof.
  intros (Hwf & Htail & Hlive) Hroom.
  pose proof Hwf as (Hsize & Hmax & Hlen & Hhead & Hcount).
  unfold ADUQueue.add.
  destruct (Nat.leb_spec (ADUQueue._queueSize q) (ADUQueue._count q)) as [? | _]; [lia |].
  cbn [orb ADUQueue.is_null]. eexists. split; [reflexivity |].
  assert (Hu1 : u8 (ADUQueue._count q + 1) = ADUQueue._count q + 1)
    by (unfold u8; apply Nat.mod_small; lia).
  assert (Hu2 : u8 ((ADUQueue._tail q + 1) mod ADUQueue._queueSize q)
                = ADUQueue.slot q (ADUQueue._count q + 1)).
  { unfold u8. rewrite Nat.mod_small.
    - rewrite Htail. unfold ADUQueue.slot.
      rewrite Nat.Div0.add_mod_idemp_l. f_equal. lia.
    - pose proof (Nat.mod_upper_bound (ADUQueue._tail q + 1) (ADUQueue._queueSize q)). lia. }
  rewrite Hu1, Hu2.
  pose proof (slot_lt q Hwf (ADUQueue._count q)) as Hslot.
  assert (Hnew : ADUQueue.live
                   (ADUQueue.mk (ADUQueue._head q)
                      (ADUQueue.slot q (ADUQueue._count q + 1)) (ADUQueue._count q + 1)
                      (ADUQueue._queueSize q)
                      (<[ADUQueue._tail q := Some c]> (ADUQueue._items q)))
                 = ADUQueue.live q ++ [Some c]).
  { unfold ADUQueue.live. cbn [ADUQueue._count].
    rewrite Nat.add_1_r, seq_snoc, map_app. cbn [map Nat.add]. f_equal.
    - apply map_ext_in. intros k Hk. apply in_seq in Hk.
      unfold ADUQueue.item, ADUQueue.slot.
      cbn [ADUQueue._items ADUQueue._head ADUQueue._queueSize].
      rewrite list_lookup_insert_ne; [reflexivity |].
      rewrite Htail. intros Heq. apply (slot_inj q Hwf) in Heq; lia.
    - unfold ADUQueue.item, ADUQueue.slot at 1.
      cbn [ADUQueue._items ADUQueue._head ADUQueue._queueSize].
      fold (ADUQueue.slot q (ADUQueue._count q)). rewrite <- Htail.
      rewrite list_lookup_insert_eq by (rewrite Htail; lia). reflexivity. }
  split; [| split; [exact Hnew | split; reflexivity]].
  split; [| split].
  - unfold ADUQueue.wf.
    cbn [ADUQueue._queueSize ADUQueue._items ADUQueue._head ADUQueue._count].
    rewrite length_insert. lia.
  - reflexivity.
  - rewrite Hnew. apply Forall_app. split; [exact Hlive |].
    constructor; [discriminate | constructor].
Qed.

Lemma add_refused (it : option nat) (q : ADUQueue.t) :
  ADUQueue._queueSize q <= ADUQueue._count q \/ it = None ->
  ADUQueue.add it q = (false, q).
Proof.
  intros Hbad. unfold ADUQueue.add.
  destruct (Nat.leb_spec (ADUQueue._queueSize q) (ADUQueue._count q)) as [_ | Hroom];
    [reflexivity |].
  destruct Hbad as [? | ->]; [lia | reflexivity].
Qed.

Lemma read_ring (q : ADUQueue.t) :
  ring q ->
  0 < ADUQueue._count q ->
  exists c rest q',
    ADUQueue.live q = Some c :: rest
    /\ ADUQueue.read q = (true, Some c, q')
    /\ ADUQueue_peek q = (true, Some c)
    /\ ring q'
    /\ ADUQueue.live q' = rest
    /\ ADUQueue._count q' + 1 = ADUQueue._count q
    /\ ADUQueue._queueSize q' = ADUQueue._queueSize q.
Proof.
  intros (Hwf & Htail & Hlive) Hpos.
  pose proof Hwf as (Hsize & Hmax & Hlen & Hhead & Hcount).
  pose proof (live_cons q Hpos) as Hcons.
  rewrite (slot_0 q Hwf) in Hcons.
  destruct (ADUQueue.item q (ADUQueue._head q)) as [c |] eqn:Hitem.
  2:{ rewrite Hcons in Hlive. inversion Hlive as [| ? ? Hnn _]. contradiction. }
  exists c. eexists. eexists. split; [exact Hcons |].
  unfold ADUQueue.read, ADUQueue_peek. rewrite Hitem.
  destruct (Nat.eqb_spec (ADUQueue._count q) 0) as [? | _]; [lia |].
  cbn [orb ADUQueue.is_null].
  split; [reflexivity |]. split; [reflexivity |].
  assert (Hnew : ADUQueue.live
                   (ADUQueue.mk (u8 ((ADUQueue._head q + 1) mod ADUQueue._queueSize q))
                      (ADUQueue._tail q) (ADUQueue._count q - 1) (ADUQueue._queueSize q)
                      (<[ADUQueue._head q := None]> (ADUQueue._items q)))
                 = map (fun k => ADUQueue.item q (ADUQueue.slot q (S k)))
                     (seq 0 (ADUQueue._count q - 1))).
  { rewrite live_after_read by assumption. reflexivity. }
  split; [| split; [exact Hnew | split; [cbn [ADUQueue._count]; lia | reflexivity]]].
  split; [| split].
  - unfold ADUQueue.wf.
    cbn [ADUQueue._queueSize ADUQueue._items ADUQueue._head ADUQueue._count].
    rewrite length_insert.
    assert (Hu : u8 ((ADUQueue._head q + 1) mod ADUQueue._queueSize q)
                 < ADUQueue._queueSize q).
    { unfold u8.
      pose proof (Nat.mod_upper_bound (ADUQueue._head q + 1) (ADUQueue._queueSize q)).
      rewrite Nat.mod_small; lia. }
    lia.
  - cbn [ADUQueue._tail ADUQueue._count]. rewrite Htail. unfold ADUQueue.slot.
    cbn [ADUQueue._head ADUQueue._queueSize].
    unfold u8. rewrite (Nat.mod_small (_ mod _) 256).
    + rewrite Nat.Div0.add_mod_idemp_l. f_equal. lia.
    + pose proof (Nat.mod_upper_bound (ADUQueue._head q + 1) (ADUQueue._queueSize q)). lia.
  - rewrite Hnew. rewrite Hcons in Hlive. inversion Hlive. assumption.
Qed.

Lemma read_empty (q : ADUQueue.t) :
  ADUQueue._count q = 0 ->
  ADUQueue.read q = (false, None, q) /\ ADUQueue_peek q = (false, None).
Proof.
  intros Hzero. unfold ADUQueue.read, ADUQueue_peek. rewrite Hzero. split; reflexivity.
Qed.

(** X9: [ADUQueue::add] on a ring with a free place appends the pointer
    behind the queued ones (also across the wrap of [_tail]), returns true
    and keeps the ring invariant; on a full ring, and for a null pointer,
    it returns false and leaves the queue untouched. *)
Theorem add_appends_or_refuses (it : option nat) (q : ADUQueue.t) :
  ring q ->
  (forall c, it = Some c -> ADUQueue._count q < ADUQueue._queueSize q ->
     exists q',
       ADUQueue.add it q = (true, q')
       /\ ring q'
       /\ ADUQueue.live q' = ADUQueue.live q ++ [Some c]
       /\ ADUQueue.count q' = ADUQueue.count q + 1)
  /\ (ADUQueue._count q = ADUQueue._queueSize q -> ADUQueue.add it q = (false, q))
  /\ (it = None -> ADUQueue.add it q = (false, q)).
Proof.
  intros Hring. split; [| split].
  - intros c -> Hroom.
    destruct (add_ring c q Hring Hroom) as (q' & Hadd & Hr & Hl & Hc & _).
    exists q'. auto.
  - intros Hfull. apply add_refused. lia.
  - intros ->. apply add_refused. right. reflexivity.
Qed.

Lemma add_appends_or_refuses_witness :
  (forall c, Some 4 = Some c ->
     ADUQueue._count (ADUQueue.mk 2 1 2 3 [Some 7; None; Some 5])
     < ADUQueue._queueSize (ADUQueue.mk 2 1 2 3 [Some 7; None; Some 5]) ->
     exists q',
       ADUQueue.add (Some 4) (ADUQueue.mk 2 1 2 3 [Some 7; None; Some 5]) = (true, q')
       /\ ring q'
       /\ ADUQueue.live q' = ADUQueue.live (ADUQueue.mk 2 1 2 3 [Some 7; None; Some 5]) ++ [Some c]
       /\ ADUQueue.count q' = ADUQueue.count (ADUQueue.mk 2 1 2 3 [Some 7; None; Some 5]) + 1)
  /\ (ADUQueue._count (ADUQueue.mk 2 1 2 3 [Some 7; None; Some 5])
      = ADUQueue._queueSize (ADUQueue.mk 2 1 2 3 [Some 7; None; Some 5]) ->
      ADUQueue.add (Some 4) (ADUQueue.mk 2 1 2 3 [Some 7; None; Some 5])
      = (false, ADUQueue.mk 2 1 2 3 [Some 7; None; Some 5]))
  /\ (Some 4 = None ->
      ADUQueue.add (Some 4) (ADUQueue.mk 2 1 2 3 [Some 7; None; Some 5])
      = (false, ADUQueue.mk 2 1 2 3 [Some 7; None; Some 5])).
Proof.
  apply (add_appends_or_refuses (Some 4) (ADUQueue.mk 2 1 2 3 [Some 7; None; Some 5])).
  split; [| split].
  - unfold ADUQueue.wf. simpl. lia.
  - reflexivity.
  - simpl. repeat constructor; discriminate.
Defined.

(** X10: [ADUQueue::read] on a non-empty ring hands out the pointer queued
    first, which is the one [peek] shows, takes it out and keeps the others
    in their order; on an empty queue [read] and [peek] return false and
    the queue is left as it is. *)
Theorem read_takes_the_oldest (q : ADUQueue.t) :
  ring q ->
  (0 < ADUQueue._count q ->
   exists c rest q',
     ADUQueue.live q = Some c :: rest
     /\ ADUQueue_peek q = (true, Some c)
     /\ ADUQueue.read q = (true, Some c, q')
     /\ ring q'
     /\ ADUQueue.live q' = rest
     /\ ADUQueue.count q' + 1 = ADUQueue.count q)
  /\ (ADUQueue._count q = 0 ->
      ADUQueue.read q = (false, None, q) /\ ADUQueue_peek q = (false, None)).
Proof.
  intros Hring. split.
  - intros Hpos.
    destruct (read_ring q Hring Hpos) as (c & rest & q' & Hl & Hr & Hp & Hq & Hl' & Hc & _).
    exists c, rest, q'. auto 10.
  - apply read_empty.
Qed.

Lemma read_takes_the_oldest_witness :
  (0 < ADUQueue._count (ADUQueue.mk 2 1 2 3 [Some 7; None; Some 5]) ->
   exists c rest q',
     ADUQueue.live (ADUQueue.mk 2 1 2 3 [Some 7; None; Some 5]) = Some c :: rest
     /\ ADUQueue_peek (ADUQueue.mk 2 1 2 3 [Some 7; None; Some 5]) = (true, Some c)
     /\ ADUQueue.read (ADUQueue.mk 2 1 2 3 [Some 7; None; Some 5]) = (true, Some c, q')
     /\ ring q'
     /\ ADUQueue.live q' = rest
     /\ ADUQueue.count q' + 1 = ADUQueue.count (ADUQueue.mk 2 1 2 3 [Some 7; None; Some 5]))
  /\ (ADUQueue._count (ADUQueue.mk 2 1 2 3 [Some 7; None; Some 5]) = 0 ->
      ADUQueue.read (ADUQueue.mk 2 1 2 3 [Some 7; None; Some 5])
      = (false, None, ADUQueue.mk 2 1 2 3 [Some 7; None; Some 5])
      /\ ADUQueue_peek (ADUQueue.mk 2 1 2 3 [Some 7; None; Some 5]) = (false, None)).
Proof.
  apply (read_takes_the_oldest (ADUQueue.mk 2 1 2 3 [Some 7; None; Some 5])).
  split; [| split].
  - unfold ADUQueue.wf. simpl. lia.
  - reflexivity.
  - simpl. repeat constructor; discriminate.
Defined.

Lemma add_all_ring (l : list nat) :
  forall q,
    ring q ->
    ADUQueue._count q + length l <= ADUQueue._queueSize q ->
    (add_all l q).1 = replicate (length l) true
    /\ ring (add_all l q).2
    /\ ADUQueue.live (add_all l q).2 = ADUQueue.live q ++ map Some l
    /\ ADUQueue._count (add_all l q).2 = ADUQueue._count q + length l
    /\ ADUQueue._queueSize (add_all l q).2 = ADUQueue._queueSize q.
Proof.
  induction l as [| c l IH]; intros q Hring Hroom; cbn [add_all length map].
  - rewrite app_nil_r, Nat.add_0_r. auto.
  - cbn [length] in Hroom.
    destruct (add_ring c q Hring ltac:(lia)) as (q1 & Hadd & Hr1 & Hl1 & Hc1 & Hs1).
    rewrite Hadd.
    destruct (IH q1 Hr1 ltac:(lia)) as (Hoks & Hr2 & Hl2 & Hc2 & Hs2).
    destruct (add_all l q1) as [oks q2]. cbn [fst snd] in *.
    split; [rewrite Hoks; reflexivity |]. split; [exact Hr2 |].
    split; [rewrite Hl2, Hl1, <- app_assoc; reflexivity |].
    split; [lia | congruence].
Qed.

Lemma read_all_ring (l : list nat) :
  forall q,
    ring q ->
    ADUQueue.live q = map Some l ->
    (read_all (length l) q).1 = map (fun c => (true, Some c)) l
    /\ ring (read_all (length l) q).2
    /\ ADUQueue._count (read_all (length l) q).2 = 0.
Proof.
  induction l as [| c l IH]; intros q Hring Hlive; cbn [read_all length map].
  - split; [reflexivity |]. split; [exact Hring |].
    apply (f_equal length) in Hlive. unfold ADUQueue.live in Hlive.
    rewrite length_map, length_seq in Hlive. exact Hlive.
  - assert (Hpos : 0 < ADUQueue._count q).
    { apply (f_equal length) in Hlive. unfold ADUQueue.live in Hlive.
      rewrite length_map, length_seq in Hlive. cbn in Hlive. lia. }
    destruct (read_ring q Hring Hpos) as (c' & rest & q1 & Hl & Hread & _ & Hr1 & Hl1 & _).
    rewrite Hlive in Hl. cbn [map] in Hl. injection Hl as <- <-.
    rewrite Hread.
    destruct (IH q1 Hr1 Hl1) as (Hrs & Hr2 & Hc2).
    destruct (read_all (length l) q1) as [rs q2]. cbn [fst snd] in *.
    rewrite Hrs. auto.
Qed.

(** X11: the queue is first in, first out.  On a queue initialised for [n]
    ADUs (1 to 255), adding up to [n] pointers succeeds for each of them,
    and as many calls of [read] then return them in the order they were
    added and leave the queue empty, so that a further [read] returns
    false.  When [n] pointers were added the queue is full and refuses
    another one. *)
Theorem queue_is_first_in_first_out (n : nat) (l : list nat) :
  1 <= n <= 255 ->
  length l <= n ->
  let filled := (add_all l (ADUQueue.init n ADUQueue.new)).2 in
  let drained := (read_all (length l) filled).2 in
  (add_all l (ADUQueue.init n ADUQueue.new)).1 = replicate (length l) true
  /\ ADUQueue.count filled = length l
  /\ (read_all (length l) filled).1 = map (fun c => (true, Some c)) l
  /\ ADUQueue.isEmpty drained = true
  /\ ADUQueue.read drained = (false, None, drained)
  /\ (length l = n -> forall c, ADUQueue.add (Some c) filled = (false, filled)).
Proof.
  intros Hn Hlen filled drained.
  destruct (init_ring n Hn) as [Hring0 Hlive0].
  destruct (add_all_ring l (ADUQueue.init n ADUQueue.new) Hring0)
    as (Hoks & Hring1 & Hlive1 & Hcount1 & Hsize1); [cbn; lia |].
  fold filled in Hring1, Hlive1, Hcount1, Hsize1.
  rewrite Hlive0 in Hlive1. cbn [app] in Hlive1.
  destruct (read_all_ring l filled Hring1 Hlive1) as (Hrs & Hring2 & Hcount2).
  fold drained in Hring2, Hcount2.
  split; [exact Hoks |]. split; [exact Hcount1 |]. split; [exact Hrs |].
  split; [unfold ADUQueue.isEmpty; rewrite Hcount2; reflexivity |].
  split; [apply read_empty, Hcount2 |].
  intros Hfull c. apply add_refused. left. rewrite Hsize1, Hcount1. cbn. lia.
Qed.

Lemma queue_is_first_in_first_out_witness :
  let filled := (add_all [4; 2; 9] (ADUQueue.init 3 ADUQueue.new)).2 in
  let drained := (read_all (length [4; 2; 9]) filled).2 in
  (add_all [4; 2; 9] (ADUQueue.init 3 ADUQueue.new)).1 = replicate (length [4; 2; 9]) true
  /\ ADUQueue.count filled = length [4; 2; 9]
  /\ (read_all (length [4; 2; 9]) filled).1 = map (fun c => (true, Some c)) [4; 2; 9]
  /\ ADUQueue.isEmpty drained = true
  /\ ADUQueue.read drained = (false, None, drained)
  /\ (length [4; 2; 9] = 3 -> forall c, ADUQueue.add (Some c) filled = (false, filled)).
Proof.
  apply (queue_is_first_in_first_out 3 [4; 2; 9]); simpl; lia.
Defined.

(** ** [hasReady] against [readReady] *)

Lemma hasReady_spec (queuedTime delayToSend : nat -> Z) (on_ms : Z -> Z -> bool -> bool)
    (q : ADUQueue.t) :
  ADUQueue.wf q ->
  ADUQueue.hasReady queuedTime delayToSend on_ms q = true
  <-> exists j c, j < ADUQueue._count q
                  /\ ADUQueue.item q (ADUQueue.slot q j) = Some c
                  /\ ADUQueue.ready queuedTime delayToSend on_ms c = true.
Proof.
  intros Hwf. unfold ADUQueue.hasReady.
  destruct (Nat.eqb_spec (ADUQueue._count q) 0) as [Hzero | Hpos].
  { split; [discriminate |]. intros (j & _ & Hj & _). lia. }
  pose (P := fun (k : nat) (st : nat * bool) =>
               st.1 = ADUQueue.slot q k
               /\ (st.2 = true
                   <-> exists j c, j < k /\ ADUQueue.item q (ADUQueue.slot q j) = Some c
                                   /\ ADUQueue.ready queuedTime delayToSend on_ms c = true)).
  match goal with
  | |- (for_loop ?n ?body ?init).2 = true <-> _ =>
      assert (HP : P n (for_loop n body init))
  end.
  { apply (for_loop_ind P); unfold P.
    - cbn [fst snd]. split; [symmetry; apply slot_0, Hwf |].
      split; [discriminate | intros (j & _ & Hj & _); lia].
    - intros k [cur found] Hk [Hcur Hfound]. cbn [fst snd] in *. subst cur.
      split; [apply slot_succ, Hwf |].
      split.
      + intros Hor. apply orb_prop in Hor as [Hf | Hhit].
        * apply Hfound in Hf as (j & c & Hj & Hit & Hr). exists j, c. auto with lia.
        * destruct (ADUQueue.item q (ADUQueue.slot q k)) as [c |] eqn:Hit;
            [| discriminate].
          exists k, c. auto.
      + intros (j & c & Hj & Hit & Hr).
        destruct (Nat.eq_dec j k) as [-> | Hne].
        * rewrite Hit, Hr. apply orb_true_r.
        * apply orb_true_intro. left. apply Hfound. exists j, c. auto with lia. }
  exact (proj2 HP).
Qed.

Lemma readReady_flag (queuedTime delayToSend : nat -> Z) (on_ms : Z -> Z -> bool -> bool)
    (q : ADUQueue.t) :
  ADUQueue.wf q ->
  (ADUQueue.readReady queuedTime delayToSend on_ms q).1.1 = true
  <-> exists j c, j < ADUQueue._count q
                  /\ ADUQueue.item q (ADUQueue.slot q j) = Some c
                  /\ ADUQueue.ready queuedTime delayToSend on_ms c = true
                  /\ (delayToSend c < UINT32_MAX)%Z.
Proof.
  intros Hwf. unfold ADUQueue.readReady.
  destruct (Nat.eqb_spec (ADUQueue._count q) 0) as [Hzero | Hpos].
  { cbn [fst]. split; [discriminate |]. intros (j & _ & Hj & _). lia. }
  pose proof (scan_scanned queuedTime delayToSend on_ms q Hwf (ADUQueue._count q)) as Hsc.
  destruct (for_loop (ADUQueue._count q) _ _) as [[current readyIndex] minDelay].
  destruct Hsc as [_ [(-> & _ & Hall) | (j0 & c0 & Hj0 & -> & Hi0 & Hr0 & _ & Hlt & _)]].
  - cbn [fst]. split; [discriminate |].
    intros (j & c & Hj & Hit & Hr & Hd). specialize (Hall j c Hj Hit Hr). lia.
  - pose proof Hwf as (Hsize & Hmax & Hlen & Hhead & Hcount).
    pose proof (slot_lt q Hwf j0) as Hslot.
    destruct (Nat.eqb_spec (ADUQueue.slot q j0) 255) as [? | _]; [lia |].
    split; [intros _; exists j0, c0; auto |]. intros _.
    assert (Hread : forall qs,
              ADUQueue._count qs = ADUQueue._count q ->
              ADUQueue.item qs (ADUQueue._head qs) = Some c0 ->
              (ADUQueue.read qs).1.1 = true).
    { intros qs Hc Hit. unfold ADUQueue.read. rewrite Hc, Hit.
      destruct (Nat.eqb_spec (ADUQueue._count q) 0); [contradiction | reflexivity]. }
    destruct (Nat.eqb_spec (ADUQueue.slot q j0) (ADUQueue._head q)) as [Hsame | Hdiff];
      cbn [negb]; apply Hread; try reflexivity.
    + rewrite <- Hsame. exact Hi0.
    + rewrite Hi0. cbn [ADUQueue._head ADUQueue.with_items].
      apply item_insert_eq. rewrite length_insert. lia.
Qed.

(** X12: [hasReady] against [readReady] on a well-formed ring.  Whenever
    [readReady] hands out an ADU, [hasReady] is true.  When every queued
    ADU has a delay below [UINT32_MAX], the two agree.  A ready ADU whose
    delay is [UINT32_MAX] is announced by [hasReady] but never handed out
    by [readReady], whose search starts from [minDelay = UINT32_MAX] and
    takes strictly smaller delays only. *)
Theorem hasReady_against_readReady
    (queuedTime delayToSend : nat -> Z) (on_ms : Z -> Z -> bool -> bool)
    (q : ADUQueue.t) :
  ADUQueue.wf q ->
  let has := ADUQueue.hasReady queuedTime delayToSend on_ms q in
  let got := (ADUQueue.readReady queuedTime delayToSend on_ms q).1.1 in
  (got = true -> has = true)
  /\ ((forall c, In (Some c) (ADUQueue.live q) -> (delayToSend c < UINT32_MAX)%Z) ->
      got = has)
  /\ ((forall c, In (Some c) (ADUQueue.live q) ->
                 ADUQueue.ready queuedTime delayToSend on_ms c = true ->
                 (UINT32_MAX <= delayToSend c)%Z) ->
      got = false).
Proof.
  intros Hwf has got.
  pose proof (hasReady_spec queuedTime delayToSend on_ms q Hwf) as Hhas.
  pose proof (readReady_flag queuedTime delayToSend on_ms q Hwf) as Hgot.
  fold has in Hhas. fold got in Hgot.
  split; [| split].
  - intros Hg. apply Hhas. apply Hgot in Hg as (j & c & Hj & Hit & Hr & _).
    exists j, c. auto.
  - intros Hsmall. destruct has eqn:Hh.
    + apply Hgot. destruct (proj1 Hhas eq_refl) as (j & c & Hj & Hit & Hr).
      exists j, c. repeat split; try assumption.
      apply Hsmall. apply in_live. exists j. auto.
    + destruct got eqn:Hg; [| reflexivity].
      destruct (proj1 Hgot eq_refl) as (j & c & Hj & Hit & Hr & _).
      assert (false = true) by (apply Hhas; exists j, c; auto). discriminate.
  - intros Hlarge. destruct got eqn:Hg; [| reflexivity].
    destruct (proj1 Hgot eq_refl) as (j & c & Hj & Hit & Hr & Hd).
    assert (In (Some c) (ADUQueue.live q)) by (apply in_live; exists j; auto).
    specialize (Hlarge c H Hr). lia.
Qed.

Lemma hasReady_against_readReady_witness :
  let has := ADUQueue.hasReady ready_queuedTime (fun _ => UINT32_MAX) (fun _ _ _ => true)
               (ADUQueue.mk 0 1 1 3 [Some 0; None; None]) in
  let got := (ADUQueue.readReady ready_queuedTime (fun _ => UINT32_MAX) (fun _ _ _ => true)
                (ADUQueue.mk 0 1 1 3 [Some 0; None; None])).1.1 in
  (got = true -> has = true)
  /\ ((forall c, In (Some c) (ADUQueue.live (ADUQueue.mk 0 1 1 3 [Some 0; None; None])) ->
                 (UINT32_MAX < UINT32_MAX)%Z) ->
      got = has)
  /\ ((forall c, In (Some c) (ADUQueue.live (ADUQueue.mk 0 1 1 3 [Some 0; None; None])) ->
                 ADUQueue.ready ready_queuedTime (fun _ => UINT32_MAX) (fun _ _ _ => true) c = true ->
                 (UINT32_MAX <= UINT32_MAX)%Z) ->
      got = false).
Proof.
  apply (hasReady_against_readReady ready_queuedTime (fun _ => UINT32_MAX) (fun _ _ _ => true)
           (ADUQueue.mk 0 1 1 3 [Some 0; None; None])).
  unfold ADUQueue.wf. simpl. lia.
Defined.

(** One ADU, ready, with the largest delay a [uint32_t] holds. *)
Example ready_at_largest_delay_is_not_read :
  ADUQueue.hasReady ready_queuedTime (fun _ => UINT32_MAX) (fun _ _ _ => true)
    (ADUQueue.mk 0 1 1 3 [Some 0; None; None]) = true
  /\ ADUQueue.readReady ready_queuedTime (fun _ => UINT32_MAX) (fun _ _ _ => true)
       (ADUQueue.mk 0 1 1 3 [Some 0; None; None])
     = (false, None, ADUQueue.mk 0 1 1 3 [Some 0; None; None]).
Proof. split; vm_compute; reflexivity. Qed.

(** ** Request frames *)

Lemma lowByte_mod (w : Z) : lowByte w = (w mod 256)%Z.
Proof. unfold lowByte. change 255%Z with (Z.ones 8). apply Z.land_ones. lia. Qed.

Lemma highByte_div (w : Z) : highByte w = ((w / 256) mod 256)%Z.
Proof.
  unfold highByte. change 255%Z with (Z.ones 8).
  rewrite Z.land_ones, Z.shiftr_div_pow2 by lia. reflexivity.
Qed.

(** The two bytes of a 16-bit value, high byte first, give the value back. *)
Lemma u16_bytes (w : Z) :
  (0 <= w < 65536)%Z ->
  highByte w = (w / 256)%Z /\ lowByte w = (w mod 256)%Z
  /\ (highByte w * 256 + lowByte w = w)%Z
  /\ is_byte (highByte w) /\ is_byte (lowByte w).
Proof.
  intros Hw. rewrite lowByte_mod, highByte_div.
  assert (Hq : (0 <= w / 256 < 256)%Z).
  { split; [apply Z.div_pos; lia | apply Z.div_lt_upper_bound; lia]. }
  rewrite (Z.mod_small (w / 256)) by exact Hq.
  pose proof (Z.div_mod w 256 ltac:(lia)).
  pose proof (Z.mod_pos_bound w 256 ltac:(lia)).
  unfold is_byte. repeat split; lia.
Qed.

Lemma u8_small (n : nat) : n < 256 -> u8 n = n.
Proof. intros Hn. unfold u8. apply Nat.mod_small, Hn. Qed.

Ltac five_bytes l H :=
  destruct l as [| ? [| ? [| ? [| ? [| ? ?]]]]]; cbn [length] in H; try lia.

(** X13: [PDU::createReadState] accepts a request exactly when
    [1 <= count <= 2000] and the PDU holds both the five request bytes and
    the expected response of [2 + ceil(count / 8)] bytes.  It then writes
    the request [fn, address high, address low, count high, count low],
    sets the request length to 5 and records what the response must start
    with and how long it is.  Otherwise it returns 13 (no data), 12 (too
    many) or 33 (buffer too small), stores that code in [_err] and leaves
    the buffers alone.  The callback is stored either way. *)
Theorem createReadState_request (fn addr : Z) (count : nat) (cb : modbusCallback) (p : PDU) :
  (0 <= addr < 65536)%Z ->
  5 <= length (_TXPDUbuffer p) ->
  2 <= length (_PDUresponseHead p) ->
  let r := createReadState fn addr count cb p in
  let ok := (1 <=? count) && (count <=? 2000) && (5 <=? _PDUSize p)
            && (2 + (count + 7) / 8 <=? _PDUSize p) in
  (ok = true ->
   r.1 = MB_EX_SUCCESS
   /\ take 5 (_TXPDUbuffer r.2)
      = [fn; (addr / 256)%Z; (addr mod 256)%Z;
         Z.of_nat (count / 256); Z.of_nat (count mod 256)]
   /\ drop 5 (_TXPDUbuffer r.2) = drop 5 (_TXPDUbuffer p)
   /\ _TXPDUbufferLen r.2 = 5
   /\ rd (_PDUresponseHead r.2) 0 = fn
   /\ rd (_PDUresponseHead r.2) 1 = Z.of_nat ((count + 7) / 8)
   /\ _expectedResponseLen r.2 = 2 + (count + 7) / 8
   /\ _err r.2 = _err p)
  /\ (ok = false ->
      r.1 = (if count =? 0 then 13%Z else if 2000 <? count then 12%Z else 33%Z)
      /\ _err r.2 = r.1
      /\ _TXPDUbuffer r.2 = _TXPDUbuffer p
      /\ _TXPDUbufferLen r.2 = _TXPDUbufferLen p
      /\ _PDUresponseHead r.2 = _PDUresponseHead p)
  /\ _callback r.2 = cb
  /\ _RXPDUbuffer r.2 = _RXPDUbuffer p
  /\ _PDUSize r.2 = _PDUSize p.
Proof.
  intros Haddr Htx Hhd r ok. unfold r, ok, createReadState.
  cbn [_PDUSize set_callback].
  destruct (Nat.eqb_spec count 0) as [-> | Hc0].
  { cbn. repeat split; try reflexivity; discriminate. }
  unfold MB_MAX_READ_COILS.
  destruct (Nat.ltb_spec 2000 count) as [Hmany | Hfew].
  { destruct (Nat.leb_spec 1 count), (Nat.leb_spec count 2000); try lia.
    cbn. repeat split; try reflexivity; discriminate. }
  destruct (Nat.ltb_spec (_PDUSize p) 5) as [Hs5 | Hs5].
  { destruct (Nat.leb_spec 5 (_PDUSize p)); [lia |]. rewrite andb_false_r.
    cbn. repeat split; try reflexivity; discriminate. }
  destruct (Nat.ltb_spec (_PDUSize p) (2 + (count + 7) / 8)) as [Hs | Hs].
  { destruct (Nat.leb_spec (2 + (count + 7) / 8) (_PDUSize p)); [lia |].
    rewrite andb_false_r. cbn. repeat split; try reflexivity; discriminate. }
  destruct (Nat.leb_spec 1 count), (Nat.leb_spec count 2000),
    (Nat.leb_spec 5 (_PDUSize p)), (Nat.leb_spec (2 + (count + 7) / 8) (_PDUSize p));
    try lia.
  cbn [orb andb fst snd].
  destruct (u16_bytes addr Haddr) as (Hah & Hal & _).
  destruct (u16_bytes (Z.of_nat count) ltac:(lia)) as (Hch & Hcl & _).
  rewrite Hah, Hal, Hch, Hcl.
  assert (Hdiv : (count + 7) / 8 <= 250).
  { pose proof (Nat.Div0.div_le_mono (count + 7) 2007 8 ltac:(lia)) as Hm.
    change (2007 / 8) with 250 in Hm. exact Hm. }
  rewrite !u8_small by lia.
  replace (Z.of_nat count / 256)%Z with (Z.of_nat (count / 256))
    by (rewrite Nat2Z.inj_div; reflexivity).
  replace (Z.of_nat count mod 256)%Z with (Z.of_nat (count mod 256))
    by (rewrite Nat2Z.inj_mod; reflexivity).
  destruct p as [cb0 tx rx txl hd db dl er ex es us sz qt ds sl].
  cbn [_TXPDUbuffer _PDUresponseHead] in Htx, Hhd.
  five_bytes tx Htx.
  destruct hd as [| ? [| ? ?]]; cbn [length] in Hhd; try lia.
  cbn. repeat split; try reflexivity; discriminate.
Qed.

Lemma createReadState_request_witness :
  let p := adu_pdu (ADURTU_init 253) in
  let r := createReadState 1 0x1234 10 (Some 7) p in
  let ok := (1 <=? 10) && (10 <=? 2000) && (5 <=? _PDUSize p)
            && (2 + (10 + 7) / 8 <=? _PDUSize p) in
  (ok = true ->
   r.1 = MB_EX_SUCCESS
   /\ take 5 (_TXPDUbuffer r.2)
      = [1; (0x1234 / 256); (0x1234 mod 256); Z.of_nat (10 / 256); Z.of_nat (10 mod 256)]%Z
   /\ drop 5 (_TXPDUbuffer r.2) = drop 5 (_TXPDUbuffer p)
   /\ _TXPDUbufferLen r.2 = 5
   /\ rd (_PDUresponseHead r.2) 0 = 1%Z
   /\ rd (_PDUresponseHead r.2) 1 = Z.of_nat ((10 + 7) / 8)
   /\ _expectedResponseLen r.2 = 2 + (10 + 7) / 8
   /\ _err r.2 = _err p)
  /\ (ok = false ->
      r.1 = (if 10 =? 0 then 13%Z else if 2000 <? 10 then 12%Z else 33%Z)
      /\ _err r.2 = r.1
      /\ _TXPDUbuffer r.2 = _TXPDUbuffer p
      /\ _TXPDUbufferLen r.2 = _TXPDUbufferLen p
      /\ _PDUresponseHead r.2 = _PDUresponseHead p)
  /\ _callback r.2 = Some 7
  /\ _RXPDUbuffer r.2 = _RXPDUbuffer p
  /\ _PDUSize r.2 = _PDUSize p.
Proof.
  apply (createReadState_request 1 0x1234 10 (Some 7) (adu_pdu (ADURTU_init 253))).
  - lia.
  - vm_compute. lia.
  - vm_compute. lia.
Defined.

(** X14: [PDU::createReadRegisters<T>] asks for
    [count * ceil(sizeof(T) / 2)] registers.  As long as that number fits
    the [uint8_t] it is computed in, the request is accepted exactly when
    [count >= 1], at most 125 registers are asked for, and the PDU holds
    the five request bytes and the response of [2 + 2 * registers] bytes;
    the request is then [fn, address high, address low, 0, registers], and
    the element size is kept for the conversion of the response. *)
Theorem createReadRegisters_request (sizeofT : nat) (fn addr : Z) (count : nat)
    (cb : modbusCallback) (p : PDU) :
  (0 <= addr < 65536)%Z ->
  1 <= sizeofT <= 255 ->
  5 <= length (_TXPDUbuffer p) ->
  2 <= length (_PDUresponseHead p) ->
  let regs := count * ((sizeofT + 1) / 2) in
  regs <= 255 ->
  let r := createReadRegisters sizeofT fn addr count cb p in
  let ok := (1 <=? count) && (regs <=? 125) && (5 <=? _PDUSize p)
            && (2 + 2 * regs <=? _PDUSize p) in
  (ok = true ->
   r.1 = MB_EX_SUCCESS
   /\ take 5 (_TXPDUbuffer r.2)
      = [fn; (addr / 256)%Z; (addr mod 256)%Z; 0%Z; Z.of_nat regs]
   /\ drop 5 (_TXPDUbuffer r.2) = drop 5 (_TXPDUbuffer p)
   /\ _TXPDUbufferLen r.2 = 5
   /\ rd (_PDUresponseHead r.2) 0 = fn
   /\ rd (_PDUresponseHead r.2) 1 = Z.of_nat (2 * regs)
   /\ _expectedResponseLen r.2 = 2 + 2 * regs
   /\ _err r.2 = _err p)
  /\ (ok = false ->
      r.1 = (if count =? 0 then 13%Z else if 125 <? regs then 12%Z else 33%Z)
      /\ _err r.2 = r.1
      /\ _TXPDUbuffer r.2 = _TXPDUbuffer p
      /\ _TXPDUbufferLen r.2 = _TXPDUbufferLen p
      /\ _PDUresponseHead r.2 = _PDUresponseHead p)
  /\ _callback r.2 = cb
  /\ _elemSize r.2 = sizeofT
  /\ _RXPDUbuffer r.2 = _RXPDUbuffer p.
Proof.
  intros Haddr Hsz Htx Hhd regs Hregs r ok. unfold r, ok, createReadRegisters.
  cbn [_PDUSize _elemSize set_callback set_elemSize].
  rewrite (u8_small sizeofT) by lia.
  assert (Hhalf : (sizeofT + 1) / 2 <= 128).
  { pose proof (Nat.Div0.div_le_mono (sizeofT + 1) 256 2 ltac:(lia)) as Hm.
    change (256 / 2) with 128 in Hm. exact Hm. }
  unfold toRegisterCount. rewrite (u8_small ((sizeofT + 1) / 2)) by lia.
  fold regs. rewrite (u8_small regs) by lia.
  rewrite (u16_small (regs * 2)) by lia.
  destruct (Nat.eqb_spec count 0) as [Hc0 | Hc0].
  { destruct (Nat.leb_spec 1 count); [lia |].
    cbn. repeat split; try reflexivity; discriminate. }
  unfold MB_MAX_READ_REGISTERS.
  destruct (Nat.ltb_spec 125 regs) as [Hmany | Hfew].
  { destruct (Nat.leb_spec regs 125); [lia |]. rewrite andb_false_r.
    cbn. repeat split; try reflexivity; discriminate. }
  destruct (Nat.ltb_spec (_PDUSize p) 5) as [Hs5 | Hs5].
  { destruct (Nat.leb_spec 5 (_PDUSize p)); [lia |]. rewrite andb_false_r.
    cbn. repeat split; try reflexivity; discriminate. }
  destruct (Nat.ltb_spec (_PDUSize p) (2 + regs * 2)) as [Hs | Hs].
  { destruct (Nat.leb_spec (2 + 2 * regs) (_PDUSize p)); [lia |].
    rewrite andb_false_r. cbn. repeat split; try reflexivity; discriminate. }
  destruct (Nat.leb_spec 1 count), (Nat.leb_spec regs 125),
    (Nat.leb_spec 5 (_PDUSize p)), (Nat.leb_spec (2 + 2 * regs) (_PDUSize p));
    try lia.
  cbn [orb andb fst snd].
  destruct (u16_bytes addr Haddr) as (Hah & Hal & _).
  destruct (u16_bytes (Z.of_nat regs) ltac:(lia)) as (Hch & Hcl & _).
  rewrite Hah, Hal, Hch, Hcl.
  rewrite !u8_small by lia.
  rewrite (Z.div_small (Z.of_nat regs)) by lia.
  rewrite (Z.mod_small (Z.of_nat regs)) by lia.
  replace (regs * 2) with (2 * regs) by lia.
  destruct p as [cb0 tx rx txl hd db dl er ex es us sz qt ds sl].
  cbn [_TXPDUbuffer _PDUresponseHead] in Htx, Hhd.
  five_bytes tx Htx.
  destruct hd as [| ? [| ? ?]]; cbn [length] in Hhd; try lia.
  cbn -[Nat.mul]. repeat split; try reflexivity; discriminate.
Qed.

Lemma createReadRegisters_request_witness :
  let p := adu_pdu (ADURTU_init 253) in
  let regs := 3 * ((4 + 1) / 2) in
  let r := createReadRegisters 4 3 0x0102 3 (Some 7) p in
  let ok := (1 <=? 3) && (regs <=? 125) && (5 <=? _PDUSize p)
            && (2 + 2 * regs <=? _PDUSize p) in
  (ok = true ->
   r.1 = MB_EX_SUCCESS
   /\ take 5 (_TXPDUbuffer r.2)
      = [3; (0x0102 / 256); (0x0102 mod 256); 0; Z.of_nat regs]%Z
   /\ drop 5 (_TXPDUbuffer r.2) = drop 5 (_TXPDUbuffer p)
   /\ _TXPDUbufferLen r.2 = 5
   /\ rd (_PDUresponseHead r.2) 0 = 3%Z
   /\ rd (_PDUresponseHead r.2) 1 = Z.of_nat (2 * regs)
   /\ _expectedResponseLen r.2 = 2 + 2 * regs
   /\ _err r.2 = _err p)
  /\ (ok = false ->
      r.1 = (if 3 =? 0 then 13%Z else if 125 <? regs then 12%Z else 33%Z)
      /\ _err r.2 = r.1
      /\ _TXPDUbuffer r.2 = _TXPDUbuffer p
      /\ _TXPDUbufferLen r.2 = _TXPDUbufferLen p
      /\ _PDUresponseHead r.2 = _PDUresponseHead p)
  /\ _callback r.2 = Some 7
  /\ _elemSize r.2 = 4
  /\ _RXPDUbuffer r.2 = _RXPDUbuffer p.
Proof.
  apply (createReadRegisters_request 4 3 0x0102 3 (Some 7) (adu_pdu (ADURTU_init 253))).
  - lia.
  - lia.
  - vm_compute. lia.
  - vm_compute. lia.
  - vm_compute. lia.
Defined.

(** Beyond 255 registers the count wraps: 128 elements of four bytes are
    256 registers, which the [uint8_t] holds as 0, and the request goes out
    asking for no register at all. *)
Example read_registers_count_wraps :
  let r := createReadRegisters 4 3 0 128 None (adu_pdu (ADURTU_init 253)) in
  r.1 = MB_EX_SUCCESS
  /\ take 5 (_TXPDUbuffer r.2) = [3; 0; 0; 0; 0]%Z
  /\ _expectedResponseLen r.2 = 2.
Proof. vm_compute. repeat split. Qed.

(** ** Coils packed into bytes *)

Lemma pack_coils_spec (src : list bool) (cc bc : nat) (tx : list Z) :
  cc <= 8 * bc ->
  6 + bc <= length tx ->
  let d := for_loop cc (pack_coil src) (memset tx 6 0%Z bc) in
  length d = length tx
  /\ (forall n, n < 6 \/ 6 + bc <= n -> rd d n = rd tx n)
  /\ (forall i, i < 8 * bc ->
        Z.testbit (rd d (6 + i / 8)) (Z.of_nat (i mod 8)) = (i <? cc) && nth i src false)
  /\ (forall j, j < bc -> is_byte (rd d (6 + j))).
Proof.
  intros Hcc Hlen d. unfold d.
  destruct (memset_spec tx 6 bc 0%Z Hlen) as [Hl0 Hv0].
  apply (for_loop_ind
           (fun k d' =>
              length d' = length tx
              /\ (forall n, n < 6 \/ 6 + bc <= n -> rd d' n = rd tx n)
              /\ (forall i, i < 8 * bc ->
                    Z.testbit (rd d' (6 + i / 8)) (Z.of_nat (i mod 8))
                    = (i <? k) && nth i src false)
              /\ (forall j, j < bc -> is_byte (rd d' (6 + j))))).
  - split; [exact Hl0 |]. split; [intros n Hn; apply memset_frame; lia |].
    split.
    + intros i Hi. rewrite Hv0 by (apply Nat.Div0.div_lt_upper_bound; lia).
      rewrite Z.bits_0. reflexivity.
    + intros j Hj. rewrite Hv0 by exact Hj. unfold is_byte. lia.
  - intros k d' Hk (Hl & Hframe & Hbits & Hbytes).
    assert (Hk8 : k / 8 < bc) by (apply Nat.Div0.div_lt_upper_bound; lia).
    unfold pack_coil. destruct (nth k src false) eqn:Hsrc.
    + split; [rewrite length_insert; exact Hl |].
      split; [intros n Hn; rewrite rd_insert_ne by lia; apply Hframe, Hn |].
      split.
      * intros i Hi. destruct (Nat.eq_dec (i / 8) (k / 8)) as [Heq | Hne].
        -- rewrite Heq, rd_insert_eq by lia. rewrite testbit_or_bit, <- Heq, Hbits by exact Hi.
           destruct (Nat.eq_dec i k) as [-> | Hik].
           ++ rewrite Nat.eqb_refl, Hsrc, orb_true_r.
              destruct (Nat.ltb_spec k (S k)); [reflexivity | lia].
           ++ destruct (Nat.eqb_spec (i mod 8) (k mod 8)) as [Hm | _].
              { exfalso. apply Hik, id_split. auto. }
              rewrite orb_false_r.
              destruct (Nat.ltb_spec i k), (Nat.ltb_spec i (S k)); try reflexivity; lia.
        -- rewrite rd_insert_ne by lia. rewrite Hbits by exact Hi.
           assert (Hik : i <> k) by (intros ->; contradiction).
           destruct (Nat.ltb_spec i k), (Nat.ltb_spec i (S k)); try reflexivity; lia.
      * intros j Hj. destruct (Nat.eq_dec j (k / 8)) as [-> | Hne].
        -- rewrite rd_insert_eq by lia. apply or_bit_byte; [apply Hbytes, Hk8 |].
           apply Nat.mod_upper_bound. lia.
        -- rewrite rd_insert_ne by lia. apply Hbytes, Hj.
    + split; [exact Hl |]. split; [exact Hframe |]. split; [| exact Hbytes].
      intros i Hi. rewrite Hbits by exact Hi.
      destruct (Nat.eq_dec i k) as [-> | Hik].
      * rewrite Hsrc, !andb_false_r. reflexivity.
      * destruct (Nat.ltb_spec i k), (Nat.ltb_spec i (S k)); try reflexivity; lia.
Qed.

(** X15: [PDU::createWriteMultipleCoils] for an array of [bool] packs the
    coils eight to a byte, coil [i] into bit [i mod 8] of data byte
    [i / 8], and clears the bits behind the last coil.  For
    [1 <= coilCount <= 1968] and a PDU that holds the
    [6 + ceil(coilCount / 8)] request bytes, the request is the header
    [0x0F, address, count, byte count] followed by these data bytes, and
    the first five bytes are what the response must repeat. *)
Theorem createWriteMultipleCoils_packs_the_coils (addr : Z) (src : list bool)
    (coilCount : nat) (cb : modbusCallback) (p : PDU) :
  (0 <= addr < 65536)%Z ->
  1 <= coilCount <= 1968 ->
  let byteCount := (coilCount + 7) / 8 in
  6 + byteCount <= _PDUSize p ->
  6 + byteCount <= length (_TXPDUbuffer p) ->
  5 <= length (_PDUresponseHead p) ->
  let r := createWriteMultipleCoils_bool addr src coilCount cb p in
  r.1 = MB_EX_SUCCESS
  /\ take 6 (_TXPDUbuffer r.2)
     = [0x0F%Z; (addr / 256)%Z; (addr mod 256)%Z;
        Z.of_nat (coilCount / 256); Z.of_nat (coilCount mod 256); Z.of_nat byteCount]
  /\ (forall i, i < 8 * byteCount ->
        Z.testbit (rd (_TXPDUbuffer r.2) (6 + i / 8)) (Z.of_nat (i mod 8))
        = (i <? coilCount) && nth i src false)
  /\ (forall j, j < byteCount -> is_byte (rd (_TXPDUbuffer r.2) (6 + j)))
  /\ drop (6 + byteCount) (_TXPDUbuffer r.2) = drop (6 + byteCount) (_TXPDUbuffer p)
  /\ _TXPDUbufferLen r.2 = 6 + byteCount
  /\ _expectedResponseLen r.2 = 5
  /\ take 5 (_PDUresponseHead r.2) = take 5 (_TXPDUbuffer r.2)
  /\ _callback r.2 = cb.
Proof.
  intros Haddr Hcc byteCount Hsize Htx Hhd r.
  assert (Hbc : byteCount <= 246).
  { pose proof (Nat.Div0.div_le_mono (coilCount + 7) 1975 8 ltac:(lia)) as Hm.
    change (1975 / 8) with 246 in Hm. exact Hm. }
  assert (Hcover : coilCount <= 8 * byteCount).
  { unfold byteCount. pose proof (Nat.div_mod_eq (coilCount + 7) 8).
    pose proof (Nat.mod_upper_bound (coilCount + 7) 8). lia. }
  unfold r, createWriteMultipleCoils_bool.
  cbn [_PDUSize set_callback].
  destruct (Nat.eqb_spec coilCount 0) as [? | _]; [lia |].
  unfold MB_MAX_WRITE_COILS, MB_MAX_WRITE_COILS_IN_BYTES.
  destruct (Nat.ltb_spec 1968 coilCount) as [? | _]; [lia |].
  fold byteCount. rewrite (u8_small byteCount) by lia.
  destruct (Nat.ltb_spec 246 byteCount) as [? | _]; [lia |].
  destruct (Nat.ltb_spec (_PDUSize p) (6 + byteCount)) as [? | _]; [lia |].
  destruct (u16_bytes addr Haddr) as (Hah & Hal & _).
  destruct (u16_bytes (Z.of_nat coilCount) ltac:(lia)) as (Hch & Hcl & _).
  rewrite Hah, Hal, Hch, Hcl.
  replace (Z.of_nat coilCount / 256)%Z with (Z.of_nat (coilCount / 256))
    by (rewrite Nat2Z.inj_div; reflexivity).
  replace (Z.of_nat coilCount mod 256)%Z with (Z.of_nat (coilCount mod 256))
    by (rewrite Nat2Z.inj_mod; reflexivity).
  rewrite (u8_small (6 + byteCount)) by lia.
  destruct p as [cb0 tx rx txl hd db dl er ex es us sz qt ds sl].
  cbn [_TXPDUbuffer _PDUresponseHead _PDUSize] in *.
  destruct tx as [| t0 [| t1 [| t2 [| t3 [| t4 [| t5 rest]]]]]]; cbn [length] in Htx; try lia.
  five_bytes hd Hhd.
  cbn -[memset for_loop pack_coil Nat.div Nat.modulo Nat.mul Z.of_nat drop take Nat.add].
  match goal with
  | |- context [for_loop coilCount (pack_coil src) (memset ?t 6 0%Z byteCount)] =>
      destruct (pack_coils_spec src coilCount byteCount t Hcover)
        as (Hl & Hframe & Hbits & Hbytes); [cbn [length]; lia |];
      set (d := for_loop coilCount (pack_coil src) (memset t 6 0%Z byteCount)) in *
  end.
  cbn [length] in Hl.
  split; [reflexivity |]. split.
  { apply (take_eq_pointwise d [15%Z; _; _; _; _; _]); [cbn [length]; lia |].
    intros n Hn. cbn [length] in Hn. rewrite Hframe by lia.
    do 6 (destruct n as [| n]; [reflexivity |]). lia. }
  split; [exact Hbits |]. split; [exact Hbytes |]. split.
  { apply drop_eq_pointwise; [cbn [length]; lia |].
    intros n Hn. rewrite Hframe by lia.
    do 6 (destruct n as [| n]; [lia |]). reflexivity. }
  split; [reflexivity |]. split; [reflexivity |]. split; [| reflexivity].
  symmetry. apply (take_eq_pointwise d [15%Z; _; _; _; _]); [cbn [length]; lia |].
  intros n Hn. cbn [length] in Hn. rewrite Hframe by lia.
  do 5 (destruct n as [| n]; [reflexivity |]). lia.
Qed.

Lemma createWriteMultipleCoils_packs_the_coils_witness :
  let p := adu_pdu (ADURTU_init 253) in
  let src := [true; false; true; true; false; false; false; false; true; true] in
  let byteCount := (10 + 7) / 8 in
  let r := createWriteMultipleCoils_bool 0x0013 src 10 (Some 7) p in
  r.1 = MB_EX_SUCCESS
  /\ take 6 (_TXPDUbuffer r.2)
     = [0x0F%Z; (0x0013 / 256)%Z; (0x0013 mod 256)%Z;
        Z.of_nat (10 / 256); Z.of_nat (10 mod 256); Z.of_nat byteCount]
  /\ (forall i, i < 8 * byteCount ->
        Z.testbit (rd (_TXPDUbuffer r.2) (6 + i / 8)) (Z.of_nat (i mod 8))
        = (i <? 10) && nth i src false)
  /\ (forall j, j < byteCount -> is_byte (rd (_TXPDUbuffer r.2) (6 + j)))
  /\ drop (6 + byteCount) (_TXPDUbuffer r.2) = drop (6 + byteCount) (_TXPDUbuffer p)
  /\ _TXPDUbufferLen r.2 = 6 + byteCount
  /\ _expectedResponseLen r.2 = 5
  /\ take 5 (_PDUresponseHead r.2) = take 5 (_TXPDUbuffer r.2)
  /\ _callback r.2 = Some 7.
Proof.
  apply (createWriteMultipleCoils_packs_the_coils 0x0013
           [true; false; true; true; false; false; false; false; true; true] 10
           (Some 7) (adu_pdu (ADURTU_init 253))).
  - lia.
  - lia.
  - vm_compute. lia.
  - vm_compute. lia.
  - vm_compute. lia.
Defined.

Example coils_of_the_example :
  take 8 (_TXPDUbuffer
            (createWriteMultipleCoils_bool 0x0013
               [true; false; true; true; false; false; false; false; true; true] 10
               None (adu_pdu (ADURTU_init 253))).2)
  = [0x0F; 0x00; 0x13; 0x00; 0x0A; 0x02; 0x0D; 0x03]%Z.
Proof. vm_compute. reflexivity. Qed.

(** ** [invoke] on a plain PDU *)

(** What the tail of every path of [invoke] does on a PDU that is no ADU:
    the callback, if one is installed, is called once on the PDU as the
    path left it, and the PDU is cleared. *)
Lemma PDU_callCallback_return (p : PDU) :
  callCallback_return PDU_get PDU_getSlaveId' PDU_clear' PDU_repeatIfNeeded tt p
  = match _callback p with
    | Some f => ([EvCallback f p 0xFF], Some (0%Z, PDU_clear p))
    | None => ([], Some (_err p, p))
    end.
Proof.
  unfold callCallback_return, callCallback, call_callback, PDU_get, PDU_getSlaveId',
    PDU_clear', PDU_repeatIfNeeded, PDU_getSlaveId.
  unfold mbind, gets, emit, mret, modify, call.
  destruct (_callback p) as [f |] eqn:Hcb; cbn; rewrite ?Hcb; reflexivity.
Qed.

Lemma PDU_then_callback (F : PDU -> PDU) (p : PDU) :
  mbind (on_pdu PDU_get PDU_put tt F)
    (fun _ => callCallback_return PDU_get PDU_getSlaveId' PDU_clear' PDU_repeatIfNeeded tt) p
  = match _callback (F p) with
    | Some f => ([EvCallback f (F p) 0xFF], Some (0%Z, PDU_clear (F p)))
    | None => ([], Some (_err (F p), F p))
    end.
Proof.
  unfold on_pdu. rewrite mbind_modify. unfold PDU_put, PDU_get.
  apply PDU_callCallback_return.
Qed.

Lemma convert_response_callback (isBigEndian : bool) (p : PDU) :
  _callback (convert_response isBigEndian p) = _callback p
  /\ _err (convert_response isBigEndian p) = _err p.
Proof.
  unfold convert_response.
  destruct ((0 <? _elemSize p) && (_dataLen p mod 2 =? 0)); [| auto].
  destruct (convertFromBigEndianRegistersInPlace _ _ _ _ _) as [[ok [b |]] [len |]];
    auto.
Qed.

(** The state the callback is handed by [invoke]: every path of [invoke]
    ends in [callCallback] on some update of the PDU that keeps the
    callback. *)
Lemma PDU_invoke_shape (isBigEndian : bool) (p : PDU) :
  exists view,
    _callback view = _callback p
    /\ PDU_invoke isBigEndian p
       = match _callback p with
         | Some f => ([EvCallback f view 0xFF], Some (0%Z, PDU_clear view))
         | None => ([], Some (_err view, view))
         end.
Proof.
  unfold PDU_invoke, invoke. rewrite mbind_gets. cbv beta zeta.
  change (PDU_get tt p) with p.
  assert (Hstep : forall (F : PDU -> PDU) (q : PDU),
            _callback (F q) = _callback p ->
            exists view,
              _callback view = _callback p
              /\ mbind (on_pdu PDU_get PDU_put tt F)
                   (fun _ => callCallback_return PDU_get PDU_getSlaveId' PDU_clear'
                               PDU_repeatIfNeeded tt) q
                 = match _callback p with
                   | Some f => ([EvCallback f view 0xFF], Some (0%Z, PDU_clear view))
                   | None => ([], Some (_err view, view))
                   end).
  { intros F q HF. exists (F q). split; [exact HF |].
    rewrite PDU_then_callback, HF. reflexivity. }
  assert (Hlast : forall q : PDU,
            _callback q = _callback p ->
            exists view,
              _callback view = _callback p
              /\ callCallback_return PDU_get PDU_getSlaveId' PDU_clear'
                   PDU_repeatIfNeeded tt q
                 = match _callback p with
                   | Some f => ([EvCallback f view 0xFF], Some (0%Z, PDU_clear view))
                   | None => ([], Some (_err view, view))
                   end).
  { intros q Hq. exists q. split; [exact Hq |].
    rewrite PDU_callCallback_return, Hq. reflexivity. }
  destruct (negb (_err p =? 0)%Z); [apply Hstep; reflexivity |].
  unfold on_pdu at 1. rewrite mbind_modify.
  change (PDU_put tt (set_err 0%Z (PDU_get tt p)) p) with (set_err 0%Z p).
  repeat match goal with
         | |- context [if ?c then _ else _] => destruct c
         end;
    first [ apply Hlast; reflexivity
          | apply Hstep; first [ reflexivity
                               | etransitivity;
                                 [ apply (proj1 (convert_response_callback _ _))
                                 | reflexivity ] ] ].
Qed.

(** X16: on a PDU whose buffers exist as [init] of an ADU allocates
    them (a receive buffer of [_PDUSize + 2] bytes with [_PDUSize >= 5],
    a response head of 7 bytes) and that repeats nothing, [PDU::invoke]
    calls the installed callback exactly once, whatever the receive buffer
    and the fields hold, then clears the PDU (callback gone, [_used] false,
    [_err] 0) and returns the [_err] it reads after that, which is 0;
    without a callback it calls nothing and clears nothing. *)
Theorem invoke_calls_back_exactly_once (isBigEndian : bool) (p : PDU) :
  5 <= _PDUSize p ->
  length (_RXPDUbuffer p) = _PDUSize p + MB_ADU_RTU_CRC_LEN ->
  length (_PDUresponseHead p) = MB_PDU_MAX_RESPONSE_LEN ->
  (forall f, _callback p = Some f ->
     exists view,
       PDU_invoke isBigEndian p = ([EvCallback f view 0xFF], Some (0%Z, PDU_clear view))
       /\ _callback view = Some f
       /\ _callback (PDU_clear view) = None
       /\ _used (PDU_clear view) = false
       /\ _err (PDU_clear view) = 0%Z)
  /\ (_callback p = None ->
      exists p',
        PDU_invoke isBigEndian p = ([], Some (_err p', p')) /\ _callback p' = None).
Proof.
  intros _ _ _.
  destruct (PDU_invoke_shape isBigEndian p) as (view & Hcb & Hrun). split.
  - intros f Hf. rewrite Hf in Hrun, Hcb. exists view. auto.
  - intros Hnone. rewrite Hnone in Hrun, Hcb. exists view. auto.
Qed.

Lemma invoke_calls_back_exactly_once_witness :
  let p := set_RX ([0x83; 0x02]%Z ++ replicate 16 0%Z)
             (wrHead 0 3%Z (set_callback (Some 7) (adu_pdu (ADURTU_init 16)))) in
  (forall f, _callback p = Some f ->
     exists view,
       PDU_invoke false p = ([EvCallback f view 0xFF], Some (0%Z, PDU_clear view))
       /\ _callback view = Some f
       /\ _callback (PDU_clear view) = None
       /\ _used (PDU_clear view) = false
       /\ _err (PDU_clear view) = 0%Z)
  /\ (_callback p = None ->
      exists p',
        PDU_invoke false p = ([], Some (_err p', p')) /\ _callback p' = None).
Proof.
  apply (invoke_calls_back_exactly_once false
           (set_RX ([0x83; 0x02]%Z ++ replicate 16 0%Z)
              (wrHead 0 3%Z (set_callback (Some 7) (adu_pdu (ADURTU_init 16)))))).
  - vm_compute. lia.
  - reflexivity.
  - reflexivity.
Defined.

(** ** A write request and its echo *)

(** [invoke] on the response to a write of a single coil or register. *)
Lemma PDU_invoke_write_single (isBigEndian : bool) (p : PDU) (f : nat) (fn : Z) :
  fn = MB_FC_WRITE_SINGLE_COIL \/ fn = MB_FC_WRITE_SINGLE_REGISTER ->
  _callback p = Some f ->
  _err p = 0%Z ->
  rd (_PDUresponseHead p) 0 = fn ->
  rd (_RXPDUbuffer p) 0 = fn ->
  let differs (i : nat) := negb (rd (_RXPDUbuffer p) i =? rd (_PDUresponseHead p) i)%Z in
  let e := if differs 1 || differs 2 then MB_EX_LIB_INVALID_ADDRESS
           else if differs 3 || differs 4 then MB_EX_LIB_INVALID_DATA
           else 0%Z in
  PDU_invoke isBigEndian p
  = ([EvCallback f (set_err e p) 0xFF], Some (0%Z, PDU_clear (set_err e p))).
Proof.
  intros Hfn Hcb Herr Hhd Hrx differs e. unfold e, differs.
  unfold PDU_invoke, invoke. rewrite mbind_gets. cbv beta zeta.
  change (PDU_get tt p) with p.
  rewrite Herr, Hhd, Hrx. cbn [Z.eqb negb].
  unfold on_pdu at 1. rewrite mbind_modify.
  change (PDU_put tt (set_err 0%Z (PDU_get tt p)) p) with (set_err 0%Z p).
  assert (Hcase : ((fn =? fn + 128)%Z = false) /\ (fn =? fn)%Z = true).
  { split; [apply Z.eqb_neq; lia | apply Z.eqb_refl]. }
  destruct Hcase as [-> ->]. cbn [negb].
  destruct Hfn as [-> | ->]; cbn [Z.eqb MB_FC_WRITE_SINGLE_COIL MB_FC_WRITE_SINGLE_REGISTER
    MB_FC_READ_COILS MB_FC_READ_DISCRETE_INPUTS MB_FC_READ_HOLDING_REGISTERS
    MB_FC_READ_INPUT_REGISTERS MB_FC_READ_AND_WRITE_REGISTERS orb Pos.eqb];
    (destruct (negb (rd (_RXPDUbuffer p) 1 =? rd (_PDUresponseHead p) 1)%Z
              || negb (rd (_RXPDUbuffer p) 2 =? rd (_PDUresponseHead p) 2)%Z);
     [rewrite PDU_then_callback; cbn [_callback set_err]; rewrite Hcb; reflexivity |]);
    (destruct (negb (rd (_RXPDUbuffer p) 3 =? rd (_PDUresponseHead p) 3)%Z
              || negb (rd (_RXPDUbuffer p) 4 =? rd (_PDUresponseHead p) 4)%Z);
     [rewrite PDU_then_callback; cbn [_callback set_err]; rewrite Hcb; reflexivity |]);
    rewrite PDU_callCallback_return; cbn [_callback set_err]; rewrite Hcb; reflexivity.
Qed.

(** X17: [PDU::createWriteSingleRegister] writes the request
    [06, address, value] (16-bit values high byte first) and keeps the same
    five bytes as the response to expect; [createWriteSingleCoil] does the
    same with [05] and the value [FF 00] or [00 00].  [PDU::invoke] on the
    response to the register write then hands the callback error 0 when the
    response repeats the request, [MB_EX_LIB_INVALID_ADDRESS] (20) when the
    address bytes differ, and [MB_EX_LIB_INVALID_DATA] (21) when only the
    value bytes differ. *)
Theorem write_single_register_is_checked_against_its_echo
    (isBigEndian : bool) (addr value : Z) (coil : bool) (f : nat) (p : PDU) (rx : list Z) :
  (0 <= addr < 65536)%Z ->
  (0 <= value < 65536)%Z ->
  5 <= _PDUSize p ->
  5 <= length (_TXPDUbuffer p) ->
  5 <= length (_PDUresponseHead p) ->
  _err p = 0%Z ->
  let made := createWriteSingleRegister addr value (Some f) p in
  let request := [6; addr / 256; addr mod 256; value / 256; value mod 256]%Z in
  let made_coil := createWriteSingleCoil addr coil (Some f) p in
  made.1 = MB_EX_SUCCESS
  /\ take 5 (_TXPDUbuffer made.2) = request
  /\ _TXPDUbufferLen made.2 = 5
  /\ _expectedResponseLen made.2 = 5
  /\ made_coil.1 = MB_EX_SUCCESS
  /\ take 5 (_TXPDUbuffer made_coil.2)
     = [5; addr / 256; addr mod 256; if coil then 0xFF else 0; 0]%Z
  /\ take 5 (_PDUresponseHead made_coil.2) = take 5 (_TXPDUbuffer made_coil.2)
  /\ exists view,
       PDU_invoke isBigEndian (set_RX rx made.2)
       = ([EvCallback f view 0xFF], Some (0%Z, PDU_clear view))
       /\ (take 5 rx = request -> _err view = 0%Z)
       /\ (rd rx 0 = 6%Z ->
           rd rx 1 <> (addr / 256)%Z \/ rd rx 2 <> (addr mod 256)%Z ->
           _err view = MB_EX_LIB_INVALID_ADDRESS)
       /\ (rd rx 0 = 6%Z -> rd rx 1 = (addr / 256)%Z -> rd rx 2 = (addr mod 256)%Z ->
           rd rx 3 <> (value / 256)%Z \/ rd rx 4 <> (value mod 256)%Z ->
           _err view = MB_EX_LIB_INVALID_DATA).
Proof.
  intros Haddr Hvalue Hsize Htx Hhd Herr made request made_coil.
  destruct (u16_bytes addr Haddr) as (Hah & Hal & _).
  destruct (u16_bytes value Hvalue) as (Hvh & Hvl & _).
  assert (Hmade : made = (MB_EX_SUCCESS,
            set_expectedResponseLen 5 (set_TXLen 5
              (wr2 4 (value mod 256)%Z (wr2 3 (value / 256)%Z
                (wr2 2 (addr mod 256)%Z (wr2 1 (addr / 256)%Z
                  (wr2 0 MB_FC_WRITE_SINGLE_REGISTER (set_callback (Some f) p))))))))).
  { unfold made, createWriteSingleRegister. cbn [_PDUSize set_callback].
    destruct (Nat.ltb_spec (_PDUSize p) 5) as [? | _]; [lia |].
    rewrite Hah, Hal, Hvh, Hvl. reflexivity. }
  assert (Hcoil : made_coil = (MB_EX_SUCCESS,
            set_expectedResponseLen 5 (set_TXLen 5
              (wr2 4 0%Z (wr2 3 (if coil then 0xFF else 0)%Z
                (wr2 2 (addr mod 256)%Z (wr2 1 (addr / 256)%Z
                  (wr2 0 MB_FC_WRITE_SINGLE_COIL (set_callback (Some f) p))))))))).
  { unfold made_coil, createWriteSingleCoil. cbn [_PDUSize set_callback].
    destruct (Nat.ltb_spec (_PDUSize p) 5) as [? | _]; [lia |].
    rewrite Hah, Hal. reflexivity. }
  rewrite Hmade, Hcoil. clear Hmade Hcoil made made_coil.
  destruct p as [cb0 tx rx0 txl hd db dl er ex es us sz qt ds sl].
  cbn [_TXPDUbuffer _PDUresponseHead _PDUSize _err] in *. subst er.
  five_bytes tx Htx. five_bytes hd Hhd.
  cbn [fst snd]. unfold request.
  split; [reflexivity |]. split; [reflexivity |]. split; [reflexivity |].
  split; [reflexivity |]. split; [reflexivity |]. split; [reflexivity |].
  split; [reflexivity |].
  match goal with
  | |- exists view, PDU_invoke _ ?q0 = _ /\ _ => set (q := q0)
  end.
  destruct (PDU_invoke_shape isBigEndian q) as (view & _ & Hrun).
  change (_callback q) with (Some f) in Hrun.
  exists view. split; [exact Hrun |].
  assert (Hecho : rd rx 0 = 6%Z ->
            view = set_err
                     (if negb (rd rx 1 =? addr / 256)%Z || negb (rd rx 2 =? addr mod 256)%Z
                      then MB_EX_LIB_INVALID_ADDRESS
                      else if negb (rd rx 3 =? value / 256)%Z
                              || negb (rd rx 4 =? value mod 256)%Z
                           then MB_EX_LIB_INVALID_DATA else 0%Z) q).
  { intros H0.
    pose proof (PDU_invoke_write_single isBigEndian q f 6%Z
                  (or_intror eq_refl) eq_refl eq_refl eq_refl H0) as Hw.
    cbv zeta in Hw. rewrite Hrun in Hw. injection Hw as Hv _. exact Hv. }
  split; [| split].
  - intros Htake.
    assert (Hr : forall n, n < 5 ->
              rd rx n = rd [6; addr / 256; addr mod 256; value / 256; value mod 256]%Z n).
    { intros n Hn. rewrite <- Htake. unfold rd. rewrite lookup_take_lt by exact Hn.
      reflexivity. }
    rewrite (Hecho (Hr 0 ltac:(lia))).
    rewrite (Hr 1), (Hr 2), (Hr 3), (Hr 4) by lia. cbn [rd lookup list_lookup default].
    rewrite !Z.eqb_refl. reflexivity.
  - intros H0 Haddr'. rewrite (Hecho H0).
    destruct (Z.eqb_spec (rd rx 1) (addr / 256)), (Z.eqb_spec (rd rx 2) (addr mod 256));
      cbn [negb orb]; try reflexivity. destruct Haddr'; contradiction.
  - intros H0 H1 H2 Hval'. rewrite (Hecho H0), H1, H2, !Z.eqb_refl. cbn [negb orb].
    destruct (Z.eqb_spec (rd rx 3) (value / 256)), (Z.eqb_spec (rd rx 4) (value mod 256));
      cbn [negb orb]; try reflexivity. destruct Hval'; contradiction.
Qed.

Lemma write_single_register_is_checked_against_its_echo_witness :
  let p := adu_pdu (ADURTU_init 253) in
  let rx := [6; 0x12; 0x34; 0xAB; 0xCD]%Z in
  let made := createWriteSingleRegister 0x1234 0xABCD (Some 7) p in
  let request := [6; 0x1234 / 256; 0x1234 mod 256; 0xABCD / 256; 0xABCD mod 256]%Z in
  let made_coil := createWriteSingleCoil 0x1234 true (Some 7) p in
  made.1 = MB_EX_SUCCESS
  /\ take 5 (_TXPDUbuffer made.2) = request
  /\ _TXPDUbufferLen made.2 = 5
  /\ _expectedResponseLen made.2 = 5
  /\ made_coil.1 = MB_EX_SUCCESS
  /\ take 5 (_TXPDUbuffer made_coil.2)
     = [5; 0x1234 / 256; 0x1234 mod 256; if true then 0xFF else 0; 0]%Z
  /\ take 5 (_PDUresponseHead made_coil.2) = take 5 (_TXPDUbuffer made_coil.2)
  /\ exists view,
       PDU_invoke false (set_RX rx made.2)
       = ([EvCallback 7 view 0xFF], Some (0%Z, PDU_clear view))
       /\ (take 5 rx = request -> _err view = 0%Z)
       /\ (rd rx 0 = 6%Z ->
           rd rx 1 <> (0x1234 / 256)%Z \/ rd rx 2 <> (0x1234 mod 256)%Z ->
           _err view = MB_EX_LIB_INVALID_ADDRESS)
       /\ (rd rx 0 = 6%Z -> rd rx 1 = (0x1234 / 256)%Z -> rd rx 2 = (0x1234 mod 256)%Z ->
           rd rx 3 <> (0xABCD / 256)%Z \/ rd rx 4 <> (0xABCD mod 256)%Z ->
           _err view = MB_EX_LIB_INVALID_DATA).
Proof.
  apply (write_single_register_is_checked_against_its_echo false 0x1234 0xABCD true 7
           (adu_pdu (ADURTU_init 253)) [6; 0x12; 0x34; 0xAB; 0xCD]%Z).
  - lia.
  - lia.
  - vm_compute. lia.
  - vm_compute. lia.
  - vm_compute. lia.
  - reflexivity.
Defined.

(** ** A register response as the callback sees it *)

Lemma getData_in_range (size_bits : Z) (sizeofT : nat) (p : PDU) (ix : nat) :
  (16 <= size_bits)%Z ->
  1 <= sizeofT ->
  _dataBegin p <= 255 ->
  _dataLen p <= 255 ->
  ix < _dataLen p / sizeofT ->
  _dataBegin p + ix * sizeofT + sizeofT <= _PDUSize p ->
  _PDUSize p <= length (_RXPDUbuffer p) ->
  getData size_bits sizeofT p ix
  = Some (take sizeofT (drop (_dataBegin p + ix * sizeofT) (_RXPDUbuffer p))).
Proof.
  intros Hbits Hsz Hbegin Hlen Hix Hfit Hbuf.
  assert (Hmul : ix * sizeofT <= _dataLen p).
  { pose proof (Nat.Div0.mul_div_le (_dataLen p) sizeofT). nia. }
  assert (HszLe : sizeofT <= 255).
  { destruct (Nat.le_gt_cases sizeofT 255) as [| Hbig]; [assumption |].
    rewrite Nat.div_small in Hix by lia. lia. }
  assert (Hqle : _dataLen p / sizeofT <= _dataLen p).
  { apply Nat.Div0.div_le_upper_bound. nia. }
  unfold getData. cbv zeta.
  rewrite <- Nat2Z.inj_div, <- Nat2Z.inj_mul.
  rewrite (size_t_small size_bits (Z.of_nat (_dataLen p / sizeofT))) by lia.
  rewrite (size_t_small size_bits (Z.of_nat (ix * sizeofT))) by lia.
  rewrite <- Nat2Z.inj_add, (Z.mod_small (Z.of_nat (_dataBegin p + ix * sizeofT))) by lia.
  rewrite <- Nat2Z.inj_add.
  rewrite (size_t_small size_bits (Z.of_nat (_dataBegin p + ix * sizeofT + sizeofT)))
    by lia.
  destruct (Z.gtb_spec (Z.of_nat (_dataBegin p + ix * sizeofT + sizeofT))
              (Z.of_nat (_PDUSize p))) as [? | _]; [lia |].
  destruct (Z.geb_spec (Z.of_nat ix) (Z.of_nat (_dataLen p / sizeofT))) as [? | _]; [lia |].
  cbn [orb]. unfold read_bytes.
  destruct (Nat.leb_spec (_dataBegin p + ix * sizeofT + sizeofT) (length (_RXPDUbuffer p)));
    [reflexivity | lia].
Qed.

Lemma unpack_little_ok (x b : list Z) (c s PDUSize : nat) :
  1 <= s <= 32 ->
  c <= 255 ->
  List.Forall is_byte x ->
  is_packed x c s (2 * ((s + 1) / 2)) b ->
  c * (2 * ((s + 1) / 2)) <= length b ->
  c * (2 * ((s + 1) / 2)) <= PDUSize ->
  exists buf,
    convertFromBigEndianRegistersInPlace false PDUSize (Some b) c s
    = (true, Some buf, Some (u8 (c * s)))
    /\ length buf = length b
    /\ forall n, n < c * s -> rd buf n = rd x n.
Proof.
  intros Hs Hc Hbytes Hpk Hlen Hpdu.
  destruct (paddedSizeOf_small s ltac:(lia)) as [Hp Hps].
  set (h := (s + 1) / 2) in *.
  unfold convertFromBigEndianRegistersInPlace.
  destruct (Nat.eqb_spec s 0) as [? | _]; [lia |].
  rewrite Hp.
  rewrite (u16_small (c * (2 * h))) by nia.
  rewrite (u16_small (c * s)) by nia.
  destruct (Nat.ltb_spec PDUSize (c * (2 * h))) as [? | _]; [lia |].
  destruct (Nat.ltb_spec PDUSize (c * s)) as [? | _]; [nia |].
  destruct (Nat.ltb_spec 32 s) as [? | _]; [lia |].
  cbn [orb].
  eexists. split; [reflexivity |].
  match goal with
  | |- context [for_loop c ?f (?b0, ?t)] =>
      destruct (unpack_little_spec x b0 t c s h) as [Hl' Hback]
  end; try assumption; try lia.
  { rewrite length_replicate. reflexivity. }
  cbv zeta in Hl', Hback |- *. split; [exact Hl' | exact Hback].
Qed.

(** [invoke] on the response to a read of coils, inputs or registers. *)
Lemma PDU_invoke_read (isBigEndian : bool) (p : PDU) (f : nat) (fn : Z) :
  In fn [MB_FC_READ_COILS; MB_FC_READ_DISCRETE_INPUTS; MB_FC_READ_HOLDING_REGISTERS;
         MB_FC_READ_INPUT_REGISTERS; MB_FC_READ_AND_WRITE_REGISTERS] ->
  _callback p = Some f ->
  _err p = 0%Z ->
  rd (_PDUresponseHead p) 0 = fn ->
  rd (_RXPDUbuffer p) 0 = fn ->
  let view :=
    if (rd (_RXPDUbuffer p) 1 =? rd (_PDUresponseHead p) 1)%Z
    then convert_response isBigEndian
           (set_dataLen (Z.to_nat (rd (_RXPDUbuffer p) 1)) (set_dataBegin 2 p))
    else set_err MB_EX_LIB_INVALID_BYTE_LENGTH p in
  PDU_invoke isBigEndian p = ([EvCallback f view 0xFF], Some (0%Z, PDU_clear view)).
Proof.
  intros Hfn Hcb Herr Hhd Hrx view. unfold view.
  unfold PDU_invoke, invoke. rewrite mbind_gets. cbv beta zeta.
  change (PDU_get tt p) with p.
  rewrite Herr, Hhd, Hrx. cbn [Z.eqb negb].
  unfold on_pdu at 1. rewrite mbind_modify.
  change (PDU_put tt (set_err 0%Z (PDU_get tt p)) p) with (set_err 0%Z p).
  assert (Hcase : ((fn =? fn + 128)%Z = false) /\ (fn =? fn)%Z = true).
  { split; [apply Z.eqb_neq; lia | apply Z.eqb_refl]. }
  destruct Hcase as [-> ->]. cbn [negb].
  assert (Hsame : set_err 0%Z p = p).
  { destruct p. cbn in Herr. subst. reflexivity. }
  assert (Hread : ((fn =? MB_FC_READ_COILS)%Z || (fn =? MB_FC_READ_DISCRETE_INPUTS)%Z
                   || (fn =? MB_FC_READ_HOLDING_REGISTERS)%Z
                   || (fn =? MB_FC_READ_INPUT_REGISTERS)%Z
                   || (fn =? MB_FC_READ_AND_WRITE_REGISTERS)%Z) = true).
  { cbn [In] in Hfn. destruct Hfn as [<- | [<- | [<- | [<- | [<- | []]]]]]; reflexivity. }
  rewrite Hread.
  destruct (rd (_RXPDUbuffer p) 1 =? rd (_PDUresponseHead p) 1)%Z; cbn [negb];
    rewrite PDU_then_callback, Hsame.
  - rewrite (proj1 (convert_response_callback _ _)). cbn [_callback set_dataLen set_dataBegin].
    rewrite Hcb. reflexivity.
  - cbn [_callback set_err]. rewrite Hcb. reflexivity.
Qed.

Lemma take2_drop (l : list Z) (k : nat) :
  k + 2 <= length l -> take 2 (drop k l) = [rd l k; rd l (k + 1)].
Proof.
  intros Hk. apply list_eq. intros n.
  destruct n as [| [| n]].
  - rewrite lookup_take_lt, lookup_drop by lia. cbn [lookup list_lookup].
    unfold rd. rewrite Nat.add_0_r.
    destruct (l !! k) eqn:Hl; [reflexivity |]. apply lookup_ge_None in Hl. lia.
  - rewrite lookup_take_lt, lookup_drop by lia. cbn [lookup list_lookup].
    unfold rd. destruct (l !! (k + 1)) eqn:Hl; [reflexivity |].
    apply lookup_ge_None in Hl. lia.
  - rewrite lookup_take_ge by lia. reflexivity.
Qed.

Lemma createReadRegisters_accepts (sizeofT : nat) (fn addr : Z) (count : nat)
    (cb : modbusCallback) (p : PDU) :
  1 <= sizeofT <= 255 ->
  let regs := count * ((sizeofT + 1) / 2) in
  1 <= count -> regs <= 125 ->
  5 <= _PDUSize p -> 2 + 2 * regs <= _PDUSize p ->
  let r := createReadRegisters sizeofT fn addr count cb p in
  r.1 = MB_EX_SUCCESS
  /\ _callback r.2 = cb
  /\ _err r.2 = _err p
  /\ _elemSize r.2 = sizeofT
  /\ _PDUSize r.2 = _PDUSize p
  /\ _PDUresponseHead r.2 = <[1 := Z.of_nat (2 * regs)]> (<[0 := fn]> (_PDUresponseHead p))
  /\ _RXPDUbuffer r.2 = _RXPDUbuffer p.
Proof.
  intros Hsz regs Hcount Hregs Hs5 Hs r. unfold r, createReadRegisters.
  cbn [_PDUSize _elemSize set_callback set_elemSize].
  rewrite (u8_small sizeofT) by lia.
  assert (Hhalf : (sizeofT + 1) / 2 <= 128).
  { pose proof (Nat.Div0.div_le_mono (sizeofT + 1) 256 2 ltac:(lia)) as Hm.
    change (256 / 2) with 128 in Hm. exact Hm. }
  unfold toRegisterCount. rewrite (u8_small ((sizeofT + 1) / 2)) by lia.
  fold regs. rewrite (u8_small regs) by lia.
  rewrite (u16_small (regs * 2)) by lia.
  destruct (Nat.eqb_spec count 0) as [? | _]; [lia |].
  unfold MB_MAX_READ_REGISTERS.
  destruct (Nat.ltb_spec 125 regs) as [? | _]; [lia |].
  destruct (Nat.ltb_spec (_PDUSize p) 5) as [? | _]; [lia |].
  destruct (Nat.ltb_spec (_PDUSize p) (2 + regs * 2)) as [? | _]; [lia |].
  cbn [orb fst snd]. rewrite !u8_small by lia.
  replace (regs * 2) with (2 * regs) by lia.
  repeat split; reflexivity.
Qed.

Lemma rd_app_r (a b : list Z) (n : nat) : rd (a ++ b) (length a + n) = rd b n.
Proof.
  unfold rd. rewrite lookup_app_r by lia.
  replace (length a + n - length a) with n by lia. reflexivity.
Qed.

Lemma rd_drop (l : list Z) (k n : nat) : rd (drop k l) n = rd l (k + n).
Proof. unfold rd. rewrite lookup_drop. reflexivity. Qed.

(** X18: a response to a read of [count] 16-bit registers, received as
    [fn, 2 * count, high byte, low byte, ...], is accepted by
    [PDU::invoke] on the PDU that [createReadRegisters<uint16_t>] prepared,
    and on a little-endian host the callback is handed a PDU with error 0
    whose [getData<uint16_t>(i)] is the value of the [i]-th register sent:
    the byte pairs are put into host order in place. *)
Theorem read_registers_response_is_decoded
    (size_bits : Z) (fn addr : Z) (count : nat) (f : nat) (p : PDU) (rx : list Z) :
  fn = MB_FC_READ_HOLDING_REGISTERS \/ fn = MB_FC_READ_INPUT_REGISTERS ->
  (16 <= size_bits)%Z ->
  1 <= count <= 125 ->
  5 <= _PDUSize p ->
  2 + 2 * count <= _PDUSize p ->
  _PDUSize p <= 255 ->
  2 <= length (_PDUresponseHead p) ->
  _err p = 0%Z ->
  _PDUSize p <= length rx ->
  List.Forall is_byte rx ->
  rd rx 0 = fn ->
  rd rx 1 = Z.of_nat (2 * count) ->
  let q := (createReadRegisters 2 fn addr count (Some f) p).2 in
  exists view,
    PDU_invoke false (set_RX rx q) = ([EvCallback f view 0xFF], Some (0%Z, PDU_clear view))
    /\ getErr view = 0%Z
    /\ getByteLen view = 2 * count
    /\ getLen 2 view = count
    /\ forall i, i < count ->
         exists bytes,
           getData size_bits 2 view i = Some bytes
           /\ le_value bytes = (rd rx (2 + 2 * i) * 256 + rd rx (2 + 2 * i + 1))%Z.
Proof.
  intros Hfn Hbits Hcount Hsize5 Hsize Hmax Hhd Herr Hrx Hbytes Hrx0 Hrx1 q.
  pose proof (createReadRegisters_accepts 2 fn addr count (Some f) p ltac:(lia)) as Hacc.
  cbv zeta in Hacc. change ((2 + 1) / 2) with 1 in Hacc. rewrite Nat.mul_1_r in Hacc.
  destruct (Hacc ltac:(lia) ltac:(lia) ltac:(lia) ltac:(lia))
    as (_ & Hcb & He & Hes & Hps & Hhead & _).
  clear Hacc. fold q in Hcb, He, Hes, Hps, Hhead.
  set (q' := set_RX rx q).
  assert (Hh0 : rd (_PDUresponseHead q') 0 = fn).
  { cbn [q' _PDUresponseHead set_RX]. rewrite Hhead.
    rewrite rd_insert_ne by lia. apply rd_insert_eq. lia. }
  assert (Hh1 : rd (_PDUresponseHead q') 1 = Z.of_nat (2 * count)).
  { cbn [q' _PDUresponseHead set_RX]. rewrite Hhead.
    apply rd_insert_eq. rewrite length_insert. lia. }
  pose proof (PDU_invoke_read false q' f fn) as Hinv.
  cbv zeta in Hinv.
  rewrite Hh1 in Hinv.
  change (_RXPDUbuffer q') with rx in Hinv. rewrite Hrx1, Z.eqb_refl, Nat2Z.id in Hinv.
  specialize (Hinv ltac:(destruct Hfn as [-> | ->]; cbn; auto)
                   ltac:(exact Hcb) ltac:(cbn [q' _err set_RX]; congruence) Hh0 Hrx0).
  (* the conversion of the data region *)
  set (x := map (fun n => rd rx (2 + (if Nat.even n then n + 1 else n - 1)))
              (seq 0 (2 * count))).
  assert (Hx : forall n, n < 2 * count ->
                 rd x n = rd rx (2 + (if Nat.even n then n + 1 else n - 1))).
  { intros n Hn. unfold rd at 1, x. rewrite lookup_map_seq by exact Hn. reflexivity. }
  assert (Hxb : List.Forall is_byte x).
  { apply List.Forall_forall. intros v Hv. unfold x in Hv.
    apply in_map_iff in Hv as (n & <- & _). apply rd_is_byte, Hbytes. }
  assert (Heven : forall i, Nat.even (2 * i) = true)
    by (intros i; rewrite Nat.even_mul; reflexivity).
  assert (Hodd : forall i, Nat.even (2 * i + 1) = false)
    by (intros i; rewrite Nat.even_add, Nat.even_mul; reflexivity).
  assert (Hpk : is_packed x count 2 (2 * ((2 + 1) / 2)) (drop 2 rx)).
  { change (2 * ((2 + 1) / 2)) with 2. intros i k Hi Hk.
    assert (k = 0) by lia. subst k. unfold pair_hi, pair_lo. cbn [Nat.mul Nat.add Nat.ltb Nat.leb].
    rewrite !rd_drop. rewrite !Hx by lia.
    replace (i * 2 + 1) with (2 * i + 1) by lia.
    replace (i * 2 + 0) with (2 * i) by lia.
    rewrite Heven, Hodd. split; f_equal; lia. }
  destruct (unpack_little_ok x (drop 2 rx) count 2 (_PDUSize p))
    as (buf & Hconv & Hbl & Hback); try assumption; try lia.
  { change (2 * ((2 + 1) / 2)) with 2. rewrite length_drop. lia. }
  { change (2 * ((2 + 1) / 2)) with 2. lia. }
  rewrite length_drop in Hbl.
  set (view := set_dataLen (u8 (count * 2))
                 (set_RX (take 2 rx ++ buf)
                    (set_dataLen (2 * count) (set_dataBegin 2 q')))).
  assert (Hview : convert_response false (set_dataLen (2 * count) (set_dataBegin 2 q'))
                  = view).
  { unfold convert_response.
    cbn [_elemSize _dataLen _dataBegin _PDUSize _RXPDUbuffer set_dataLen set_dataBegin
         set_RX q'].
    rewrite Hes, Hps.
    assert (Hm : (2 * count) mod 2 = 0) by (rewrite Nat.mul_comm; apply Nat.Div0.mod_mul).
    rewrite Hm. cbn [Nat.ltb Nat.leb Nat.eqb andb].
    assert (Hd : (2 * count) / 2 = count) by (rewrite Nat.mul_comm; apply Nat.div_mul; lia).
    rewrite Hd, (u8_small count) by lia.
    rewrite Hconv. reflexivity. }
  rewrite Hview in Hinv.
  exists view. split; [exact Hinv |].
  assert (Hu : u8 (count * 2) = 2 * count) by (rewrite u8_small; lia).
  split; [unfold getErr, view; cbn [_err set_dataLen set_RX set_dataBegin q']; congruence |].
  split; [unfold getByteLen, view; cbn [_dataLen set_dataLen]; exact Hu |].
  split.
  { unfold getLen, view. cbn [_dataLen set_dataLen]. rewrite Hu.
    rewrite Nat.mul_comm, Nat.div_mul by lia. apply u8_small. lia. }
  intros i Hi.
  assert (Hlen2 : length (take 2 rx) = 2) by (rewrite length_take; lia).
  eexists. split.
  { rewrite getData_in_range; unfold view;
      cbn [_dataLen _dataBegin _PDUSize _RXPDUbuffer set_dataLen set_RX set_dataBegin q'];
      rewrite ?Hu, ?Hps; try lia; try reflexivity.
    - rewrite Nat.mul_comm, Nat.div_mul by lia. exact Hi.
    - rewrite length_app, Hlen2, Hbl. lia. }
  unfold view. cbn [_dataBegin _RXPDUbuffer set_dataLen set_RX].
  rewrite take2_drop by (rewrite length_app, Hlen2, Hbl; lia).
  cbn [le_value].
  replace (2 + i * 2) with (length (take 2 rx) + 2 * i) by lia.
  rewrite rd_app_r.
  replace (length (take 2 rx) + 2 * i + 1) with (length (take 2 rx) + (2 * i + 1)) by lia.
  rewrite rd_app_r.
  rewrite !Hback, !Hx by lia. rewrite Heven, Hodd.
  replace (2 + (2 * i + 1 - 1)) with (2 + 2 * i) by lia.
  replace (2 + (2 * i + 1)) with (2 + 2 * i + 1) by lia. lia.
Qed.

Lemma read_registers_response_is_decoded_witness :
  let p := adu_pdu (ADURTU_init 16) in
  let rx := [3; 4; 0x12; 0x34; 0xAB; 0xCD; 0; 0; 0; 0; 0; 0; 0; 0; 0; 0; 0; 0]%Z in
  let q := (createReadRegisters 2 3 0 2 (Some 7) p).2 in
  exists view,
    PDU_invoke false (set_RX rx q) = ([EvCallback 7 view 0xFF], Some (0%Z, PDU_clear view))
    /\ getErr view = 0%Z
    /\ getByteLen view = 2 * 2
    /\ getLen 2 view = 2
    /\ forall i, i < 2 ->
         exists bytes,
           getData 32 2 view i = Some bytes
           /\ le_value bytes = (rd rx (2 + 2 * i) * 256 + rd rx (2 + 2 * i + 1))%Z.
Proof.
  apply (read_registers_response_is_decoded 32 3 0 2 7 (adu_pdu (ADURTU_init 16))
           [3; 4; 0x12; 0x34; 0xAB; 0xCD; 0; 0; 0; 0; 0; 0; 0; 0; 0; 0; 0; 0]%Z).
  - left. reflexivity.
  - lia.
  - lia.
  - vm_compute. lia.
  - vm_compute. lia.
  - vm_compute. lia.
  - vm_compute. lia.
  - reflexivity.
  - vm_compute. lia.
  - repeat constructor; unfold is_byte; lia.
  - reflexivity.
  - reflexivity.
Defined.

Example registers_of_the_example :
  let view := set_dataLen 4 (set_dataBegin 2
                (set_RX [3; 4; 0x34; 0x12; 0xCD; 0xAB]%Z (adu_pdu (ADURTU_init 16)))) in
  getData 32 2 view 0 = Some [0x34; 0x12]%Z
  /\ le_value [0x34; 0x12]%Z = 0x1234%Z
  /\ getData 32 2 view 1 = Some [0xCD; 0xAB]%Z
  /\ getData 32 2 view 2 = Some [0; 0]%Z.
Proof. vm_compute. repeat split. Qed.

(** ** Registers written from typed data *)

Lemma pack_ok (isBigEndian : bool) (x dest : list Z) (c s destLen : nat) :
  1 <= s <= 254 ->
  c <= 255 ->
  c * (2 * ((s + 1) / 2)) <= destLen ->
  destLen <= length dest ->
  exists packed,
    convertToBigEndianRegisters isBigEndian (Some x) c s (Some dest) destLen
    = (true, Some packed)
    /\ length packed = length dest
    /\ (forall n, c * (2 * ((s + 1) / 2)) <= n -> rd packed n = rd dest n)
    /\ (isBigEndian = false -> is_packed x c s (2 * ((s + 1) / 2)) packed).
Proof.
  intros Hs Hc Hcap Hlen.
  destruct (paddedSizeOf_small s ltac:(lia)) as [Hp Hps].
  set (h := (s + 1) / 2) in *.
  unfold convertToBigEndianRegisters.
  destruct (Nat.eqb_spec s 0) as [? | _]; [lia |].
  rewrite Hp, (u16_small (c * (2 * h))) by nia.
  destruct (Nat.ltb_spec destLen (c * (2 * h))) as [? | _]; [lia |].
  destruct isBigEndian.
  - eexists. split; [reflexivity |].
    destruct (pack_big_frame x dest c s (2 * h)) as [Hl Hrest]; [lia .. |].
    split; [exact Hl |]. split; [exact Hrest | discriminate].
  - eexists. split; [reflexivity |].
    destruct (pack_little_spec x dest c s h) as (Hl & Hpk & Hrest); [lia .. |].
    split; [exact Hl |]. split; [exact Hrest |]. intros _. exact Hpk.
Qed.

(** X19: [PDU::createWriteHoldingRegister<T>] for [count] elements of
    [sizeof(T)] bytes that make up at most 123 registers, on a PDU that
    holds the [6 + 2 * registers] request bytes: the request is the header
    [0x10, address, register count, byte count] followed by the packed
    data, which on a little-endian host are the registers of the source,
    high byte first; the bytes behind the request are untouched, and the
    first five bytes are what the response must repeat.  A null source is
    reported as [MB_EX_LIB_INVALID_DATA] (21). *)
Theorem createWriteHoldingRegister_request
    (isBigEndian : bool) (sizeofT : nat) (addr : Z) (x : list Z) (count : nat)
    (cb : modbusCallback) (p : PDU) :
  (0 <= addr < 65536)%Z ->
  1 <= sizeofT <= 254 ->
  1 <= count <= 255 ->
  let padded := 2 * ((sizeofT + 1) / 2) in
  let total := count * padded in
  total <= 246 ->
  6 + total <= _PDUSize p ->
  _PDUSize p <= 255 ->
  _PDUSize p <= length (_TXPDUbuffer p) ->
  5 <= length (_PDUresponseHead p) ->
  let r := createWriteHoldingRegister isBigEndian sizeofT addr (Some x) count cb p in
  r.1 = MB_EX_SUCCESS
  /\ take 6 (_TXPDUbuffer r.2)
     = [0x10%Z; (addr / 256)%Z; (addr mod 256)%Z; 0%Z;
        Z.of_nat (total / 2); Z.of_nat total]
  /\ (isBigEndian = false -> is_packed x count sizeofT padded (drop 6 (_TXPDUbuffer r.2)))
  /\ drop (6 + total) (_TXPDUbuffer r.2) = drop (6 + total) (_TXPDUbuffer p)
  /\ _TXPDUbufferLen r.2 = 6 + total
  /\ _expectedResponseLen r.2 = 5
  /\ take 5 (_PDUresponseHead r.2) = take 5 (_TXPDUbuffer r.2)
  /\ _callback r.2 = cb
  /\ (createWriteHoldingRegister isBigEndian sizeofT addr None count cb p).1
     = MB_EX_LIB_INVALID_DATA.
Proof.
  intros Haddr Hsz Hcount padded total Htotal Hsize Hmax Htx Hhd r.
  destruct (paddedSizeOf_small sizeofT ltac:(lia)) as [Hp _]. fold padded in Hp.
  assert (Hregs : total / 2 <= 123).
  { pose proof (Nat.Div0.div_le_mono total 246 2 Htotal) as Hm.
    change (246 / 2) with 123 in Hm. exact Hm. }
  assert (Hguards : forall src,
    createWriteHoldingRegister isBigEndian sizeofT addr src count cb p
    = let p1 := wrTX 5 (Z.of_nat total)
                  (wr2 4 (Z.of_nat (total / 2)) (wr2 3 0%Z
                    (wr2 2 (addr mod 256)%Z (wr2 1 (addr / 256)%Z
                      (wr2 0 MB_FC_WRITE_MULTIPLE_REGISTERS (set_callback cb p)))))) in
      match convertToBigEndianRegisters isBigEndian src count sizeofT
              (Some (drop 6 (_TXPDUbuffer p1))) (_PDUSize p - 6) with
      | (true, Some dst) =>
        (MB_EX_SUCCESS,
         set_expectedResponseLen 5 (set_TXLen (6 + total)
           (set_TX (take 6 (_TXPDUbuffer p1) ++ dst) p1)))
      | _ => fail_with MB_EX_LIB_INVALID_DATA p1
      end).
  { intros src. unfold createWriteHoldingRegister.
    cbn [_PDUSize set_callback].
    rewrite (u8_small sizeofT), Hp by lia. fold total.
    rewrite (u16_small total) by lia.
    destruct (Nat.eqb_spec count 0) as [? | _]; [lia |].
    unfold MB_MAX_WRITE_REGISTERS.
    destruct (Nat.ltb_spec 123 (total / 2)) as [? | _]; [lia |].
    destruct (Nat.ltb_spec (_PDUSize p) (6 + total)) as [? | _]; [lia |].
    destruct (u16_bytes addr Haddr) as (Hah & Hal & _).
    destruct (u16_bytes (Z.of_nat (total / 2)) ltac:(lia)) as (Hch & Hcl & _).
    rewrite Hah, Hal, Hch, Hcl.
    rewrite (Z.div_small (Z.of_nat (total / 2))), (Z.mod_small (Z.of_nat (total / 2))) by lia.
    rewrite (u8_small total), (u8_small count), (u8_small (6 + total)) by lia.
    cbn [_PDUSize wrTX wr2 set_TX set_head].
    change (_PDUSize (set_callback cb p)) with (_PDUSize p).
    rewrite (u16_small (_PDUSize p - 6)) by lia.
    reflexivity. }
  unfold r. rewrite !Hguards. clear Hguards. cbv zeta.
  destruct p as [cb0 tx rx txl hd db dl er ex es us sz qt ds sl].
  cbn [_TXPDUbuffer _PDUresponseHead _PDUSize] in *.
  destruct tx as [| t0 [| t1 [| t2 [| t3 [| t4 [| t5 rest]]]]]]; cbn [length] in Htx; try lia.
  five_bytes hd Hhd.
  cbn [wrTX wr2 set_TX set_head set_callback _TXPDUbuffer _PDUresponseHead
       _callback _RXPDUbuffer _TXPDUbufferLen _dataBegin _dataLen _err
       _expectedResponseLen _elemSize _used _PDUSize _queuedTime _delayToSend _slave
       list_insert insert Nat.pred].
  change (drop 6 (?a :: ?b :: ?c :: ?d :: ?e :: ?g :: rest)) with rest.
  change (take 6 (?a :: ?b :: ?c :: ?d :: ?e :: ?g :: rest)) with [a; b; c; d; e; g].
  destruct (pack_ok isBigEndian x rest count sizeofT (sz - 6))
    as (packed & Hconv & Hl & Hrest & Hpk); [lia | lia | fold padded total; lia | lia |].
  fold padded total in Hrest, Hpk.
  rewrite Hconv. cbn [fst snd set_expectedResponseLen set_TXLen set_TX _TXPDUbuffer
    _TXPDUbufferLen _expectedResponseLen _PDUresponseHead _callback fail_with].
  split; [reflexivity |]. split; [reflexivity |].
  split; [exact Hpk |]. split.
  { change (drop (6 + total) (t0 :: t1 :: t2 :: t3 :: t4 :: t5 :: rest))
      with (drop total rest).
    rewrite drop_app_add' by reflexivity.
    apply drop_eq_pointwise; assumption. }
  repeat split; reflexivity.
Qed.

Lemma createWriteHoldingRegister_request_witness :
  let p := adu_pdu (ADURTU_init 253) in
  let x := [0x34; 0x12; 0xCD; 0xAB]%Z in
  let padded := 2 * ((2 + 1) / 2) in
  let total := 2 * padded in
  let r := createWriteHoldingRegister false 2 0x0010 (Some x) 2 (Some 7) p in
  r.1 = MB_EX_SUCCESS
  /\ take 6 (_TXPDUbuffer r.2)
     = [0x10%Z; (0x0010 / 256)%Z; (0x0010 mod 256)%Z; 0%Z;
        Z.of_nat (total / 2); Z.of_nat total]
  /\ (false = false -> is_packed x 2 2 padded (drop 6 (_TXPDUbuffer r.2)))
  /\ drop (6 + total) (_TXPDUbuffer r.2) = drop (6 + total) (_TXPDUbuffer p)
  /\ _TXPDUbufferLen r.2 = 6 + total
  /\ _expectedResponseLen r.2 = 5
  /\ take 5 (_PDUresponseHead r.2) = take 5 (_TXPDUbuffer r.2)
  /\ _callback r.2 = Some 7
  /\ (createWriteHoldingRegister false 2 0x0010 None 2 (Some 7) p).1
     = MB_EX_LIB_INVALID_DATA.
Proof.
  apply (createWriteHoldingRegister_request false 2 0x0010 [0x34; 0x12; 0xCD; 0xAB]%Z 2
           (Some 7) (adu_pdu (ADURTU_init 253))).
  - lia.
  - lia.
  - lia.
  - vm_compute. lia.
  - vm_compute. lia.
  - vm_compute. lia.
  - vm_compute. lia.
  - vm_compute. lia.
Defined.

Example write_two_registers :
  take 10 (_TXPDUbuffer
             (createWriteHoldingRegister false 2 0x0010 (Some [0x34; 0x12; 0xCD; 0xAB]%Z) 2
                None (adu_pdu (ADURTU_init 253))).2)
  = [0x10; 0x00; 0x10; 0x00; 0x02; 0x04; 0x12; 0x34; 0xAB; 0xCD]%Z.
Proof. vm_compute. reflexivity. Qed.

(** ** A coil response as the callback sees it *)

Lemma createReadState_accepts (fn addr : Z) (count : nat) (cb : modbusCallback) (p : PDU) :
  1 <= count <= 2000 ->
  5 <= _PDUSize p -> 2 + (count + 7) / 8 <= _PDUSize p ->
  let r := createReadState fn addr count cb p in
  r.1 = MB_EX_SUCCESS
  /\ _callback r.2 = cb
  /\ _err r.2 = _err p
  /\ _elemSize r.2 = _elemSize p
  /\ _PDUSize r.2 = _PDUSize p
  /\ _PDUresponseHead r.2
     = <[1 := Z.of_nat ((count + 7) / 8)]> (<[0 := fn]> (_PDUresponseHead p)).
Proof.
  intros Hcount Hs5 Hs r. unfold r, createReadState.
  cbn [_PDUSize set_callback].
  destruct (Nat.eqb_spec count 0) as [? | _]; [lia |].
  unfold MB_MAX_READ_COILS.
  destruct (Nat.ltb_spec 2000 count) as [? | _]; [lia |].
  destruct (Nat.ltb_spec (_PDUSize p) 5) as [? | _]; [lia |].
  destruct (Nat.ltb_spec (_PDUSize p) (2 + (count + 7) / 8)) as [? | _]; [lia |].
  assert (Hdiv : (count + 7) / 8 <= 250).
  { pose proof (Nat.Div0.div_le_mono (count + 7) 2007 8 ltac:(lia)) as Hm.
    change (2007 / 8) with 250 in Hm. exact Hm. }
  cbn [orb fst snd]. rewrite !u8_small by lia.
  repeat split; reflexivity.
Qed.

(** X20: a response to a read of [count] coils or discrete inputs,
    received as [fn, ceil(count / 8), data bytes], is accepted by
    [PDU::invoke] on the PDU that [createReadState] prepared (no element
    size pending), and the callback is handed a PDU with error 0 on which
    [getBit(i)] is bit [i mod 8] of data byte [i / 8] for every
    [i < 8 * ceil(count / 8)] and false beyond; a response with another
    byte count is handed over with [MB_EX_LIB_INVALID_BYTE_LENGTH] (23). *)
Theorem read_coils_response_is_decoded
    (isBigEndian : bool) (fn addr : Z) (count : nat) (f : nat) (p : PDU) (rx : list Z) :
  fn = MB_FC_READ_COILS \/ fn = MB_FC_READ_DISCRETE_INPUTS ->
  1 <= count <= 2000 ->
  5 <= _PDUSize p ->
  2 + (count + 7) / 8 <= _PDUSize p ->
  2 <= length (_PDUresponseHead p) ->
  _err p = 0%Z ->
  _elemSize p = 0 ->
  rd rx 0 = fn ->
  let bytes := (count + 7) / 8 in
  let q := (createReadState fn addr count (Some f) p).2 in
  exists view,
    PDU_invoke isBigEndian (set_RX rx q)
    = ([EvCallback f view 0xFF], Some (0%Z, PDU_clear view))
    /\ (rd rx 1 = Z.of_nat bytes ->
        getErr view = 0%Z
        /\ getByteLen view = bytes
        /\ (forall i, i < 8 * bytes ->
              getBit view i = Z.testbit (rd rx (2 + i / 8)) (Z.of_nat (i mod 8)))
        /\ (forall i, 8 * bytes <= i -> getBit view i = false))
    /\ (rd rx 1 <> Z.of_nat bytes -> getErr view = MB_EX_LIB_INVALID_BYTE_LENGTH).
Proof.
  intros Hfn Hcount Hs5 Hs Hhd Herr Hes Hrx0 bytes q.
  destruct (createReadState_accepts fn addr count (Some f) p Hcount Hs5 Hs)
    as (_ & Hcb & He & Hel & Hps & Hhead).
  fold q in Hcb, He, Hel, Hps, Hhead. fold bytes in Hhead.
  assert (Hdiv : bytes <= 250).
  { pose proof (Nat.Div0.div_le_mono (count + 7) 2007 8 ltac:(lia)) as Hm.
    change (2007 / 8) with 250 in Hm. exact Hm. }
  set (q' := set_RX rx q).
  assert (Hh0 : rd (_PDUresponseHead q') 0 = fn).
  { cbn [q' _PDUresponseHead set_RX]. rewrite Hhead.
    rewrite rd_insert_ne by lia. apply rd_insert_eq. lia. }
  assert (Hh1 : rd (_PDUresponseHead q') 1 = Z.of_nat bytes).
  { cbn [q' _PDUresponseHead set_RX]. rewrite Hhead.
    apply rd_insert_eq. rewrite length_insert. lia. }
  pose proof (PDU_invoke_read isBigEndian q' f fn
                ltac:(destruct Hfn as [-> | ->]; cbn; auto)
                ltac:(exact Hcb) ltac:(cbn [q' _err set_RX]; congruence) Hh0 Hrx0) as Hinv.
  cbv zeta in Hinv. rewrite Hh1 in Hinv. change (_RXPDUbuffer q') with rx in Hinv.
  eexists. split; [exact Hinv |]. split.
  - intros Hrx1. rewrite Hrx1, Z.eqb_refl, Nat2Z.id.
    assert (Hview : convert_response isBigEndian (set_dataLen bytes (set_dataBegin 2 q'))
                    = set_dataLen bytes (set_dataBegin 2 q')).
    { unfold convert_response. cbn [_elemSize set_dataLen set_dataBegin set_RX q'].
      rewrite Hel, Hes. reflexivity. }
    rewrite Hview.
    split; [unfold getErr; cbn [_err set_dataLen set_dataBegin set_RX q']; congruence |].
    split; [reflexivity |]. split.
    + intros i Hi. unfold getBit.
      cbn [_dataLen _dataBegin _RXPDUbuffer set_dataLen set_dataBegin set_RX q'].
      destruct (Nat.leb_spec (bytes * 8) i) as [? | _]; [lia |].
      assert (Hi8 : i / 8 < bytes) by (apply Nat.Div0.div_lt_upper_bound; lia).
      pose proof (Nat.mod_upper_bound i 8 ltac:(lia)).
      rewrite !u8_small by lia. reflexivity.
    + intros i Hi. unfold getBit. cbn [_dataLen set_dataLen].
      destruct (Nat.leb_spec (bytes * 8) i) as [_ | ?]; [reflexivity | lia].
  - intros Hrx1. destruct (Z.eqb_spec (rd rx 1) (Z.of_nat bytes)); [contradiction |].
    reflexivity.
Qed.

Lemma read_coils_response_is_decoded_witness :
  let p := adu_pdu (ADURTU_init 16) in
  let rx := [1; 2; 0x0D; 0x03]%Z in
  let bytes := (10 + 7) / 8 in
  let q := (createReadState 1 0x0013 10 (Some 7) p).2 in
  exists view,
    PDU_invoke false (set_RX rx q)
    = ([EvCallback 7 view 0xFF], Some (0%Z, PDU_clear view))
    /\ (rd rx 1 = Z.of_nat bytes ->
        getErr view = 0%Z
        /\ getByteLen view = bytes
        /\ (forall i, i < 8 * bytes ->
              getBit view i = Z.testbit (rd rx (2 + i / 8)) (Z.of_nat (i mod 8)))
        /\ (forall i, 8 * bytes <= i -> getBit view i = false))
    /\ (rd rx 1 <> Z.of_nat bytes -> getErr view = MB_EX_LIB_INVALID_BYTE_LENGTH).
Proof.
  apply (read_coils_response_is_decoded false 1 0x0013 10 7 (adu_pdu (ADURTU_init 16))
           [1; 2; 0x0D; 0x03]%Z).
  - left. reflexivity.
  - lia.
  - vm_compute. lia.
  - vm_compute. lia.
  - vm_compute. lia.
  - reflexivity.
  - reflexivity.
  - reflexivity.
Defined.

(** ** The ADU pool of the RTU master *)

Lemma first_free_found (pool : list ADURTU) (k i : nat) (a : ADURTU) :
  pool !! i = Some a ->
  _used (adu_pdu a) = false ->
  (forall j b, j < i -> pool !! j = Some b -> _used (adu_pdu b) = true) ->
  first_free pool k = Some (k + i).
Proof.
  revert k i. induction pool as [| b pool IH]; intros k i Hi Hfree Hbefore; [discriminate |].
  cbn [first_free]. destruct i as [| i].
  - cbn in Hi. injection Hi as ->. rewrite Hfree. cbn [negb]. f_equal. lia.
  - rewrite (Hbefore 0 b) by (lia || reflexivity). cbn [negb].
    rewrite (IH (S k) i); [f_equal; lia | exact Hi | exact Hfree |].
    intros j c Hj Hc. apply (Hbefore (S j) c); [lia | exact Hc].
Qed.

Lemma first_free_none (pool : list ADURTU) (k : nat) :
  (forall j b, pool !! j = Some b -> _used (adu_pdu b) = true) ->
  first_free pool k = None.
Proof.
  revert k. induction pool as [| b pool IH]; intros k Hall; [reflexivity |].
  cbn [first_free]. rewrite (Hall 0 b) by reflexivity. cbn [negb].
  apply IH. intros j c Hc. apply (Hall (S j) c). exact Hc.
Qed.

Lemma adu_at_lookup (i : nat) (m : ModbusRTUMaster) :
  i < length (_adu m) -> _adu m !! i = Some (adu_at i m).
Proof.
  intros Hi. unfold adu_at. destruct (_adu m !! i) eqn:Hl; [reflexivity |].
  apply lookup_ge_None in Hl. lia.
Qed.

Lemma adu_at_upd_ne (i j : nat) (F : ADURTU -> ADURTU) (m : ModbusRTUMaster) :
  i <> j -> adu_at j (upd_adu i F m) = adu_at j m.
Proof.
  intros Hne. unfold adu_at, upd_adu. cbn [_adu with_adu].
  rewrite list_lookup_insert_ne by exact Hne. reflexivity.
Qed.

(** The pool scan of [getFreePDU] on a pool of which [i] is the first ADU
    not in use. *)
Lemma pool_scan_found (m : ModbusRTUMaster) (i : nat) :
  length (_adu m) = _queueSize m ->
  i < _queueSize m ->
  _used (RTU_get i m) = false ->
  (forall j, j < i -> _used (RTU_get j m) = true) ->
  first_free (take (_queueSize m) (_adu m)) 0 = Some i.
Proof.
  intros Hlen Hi Hfree Hbefore.
  rewrite <- Hlen, firstn_all.
  apply (first_free_found (_adu m) 0 i (adu_at i m)).
  - apply adu_at_lookup. lia.
  - exact Hfree.
  - intros j b Hj Hb. specialize (Hbefore j Hj). unfold RTU_get, adu_at in Hbefore.
    rewrite Hb in Hbefore. exact Hbefore.
Qed.

Lemma pool_scan_none (m : ModbusRTUMaster) :
  length (_adu m) = _queueSize m ->
  (forall j, j < _queueSize m -> _used (RTU_get j m) = true) ->
  first_free (take (_queueSize m) (_adu m)) 0 = None.
Proof.
  intros Hlen Hall. rewrite <- Hlen, firstn_all.
  apply first_free_none. intros j b Hb.
  assert (Hj : j < _queueSize m) by (apply lookup_lt_Some in Hb; lia).
  specialize (Hall j Hj). unfold RTU_get, adu_at in Hall. rewrite Hb in Hall. exact Hall.
Qed.


Lemma getFreePDU_taken (cb : modbusCallback) (slave : nat) (m : ModbusRTUMaster) (i : nat) :
  i < length (_adu m) ->
  first_free (take (_queueSize m) (_adu m)) 0 = Some i ->
  RTU_getFreePDU cb slave m = ([], Some (Some i, upd_adu i (taken cb slave) m)).
Proof.
  intros Hi Hscan. unfold RTU_getFreePDU. rewrite mbind_gets. cbv beta. unfold id.
  rewrite Hscan. do 4 mstep.
  rewrite !upd_upd by (rewrite ?upd_length; exact Hi).
  reflexivity.
Qed.

Lemma getFreePDU_slaves_taken (cb : modbusCallback) (slaves : Slaves.t)
    (m : ModbusRTUMaster) (i : nat) :
  i < length (_adu m) ->
  first_free (take (_queueSize m) (_adu m)) 0 = Some i ->
  RTU_getFreePDU_slaves cb slaves m
  = ([], Some (Some i, upd_adu i (taken_slaves cb slaves) m)).
Proof.
  intros Hi Hscan. unfold RTU_getFreePDU_slaves. rewrite mbind_gets. cbv beta. unfold id.
  rewrite Hscan. do 4 mstep.
  rewrite !upd_upd by (rewrite ?upd_length; exact Hi).
  reflexivity.
Qed.

(** X21: [ModbusRTUMaster::getFreePDU(cb, slave)] hands out the first ADU
    of the pool that is not in use, and never one that is: it marks it
    used, stores the callback and the slave ID, empties its slave set, and
    touches neither another ADU nor the queue.  When every ADU is in use it
    returns null, calls the callback once on a temporary PDU with
    [MB_EX_LIB_NO_MORE_FREE_ADU] (32) and the slave ID, and leaves the
    master as it is. *)
Theorem getFreePDU_hands_out_the_first_free_ADU
    (cb : modbusCallback) (slave : nat) (m : ModbusRTUMaster) :
  length (_adu m) = _queueSize m ->
  (forall i, i < _queueSize m ->
     _used (RTU_get i m) = false ->
     (forall j, j < i -> _used (RTU_get j m) = true) ->
     exists m',
       RTU_getFreePDU cb slave m = ([], Some (Some i, m'))
       /\ _used (RTU_get i m') = true
       /\ _callback (RTU_get i m') = cb
       /\ _slave (RTU_get i m') = slave
       /\ _slaves (adu_at i m') = Slaves.clear (_slaves (adu_at i m))
       /\ _TXPDUbuffer (RTU_get i m') = _TXPDUbuffer (RTU_get i m)
       /\ _PDUSize (RTU_get i m') = _PDUSize (RTU_get i m)
       /\ (forall j, j <> i -> adu_at j m' = adu_at j m)
       /\ _queue m' = _queue m)
  /\ ((forall j, j < _queueSize m -> _used (RTU_get j m) = true) ->
      exists ret,
        RTU_getFreePDU cb slave m = (call cb ret 0xFF, Some (None, m))
        /\ _err ret = MB_EX_LIB_NO_MORE_FREE_ADU
        /\ _slave ret = slave
        /\ _used ret = false).
Proof.
  intros Hlen. split.
  - intros i Hi Hfree Hbefore.
    pose proof (pool_scan_found m i Hlen Hi Hfree Hbefore) as Hscan.
    exists (upd_adu i (taken cb slave) m).
    split; [apply getFreePDU_taken; [lia | exact Hscan] |].
    unfold RTU_get. rewrite adu_at_upd by lia.
    repeat split; try reflexivity.
    intros j Hj. apply adu_at_upd_ne. auto.
  - intros Hall. pose proof (pool_scan_none m Hlen Hall) as Hscan.
    eexists. split.
    + unfold RTU_getFreePDU. rewrite mbind_gets. cbv beta. unfold id. rewrite Hscan.
      rewrite mbind_emit. cbn. rewrite app_nil_r. reflexivity.
    + repeat split.
Qed.

Lemma getFreePDU_hands_out_the_first_free_ADU_witness :
  let m := RTU_begin 16 2 0%Z in
  (forall i, i < _queueSize m ->
     _used (RTU_get i m) = false ->
     (forall j, j < i -> _used (RTU_get j m) = true) ->
     exists m',
       RTU_getFreePDU (Some 7) 9 m = ([], Some (Some i, m'))
       /\ _used (RTU_get i m') = true
       /\ _callback (RTU_get i m') = Some 7
       /\ _slave (RTU_get i m') = 9
       /\ _slaves (adu_at i m') = Slaves.clear (_slaves (adu_at i m))
       /\ _TXPDUbuffer (RTU_get i m') = _TXPDUbuffer (RTU_get i m)
       /\ _PDUSize (RTU_get i m') = _PDUSize (RTU_get i m)
       /\ (forall j, j <> i -> adu_at j m' = adu_at j m)
       /\ _queue m' = _queue m)
  /\ ((forall j, j < _queueSize m -> _used (RTU_get j m) = true) ->
      exists ret,
        RTU_getFreePDU (Some 7) 9 m = (call (Some 7) ret 0xFF, Some (None, m))
        /\ _err ret = MB_EX_LIB_NO_MORE_FREE_ADU
        /\ _slave ret = 9
        /\ _used ret = false).
Proof.
  apply (getFreePDU_hands_out_the_first_free_ADU (Some 7) 9 (RTU_begin 16 2 0%Z)).
  reflexivity.
Defined.

(** ** A request from the API to the queue *)

(** The common body of the request functions of [ModbusMaster] on the RTU
    master: an ADU is taken, the request is built in it, and it is either
    queued or, when the builder refuses, handed to the callback and
    released. *)
Lemma RTU_request_refused (crc16 : list Z -> Z) (fuel : nat)
    (getFree : M ModbusRTUMaster (option nat)) (T : ADURTU -> ADURTU)
    (create : PDU -> Z * PDU) (cb : modbusCallback) (slave : nat)
    (m : ModbusRTUMaster) (i : nat) (e : Z) (p' : PDU) :
  i < length (_adu m) ->
  getFree m = ([], Some (Some i, upd_adu i T m)) ->
  create (adu_pdu (T (adu_at i m))) = (e, p') ->
  e <> 0%Z ->
  mbind getFree
    (fun pdu => match pdu with
                | None => mret tt
                | Some pdu =>
                  mbind (build RTU_get RTU_put pdu create)
                    (fun e => finish RTU_get RTU_getSlaveId RTU_clear
                                (RTU_sendPDU crc16 (RTU_callCallback crc16 fuel))
                                pdu e slave cb)
                end) m
  = (call cb p' (ADURTU_getSlaveId (T (adu_at i m))),
     Some (tt, upd_adu i (fun a => ADURTU_clear (with_pdu p' (T a))) m)).
Proof.
  intros Hi Hfree Hcreate He.
  unfold mbind at 1. rewrite Hfree. cbn [app].
  unfold mbind at 1, build. unfold RTU_get at 1.
  rewrite adu_at_upd by exact Hi. rewrite Hcreate.
  change (RTU_put i p' (upd_adu i T m)) with (upd_adu i (with_pdu p') (upd_adu i T m)).
  rewrite upd_upd by exact Hi. cbn [app].
  unfold finish. destruct (Z.eqb_spec e 0) as [? | _]; [contradiction |]. cbn [negb].
  unfold mbind, emit, RTU_clear, on_adu, modify. cbn [fst snd].
  unfold RTU_get, RTU_getSlaveId. rewrite adu_at_upd by exact Hi.
  rewrite upd_upd by exact Hi. cbn [adu_pdu with_pdu].
  rewrite app_nil_r. reflexivity.
Qed.

Lemma RTU_request_queued (crc16 : list Z -> Z) (fuel : nat)
    (getFree : M ModbusRTUMaster (option nat)) (T : ADURTU -> ADURTU)
    (create : PDU -> Z * PDU) (cb : modbusCallback) (slave : nat)
    (m : ModbusRTUMaster) (i : nat) (p' : PDU) (q' : ADUQueue.t) :
  i < length (_adu m) ->
  getFree m = ([], Some (Some i, upd_adu i T m)) ->
  create (adu_pdu (T (adu_at i m))) = (0%Z, p') ->
  ADUQueue.add (Some i) (_queue m) = (true, q') ->
  mbind getFree
    (fun pdu => match pdu with
                | None => mret tt
                | Some pdu =>
                  mbind (build RTU_get RTU_put pdu create)
                    (fun e => finish RTU_get RTU_getSlaveId RTU_clear
                                (RTU_sendPDU crc16 (RTU_callCallback crc16 fuel))
                                pdu e slave cb)
                end) m
  = ([], Some (tt, with_queue q'
                     (upd_adu i (fun a => framed crc16 slave (with_pdu p' (T a))) m))).
Proof.
  intros Hi Hfree Hcreate Hadd.
  unfold mbind at 1. rewrite Hfree. cbn [app].
  unfold mbind at 1, build. unfold RTU_get at 1.
  rewrite adu_at_upd by exact Hi. rewrite Hcreate.
  change (RTU_put i p' (upd_adu i T m)) with (upd_adu i (with_pdu p') (upd_adu i T m)).
  rewrite upd_upd by exact Hi. cbn [app].
  unfold finish. cbn [Z.eqb negb].
  unfold mbind at 1. unfold RTU_sendPDU. do 3 mstep.
  rewrite !upd_upd by (rewrite ?upd_length; exact Hi).
  rewrite mbind_gets.
  change (_queue (upd_adu i ?F m)) with (_queue m).
  rewrite Hadd. cbn [negb]. rewrite mbind_modify.
  unfold mbind, mret. cbn [fst snd app]. reflexivity.
Qed.

Lemma createReadRegisters_ok (sizeofT : nat) (fn addr : Z) (count : nat)
    (cb : modbusCallback) (p : PDU) :
  (0 <= addr < 65536)%Z ->
  1 <= sizeofT <= 255 ->
  let regs := count * ((sizeofT + 1) / 2) in
  1 <= count -> regs <= 125 ->
  5 <= _PDUSize p -> 2 + 2 * regs <= _PDUSize p ->
  createReadRegisters sizeofT fn addr count cb p
  = (MB_EX_SUCCESS,
     set_expectedResponseLen (2 + 2 * regs)
       (wrHead 1 (Z.of_nat (2 * regs))
          (set_TXLen 5
             (wrTX 4 (Z.of_nat regs)
                (wrTX 3 0%Z
                   (wrTX 2 (addr mod 256)%Z
                      (wrTX 1 (addr / 256)%Z
                         (wr2 0 fn (set_elemSize sizeofT (set_callback cb p)))))))))).
Proof.
  intros Haddr Hsz regs Hcount Hregs Hs5 Hs. unfold createReadRegisters.
  cbn [_PDUSize _elemSize set_callback set_elemSize].
  rewrite (u8_small sizeofT) by lia.
  assert (Hhalf : (sizeofT + 1) / 2 <= 128).
  { pose proof (Nat.Div0.div_le_mono (sizeofT + 1) 256 2 ltac:(lia)) as Hm.
    change (256 / 2) with 128 in Hm. exact Hm. }
  unfold toRegisterCount. rewrite (u8_small ((sizeofT + 1) / 2)) by lia.
  fold regs. rewrite (u8_small regs) by lia.
  rewrite (u16_small (regs * 2)) by lia.
  destruct (Nat.eqb_spec count 0) as [? | _]; [lia |].
  unfold MB_MAX_READ_REGISTERS.
  destruct (Nat.ltb_spec 125 regs) as [? | _]; [lia |].
  destruct (Nat.ltb_spec (_PDUSize p) 5) as [? | _]; [lia |].
  destruct (Nat.ltb_spec (_PDUSize p) (2 + regs * 2)) as [? | _]; [lia |].
  cbn [orb]. rewrite !u8_small by lia.
  destruct (u16_bytes addr Haddr) as (Hah & Hal & _).
  destruct (u16_bytes (Z.of_nat regs) ltac:(lia)) as (Hch & Hcl & _).
  rewrite Hah, Hal, Hch, Hcl.
  rewrite (Z.div_small (Z.of_nat regs)), (Z.mod_small (Z.of_nat regs)) by lia.
  replace (regs * 2) with (2 * regs) by lia. reflexivity.
Qed.

Lemma taken_fields (cb : modbusCallback) (slave : nat) (a : ADURTU) :
  _PDUSize (adu_pdu (taken cb slave a)) = _PDUSize (adu_pdu a)
  /\ _TXPDUbuffer (adu_pdu (taken cb slave a)) = _TXPDUbuffer (adu_pdu a)
  /\ _PDUresponseHead (adu_pdu (taken cb slave a)) = _PDUresponseHead (adu_pdu a).
Proof. repeat split. Qed.

Lemma createWriteSingleCoil_ok (addr : Z) (value : bool) (cb : modbusCallback) (p : PDU) :
  (0 <= addr < 65536)%Z ->
  5 <= _PDUSize p ->
  createWriteSingleCoil addr value cb p
  = (MB_EX_SUCCESS,
     set_expectedResponseLen 5
       (set_TXLen 5
          (wr2 4 0%Z
             (wr2 3 (if value then 255 else 0)%Z
                (wr2 2 (addr mod 256)%Z
                   (wr2 1 (addr / 256)%Z
                      (wr2 0 MB_FC_WRITE_SINGLE_COIL (set_callback cb p)))))))).
Proof.
  intros Haddr Hs. unfold createWriteSingleCoil. cbn [_PDUSize set_callback].
  destruct (Nat.ltb_spec (_PDUSize p) 5) as [? | _]; [lia |].
  destruct (u16_bytes addr Haddr) as (Hah & Hal & _).
  rewrite Hah, Hal. reflexivity.
Qed.

Lemma begin_pool_ok (PDUSize queueSize : nat) (now : Z) :
  5 <= PDUSize <= 255 ->
  pool_ok (RTU_begin PDUSize queueSize now).
Proof.
  intros Hs. split.
  - cbn. apply length_replicate.
  - intros i Hi. cbn in Hi. unfold RTU_get, adu_at, RTU_begin. cbn [_adu].
    rewrite lookup_replicate_2 by exact Hi. cbn.
    rewrite !length_replicate. repeat split; lia.
Qed.

Lemma released (cb : modbusCallback) (slave : nat) (e : Z) (n : nat) (a : ADURTU) :
  ADURTU_clear
    (with_pdu (set_err e (set_elemSize n (set_callback cb (adu_pdu (taken cb slave a)))))
       (taken cb slave a))
  = with_slaves (Slaves.clear (_slaves a)) (ADURTU_clear a).
Proof. destruct a as [[] ? ? ? ? ? ?]. reflexivity. Qed.

(** X22: a read of [count] 16-bit holding registers of slave [slave],
    asked of an RTU master that has a free ADU and room in its queue, calls
    no callback and sends nothing yet: the first free ADU is taken, the
    frame [slave, 03, address, 00, count] is built in it with the CRC of
    these six bytes behind them, low byte first, and the ADU is queued
    behind the requests already waiting.  Eight bytes are to be sent and
    [5 + 2 * count] expected back.  No other ADU is touched. *)
Theorem read_request_is_queued (crc16 : list Z -> Z) (fuel : nat)
    (slave : nat) (addr : Z) (count : nat) (f : nat) (m : ModbusRTUMaster) (i : nat) :
  pool_ok m ->
  i < _queueSize m ->
  _used (RTU_get i m) = false ->
  (forall j, j < i -> _used (RTU_get j m) = true) ->
  ring (_queue m) ->
  ADUQueue._count (_queue m) < ADUQueue._queueSize (_queue m) ->
  1 <= slave <= 255 ->
  (0 <= addr < 65536)%Z ->
  1 <= count <= 125 ->
  2 + 2 * count <= _PDUSize (RTU_get i m) ->
  exists m',
    RTU_readHoldingRegisters crc16 fuel 2 slave addr count (Some f) m = ([], Some (tt, m'))
    /\ ADUQueue.live (_queue m') = ADUQueue.live (_queue m) ++ [Some i]
    /\ (let request :=
          [Z.of_nat slave; 3%Z; (addr / 256)%Z; (addr mod 256)%Z; 0%Z; Z.of_nat count] in
        take 8 (_TXADURTUframe (adu_at i m'))
        = request ++ [lowByte (crc16 request); highByte (crc16 request)])
    /\ getTXADULen (adu_at i m') = 8
    /\ getExpectedResponseLen (adu_at i m') = 5 + 2 * count
    /\ ADURTU_getSlaveId (adu_at i m') = slave
    /\ _used (RTU_get i m') = true
    /\ _callback (RTU_get i m') = Some f
    /\ _responseLen (adu_at i m') = 0
    /\ (forall j, j <> i -> adu_at j m' = adu_at j m)
    /\ written m' = written m.
Proof.
  intros [Hlen Hpool] Hi Hfree Hbefore Hring Hroom Hslave Haddr Hcount Hsize.
  destruct (Hpool i Hi) as (Hps & Htx & Hhd).
  pose proof (pool_scan_found m i Hlen Hi Hfree Hbefore) as Hscan.
  destruct (add_ring i (_queue m) Hring Hroom) as (q' & Hadd & _ & Hlive & _).
  unfold RTU_readHoldingRegisters, readHoldingRegisters.
  destruct (Nat.eqb_spec slave 0) as [? | _]; [lia |].
  pose proof (createReadRegisters_ok 2 MB_FC_READ_HOLDING_REGISTERS addr count (Some f)
                (adu_pdu (taken (Some f) slave (adu_at i m))) Haddr ltac:(lia)) as Hmade.
  cbv zeta in Hmade. change ((2 + 1) / 2) with 1 in Hmade. rewrite Nat.mul_1_r in Hmade.
  specialize (Hmade ltac:(lia) ltac:(lia)
                    ltac:(unfold RTU_get in Hps; exact (proj1 Hps))
                    ltac:(exact Hsize)).
  eexists. split.
  { eapply (RTU_request_queued crc16 fuel _ (taken (Some f) slave) _ _ _ m i);
      [lia | apply getFreePDU_taken; [lia | exact Hscan] | exact Hmade | exact Hadd]. }
  cbn [_queue with_queue written upd_adu with_adu].
  split; [exact Hlive |].
  change (adu_at i (with_queue q' ?w)) with (adu_at i w).
  unfold RTU_get.
  change (adu_at i (with_queue q' ?w)) with (adu_at i w).
  rewrite adu_at_upd by lia.
  unfold RTU_get in Htx, Hhd, Hps.
  destruct (adu_at i m) as [pd txh rxh rh0 rl sls ms] eqn:Ha.
  destruct pd as [cb0 tx rx txl hd db dl er ex es us sz qt ds sl].
  cbn [adu_pdu _TXPDUbuffer _PDUresponseHead _PDUSize] in Htx, Hhd, Hps.
  unfold MB_ADU_RTU_CRC_LEN in Htx.
  destruct tx as [| t0 [| t1 [| t2 [| t3 [| t4 [| t5 [| t6 rest]]]]]]];
    cbn [length] in Htx; try lia.
  split.
  { cbn. unfold crc16Set. cbn. reflexivity. }
  split; [reflexivity |].
  split.
  { unfold getExpectedResponseLen. cbn -[u16 Nat.mul Nat.add].
    unfold MB_ADU_RTU_HEADER_LEN, MB_ADU_RTU_CRC_LEN.
    rewrite u16_small by lia. lia. }
  split; [cbn; apply Nat2Z.id |].
  split; [reflexivity |]. split; [reflexivity |]. split; [reflexivity |].
  split; [| reflexivity].
  intros j Hj.
  change (adu_at j (with_queue q' ?w)) with (adu_at j w).
  apply adu_at_upd_ne. auto.
Qed.

Lemma read_request_is_queued_witness :
  exists m',
    RTU_readHoldingRegisters (fun _ => 0xA1B2%Z) 0 2 17 0x0102%Z 2 (Some 7)
      (RTU_begin 16 2 0%Z) = ([], Some (tt, m'))
    /\ ADUQueue.live (_queue m') = ADUQueue.live (_queue (RTU_begin 16 2 0%Z)) ++ [Some 0]
    /\ (let request := [Z.of_nat 17; 3%Z; (0x0102 / 256)%Z; (0x0102 mod 256)%Z; 0%Z; Z.of_nat 2] in
        take 8 (_TXADURTUframe (adu_at 0 m'))
        = request ++ [lowByte (0xA1B2%Z); highByte (0xA1B2%Z)])
    /\ getTXADULen (adu_at 0 m') = 8
    /\ getExpectedResponseLen (adu_at 0 m') = 5 + 2 * 2
    /\ ADURTU_getSlaveId (adu_at 0 m') = 17
    /\ _used (RTU_get 0 m') = true
    /\ _callback (RTU_get 0 m') = Some 7
    /\ _responseLen (adu_at 0 m') = 0
    /\ (forall j, j <> 0 -> adu_at j m' = adu_at j (RTU_begin 16 2 0%Z))
    /\ written m' = written (RTU_begin 16 2 0%Z).
Proof.
  apply (read_request_is_queued (fun _ => 0xA1B2%Z) 0 17 0x0102%Z 2 7 (RTU_begin 16 2 0%Z) 0).
  - apply begin_pool_ok. lia.
  - cbn. lia.
  - reflexivity.
  - intros j Hj. lia.
  - apply init_ring. lia.
  - cbn. lia.
  - lia.
  - lia.
  - lia.
  - cbn. lia.
Defined.

(** X23: a read of no register is refused after an ADU has been taken for
    it.  The callback is called once, on that ADU, with
    [MB_EX_LIB_TOO_FEW_DATA]; the slave ID it is given is the head byte the
    ADU's frame still holds from its last use, since the head is written
    only when a request is sent.  The ADU is then cleared and free again,
    with its slave set emptied; nothing is queued or sent and no other ADU
    is touched. *)
Theorem refused_request_releases_its_ADU (crc16 : list Z -> Z) (fuel : nat)
    (sizeofT slave : nat) (addr : Z) (cb : modbusCallback)
    (m : ModbusRTUMaster) (i : nat) :
  length (_adu m) = _queueSize m ->
  i < _queueSize m ->
  _used (RTU_get i m) = false ->
  (forall j, j < i -> _used (RTU_get j m) = true) ->
  slave <> 0 ->
  exists view m',
    RTU_readHoldingRegisters crc16 fuel sizeofT slave addr 0 cb m
    = (call cb view (ADURTU_getSlaveId (adu_at i m)), Some (tt, m'))
    /\ _err view = MB_EX_LIB_TOO_FEW_DATA
    /\ _slave view = slave
    /\ _TXPDUbuffer view = _TXPDUbuffer (RTU_get i m)
    /\ adu_at i m' = with_slaves (Slaves.clear (_slaves (adu_at i m)))
                       (ADURTU_clear (adu_at i m))
    /\ _used (RTU_get i m') = false
    /\ _callback (RTU_get i m') = None
    /\ (forall j, j <> i -> adu_at j m' = adu_at j m)
    /\ _queue m' = _queue m
    /\ written m' = written m.
Proof.
  intros Hlen Hi Hfree Hbefore Hslave.
  pose proof (pool_scan_found m i Hlen Hi Hfree Hbefore) as Hscan.
  unfold RTU_readHoldingRegisters, readHoldingRegisters.
  destruct (Nat.eqb_spec slave 0) as [? | _]; [contradiction |].
  eexists. eexists. split.
  { eapply (RTU_request_refused crc16 fuel _ (taken cb slave) _ _ _ m i);
      [lia | apply getFreePDU_taken; [lia | exact Hscan] | reflexivity | discriminate]. }
  split; [reflexivity |]. split; [reflexivity |]. split; [reflexivity |].
  unfold RTU_get. rewrite adu_at_upd by lia. rewrite released.
  split; [reflexivity |]. split; [reflexivity |]. split; [reflexivity |].
  split; [| split; reflexivity].
  intros j Hj. apply adu_at_upd_ne. auto.
Qed.

Lemma refused_request_releases_its_ADU_witness :
  exists view m',
    RTU_readHoldingRegisters (fun _ => 0%Z) 0 2 17 0x0102%Z 0 (Some 7) (RTU_begin 16 2 0%Z)
    = (call (Some 7) view (ADURTU_getSlaveId (adu_at 0 (RTU_begin 16 2 0%Z))), Some (tt, m'))
    /\ _err view = MB_EX_LIB_TOO_FEW_DATA
    /\ _slave view = 17
    /\ _TXPDUbuffer view = _TXPDUbuffer (RTU_get 0 (RTU_begin 16 2 0%Z))
    /\ adu_at 0 m' = with_slaves (Slaves.clear (_slaves (adu_at 0 (RTU_begin 16 2 0%Z))))
                       (ADURTU_clear (adu_at 0 (RTU_begin 16 2 0%Z)))
    /\ _used (RTU_get 0 m') = false
    /\ _callback (RTU_get 0 m') = None
    /\ (forall j, j <> 0 -> adu_at j m' = adu_at j (RTU_begin 16 2 0%Z))
    /\ _queue m' = _queue (RTU_begin 16 2 0%Z)
    /\ written m' = written (RTU_begin 16 2 0%Z).
Proof.
  apply (refused_request_releases_its_ADU (fun _ => 0%Z) 0 2 17 0x0102%Z (Some 7)
           (RTU_begin 16 2 0%Z) 0).
  - reflexivity.
  - cbn. lia.
  - reflexivity.
  - intros j Hj. lia.
  - lia.
Defined.

(** X24: [writeSingleCoil(slave, address, value, cb)] on an RTU master with
    a free ADU and room in its queue queues the frame
    [slave, 05, address, FF or 00, 00] with its CRC, for every slave ID
    from 0 to 255: slave 0, the broadcast address that the read requests
    reject, is accepted here.  Eight bytes are to be sent and eight
    expected back; no callback is called and nothing is sent yet. *)
Theorem write_coil_request_is_queued (crc16 : list Z -> Z) (fuel : nat)
    (slave : nat) (addr : Z) (value : bool) (f : nat) (m : ModbusRTUMaster) (i : nat) :
  pool_ok m ->
  i < _queueSize m ->
  _used (RTU_get i m) = false ->
  (forall j, j < i -> _used (RTU_get j m) = true) ->
  ring (_queue m) ->
  ADUQueue._count (_queue m) < ADUQueue._queueSize (_queue m) ->
  slave <= 255 ->
  (0 <= addr < 65536)%Z ->
  exists m',
    RTU_writeSingleCoil crc16 fuel slave addr value (Some f) m = ([], Some (tt, m'))
    /\ ADUQueue.live (_queue m') = ADUQueue.live (_queue m) ++ [Some i]
    /\ (let request :=
          [Z.of_nat slave; 5%Z; (addr / 256)%Z; (addr mod 256)%Z;
           if value then 255%Z else 0%Z; 0%Z] in
        take 8 (_TXADURTUframe (adu_at i m'))
        = request ++ [lowByte (crc16 request); highByte (crc16 request)])
    /\ getTXADULen (adu_at i m') = 8
    /\ getExpectedResponseLen (adu_at i m') = 8
    /\ ADURTU_getSlaveId (adu_at i m') = slave
    /\ _used (RTU_get i m') = true
    /\ _callback (RTU_get i m') = Some f
    /\ (forall j, j <> i -> adu_at j m' = adu_at j m)
    /\ written m' = written m.
Proof.
  intros [Hlen Hpool] Hi Hfree Hbefore Hring Hroom Hslave Haddr.
  destruct (Hpool i Hi) as (Hps & Htx & Hhd).
  pose proof (pool_scan_found m i Hlen Hi Hfree Hbefore) as Hscan.
  destruct (add_ring i (_queue m) Hring Hroom) as (q' & Hadd & _ & Hlive & _).
  unfold RTU_writeSingleCoil, writeSingleCoil.
  change (isWriteFunction MB_FC_WRITE_SINGLE_COIL) with true.
  rewrite andb_false_r.
  pose proof (createWriteSingleCoil_ok addr value (Some f)
                (adu_pdu (taken (Some f) slave (adu_at i m))) Haddr
                ltac:(unfold RTU_get in Hps; exact (proj1 Hps))) as Hmade.
  eexists. split.
  { eapply (RTU_request_queued crc16 fuel _ (taken (Some f) slave) _ _ _ m i);
      [lia | apply getFreePDU_taken; [lia | exact Hscan] | exact Hmade | exact Hadd]. }
  cbn [_queue with_queue written upd_adu with_adu].
  split; [exact Hlive |].
  change (adu_at i (with_queue q' ?w)) with (adu_at i w).
  unfold RTU_get.
  change (adu_at i (with_queue q' ?w)) with (adu_at i w).
  rewrite adu_at_upd by lia.
  unfold RTU_get in Htx, Hhd, Hps.
  destruct (adu_at i m) as [pd txh rxh rh0 rl sls ms] eqn:Ha.
  destruct pd as [cb0 tx rx txl hd db dl er ex es us sz qt ds sl].
  cbn [adu_pdu _TXPDUbuffer _PDUresponseHead _PDUSize] in Htx, Hhd, Hps.
  unfold MB_ADU_RTU_CRC_LEN in Htx.
  destruct tx as [| t0 [| t1 [| t2 [| t3 [| t4 [| t5 [| t6 rest]]]]]]];
    cbn [length] in Htx; try lia.
  split.
  { cbn. unfold crc16Set. cbn. reflexivity. }
  split; [reflexivity |]. split; [reflexivity |].
  split; [cbn; apply Nat2Z.id |].
  split; [reflexivity |]. split; [reflexivity |].
  split; [| reflexivity].
  intros j Hj.
  change (adu_at j (with_queue q' ?w)) with (adu_at j w).
  apply adu_at_upd_ne. auto.
Qed.

Lemma write_coil_request_is_queued_witness :
  exists m',
    RTU_writeSingleCoil (fun _ => 0xA1B2%Z) 0 0 0x0102%Z true (Some 7) (RTU_begin 16 2 0%Z)
    = ([], Some (tt, m'))
    /\ ADUQueue.live (_queue m') = ADUQueue.live (_queue (RTU_begin 16 2 0%Z)) ++ [Some 0]
    /\ (let request :=
          [Z.of_nat 0; 5%Z; (0x0102 / 256)%Z; (0x0102 mod 256)%Z;
           if true then 255%Z else 0%Z; 0%Z] in
        take 8 (_TXADURTUframe (adu_at 0 m'))
        = request ++ [lowByte (0xA1B2%Z); highByte (0xA1B2%Z)])
    /\ getTXADULen (adu_at 0 m') = 8
    /\ getExpectedResponseLen (adu_at 0 m') = 8
    /\ ADURTU_getSlaveId (adu_at 0 m') = 0
    /\ _used (RTU_get 0 m') = true
    /\ _callback (RTU_get 0 m') = Some 7
    /\ (forall j, j <> 0 -> adu_at j m' = adu_at j (RTU_begin 16 2 0%Z))
    /\ written m' = written (RTU_begin 16 2 0%Z).
Proof.
  apply (write_coil_request_is_queued (fun _ => 0xA1B2%Z) 0 0 0x0102%Z true 7
           (RTU_begin 16 2 0%Z) 0).
  - apply begin_pool_ok. lia.
  - cbn. lia.
  - reflexivity.
  - intros j Hj. lia.
  - apply init_ring. lia.
  - cbn. lia.
  - lia.
  - lia.
Defined.

(** X25: [writeSingleCoil(slaves, address, value, cb)] copies the set
    into the ADU it takes and advances the copy to its next member, but
    addresses the frame it queues to the cursor of the caller's set, which
    it has not moved.  For a set whose enumeration has not started that
    cursor is [SLAVE_BOF], so the frame queued first carries 255 and not the
    first member. *)
Theorem write_coil_to_a_set_is_addressed_by_the_callers_cursor
    (crc16 : list Z -> Z) (fuel : nat)
    (slaves : Slaves.t) (addr : Z) (value : bool) (f : nat)
    (m : ModbusRTUMaster) (i : nat) :
  pool_ok m ->
  i < _queueSize m ->
  _used (RTU_get i m) = false ->
  (forall j, j < i -> _used (RTU_get j m) = true) ->
  ring (_queue m) ->
  ADUQueue._count (_queue m) < ADUQueue._queueSize (_queue m) ->
  (0 <= addr < 65536)%Z ->
  exists m',
    RTU_writeSingleCoil_slaves crc16 fuel slaves addr value (Some f) m = ([], Some (tt, m'))
    /\ ADUQueue.live (_queue m') = ADUQueue.live (_queue m) ++ [Some i]
    /\ take 6 (_TXADURTUframe (adu_at i m'))
       = [Z.of_nat (Slaves.getActive slaves); 5%Z; (addr / 256)%Z; (addr mod 256)%Z;
          if value then 255%Z else 0%Z; 0%Z]
    /\ _slaves (adu_at i m') = (Slaves.getNext slaves).2
    /\ (Slaves._active slaves = SLAVE_BOF ->
        ADURTU_getSlaveId (adu_at i m') = 255)
    /\ (forall j, j <> i -> adu_at j m' = adu_at j m)
    /\ written m' = written m.
Proof.
  intros [Hlen Hpool] Hi Hfree Hbefore Hring Hroom Haddr.
  destruct (Hpool i Hi) as (Hps & Htx & Hhd).
  pose proof (pool_scan_found m i Hlen Hi Hfree Hbefore) as Hscan.
  destruct (add_ring i (_queue m) Hring Hroom) as (q' & Hadd & _ & Hlive & _).
  unfold RTU_writeSingleCoil_slaves, writeSingleCoil_slaves.
  pose proof (createWriteSingleCoil_ok addr value (Some f)
                (adu_pdu (taken_slaves (Some f) slaves (adu_at i m))) Haddr
                ltac:(unfold RTU_get in Hps; exact (proj1 Hps))) as Hmade.
  eexists. split.
  { eapply (RTU_request_queued crc16 fuel _ (taken_slaves (Some f) slaves) _ _ _ m i);
      [lia | apply getFreePDU_slaves_taken; [lia | exact Hscan] | exact Hmade | exact Hadd]. }
  cbn [_queue with_queue written upd_adu with_adu].
  split; [exact Hlive |].
  change (adu_at i (with_queue q' ?w)) with (adu_at i w).
  rewrite adu_at_upd by lia.
  unfold RTU_get in Htx, Hhd, Hps.
  destruct (adu_at i m) as [pd txh rxh rh0 rl sls ms] eqn:Ha.
  destruct pd as [cb0 tx rx txl hd db dl er ex es us sz qt ds sl].
  cbn [adu_pdu _TXPDUbuffer _PDUresponseHead _PDUSize] in Htx, Hhd, Hps.
  unfold MB_ADU_RTU_CRC_LEN in Htx.
  destruct tx as [| t0 [| t1 [| t2 [| t3 [| t4 [| t5 [| t6 rest]]]]]]];
    cbn [length] in Htx; try lia.
  split.
  { cbn. unfold crc16Set. cbn. reflexivity. }
  split; [reflexivity |].
  split.
  { intros Hbof. cbn. unfold Slaves.getActive. rewrite Hbof. reflexivity. }
  split; [| reflexivity].
  intros j Hj.
  change (adu_at j (with_queue q' ?w)) with (adu_at j w).
  apply adu_at_upd_ne. auto.
Qed.

Lemma write_coil_to_a_set_is_addressed_by_the_callers_cursor_witness :
  let slaves := Slaves.set 5 (Slaves.set 3 Slaves.new) in
  exists m',
    RTU_writeSingleCoil_slaves (fun _ => 0%Z) 0 slaves 0x0102%Z true (Some 7)
      (RTU_begin 16 2 0%Z) = ([], Some (tt, m'))
    /\ ADUQueue.live (_queue m') = ADUQueue.live (_queue (RTU_begin 16 2 0%Z)) ++ [Some 0]
    /\ take 6 (_TXADURTUframe (adu_at 0 m'))
       = [Z.of_nat (Slaves.getActive slaves); 5%Z; (0x0102 / 256)%Z; (0x0102 mod 256)%Z;
          if true then 255%Z else 0%Z; 0%Z]
    /\ _slaves (adu_at 0 m') = (Slaves.getNext slaves).2
    /\ (Slaves._active slaves = SLAVE_BOF ->
        ADURTU_getSlaveId (adu_at 0 m') = 255)
    /\ (forall j, j <> 0 -> adu_at j m' = adu_at j (RTU_begin 16 2 0%Z))
    /\ written m' = written (RTU_begin 16 2 0%Z).
Proof.
  apply (write_coil_to_a_set_is_addressed_by_the_callers_cursor (fun _ => 0%Z) 0
           (Slaves.set 5 (Slaves.set 3 Slaves.new)) 0x0102%Z true 7 (RTU_begin 16 2 0%Z) 0).
  - apply begin_pool_ok. lia.
  - cbn. lia.
  - reflexivity.
  - intros j Hj. lia.
  - apply init_ring. lia.
  - cbn. lia.
  - lia.
Defined.

(** The set {3, 5}, handed to [writeSingleCoil] before any [getNext]: the
    frame goes to 255, and the copy in the ADU stands at 3, so that the
    repeat that follows goes to 5. *)
Example coil_for_the_set_3_5 :
  let slaves := Slaves.set 5 (Slaves.set 3 Slaves.new) in
  Slaves.getActive slaves = 255
  /\ Slaves.getActive (Slaves.getNext slaves).2 = 3
  /\ (Slaves.getNext (Slaves.getNext slaves).2).1 = 5.
Proof. vm_compute. repeat split. Qed.

(** ** Responses that fail a check *)

Lemma RTU_callCallback_none (crc16 : list Z -> Z) (fuel this : nat) (m : ModbusRTUMaster) :
  _callback (RTU_get this m) = None ->
  RTU_callCallback crc16 (S fuel) this m = ([], Some (tt, m)).
Proof.
  intros Hcb. cbn [RTU_callCallback]. unfold callCallback.
  rewrite mbind_gets, Hcb. reflexivity.
Qed.

Lemma RTU_callCallback_then (crc16 : list Z -> Z) (fuel this : nat)
    (m m1 : ModbusRTUMaster) (f : nat) (again : bool) :
  _callback (RTU_get this m) = Some f ->
  ADURTU_repeatIfNeeded crc16 (RTU_callCallback crc16 fuel) this m
  = ([], Some (again, m1)) ->
  RTU_callCallback crc16 (S fuel) this m
  = ([EvCallback f (RTU_get this m) (ADURTU_getSlaveId (adu_at this m))],
     Some (tt, if again then m1 else upd_adu this ADURTU_clear m1)).
Proof.
  intros Hcb Hrep. cbn [RTU_callCallback]. unfold callCallback.
  rewrite mbind_gets, Hcb. cbn [cb_valid].
  rewrite mbind_call_callback, Hcb. cbn [call].
  unfold mbind at 1 2. rewrite Hrep.
  destruct again; reflexivity.
Qed.

Lemma repeatIfNeeded_single (crc16 : list Z -> Z)
    (cc : nat -> M ModbusRTUMaster unit) (this : nat) (m : ModbusRTUMaster) :
  Slaves.valid (_slaves (adu_at this m)) = false ->
  ADURTU_repeatIfNeeded crc16 cc this m = ([], Some (false, m)).
Proof.
  intros Hvalid. unfold ADURTU_repeatIfNeeded. rewrite mbind_gets, Hvalid. reflexivity.
Qed.

Lemma repeatIfNeeded_last (crc16 : list Z -> Z)
    (cc : nat -> M ModbusRTUMaster unit) (this : nat) (m : ModbusRTUMaster) :
  Slaves.valid (_slaves (adu_at this m)) = true ->
  (Slaves.getNext (_slaves (adu_at this m))).1 = SLAVE_EOF ->
  ADURTU_repeatIfNeeded crc16 cc this m
  = ([], Some (false,
               upd_adu this (with_slaves (Slaves.getNext (_slaves (adu_at this m))).2) m)).
Proof.
  intros Hvalid Heof. unfold ADURTU_repeatIfNeeded. rewrite mbind_gets, Hvalid.
  cbn [negb].
  destruct (Slaves.getNext (_slaves (adu_at this m))) as [nx s'] eqn:Hgn.
  cbn [fst snd] in Heof |- *. subst nx. cbv beta iota. mstep.
  reflexivity.
Qed.

Lemma repeatIfNeeded_sends (crc16 : list Z -> Z)
    (cc : nat -> M ModbusRTUMaster unit) (this : nat) (m : ModbusRTUMaster)
    (q' : ADUQueue.t) :
  this < length (_adu m) ->
  Slaves.valid (_slaves (adu_at this m)) = true ->
  _modbusRTUMaster (adu_at this m) = true ->
  (Slaves.getNext (_slaves (adu_at this m))).1 <> SLAVE_EOF ->
  ADUQueue.add (Some this) (_queue m) = (true, q') ->
  ADURTU_repeatIfNeeded crc16 cc this m
  = ([], Some (true, with_queue q' (upd_adu this (requeued crc16 (millis m)) m))).
Proof.
  intros Hthis Hvalid Hmaster Hne Hadd.
  assert (Hnn : (Slaves.getNext (_slaves (adu_at this m))).1 <> SLAVE_NULL).
  { apply (member_not_sentinel (_slaves (adu_at this m))), getNext_member_or_eof. }
  unfold ADURTU_repeatIfNeeded. rewrite mbind_gets, Hvalid.
  cbn [negb]. unfold requeued.
  destruct (Slaves.getNext (_slaves (adu_at this m))) as [nx s'] eqn:Hgn.
  cbn [fst snd] in Hne, Hnn |- *. cbv beta iota. mstep.
  destruct (Nat.eqb_spec nx SLAVE_EOF) as [? | _]; [contradiction |].
  destruct (Nat.eqb_spec nx SLAVE_NULL) as [? | _]; [contradiction |].
  cbn [negb andb].
  rewrite mbind_gets. mstep. mstep.
  cbn [millis upd_adu with_adu].
  rewrite !upd_upd by (rewrite ?upd_length; assumption).
  rewrite mbind_gets. rewrite adu_at_upd by assumption.
  cbn [_modbusRTUMaster with_pdu with_slaves]. rewrite Hmaster.
  unfold RTU_sendPDU. mstep. mstep. mstep.
  rewrite !upd_upd by (rewrite ?upd_length; assumption).
  rewrite mbind_gets.
  change (_queue (upd_adu this ?F m)) with (_queue m).
  rewrite Hadd. cbn [negb]. rewrite mbind_modify.
  unfold mbind, mret. cbn [fst snd negb app].
  unfold upd_adu. cbv beta. rewrite Hgn. reflexivity.
Qed.

Lemma RTU_callCallback_single (crc16 : list Z -> Z) (fuel this : nat)
    (m : ModbusRTUMaster) (f : nat) :
  _callback (RTU_get this m) = Some f ->
  Slaves.valid (_slaves (adu_at this m)) = false ->
  RTU_callCallback crc16 (S fuel) this m
  = ([EvCallback f (RTU_get this m) (ADURTU_getSlaveId (adu_at this m))],
     Some (tt, upd_adu this ADURTU_clear m)).
Proof.
  intros Hcb Hvalid.
  apply (RTU_callCallback_then crc16 fuel this m m f false Hcb).
  apply repeatIfNeeded_single. exact Hvalid.
Qed.

Lemma clear_after_err (e : Z) (a : ADURTU) :
  ADURTU_clear (with_pdu (set_err e (adu_pdu a)) a) = ADURTU_clear a.
Proof. destruct a as [[] ? ? ? ? ? ?]. reflexivity. Qed.

Lemma TXhead_setCRC (crc16 : list Z -> Z) (a : ADURTU) :
  _TXhead (setCRC crc16 a) = _TXhead a.
Proof.
  unfold setCRC, with_TXframe, crc16Set, _TXADURTUframe. cbn.
  rewrite !Nat.add_1_r. reflexivity.
Qed.

Lemma upd_adu_ext (i : nat) (F G : ADURTU -> ADURTU) (m : ModbusRTUMaster) :
  F (adu_at i m) = G (adu_at i m) -> upd_adu i F m = upd_adu i G m.
Proof. intros HFG. unfold upd_adu. rewrite HFG. reflexivity. Qed.

(** An error code is stored in the ADU [this], whose request went to one
    slave, and [callCallback] is called: the callback sees the code, and
    the ADU is released. *)
Lemma report_and_release (crc16 : list Z -> Z) (fuel this : nat)
    (m : ModbusRTUMaster) (f : nat) (e : Z) :
  this < length (_adu m) ->
  _callback (RTU_get this m) = Some f ->
  Slaves.valid (_slaves (adu_at this m)) = false ->
  RTU_callCallback crc16 (S fuel) this
    (upd_adu this (fun a => with_pdu (set_err e (adu_pdu a)) a) m)
  = ([EvCallback f (set_err e (RTU_get this m)) (ADURTU_getSlaveId (adu_at this m))],
     Some (tt, upd_adu this ADURTU_clear m)).
Proof.
  intros Hthis Hcb Hvalid.
  rewrite (RTU_callCallback_single crc16 fuel this _ f).
  - unfold RTU_get. rewrite adu_at_upd by exact Hthis.
    rewrite upd_upd by exact Hthis.
    rewrite (upd_adu_ext this _ ADURTU_clear) by apply clear_after_err.
    reflexivity.
  - unfold RTU_get. rewrite adu_at_upd by exact Hthis. exact Hcb.
  - rewrite adu_at_upd by exact Hthis. exact Hvalid.
Qed.

(** X26: [ADURTU::checkResponseHead] on an ADU whose request went to one
    slave.  A response whose first byte is the slave ID that [setHead]
    stored passes, and nothing happens.  Any other first byte is refused:
    the callback is called once with [MB_EX_LIB_INVALID_SLAVE] (17), and the
    ADU is cleared and free again, the queue and the other ADUs
    untouched. *)
Theorem response_of_another_slave_is_refused (crc16 : list Z -> Z) (fuel this : nat)
    (m : ModbusRTUMaster) (f : nat) :
  this < length (_adu m) ->
  _callback (RTU_get this m) = Some f ->
  Slaves.valid (_slaves (adu_at this m)) = false ->
  let a := adu_at this m in
  let check := ADURTU_checkResponseHead (RTU_callCallback crc16 (S fuel)) this in
  (_RXhead a = _responseRTUHead0 a -> check m = ([], Some (true, m)))
  /\ (_RXhead a <> _responseRTUHead0 a ->
      exists view m',
        check m = ([EvCallback f view (ADURTU_getSlaveId a)], Some (false, m'))
        /\ view = set_err MB_EX_LIB_INVALID_SLAVE (adu_pdu a)
        /\ adu_at this m' = ADURTU_clear a
        /\ _used (RTU_get this m') = false
        /\ (forall j, j <> this -> adu_at j m' = adu_at j m)
        /\ _queue m' = _queue m).
Proof.
  intros Hthis Hcb Hvalid a check. unfold check, ADURTU_checkResponseHead.
  rewrite mbind_gets. fold a. split.
  - intros Heq. rewrite Heq, Z.eqb_refl. reflexivity.
  - intros Hne. destruct (Z.eqb_spec (_RXhead a) (_responseRTUHead0 a)) as [? | _];
      [contradiction |].
    mstep. unfold mbind at 1.
    rewrite (report_and_release crc16 fuel this m f _ Hthis Hcb Hvalid).
    eexists. eexists. split; [reflexivity |].
    split; [reflexivity |].
    rewrite adu_at_upd by exact Hthis. fold a.
    split; [reflexivity |].
    split; [unfold RTU_get; rewrite adu_at_upd by exact Hthis; reflexivity |].
    split; [| reflexivity].
    intros j Hj. apply adu_at_upd_ne. auto.
Qed.

Lemma response_of_another_slave_is_refused_witness :
  let m := upd_adu 0 (taken (Some 7) 17) (RTU_begin 16 2 0%Z) in
  let a := adu_at 0 m in
  let check := ADURTU_checkResponseHead (RTU_callCallback (fun _ => 0%Z) (S 0)) 0 in
  (_RXhead a = _responseRTUHead0 a -> check m = ([], Some (true, m)))
  /\ (_RXhead a <> _responseRTUHead0 a ->
      exists view m',
        check m = ([EvCallback 7 view (ADURTU_getSlaveId a)], Some (false, m'))
        /\ view = set_err MB_EX_LIB_INVALID_SLAVE (adu_pdu a)
        /\ adu_at 0 m' = ADURTU_clear a
        /\ _used (RTU_get 0 m') = false
        /\ (forall j, j <> 0 -> adu_at j m' = adu_at j m)
        /\ _queue m' = _queue m).
Proof.
  apply (response_of_another_slave_is_refused (fun _ => 0%Z) 0 0
           (upd_adu 0 (taken (Some 7) 17) (RTU_begin 16 2 0%Z)) 7).
  - vm_compute. lia.
  - reflexivity.
  - reflexivity.
Defined.


(** X27: what [loop] does with the ADU that [readReady] hands out, for a
    request to one slave.  The frame, [getTXADULen] bytes long, is written
    to the stream.  A frame to slave 0 is a broadcast that no slave
    answers: its callback is called at once, with the PDU as the builder
    left it, and the ADU is released.  For any other slave nothing is
    called and the ADU stays the current one. *)
Theorem broadcast_is_called_back_when_sent (crc16 : list Z -> Z) (fuel cur : nat)
    (m : ModbusRTUMaster) (f : nat) :
  cur < length (_adu m) ->
  _callback (RTU_get cur m) = Some f ->
  Slaves.valid (_slaves (adu_at cur m)) = false ->
  let a := adu_at cur m in
  let frame := take (getTXADULen a) (_TXADURTUframe a) in
  (ADURTU_getSlaveId a = 0 ->
   exists m',
     loop_send crc16 (S fuel) cur m = ([EvCallback f (adu_pdu a) 0], Some (None, m'))
     /\ written m' = written m ++ frame
     /\ adu_at cur m' = ADURTU_clear a
     /\ _used (RTU_get cur m') = false
     /\ _queue m' = _queue m)
  /\ (ADURTU_getSlaveId a <> 0 ->
      exists m',
        loop_send crc16 (S fuel) cur m = ([], Some (Some cur, m'))
        /\ written m' = written m ++ frame
        /\ _adu m' = _adu m
        /\ _queue m' = _queue m).
Proof.
  intros Hcur Hcb Hvalid a frame. unfold loop_send.
  rewrite mbind_gets. fold a. unfold RTU_send. rewrite mbind_modify. split.
  - intros Hzero. rewrite Hzero. cbn [Nat.eqb].
    unfold mbind at 1.
    rewrite (RTU_callCallback_single crc16 fuel cur _ f); [| exact Hcb | exact Hvalid].
    cbn [mret app fst snd]. unfold RTU_get.
    change (adu_at cur (mkRTU (_adu m) ?q ?s ?t ?w)) with a.
    rewrite Hzero.
    eexists. split; [reflexivity |].
    split; [reflexivity |].
    split; [apply adu_at_upd; exact Hcur |].
    split; [| reflexivity].
    change (_used (adu_pdu (adu_at cur (upd_adu cur ADURTU_clear
              (mkRTU (_adu m) (_queue m) (_queueSize m) (millis m) (written m ++ frame))))) = false).
    rewrite adu_at_upd by exact Hcur. reflexivity.
  - intros Hne. destruct (Nat.eqb_spec (ADURTU_getSlaveId a) 0) as [? | _]; [contradiction |].
    eexists. split; [reflexivity |]. repeat split.
Qed.

Lemma broadcast_is_called_back_when_sent_witness :
  let m := upd_adu 0 (taken (Some 7) 0) (RTU_begin 16 2 0%Z) in
  let a := adu_at 0 m in
  let frame := take (getTXADULen a) (_TXADURTUframe a) in
  (ADURTU_getSlaveId a = 0 ->
   exists m',
     loop_send (fun _ => 0%Z) (S 0) 0 m = ([EvCallback 7 (adu_pdu a) 0], Some (None, m'))
     /\ written m' = written m ++ frame
     /\ adu_at 0 m' = ADURTU_clear a
     /\ _used (RTU_get 0 m') = false
     /\ _queue m' = _queue m)
  /\ (ADURTU_getSlaveId a <> 0 ->
      exists m',
        loop_send (fun _ => 0%Z) (S 0) 0 m = ([], Some (Some 0, m'))
        /\ written m' = written m ++ frame
        /\ _adu m' = _adu m
        /\ _queue m' = _queue m).
Proof.
  apply (broadcast_is_called_back_when_sent (fun _ => 0%Z) 0 0
           (upd_adu 0 (taken (Some 7) 0) (RTU_begin 16 2 0%Z)) 7).
  - vm_compute. lia.
  - reflexivity.
  - reflexivity.
Defined.


(** X28: [ModbusRTUMaster::sendPDU] on a queue that is full, for a request
    to one slave: nothing is queued, the callback is called once with
    [MB_EX_LIB_QUEUE_FULL] (29) and the slave ID, the ADU is released, and
    [sendPDU] returns [false]. *)
Theorem sendPDU_on_a_full_queue (crc16 : list Z -> Z) (fuel this slave : nat)
    (m : ModbusRTUMaster) (f : nat) :
  this < length (_adu m) ->
  _callback (RTU_get this m) = Some f ->
  Slaves.valid (_slaves (adu_at this m)) = false ->
  ADUQueue._queueSize (_queue m) <= ADUQueue._count (_queue m) ->
  exists view m',
    RTU_sendPDU crc16 (RTU_callCallback crc16 (S fuel)) this slave m
    = ([EvCallback f view slave], Some (false, m'))
    /\ _err view = MB_EX_LIB_QUEUE_FULL
    /\ _queue m' = _queue m
    /\ _used (RTU_get this m') = false
    /\ _callback (RTU_get this m') = None
    /\ (forall j, j <> this -> adu_at j m' = adu_at j m)
    /\ written m' = written m.
Proof.
  intros Hthis Hcb Hvalid Hfull.
  unfold RTU_sendPDU. do 3 mstep.
  rewrite !upd_upd by (rewrite ?upd_length; exact Hthis).
  rewrite mbind_gets.
  change (_queue (upd_adu this ?F m)) with (_queue m).
  rewrite (add_refused (Some this) (_queue m)) by (left; exact Hfull).
  cbn [negb]. mstep. unfold mbind at 1.
  rewrite !upd_upd by (rewrite ?upd_length; exact Hthis).
  rewrite (RTU_callCallback_single crc16 fuel this _ f).
  2: { unfold RTU_get. rewrite adu_at_upd by exact Hthis. exact Hcb. }
  2: { rewrite adu_at_upd by exact Hthis. exact Hvalid. }
  cbn [mret app fst snd]. unfold RTU_get.
  rewrite !adu_at_upd by (rewrite ?upd_length; exact Hthis).
  rewrite upd_upd by exact Hthis.
  replace (ADURTU_getSlaveId _) with slave
    by (symmetry; unfold ADURTU_getSlaveId; cbn [_TXhead with_pdu with_responseLen];
        rewrite TXhead_setCRC; cbn; apply Nat2Z.id).
  eexists. eexists. split; [reflexivity |].
  split; [reflexivity |]. split; [reflexivity |].
  rewrite adu_at_upd by exact Hthis.
  split; [reflexivity |]. split; [reflexivity |].
  split; [| reflexivity].
  intros j Hj. apply adu_at_upd_ne. auto.
Qed.

Lemma sendPDU_on_a_full_queue_witness :
  let m := with_queue (ADUQueue.mk 0 0 2 2 [Some 1; Some 1])
             (upd_adu 0 (taken (Some 7) 17) (RTU_begin 16 2 0%Z)) in
  exists view m',
    RTU_sendPDU (fun _ => 0%Z) (RTU_callCallback (fun _ => 0%Z) (S 0)) 0 17 m
    = ([EvCallback 7 view 17], Some (false, m'))
    /\ _err view = MB_EX_LIB_QUEUE_FULL
    /\ _queue m' = _queue m
    /\ _used (RTU_get 0 m') = false
    /\ _callback (RTU_get 0 m') = None
    /\ (forall j, j <> 0 -> adu_at j m' = adu_at j m)
    /\ written m' = written m.
Proof.
  apply (sendPDU_on_a_full_queue (fun _ => 0%Z) 0 0 17
           (with_queue (ADUQueue.mk 0 0 2 2 [Some 1; Some 1])
              (upd_adu 0 (taken (Some 7) 17) (RTU_begin 16 2 0%Z))) 7).
  - vm_compute. lia.
  - reflexivity.
  - reflexivity.
  - vm_compute. lia.
Defined.


Lemma getNext_valid (s : Slaves.t) :
  Slaves.valid (Slaves.getNext s).2 = Slaves.valid s.
Proof.
  unfold Slaves.valid. destruct (getNext_mask s) as (Hmask & _). rewrite Hmask. reflexivity.
Qed.

Lemma requeued_fields (crc16 : list Z -> Z) (now : Z) (a : ADURTU) :
  _callback (adu_pdu (requeued crc16 now a)) = _callback (adu_pdu a)
  /\ _err (adu_pdu (requeued crc16 now a)) = _err (adu_pdu a)
  /\ _slaves (requeued crc16 now a) = (Slaves.getNext (_slaves a)).2
  /\ _modbusRTUMaster (requeued crc16 now a) = _modbusRTUMaster a
  /\ ADURTU_getSlaveId (requeued crc16 now a) = (Slaves.getNext (_slaves a)).1.
Proof.
  unfold requeued, framed. repeat split.
  unfold ADURTU_getSlaveId. cbn [_TXhead with_responseLen].
  rewrite TXhead_setCRC. cbn. apply Nat2Z.id.
Qed.

(** X29: a response that fails its CRC check is reported by
    [checkResponseCRC] and then once more by [loop].  For a request to one
    slave the second call finds the ADU cleared and does nothing: the
    callback sees [MB_EX_LIB_CRC] (25) once.  For a request to a set of
    slaves with a further member [n1], on a master whose queue has two
    free places, the callback is called twice, and the set is advanced
    twice: with a member [n2] after [n1] the ADU stands in the queue twice,
    addressed to [n2], and [n1] is passed over; with none, the ADU is
    cleared while the queue still holds it. *)
Theorem crc_failure_is_reported_twice (crc16 : list Z -> Z)
    (crc16Check : list Z -> nat -> bool) (isBigEndian : bool) (fuel cur : nat)
    (m : ModbusRTUMaster) (f : nat) :
  cur < length (_adu m) ->
  let a := adu_at cur m in
  _callback (adu_pdu a) = Some f ->
  crc16Check (_RXADURTUframe a) (_responseLen a) = false ->
  let run := loop_response_complete crc16 crc16Check isBigEndian (S fuel) cur m in
  let n1 := (Slaves.getNext (_slaves a)).1 in
  let n2 := (Slaves.getNext (Slaves.getNext (_slaves a)).2).1 in
  (Slaves.valid (_slaves a) = false ->
   exists view m',
     run = ([EvCallback f view (ADURTU_getSlaveId a)], Some (tt, m'))
     /\ _err view = MB_EX_LIB_CRC
     /\ adu_at cur m' = ADURTU_clear a
     /\ _queue m' = _queue m)
  /\ (Slaves.valid (_slaves a) = true ->
      _modbusRTUMaster a = true ->
      ring (_queue m) ->
      ADUQueue._count (_queue m) + 1 < ADUQueue._queueSize (_queue m) ->
      n1 <> SLAVE_EOF ->
      exists v1 v2 m',
        run = ([EvCallback f v1 (ADURTU_getSlaveId a); EvCallback f v2 n1], Some (tt, m'))
        /\ _err v1 = MB_EX_LIB_CRC
        /\ _err v2 = MB_EX_LIB_CRC
        /\ (n2 <> SLAVE_EOF ->
            ADUQueue.live (_queue m') = ADUQueue.live (_queue m) ++ [Some cur; Some cur]
            /\ ADURTU_getSlaveId (adu_at cur m') = n2
            /\ _used (RTU_get cur m') = _used (adu_pdu a))
        /\ (n2 = SLAVE_EOF ->
            ADUQueue.live (_queue m') = ADUQueue.live (_queue m) ++ [Some cur]
            /\ _used (RTU_get cur m') = false
            /\ _callback (RTU_get cur m') = None
            /\ getTXADULen (adu_at cur m') = 3)).
Proof.
  intros Hcur a Hcb Hcrc run n1 n2.
  assert (Hstart :
    run = mbind (RTU_callCallback crc16 (S fuel) cur)
            (fun _ => RTU_callCallback crc16 (S fuel) cur)
            (upd_adu cur (fun a0 => with_pdu (set_err MB_EX_LIB_CRC (adu_pdu a0)) a0) m)).
  { unfold run, loop_response_complete, ADURTU_checkResponseCRC.
    unfold mbind at 1. rewrite mbind_gets. fold a. rewrite Hcrc. mstep.
    unfold mbind, mret.
    destruct (RTU_callCallback crc16 (S fuel) cur _) as [t1 [[[] w1] |]]; [| reflexivity].
    cbn [negb]. rewrite app_nil_r. reflexivity. }
  rewrite Hstart. clear Hstart.
  set (m0 := upd_adu cur (fun a0 => with_pdu (set_err MB_EX_LIB_CRC (adu_pdu a0)) a0) m).
  assert (Ha0 : adu_at cur m0 = with_pdu (set_err MB_EX_LIB_CRC (adu_pdu a)) a)
    by (unfold m0; rewrite adu_at_upd by exact Hcur; reflexivity).
  assert (Hlen0 : cur < length (_adu m0)) by (unfold m0; rewrite upd_length; exact Hcur).
  split.
  - intros Hvalid. unfold mbind, m0.
    rewrite (report_and_release crc16 fuel cur m f _ Hcur Hcb Hvalid).
    rewrite RTU_callCallback_none
      by (unfold RTU_get; rewrite adu_at_upd by exact Hcur; reflexivity).
    eexists. eexists. split; [reflexivity |].
    split; [reflexivity |].
    split; [rewrite adu_at_upd by exact Hcur; reflexivity | reflexivity].
  - intros Hvalid Hmaster Hring Hroom Hn1.
    destruct (add_ring cur (_queue m) Hring ltac:(lia))
      as (q1 & Hadd1 & Hring1 & Hlive1 & Hcount1 & Hsize1).
    pose proof (RTU_callCallback_then crc16 fuel cur m0 _ f true
                  ltac:(unfold RTU_get; rewrite Ha0; exact Hcb)
                  (repeatIfNeeded_sends crc16 _ cur m0 q1 Hlen0
                     ltac:(rewrite Ha0; exact Hvalid) ltac:(rewrite Ha0; exact Hmaster)
                     ltac:(rewrite Ha0; exact Hn1) Hadd1)) as Hfirst.
    cbv iota in Hfirst.
    set (m1 := with_queue q1 (upd_adu cur (requeued crc16 (millis m0)) m0)) in Hfirst.
    assert (Ha1 : adu_at cur m1 = requeued crc16 (millis m0) (adu_at cur m0)).
    { unfold m1. change (adu_at cur (with_queue q1 ?w)) with (adu_at cur w).
      rewrite adu_at_upd by exact Hlen0. reflexivity. }
    assert (Hlen1 : cur < length (_adu m1)).
    { unfold m1. cbn [_adu with_queue]. rewrite upd_length. exact Hlen0. }
    destruct (requeued_fields crc16 (millis m0) (adu_at cur m0))
      as (Hcb1 & Herr1 & Hsl1 & Hms1 & Hid1).
    rewrite <- Ha1 in Hcb1, Herr1, Hsl1, Hms1, Hid1.
    rewrite Ha0 in Hcb1, Herr1, Hsl1, Hms1, Hid1.
    cbn [adu_pdu with_pdu _slaves _modbusRTUMaster _callback _err set_err] in Hcb1, Herr1, Hsl1, Hms1, Hid1.
    fold n1 in Hid1.
    unfold mbind. rewrite Hfirst.
    destruct (Nat.eq_dec n2 SLAVE_EOF) as [Heof | Hmore].
    + pose proof (RTU_callCallback_then crc16 fuel cur m1 _ f false
                    ltac:(unfold RTU_get; rewrite Hcb1; exact Hcb)
                    (repeatIfNeeded_last crc16 _ cur m1
                       ltac:(rewrite Hsl1, getNext_valid; exact Hvalid)
                       ltac:(rewrite Hsl1; exact Heof))) as Hsecond.
      cbv iota in Hsecond. rewrite Hsecond. rewrite Hid1.
      unfold RTU_get. rewrite Ha0.
      eexists. eexists. eexists. split; [reflexivity |].
      split; [reflexivity |]. split; [exact Herr1 |].
      split; [intros; contradiction |].
      intros _.
      rewrite upd_upd by exact Hlen1.
      rewrite adu_at_upd by exact Hlen1.
      split; [exact Hlive1 |].
      repeat split.
    + assert (Hroom1 : ADUQueue._count (_queue m1) < ADUQueue._queueSize (_queue m1)).
      { unfold m1. cbn [_queue with_queue]. lia. }
      destruct (add_ring cur (_queue m1) ltac:(exact Hring1) Hroom1)
        as (q2 & Hadd2 & _ & Hlive2 & _).
      pose proof (RTU_callCallback_then crc16 fuel cur m1 _ f true
                    ltac:(unfold RTU_get; rewrite Hcb1; exact Hcb)
                    (repeatIfNeeded_sends crc16 _ cur m1 q2 Hlen1
                       ltac:(rewrite Hsl1, getNext_valid; exact Hvalid)
                       ltac:(rewrite Hms1; exact Hmaster)
                       ltac:(rewrite Hsl1; exact Hmore) Hadd2)) as Hsecond.
      cbv iota in Hsecond. rewrite Hsecond. rewrite Hid1.
      unfold RTU_get. rewrite Ha0.
      eexists. eexists. eexists. split; [reflexivity |].
      split; [reflexivity |]. split; [exact Herr1 |].
      split; [| intros; contradiction].
      intros _. cbn [_queue with_queue].
      change (adu_at cur (with_queue q2 ?w)) with (adu_at cur w).
      rewrite adu_at_upd by exact Hlen1.
      destruct (requeued_fields crc16 (millis m1) (adu_at cur m1)) as (_ & _ & _ & _ & Hid2).
      split.
      { rewrite Hlive2. unfold m1 at 1. cbn [_queue with_queue]. rewrite Hlive1.
        rewrite <- app_assoc. reflexivity. }
      split; [rewrite Hid2, Hsl1; reflexivity |].
      rewrite Ha1, Ha0. reflexivity.
Qed.

Lemma crc_failure_is_reported_twice_witness :
  let m := upd_adu 0 (taken_slaves (Some 7) (Slaves.set 9 (Slaves.set 5 (Slaves.set 3 Slaves.new))))
             (RTU_begin 16 4 0%Z) in
  let a := adu_at 0 m in
  let run := loop_response_complete (fun _ => 0%Z) (fun _ _ => false) false (S 0) 0 m in
  let n1 := (Slaves.getNext (_slaves a)).1 in
  let n2 := (Slaves.getNext (Slaves.getNext (_slaves a)).2).1 in
  (Slaves.valid (_slaves a) = false ->
   exists view m',
     run = ([EvCallback 7 view (ADURTU_getSlaveId a)], Some (tt, m'))
     /\ _err view = MB_EX_LIB_CRC
     /\ adu_at 0 m' = ADURTU_clear a
     /\ _queue m' = _queue m)
  /\ (Slaves.valid (_slaves a) = true ->
      _modbusRTUMaster a = true ->
      ring (_queue m) ->
      ADUQueue._count (_queue m) + 1 < ADUQueue._queueSize (_queue m) ->
      n1 <> SLAVE_EOF ->
      exists v1 v2 m',
        run = ([EvCallback 7 v1 (ADURTU_getSlaveId a); EvCallback 7 v2 n1], Some (tt, m'))
        /\ _err v1 = MB_EX_LIB_CRC
        /\ _err v2 = MB_EX_LIB_CRC
        /\ (n2 <> SLAVE_EOF ->
            ADUQueue.live (_queue m') = ADUQueue.live (_queue m) ++ [Some 0; Some 0]
            /\ ADURTU_getSlaveId (adu_at 0 m') = n2
            /\ _used (RTU_get 0 m') = _used (adu_pdu a))
        /\ (n2 = SLAVE_EOF ->
            ADUQueue.live (_queue m') = ADUQueue.live (_queue m) ++ [Some 0]
            /\ _used (RTU_get 0 m') = false
            /\ _callback (RTU_get 0 m') = None
            /\ getTXADULen (adu_at 0 m') = 3)).
Proof.
  apply (crc_failure_is_reported_twice (fun _ => 0%Z) (fun _ _ => false) false 0 0
           (upd_adu 0 (taken_slaves (Some 7)
                         (Slaves.set 9 (Slaves.set 5 (Slaves.set 3 Slaves.new))))
              (RTU_begin 16 4 0%Z)) 7).
  - vm_compute. lia.
  - reflexivity.
  - reflexivity.
Defined.

(** The set {3, 5, 9} in an ADU that stands at 3, on a master with four
    ADUs: after the failed check the callback has been called twice, the
    ADU stands in the queue twice and is addressed to 9. *)
Example crc_failure_on_the_set_3_5_9 :
  let m := upd_adu 0 (taken_slaves (Some 7) (Slaves.set 9 (Slaves.set 5 (Slaves.set 3 Slaves.new))))
             (RTU_begin 16 4 0%Z) in
  let run := loop_response_complete (fun _ => 0%Z) (fun _ _ => false) false 1 0 m in
  map (fun e => match e with EvCallback f v s => (f, _err v, s) end) run.1
  = [(7, MB_EX_LIB_CRC, 0); (7, MB_EX_LIB_CRC, 5)]
  /\ option_map (fun r => ADUQueue.live (_queue r.2)) run.2 = Some [Some 0; Some 0]
  /\ option_map (fun r => ADURTU_getSlaveId (adu_at 0 r.2)) run.2 = Some 9.
Proof. vm_compute. repeat split. Qed.

(** ** The diagnostics request *)

(** X30: [PDU::createDiagnostics] accepts the sub-functions 0 to 4 and
    10 to 20, among them 19 (0x13), for which the library has no name, and
    refuses 5 to 9 and everything above 20 with
    [MB_EX_LIB_INVALID_SUB_FUNCTION] (19) before it looks at the size of the
    PDU.  An accepted request is [08, sub-function, value], both 16-bit
    high byte first, and is also the response to expect.  A refused one
    leaves the buffers alone; the callback is stored either way. *)
Theorem createDiagnostics_request (subFunction value : Z) (cb : modbusCallback) (p : PDU) :
  (0 <= subFunction < 65536)%Z ->
  (0 <= value < 65536)%Z ->
  5 <= length (_TXPDUbuffer p) ->
  5 <= length (_PDUresponseHead p) ->
  let made := createDiagnostics subFunction value cb p in
  let request := [8; 0; subFunction; value / 256; value mod 256]%Z in
  _callback made.2 = cb
  /\ ((0 <= subFunction <= 4)%Z \/ (10 <= subFunction <= 20)%Z ->
      5 <= _PDUSize p ->
      made.1 = MB_EX_SUCCESS
      /\ take 5 (_TXPDUbuffer made.2) = request
      /\ take 5 (_PDUresponseHead made.2) = request
      /\ _TXPDUbufferLen made.2 = 5
      /\ _expectedResponseLen made.2 = 5
      /\ _err made.2 = _err p)
  /\ ((0 <= subFunction <= 4)%Z \/ (10 <= subFunction <= 20)%Z ->
      _PDUSize p < 5 ->
      made = fail_with MB_EX_LIB_BUFFER_IS_TOO_SMALL (set_callback cb p))
  /\ ((4 < subFunction < 10)%Z \/ (20 < subFunction)%Z ->
      made = fail_with MB_EX_LIB_INVALID_SUB_FUNCTION (set_callback cb p)).
Proof.
  intros Hsub Hvalue Htx Hhd made request.
  destruct (u16_bytes value Hvalue) as (Hvh & Hvl & _).
  unfold made, createDiagnostics.
  unfold MB_FC_SUB_CLEAR_OVERRUN_CHARACTER_AND_FLAG, MB_FC_SUB_FORCE_LISTEN_ONLY_MODE,
    MB_FC_SUB_CLEAR_COUNTERS_AND_DIAGNOSTIC_REGISTER.
  cbn [_PDUSize set_callback].
  destruct (Z.ltb_spec 20 subFunction) as [Hbig | Hbig];
    destruct (Z.ltb_spec 4 subFunction) as [H4 | H4];
    destruct (Z.ltb_spec subFunction 10) as [H10 | H10];
    cbn [orb andb];
    try (split; [reflexivity |]; split; [intros; lia |]; split; [intros; lia |];
         intros _; reflexivity);
    try lia.
  all: destruct (Nat.ltb_spec (_PDUSize p) 5) as [Hsmall | Hsize].
  all: try (split; [reflexivity |]; split; [intros; lia |]; split; [intros; reflexivity |];
            intros; lia).
  all: split; [reflexivity |]; split; [| split; intros; lia].
  all: intros _ _.
  all: destruct (u16_bytes subFunction Hsub) as (Hsh & Hsl & _).
  all: rewrite Hsh, Hsl, Hvh, Hvl.
  all: rewrite (Z.div_small subFunction 256), (Z.mod_small subFunction 256) by lia.
  all: destruct p as [cb0 tx rx0 txl hd db dl er ex es us sz qt ds sl].
  all: cbn [_TXPDUbuffer _PDUresponseHead _PDUSize _err] in *.
  all: five_bytes tx Htx; five_bytes hd Hhd.
  all: repeat split.
Qed.

Lemma createDiagnostics_request_witness :
  let p := adu_pdu (ADURTU_init 16) in
  let made := createDiagnostics 0x13 0xA55A (Some 7) p in
  let request := [8; 0; 0x13; 0xA55A / 256; 0xA55A mod 256]%Z in
  _callback made.2 = Some 7
  /\ ((0 <= 0x13 <= 4)%Z \/ (10 <= 0x13 <= 20)%Z ->
      5 <= _PDUSize p ->
      made.1 = MB_EX_SUCCESS
      /\ take 5 (_TXPDUbuffer made.2) = request
      /\ take 5 (_PDUresponseHead made.2) = request
      /\ _TXPDUbufferLen made.2 = 5
      /\ _expectedResponseLen made.2 = 5
      /\ _err made.2 = _err p)
  /\ ((0 <= 0x13 <= 4)%Z \/ (10 <= 0x13 <= 20)%Z ->
      _PDUSize p < 5 ->
      made = fail_with MB_EX_LIB_BUFFER_IS_TOO_SMALL (set_callback (Some 7) p))
  /\ ((4 < 0x13 < 10)%Z \/ (20 < 0x13)%Z ->
      made = fail_with MB_EX_LIB_INVALID_SUB_FUNCTION (set_callback (Some 7) p)).
Proof.
  apply (createDiagnostics_request 0x13 0xA55A (Some 7) (adu_pdu (ADURTU_init 16))).
  - lia.
  - lia.
  - vm_compute. lia.
  - vm_compute. lia.
Defined.
